(* ===== verification/_CoqProject ===== *)
-Q . S2P
Prelude.v
Effects.v
Kernel.v
Transitions.v
PageTable.v
PageTableFacts.v
PageTableThms.v
TaskTree.v
LinkedQueue.v
TaskTreeFacts.v
TaskTreeSim.v
TaskTreeThms.v
CStrings.v
Format.v
Libc.v
PageInfo.v
PageInfoFacts.v
PageInfoThms.v
PageInfoText.v
CharDev.v
CharDevThms.v
EnumPids.v
TaskRss.v
TaskRssFromPid.v
RootDev.v
Kallsyms.v
ReadImpliesExec.v
CpuFreq.v
CpuInfo.v
DateTime.v
Init.v
FtraceHelper.v
InheritCapability.v
AliasPage.v
X86Rtm.v
Governor.v
HashTable.v
SyscallHijack.v
SyscallCalls.v
UndefInstr.v
RebootNotifier.v
Formats.v
Session.v
