(* ===== verification/Prelude.v ===== *)
(** * A verification development for linux-kernel-experiments

The repository is a collection of independent programs: small kernel modules
(src/modules/), user space tools (src/userspace/) and an init process
(src/myinit/). They share no code, so the development is a library of shared
semantics with one model per program.

** How a program is modelled

- Prelude.v: machine words ([wrap], [u64], [s32], the C operators on
  [unsigned long] in the scope [c_scope]), bit-level lemmas and tactics.
- Effects.v: a C function is a tree [prog E A] of the calls it makes to code
  outside the repository, with every possible answer. [always p Q]: all the
  executions of [p] satisfy [Q], which speaks about the trace of calls and the
  outcome; [run]: the execution under an environment that answers from the
  history; [exec]: the execution under a handler with a state, which may refuse
  a call. Loops that are not structural take a fuel ([loop]); running out of it
  is an outcome of its own ([OutOfFuel]), which the theorems exclude.
- Kernel.v: the calls of the modules ([kcall]), the log ([printed]), the
  resources that calls take and drop ([delta], [balanced]), the memory of a [cdev]
  ([cdev_memory]), which reads of a task are safe ([guarded]), and three small
  logics that follow a program: [prints] (what it logs, whatever the answers),
  [counted] (the references it holds) and [logs] (what it logs for given
  answers of the kernel).
- Libc.v, CStrings.v: the same for the C library ([ucall], [writes]), with
  [strtol] and [strtoul] as executable definitions and their round trips.
- Format.v: the text of a line: formats are parsed and filled with their arguments
  ([render], integers, strings, [double]s, widths, padding), [fits] decides whether
  that is defined (an argument carries its C type, so an [int] does not fit [%ld]),
  and numbers and words are read back from a line.
- Transitions.v: components that several tasks run at once: a step function driven by
  actors, its executions and reachable states, and how an invariant is carried along.

Code that is not in the repository (kernel helpers, the C library, hardware) is a
call with any answer, a class of functions ([X86], [ARM64], [HashTable]) with the
documented laws it is used with ([X86Laws], [lawful], [ARM64Laws], the laws of
[HashTable]), or a parameter. Each class has an instance with the laws proved, which
the witnesses use. Where a property is about what such code does with a state of its
own, that state is a small machine that follows the documentation, not the code of
the repository: the references and [cdev]s of Kernel.v, RCU in [guarded_from], the
allocator of TaskTree.v, [completion] in RebootNotifier.v, the callback loops
[apply_each] and [each_symbol], and the handlers [hd_...] of the programs. Those
definitions have no counterpart under src/.

** The parts

Kernel modules (src/modules/):

- page_table_walk.c: PageTable.v has one definition per function
  ([dump_pgd] ... [dump_pte], [walk_4l], [walk_5l], [walk], [walk_user] as
  [walk_user_task] and [walk_task], [walk_kernel], [page_table_walk_init]).
  PageTableFacts.v has the abstract specification, the address translation of
  the processor ([hw_walk]), and PageTableThms.v the properties C1, C3-C8: the log
  reports the physical address of the hardware, the flags logged decode to the
  entry, references are balanced but for the [struct pid], and what is logged as
  an address is one.
- task_bfs_dfs.c: TaskTree.v is the module, for both versions of a task's state, on
  a machine with word-granular memory and an allocator that may fail.
  LinkedQueue.v has the invariant of the work list, TaskTreeFacts.v the
  specification (trees and their two orders), TaskTreeSim.v the simulation,
  TaskTreeThms.v the properties C9, C10, C12: order, termination and memory
  safety, references and reads of tasks.
- test_chardev.c: CharDev.v, CharDevThms.v; C17, C19: what a read delivers, the
  resources of initialisation and cleanup, and the memory they leak.
- enum_pids.c (EnumPids.v, C20), task_rss.c (TaskRss.v, C21), task_rss_from_pid.c
  (TaskRssFromPid.v, C22), find_root_dev.c (RootDev.v, C23), kallsyms.c
  (Kallsyms.v, C24), read_implies_exec.c (ReadImpliesExec.v, C25), cpuinfo.c
  (CpuInfo.v): the log as a function of what the kernel answers, and the
  references.
- test_hashtable.c: HashTable.v, C27, proved against the interface of the kernel's
  hash table.
- arm64/syscall_hijack.c: SyscallHijack.v, C28-C29, on a machine with page
  protection and a TLB; SyscallCalls.v, C18, interleaves tasks that call [read] with
  loading and unloading: what a call answers, and where one crashes.
- arm64/undef_instr.c: UndefInstr.v, C37, on a machine with a list of hooks.
- reboot_notifier.c: RebootNotifier.v, C30-C31: an interleaving of callers, thread
  and module unloading, with its invariant.
- cpufreq.c: CpuFreq.v, C35: every online CPU once, and the loop ends.
- datetime.c: DateTime.v, C36, with a calendar that names each second once, and the
  date read back from the text of the line.

Programs (src/userspace/, src/myinit/):

- pageinfo.c: PageInfo.v is the program, PageInfoFacts.v the report it should
  print and the proc file system, PageInfoThms.v the properties C13, C15, C16: the
  report, the exit status, and the buffer overflow; PageInfoText.v, C14: the flags read
  back from the words on the terminal.
- init.c: Init.v, C26: the machine is always powered off.
- ftrace_helper.c: FtraceHelper.v, C32: a plan of writes to the files of tracefs,
  followed whatever fails.
- inherit_capability.c: InheritCapability.v, C33: the capabilities of each stage,
  on the credentials of a process.
- alias_existing_page.c: AliasPage.v, C34: a process with physical memory, where
  the second mapping is not of the page.
- x86_rtm_page_fault.c: X86Rtm.v, C38: copy-on-write, fork and transactions that
  roll back ([exec_tx] keeps how the run ends if the transaction aborts).
- test_scaling_governor.c: Governor.v, C39-C40: the order of all that a run does,
  and the statistics, in the binary64 and x87 arithmetic of [SpecFloat].

All of them together:

- Formats.v, C11: every line that a module logs or a program writes has a text, its
  format fits its arguments; [follow] walks through any of the programs.
- Session.v, C2: page_table_walk and pageinfo used together, on the text of the log,
  the command line and the output.

** Bounds and fuel

- The tree dump takes a fuel for its two loops; it is enough that it exceeds the
  number of tasks of the tree (C9, C10), however the allocator behaves.
- The trace dump (C32) needs more iterations than the trace has characters, the
  loop over CPUs (C35) more than there are CPU numbers, the tests of
  test_scaling_governor.c (C39) more than the runs asked for; with [UINT_MAX] runs no
  fuel is enough, which is a theorem too.
- Loops over kernel lists, over characters and over the bytes of a read follow
  the list, the string or the count, and need no fuel.
- Words are [Z] with the conversions of C written out; addresses of the models
  with memory are 64-bit words, a block of the allocator is two words.

** What is not modelled, and why

- The prefix of a module's lines ([pr_fmt]) and their time stamps: most theorems speak
  of a line as its format and its arguments, Format.v gives its text without them.
- Concurrency of the kernel, other than in RebootNotifier.v and SyscallCalls.v: the
  answers of the kernel may change from call to call ([always], and the [answer] of
  TaskTree.v), but a module's own steps are not interleaved with those of another one. The two
  processes of x86_rtm_page_fault.c share no state that the program can see.
- How a list of the kernel is protected while a module walks it: the elements visited
  are one answer. task_bfs_dfs.c finds children and threads, and takes a first reference
  to them, with neither RCU nor a lock; what can go wrong there is not in the model.
- [long double] other than that of x86.
- Module metadata (licences, authors, parameter descriptions), the CodeQL queries,
  the build files and the template of a module: there is nothing to run. *)

From stdpp Require Export base tactics numbers option list strings gmap.
From Stdlib Require Export ZArith Lia.
From Stdlib Require Export Btauto.

#[global] Set Default Goal Selector "!".

Declare Scope c_scope.
Delimit Scope c_scope with c.
#[global] Open Scope Z_scope.

(** ** Machine words

A C unsigned integer of width [w] is a [Z] in [0 .. 2^w - 1]; [wrap w] is the
conversion to that width. *)

Definition wrap (w z : Z) : Z := z `mod` 2 ^ w.

Definition u64 (z : Z) : Z := wrap 64 z.

Definition u32 (z : Z) : Z := wrap 32 z.

(** Conversion to a signed integer of width [w] (two's complement). *)
Definition swrap (w z : Z) : Z :=
  let r := z `mod` 2 ^ w in if r <? 2 ^ (w - 1) then r else r - 2 ^ w.

Definition s32 (z : Z) : Z := swrap 32 z.

Definition s64 (z : Z) : Z := swrap 64 z.

(** [~x], [x << n] on [unsigned long]. *)
Definition not64 (x : Z) : Z := u64 (Z.lnot x).

Definition shl64 (x n : Z) : Z := u64 (Z.shiftl x n).

(** [if (v & m)]: a C integer used as a condition. *)
Definition truthy (z : Z) : bool := negb (z =? 0).

Definition has (v m : Z) : bool := truthy (Z.land v m).

Definition in_u64 (z : Z) : Prop := 0 <= z < 2 ^ 64.

Infix "&" := Z.land (at level 47, left associativity) : c_scope.
Infix "|`" := Z.lor (at level 48, left associativity) : c_scope.
Infix "<<" := shl64 (at level 45, left associativity) : c_scope.
Infix ">>" := Z.shiftr (at level 45, left associativity) : c_scope.
Notation "~` x" := (not64 x) (at level 35, right associativity) : c_scope.

(** The double quote and control characters of C string literals. *)
Definition dq : string := String (Ascii.ascii_of_nat 34) EmptyString.

Definition nl : string := String (Ascii.ascii_of_nat 10) EmptyString.

Definition tab : string := String (Ascii.ascii_of_nat 9) EmptyString.

Definition cr : string := String (Ascii.ascii_of_nat 13) EmptyString.

(** ** Bitwise reasoning *)

Create HintDb cbits.

Lemma testbit_u64 z i : Z.testbit (u64 z) i = ((i <? 64) && Z.testbit z i)%bool.
Proof.
  unfold u64, wrap. destruct (Z.ltb_spec i 64) as [Hi|Hi]; simpl.
  - destruct (Z.lt_ge_cases i 0).
    + by rewrite !Z.testbit_neg_r by lia.
    + by rewrite Z.mod_pow2_bits_low by lia.
  - by rewrite Z.mod_pow2_bits_high by lia.
Qed.

Lemma testbit_not64 z i :
  0 <= i -> Z.testbit (not64 z) i = ((i <? 64) && negb (Z.testbit z i))%bool.
Proof. intros. unfold not64. by rewrite testbit_u64, Z.lnot_spec. Qed.

Lemma testbit_shl64 z n i :
  0 <= i -> Z.testbit (shl64 z n) i = ((i <? 64) && Z.testbit z (i - n))%bool.
Proof. intros. unfold shl64. by rewrite testbit_u64, Z.shiftl_spec. Qed.

Lemma testbit_ones k i :
  0 <= k -> 0 <= i -> Z.testbit (Z.ones k) i = (i <? k)%Z.
Proof.
  intros. destruct (Z.ltb_spec i k).
  - by apply Z.ones_spec_low.
  - apply Z.ones_spec_high. lia.
Qed.

Lemma testbit_pow2 n i : 0 <= n -> 0 <= i -> Z.testbit (2 ^ n) i = (i =? n)%Z.
Proof. intros. rewrite Z.pow2_bits_eqb by lia. apply Z.eqb_sym. Qed.

Lemma in_u64_testbit z i : in_u64 z -> 64 <= i -> Z.testbit z i = false.
Proof.
  intros [? ?] ?. rewrite <- (Z.mod_small z (2 ^ 64)) by lia.
  apply Z.mod_pow2_bits_high. lia.
Qed.

Lemma u64_id z : in_u64 z -> u64 z = z.
Proof. intros. unfold u64, wrap. apply Z.mod_small. done. Qed.

Lemma u64_in z : in_u64 (u64 z).
Proof. unfold u64, wrap, in_u64. apply Z.mod_pos_bound. lia. Qed.

#[export] Hint Resolve u64_in : cbits.

Lemma swrap_id w z : 0 < w -> - 2 ^ (w - 1) <= z < 2 ^ (w - 1) -> swrap w z = z.
Proof.
  intros Hw Hz. unfold swrap.
  assert (2 ^ w = 2 * 2 ^ (w - 1)) as Hp by (rewrite <- Z.pow_succ_r by lia; f_equal; lia).
  destruct (Z.lt_ge_cases z 0).
  - replace (z mod 2 ^ w) with (z + 2 ^ w).
    + rewrite (proj2 (Z.ltb_ge _ _)) by lia. lia.
    + apply Z.mod_unique with (-1); lia.
  - rewrite Z.mod_small by lia. by rewrite (proj2 (Z.ltb_lt _ _)) by lia.
Qed.

Lemma s64_id z : - 2 ^ 63 <= z < 2 ^ 63 -> s64 z = z.
Proof. intros. by apply swrap_id. Qed.

Lemma s32_id z : - 2 ^ 31 <= z < 2 ^ 31 -> s32 z = z.
Proof. intros. by apply swrap_id. Qed.

Lemma land_u64_l a b : in_u64 a -> 0 <= b -> in_u64 (Z.land a b).
Proof.
  intros [? ?] ?. split; [apply Z.land_nonneg; by left|].
  eapply Z.le_lt_trans; [|done].
  rewrite <- (Z.land_diag a) at 2.
  apply Z.ldiff_le; [apply Z.land_nonneg; by left|].
  apply Z.bits_inj'; intros i Hi.
  rewrite Z.ldiff_spec, !Z.land_spec, Z.bits_0. btauto.
Qed.

Lemma land_mod a k : 0 <= k -> Z.land a (Z.ones k) = a `mod` 2 ^ k.
Proof. intros. by apply Z.land_ones. Qed.

(** Bits below [k] of a multiple of [2^k] are clear. *)
Lemma lor_disjoint_add a b : Z.land a b = 0 -> Z.lor a b = a + b.
Proof.
  intros H. pose proof (Z.add_lor_land a b). lia.
Qed.

(** A single bit test through a mask. *)
Lemma has_pow2 v n : 0 <= n -> has v (2 ^ n) = Z.testbit v n.
Proof.
  intros Hn. unfold has, truthy.
  destruct (Z.testbit v n) eqn:E.
  - destruct (Z.eqb_spec (Z.land v (2 ^ n)) 0) as [H|]; [|done].
    apply (f_equal (fun z => Z.testbit z n)) in H.
    rewrite Z.land_spec, E, testbit_pow2, Z.eqb_refl, Z.bits_0 in H by lia. done.
  - replace (Z.land v (2 ^ n)) with 0; [done|].
    symmetry. apply Z.bits_inj'. intros i Hi.
    rewrite Z.land_spec, testbit_pow2, Z.bits_0 by lia.
    destruct (Z.eqb_spec i n) as [->|]; [by rewrite E|btauto].
Qed.

Lemma has_lor v a b : has v (Z.lor a b) = (has v a || has v b)%bool.
Proof.
  unfold has, truthy. rewrite Z.land_lor_distr_r.
  destruct (Z.eqb_spec (Z.land v a) 0) as [->|Ha]; simpl; [done|].
  destruct (Z.eqb_spec (Z.lor (Z.land v a) (Z.land v b)) 0) as [Hl|]; [|done].
  apply Z.lor_eq_0_iff in Hl as [? _]. done.
Qed.

(** The union of the single-bit masks at the positions [bs]. *)
Definition union_bits (bs : list Z) : Z := foldr (fun b acc => Z.lor (2 ^ b) acc) 0 bs.

(** Decoding a word flag by flag and joining the masks of the flags that are
    set gives back the bits of the word under the joint mask. *)
Lemma pick_bits v bs :
  Forall (fun b => 0 <= b) bs ->
  foldr (fun b acc => Z.lor (if has v (2 ^ b) then 2 ^ b else 0) acc) 0 bs =
  Z.land v (union_bits bs).
Proof.
  induction 1 as [|b bs Hb _ IH]; simpl; [by rewrite Z.land_0_r|].
  rewrite IH, Z.land_lor_distr_r, has_pow2 by done. f_equal.
  apply Z.bits_inj'. intros i Hi. rewrite Z.land_spec, testbit_pow2 by lia.
  destruct (Z.testbit v b) eqn:E; [rewrite testbit_pow2 by lia|rewrite Z.bits_0];
    destruct (Z.eqb_spec i b) as [->|]; rewrite ?E; btauto.
Qed.

(** [bits]: equality of two bit expressions, bit by bit. *)
Ltac bits_rw :=
  rewrite ?Z.land_spec, ?Z.lor_spec, ?Z.lxor_spec, ?Z.ldiff_spec, ?Z.bits_0,
    ?testbit_u64;
  rewrite ?testbit_not64 by lia;
  rewrite ?testbit_shl64 by lia;
  rewrite ?Z.shiftr_spec by lia;
  rewrite ?Z.lnot_spec by lia.

Ltac bits :=
  apply Z.bits_inj'; let i := fresh "i" in let Hi := fresh "Hi" in
  intros i Hi; repeat (progress bits_rw); try btauto.

(** Destructs the scrutinee of the next [if]/[match] and solves what the
    equations make trivial. *)
Ltac split_ifs := repeat (case_match; simplify_eq/=; try done).
