(* ===== verification/Effects.v ===== *)
(** The effect model shared by all components.

A C function that calls code outside the repository is a [prog E A]: a finite
tree of calls of the signature [E], each with one continuation per answer.
What the kernel or the C library answers is not fixed by the program, so a
property of the program is a property of every execution of the tree:

- [always p Q]: whatever the calls answer, the trace of calls made and the
  outcome satisfy [Q];
- [run rho h p]: the execution under the environment [rho], which may answer
  each call as a function of everything that happened before;
- [exec hd s p]: the execution under a handler with a state of its own, which
  may also refuse a call (an access to memory that is not there).

[always_run] and [always_behaves] relate the three. *)
From Stdlib Require Export Floats.SpecFloat.
From S2P Require Import Prelude.

#[export] Instance spec_float_eq_dec : EqDecision spec_float.
Proof. solve_decision. Defined.

(** One argument of a [printf] or [printk] format string, with its C type as the
    caller passes it: the conversions of a format must agree with it. *)
Inductive arg :=
| AZ (z : Z)          (** [int], [unsigned int] and what is promoted to them: 32 bits *)
| AL (z : Z)          (** [long], [unsigned long]: 64 bits *)
| AP (p : Z)          (** a pointer *)
| AS (s : string)
| AF (f : spec_float).

#[export] Instance arg_eq_dec : EqDecision arg.
Proof. solve_decision. Defined.

(** ** Signatures, programs, outcomes *)

Record sig := Sig { call : Type; ans : call -> Type }.

(** How a computation stops without returning to its caller. *)
Inductive fault :=
| NullDeref        (** a NULL pointer is dereferenced *)
| BadAccess        (** memory that is not allocated, or not initialised *)
| DivByZero
| BufferOverflow
| OutOfFuel.       (** the model's loop bound, never a behaviour of the code *)

Inductive halt :=
| Exited (status : Z)     (** [exit(status)]: stdio buffers are flushed *)
| ExitedNow (status : Z)  (** [_exit(status)]: they are not *)
| Replaced                (** a successful [execve] *)
| PoweredOff              (** a successful [reboot] *)
| Faulted (f : fault).

#[export] Instance fault_eq_dec : EqDecision fault.
Proof. solve_decision. Defined.

#[export] Instance halt_eq_dec : EqDecision halt.
Proof. solve_decision. Defined.

Inductive prog (E : sig) (A : Type) : Type :=
| Ret (a : A)
| Halt (x : halt)
| Call (c : call E) (k : ans E c -> prog E A).

Arguments Ret {E A} a.
Arguments Halt {E A} x.
Arguments Call {E A} c k.

Inductive outcome (A : Type) :=
| Done (a : A)
| Halted (x : halt).

Arguments Done {A} a.
Arguments Halted {A} x.

#[export] Instance outcome_eq_dec {A} `{EqDecision A} : EqDecision (outcome A).
Proof. solve_decision. Defined.

(** A call that was made, with its answer. *)
Record obs (E : sig) := Obs { obs_call : call E; obs_ans : ans E obs_call }.

Arguments Obs {E} obs_call obs_ans.
Arguments obs_call {E} o.
Arguments obs_ans {E} o.

Abbreviation trace E := (list (obs E)).

#[export] Instance prog_ret E : MRet (prog E) := @Ret E.

#[export] Instance prog_bind E : MBind (prog E) :=
  fix bind A B (f : A -> prog E B) (p : prog E A) : prog E B :=
    match p with
    | Ret a => f a
    | Halt x => Halt x
    | Call c k => Call c (fun r => bind A B f (k r))
    end.

(** Making one call. *)
Definition do {E} (c : call E) : prog E (ans E c) := Call c Ret.

Definition skip {E} : prog E unit := Ret tt.

(** [if (b) p] *)
Definition when {E} (b : bool) (p : prog E unit) : prog E unit :=
  if b then p else skip.

(** [for (x : l) body(x)] *)
Fixpoint for_each {E A} (l : list A) (body : A -> prog E unit) : prog E unit :=
  match l with
  | [] => skip
  | x :: l' => body x ;; for_each l' body
  end.

(** [while ((s = step(s)) ...)]: [step] returns the next loop state, or the
    loop's result. *)
Fixpoint loop {E S A} (fuel : nat) (step : S -> prog E (S + A)) (s : S) : prog E A :=
  match fuel with
  | O => Halt (Faulted OutOfFuel)
  | Datatypes.S fuel' =>
      r ← step s ;
      match r with
      | inl s' => loop fuel' step s'
      | inr a => Ret a
      end
  end.

(** ** Semantics *)

(** Every execution satisfies [Q]. *)
Fixpoint always {E A} (p : prog E A) (Q : trace E -> outcome A -> Prop) : Prop :=
  match p with
  | Ret a => Q [] (Done a)
  | Halt x => Q [] (Halted x)
  | Call c k => forall r, always (k r) (fun t o => Q (Obs c r :: t) o)
  end.

(** The executions as a relation. *)
Inductive behaves {E A} : prog E A -> trace E -> outcome A -> Prop :=
| behaves_ret a : behaves (Ret a) [] (Done a)
| behaves_halt x : behaves (Halt x) [] (Halted x)
| behaves_call c k r t o :
    behaves (k r) t o -> behaves (Call c k) (Obs c r :: t) o.

(** A handler answers a call in its state, or refuses it. *)
Definition handler (E : sig) (S : Type) : Type :=
  S -> forall c : call E, option (ans E c * S).

Fixpoint exec {E S A} (hd : handler E S) (s : S) (p : prog E A) : S * outcome A :=
  match p with
  | Ret a => (s, Done a)
  | Halt x => (s, Halted x)
  | Call c k =>
      match hd s c with
      | Some (r, s') => exec hd s' (k r)
      | None => (s, Halted (Faulted BadAccess))
      end
  end.

(** An environment answers from the history of the execution. *)
Definition env (E : sig) : Type := trace E -> forall c : call E, ans E c.

Definition env_handler {E} (rho : env E) : handler E (trace E) :=
  fun h c => Some (rho h c, h ++ [Obs c (rho h c)]).

Definition run {E A} (rho : env E) (p : prog E A) : trace E * outcome A :=
  exec (env_handler rho) [] p.

(** ** Laws *)

Section laws.
Context {E : sig}.

Lemma always_mono {A} (p : prog E A) (Q R : trace E -> outcome A -> Prop) :
  (forall t o, Q t o -> R t o) -> always p Q -> always p R.
Proof.
  revert Q R. induction p as [a|x|c k IH]; simpl; intros Q R HQR H; auto.
  intros r. eapply IH; [|exact (H r)]. simpl. auto.
Qed.

Lemma always_imp {A} (P : Prop) (p : prog E A) Q :
  (P -> always p Q) -> always p (fun t o => P -> Q t o).
Proof.
  revert Q. induction p as [a|x|c k IH]; simpl; intros Q HQ; auto.
Qed.

Lemma always_true {A} (p : prog E A) (Q : trace E -> outcome A -> Prop) :
  (forall t o, Q t o) -> always p Q.
Proof. revert Q. induction p; simpl; auto. Qed.

Lemma always_bind {A B} (f : A -> prog E B) (p : prog E A) Q :
  always (p ≫= f) Q <->
  always p (fun t o => match o with
                       | Done a => always (f a) (fun t' o' => Q (t ++ t') o')
                       | Halted x => Q t (Halted x)
                       end).
Proof.
  revert Q. induction p as [a|x|c k IH]; intros Q; [done..|].
  simpl. split; intros H r; specialize (H r); by apply IH in H || apply IH.
Qed.

Lemma always_assoc {A B C} (p : prog E A) (f : A -> prog E B) (g : B -> prog E C) Q :
  always ((p ≫= f) ≫= g) Q <-> always (p ≫= (fun x => f x ≫= g)) Q.
Proof.
  revert Q. induction p as [a|x|c k IH]; intros Q; [done..|].
  simpl. split; intros H r; specialize (H r); by apply IH.
Qed.

Lemma always_behaves {A} (p : prog E A) Q :
  always p Q <-> (forall t o, behaves p t o -> Q t o).
Proof.
  split.
  - intros H t o Hb. revert Q H.
    induction Hb as [| |c k r t o _ IH]; intros Q H; try exact H.
    apply (IH (fun t o => Q (Obs c r :: t) o)), H.
  - revert Q. induction p as [a|x|c k IH]; simpl; intros Q H.
    + apply H. constructor.
    + apply H. constructor.
    + intros r. apply IH. intros t o Hb. apply H. by constructor.
Qed.

Lemma exec_bind {A B S} (hd : handler E S) (f : A -> prog E B) (p : prog E A) s :
  exec hd s (p ≫= f) =
  match exec hd s p with
  | (s', Done a) => exec hd s' (f a)
  | (s', Halted x) => (s', Halted x)
  end.
Proof.
  revert s. induction p as [a|x|c k IH]; intros s; [done..|].
  simpl. destruct (hd s c) as [[r s']|]; [apply IH|done].
Qed.

Lemma run_behaves_gen {A} (rho : env E) (p : prog E A) h :
  exists t, exec (env_handler rho) h p = (h ++ t, (exec (env_handler rho) h p).2)
            /\ behaves p t (exec (env_handler rho) h p).2.
Proof.
  revert h. induction p as [a|x|c k IH]; intros h; simpl.
  - exists []. rewrite app_nil_r. split; [done|constructor].
  - exists []. rewrite app_nil_r. split; [done|constructor].
  - destruct (IH (rho h c) (h ++ [Obs c (rho h c)])) as (t & Ht & Hb).
    exists (Obs c (rho h c) :: t). split; [|by constructor].
    rewrite Ht at 1. by rewrite <- app_assoc.
Qed.

Lemma run_behaves {A} (rho : env E) (p : prog E A) :
  behaves p (run rho p).1 (run rho p).2.
Proof.
  unfold run. destruct (run_behaves_gen rho p []) as (t & Ht & Hb).
  rewrite Ht. exact Hb.
Qed.

(** [always] speaks about every environment. *)
Lemma always_run {A} (p : prog E A) Q :
  always p Q -> forall rho : env E, Q (run rho p).1 (run rho p).2.
Proof. intros H rho. by apply (proj1 (always_behaves p Q) H), run_behaves. Qed.

Lemma always_ret {A} (a : A) (Q : trace E -> outcome A -> Prop) :
  Q [] (Done a) -> always (mret a) Q.
Proof. done. Qed.

Lemma always_for_each {A} (l : list A) (body : A -> prog E unit)
    (Q : trace E -> Prop) :
  Q [] ->
  (forall t t', Q t -> Q t' -> Q (t ++ t')) ->
  (forall x, x ∈ l -> always (body x) (fun t o => o = Done tt /\ Q t)) ->
  always (for_each l body) (fun t o => o = Done tt /\ Q t).
Proof.
  intros Hnil Happ. induction l as [|x l IH]; simpl; intros H; [done|].
  apply always_bind. eapply always_mono; [|apply H; set_solver].
  intros t o [-> Ht]. eapply always_mono; [|apply IH; set_solver].
  simpl. intros t' o' [-> Ht']. auto.
Qed.

(** [only P p]: every call [p] can make satisfies [P]. *)
Definition only {A} (P : obs E -> Prop) (p : prog E A) : Prop :=
  always p (fun t _ => Forall P t).

Lemma only_ret {A} P (a : A) : only P (mret a).
Proof. constructor. Qed.

Lemma only_do P c : (forall r, P (Obs c r)) -> only P (do c).
Proof. intros Hc r. by repeat constructor. Qed.

Lemma only_bind {A B} P (p : prog E A) (f : A -> prog E B) :
  only P p -> (forall a, only P (f a)) -> only P (p ≫= f).
Proof.
  intros Hp Hf. apply always_bind. eapply always_mono; [|exact Hp].
  intros t [a|x] Ht; [|done]. eapply always_mono; [|exact (Hf a)].
  intros t' o' Ht'. by apply Forall_app.
Qed.

Lemma only_for_each {A} P (l : list A) (body : A -> prog E unit) :
  (forall x, only P (body x)) -> only P (for_each l body).
Proof.
  intros H. induction l as [|x l IH]; [constructor|]. apply only_bind; [apply H|done].
Qed.

Lemma only_loop {S A} P fuel (step : S -> prog E (S + A)) s :
  (forall s, only P (step s)) -> only P (loop fuel step s).
Proof.
  intros H. revert s. induction fuel as [|fuel IH]; intros s; [constructor|].
  apply only_bind; [apply H|]. intros [s'|a]; [apply IH|constructor].
Qed.

End laws.

(** Solves [only P p] by following the structure of [p], with [side] for each
    call. *)
Ltac only_tac side :=
  repeat first
    [ apply only_ret
    | apply only_do; solve [side]
    | apply only_for_each; intros ?
    | apply only_loop; intros ?
    | apply only_bind; [|intros ?]
    | solve [auto]
    | progress case_match ].

(** Symbolic execution of a computation under [always]: introduces the answer
    of each call, and follows the branches taken. *)
Ltac always_step :=
  cbn [always];
  lazymatch goal with
  | |- forall r, always _ _ => let r := fresh "r" in intros r
  | |- always (match ?x with _ => _ end) _ => let Hx := fresh "Hx" in destruct x eqn:Hx
  | |- always (if ?x then _ else _) _ => let Hx := fresh "Hx" in destruct x eqn:Hx
  end.

(** Same, for [exec] of a sequence. *)
Ltac exec_step := rewrite ?exec_bind; cbn [exec mret prog_ret].

(** ** Counting resources in a trace

[delta r o]: by how much the call [o] changes the number of references to [r]
the program holds. *)

Section counting.
Context {E : sig} {R : Type} (delta : R -> obs E -> Z).

(** References to [r] held after the trace, starting from none. *)
Fixpoint held (r : R) (t : trace E) : Z :=
  match t with
  | [] => 0
  | o :: t' => delta r o + held r t'
  end.

(** [counts r n t m]: starting from [n] references to [r] the trace ends with
    [m], and no prefix of it drops a reference it does not have. *)
Fixpoint counts (r : R) (n : Z) (t : trace E) (m : Z) : Prop :=
  match t with
  | [] => n = m
  | o :: t' => 0 <= n + delta r o /\ counts r (n + delta r o) t' m
  end.

Lemma held_app r t t' : held r (t ++ t') = held r t + held r t'.
Proof. induction t as [|o t IH]; simpl; lia. Qed.

Lemma counts_app r n t t' m k :
  counts r n t m -> counts r m t' k -> counts r n (t ++ t') k.
Proof.
  revert n. induction t as [|o t IH]; simpl; [by intros ? ->|].
  intros n [? ?] ?. split; [done|]. by apply IH.
Qed.

Lemma held_zero r t : Forall (fun o => delta r o = 0) t -> held r t = 0.
Proof. induction 1; simpl; lia. Qed.

Lemma counts_held r n t m : counts r n t m -> m = n + held r t.
Proof.
  revert n. induction t as [|o t IH]; simpl; [lia|].
  intros n [_ H]. apply IH in H. lia.
Qed.

(** A trace that is balanced on its own stays so with more references held. *)
Lemma counts_frame r n t m k : 0 <= k -> counts r n t m -> counts r (n + k) t (m + k).
Proof.
  intros Hk. revert n. induction t as [|o t IH]; simpl; [lia|].
  intros n [? H]. split; [lia|].
  replace (n + k + delta r o) with (n + delta r o + k) by lia. by apply IH.
Qed.

End counting.
