(* ===== verification/Kernel.v ===== *)
(** The kernel interface of the modules under src/modules/.

[kcall] lists the kernel functions, macros and fields of kernel objects that
the modules use, one constructor each, with the type of the answer in [kans].
None of this code is in the repository: the answers are left to the
environment, and a theorem about a module holds whatever they are, unless it
names the documented behaviour it relies on.

Pointers are addresses ([Z], NULL is 0), a C [int] or [long] is its value. A
list that the kernel's iteration macros walk (the children of a task, its
threads, all processes) is the list of the elements visited. *)
From S2P Require Import Prelude Effects.

Inductive loglevel := KERN_INFO | KERN_ERR | KERN_WARNING | KERN_DEBUG | KERN_CONT.

#[export] Instance loglevel_eq_dec : EqDecision loglevel.
Proof. solve_decision. Defined.

(** [enum pid_type] *)
Inductive pid_type := PIDTYPE_PID | PIDTYPE_TGID | PIDTYPE_PGID | PIDTYPE_SID.

#[export] Instance pid_type_eq_dec : EqDecision pid_type.
Proof. solve_decision. Defined.

Inductive kcall :=
(* printk() through pr_info(), pr_err(), pr_warn(), pr_debug(), pr_cont() *)
| Printk (l : loglevel) (fmt : string) (args : list arg)
(* memory the module reads or writes, one 64-bit word at a time *)
| Load (p : Z)
| Store (p v : Z)
| Kmalloc (size : Z)
| Kfree (p : Z)
(* struct pid and struct task_struct *)
| FindGetPid (nr : Z)
| PutPid (p : Z)
| GetPidTask (p : Z) (ty : pid_type)
| GetCurrent
| GetTaskStruct (t : Z)
| PutTaskStruct (t : Z)
| GetTaskComm (t : Z)
| TaskPid (t : Z)
| TaskState (t : Z)
| TaskRealParent (t : Z)
| TaskChildren (t : Z)
| TaskThreads (t : Z)
| TaskLock (t : Z)
| TaskUnlock (t : Z)
| RcuReadLock
| RcuReadUnlock
(* struct mm_struct *)
| TaskMm (t : Z)
| TaskActiveMm (t : Z)
| Mmget (m : Z)
| Mmput (m : Z)
(* x86 registers *)
| RdmsrlSafe (msr : Z)
| ReadCr0
| ReadCr3
| ReadCr4
(* page table pointers *)
| PgdOffset (mm va : Z)
| PgdOffsetPgd (p va : Z)
| P4dOffset (p va : Z)
| PudOffset (p va : Z)
| PmdOffset (p va : Z)
| PteOffsetKernel (p va : Z)
(* tasks of a struct pid, and the number of a task's pid of some type *)
| PidTasks (p : Z) (ty : pid_type)
| TaskPidNr (t : Z) (ty : pid_type)
(* for_each_process(), and resident set sizes *)
| Processes
| GetTaskMm (t : Z)
| GetMmRss (m : Z)
(* paths and block devices *)
| KernPath (path : string)            (** the error, and the path found *)
| VfsGetattr (p : Z)                  (** the error, and the device of the file *)
| PathPut (p : Z)
| Bdget (dev : Z)
| Bdevname (b : Z)
| Bdput (b : Z)
(* kernel symbols and kprobes *)
| RegisterKprobe (symbol : string)    (** the error, and the address probed *)
| UnregisterKprobe (symbol : string)
| OnEachSymbol                        (** the symbols the callback is called for *)
| KallsymsLookupName (name : string)
(* character devices *)
| AllocChrdevRegion (baseminor count : Z) (name : string)  (** the error, and the first number *)
| UnregisterChrdevRegion (dev count : Z)
| ClassCreate (name : string)
| SetClassDevnode (c : Z)
| ClassDestroy (c : Z)
| CdevAlloc
| CdevInit (c : Z)
| SetCdevOwner (c : Z)
| CdevAdd (c dev count : Z)
| CdevDel (c : Z)
| DeviceCreate (c dev : Z) (name : string)
| DeviceDestroy (c dev : Z)
| PutUser (v p : Z)
(* page attributes and system calls on arm64 *)
| VmUnmapAliases
| ApplyToPageRange (mm start size : Z)  (** the entries visited, and the error *)
| SetPte (p v : Z)
| FlushTlbKernelRange (start end_ : Z)
| CallSyscall (fn regs : Z)
(* CPUs and the clock *)
| CpumaskFirst                       (** of [cpu_online_mask] *)
| CpumaskNext (n : Z)                (** of [cpu_online_mask] *)
| NrCpuIds
| CpufreqGet (cpu : Z)
| GetCpu
| PutCpu
| CpuCoreId (cpu : Z)                (** [cpu_data(cpu).cpu_core_id] *)
| SysTzMinuteswest
| SysTzDsttime
| KtimeGetRealSeconds
| Time64ToTm (totalsecs offset : Z)
(* undefined instructions on arm64; the first argument is the function called *)
| CallRegisterHook (fn : Z)
| CallUnregisterHook (fn : Z)
| UndefInstr (instr : Z).

(** A kernel symbol: its name, address and module ([None] for the kernel). *)
Record ksym := Ksym { ksym_name : string; ksym_addr : Z; ksym_module : option string }.

(** The broken-down time: <linux/time.h>, the fields the modules read. *)
Record tm := Tm {
  tm_sec : Z;
  tm_min : Z;
  tm_hour : Z;
  tm_mday : Z;
  tm_mon : Z;
  tm_year : Z;
}.

Definition kans (c : kcall) : Type :=
  match c with
  | Load _ | Kmalloc _ | FindGetPid _ | GetPidTask _ _ | GetCurrent => Z
  | TaskPid _ | TaskState _ | TaskRealParent _ | TaskMm _ | TaskActiveMm _ => Z
  | ReadCr0 | ReadCr3 | ReadCr4 => Z
  | PgdOffset _ _ | PgdOffsetPgd _ _ | P4dOffset _ _ | PudOffset _ _ => Z
  | PmdOffset _ _ | PteOffsetKernel _ _ => Z
  | RdmsrlSafe _ => Z * Z
  | GetTaskComm _ => string
  | TaskChildren _ | TaskThreads _ => list Z
  | Printk _ _ _ | Store _ _ | Kfree _ | PutPid _ => unit
  | GetTaskStruct _ | PutTaskStruct _ | TaskLock _ | TaskUnlock _ => unit
  | RcuReadLock | RcuReadUnlock | Mmget _ | Mmput _ => unit
  | PidTasks _ _ | Processes => list Z
  | TaskPidNr _ _ | GetTaskMm _ | GetMmRss _ | Bdget _ | KallsymsLookupName _ => Z
  | KernPath _ | VfsGetattr _ | RegisterKprobe _ | AllocChrdevRegion _ _ _ => Z * Z
  | Bdevname _ => option string
  | OnEachSymbol => list ksym
  | PathPut _ | Bdput _ | UnregisterKprobe _ | UnregisterChrdevRegion _ _ => unit
  | SetClassDevnode _ | ClassDestroy _ | CdevInit _ | SetCdevOwner _ => unit
  | CdevDel _ | DeviceDestroy _ _ => unit
  | VmUnmapAliases | SetPte _ _ | FlushTlbKernelRange _ _ => unit
  | ApplyToPageRange _ _ _ => list Z * Z
  | CallSyscall _ _ => Z
  | CpumaskFirst | CpumaskNext _ | NrCpuIds | CpufreqGet _ | GetCpu | CpuCoreId _ => Z
  | PutCpu => unit
  | SysTzMinuteswest | SysTzDsttime | KtimeGetRealSeconds => Z
  | Time64ToTm _ _ => tm
  | CallRegisterHook _ | CallUnregisterHook _ | UndefInstr _ => unit
  | ClassCreate _ | CdevAlloc | CdevAdd _ _ _ | DeviceCreate _ _ _ | PutUser _ _ => Z
  end.

(** Some answer to every call. *)
Definition kdefault (c : kcall) : kans c :=
  match c return kans c with
  | Load _ | Kmalloc _ | FindGetPid _ | GetPidTask _ _ | GetCurrent => 1
  | TaskPid _ | TaskState _ | TaskRealParent _ | TaskMm _ | TaskActiveMm _ => 1
  | ReadCr0 | ReadCr3 | ReadCr4 => 0
  | PgdOffset _ _ | PgdOffsetPgd _ _ | P4dOffset _ _ | PudOffset _ _ => 0
  | PmdOffset _ _ | PteOffsetKernel _ _ => 0
  | RdmsrlSafe _ => (0, 0)
  | GetTaskComm _ => "init"%string
  | TaskChildren _ | TaskThreads _ | PidTasks _ _ | Processes => []
  | Printk _ _ _ | Store _ _ | Kfree _ | PutPid _ => tt
  | GetTaskStruct _ | PutTaskStruct _ | TaskLock _ | TaskUnlock _ => tt
  | RcuReadLock | RcuReadUnlock | Mmget _ | Mmput _ => tt
  | TaskPidNr _ _ | GetTaskMm _ | GetMmRss _ | Bdget _ | KallsymsLookupName _ => 1
  | KernPath _ | VfsGetattr _ | RegisterKprobe _ | AllocChrdevRegion _ _ _ => (0, 1)
  | Bdevname _ => Some "sda1"%string
  | OnEachSymbol => []
  | PathPut _ | Bdput _ | UnregisterKprobe _ | UnregisterChrdevRegion _ _ => tt
  | SetClassDevnode _ | ClassDestroy _ | CdevInit _ | SetCdevOwner _ => tt
  | CdevDel _ | DeviceDestroy _ _ => tt
  | VmUnmapAliases | SetPte _ _ | FlushTlbKernelRange _ _ => tt
  | ApplyToPageRange _ _ _ => ([], 0)
  | CallSyscall _ _ => 0
  | CpumaskFirst | CpumaskNext _ | NrCpuIds | CpufreqGet _ | GetCpu | CpuCoreId _ => 0
  | PutCpu => tt
  | SysTzMinuteswest | SysTzDsttime | KtimeGetRealSeconds => 0
  | Time64ToTm _ _ => Tm 0 0 0 1 0 70
  | CallRegisterHook _ | CallUnregisterHook _ | UndefInstr _ => tt
  | ClassCreate _ | CdevAlloc | DeviceCreate _ _ _ => 1
  | CdevAdd _ _ _ | PutUser _ _ => 0
  end.

Definition kernelE : sig := Sig kcall kans.

Abbreviation kprog := (prog kernelE).

(** [do_ c]: the call [c] of the kernel. *)
Definition kdo (c : kcall) : kprog (kans c) := do (E := kernelE) c.

Definition pr_info (fmt : string) (args : list arg) : kprog unit :=
  kdo (Printk KERN_INFO fmt args).

Definition pr_err (fmt : string) (args : list arg) : kprog unit :=
  kdo (Printk KERN_ERR fmt args).

Definition pr_warn (fmt : string) (args : list arg) : kprog unit :=
  kdo (Printk KERN_WARNING fmt args).

Definition pr_debug (fmt : string) (args : list arg) : kprog unit :=
  kdo (Printk KERN_DEBUG fmt args).

Definition pr_cont (fmt : string) (args : list arg) : kprog unit :=
  kdo (Printk KERN_CONT fmt args).

(** Error numbers of the Linux ABI. *)
Definition EPERM : Z := 1.
Definition ESRCH : Z := 3.
Definition EFAULT : Z := 14.
Definition EINVAL : Z := 22.
Definition ECANCELED : Z := 125.

(** The numbers of a device: <linux/kdev_t.h>. *)
Definition MINORBITS : Z := 20.

Definition MAJOR (dev : Z) : Z := Z.shiftr dev MINORBITS.

Definition MINOR (dev : Z) : Z := Z.land dev (2 ^ MINORBITS - 1).

(** ** What a trace printed *)

(** A line of the kernel log: level, format, arguments. *)
Record logline := Log { log_level : loglevel; log_fmt : string; log_args : list arg }.

#[export] Instance logline_eq_dec : EqDecision logline.
Proof. solve_decision. Defined.

Definition printed_of (o : obs kernelE) : option logline :=
  match obs_call o with
  | Printk l f a => Some (Log l f a)
  | _ => None
  end.

Definition printed (t : trace kernelE) : list logline := omap printed_of t.

(** ** References

The reference-counted kernel objects and the locks a module may hold, with the
calls that take and drop them as the kernel documents them: [find_get_pid] and
[get_pid_task] take a reference when they find something, the [get_]
functions always, the [put_] functions drop one. *)
Inductive resource :=
| RTask (t : Z)
| RPid (p : Z)
| RMm (m : Z)
| RTaskLock (t : Z)
| RRcu
| RMem (p : Z)
| RPath (p : Z)
| RBdev (b : Z)
| RKprobe (symbol : string)
| RChrdev (dev : Z)
| RClass (c : Z)
| RCdev (c : Z)     (** the reference of the [cdev]'s kobject, not its memory *)
| RDevice (dev : Z)
| RPreempt.         (** preemption is disabled *)

(** The kernel's error pointers. *)
Definition is_err (p : Z) : bool := (2 ^ 64 - 4095 <=? p) && (p <? 2 ^ 64).

Arguments is_err : simpl never.

#[export] Instance resource_eq_dec : EqDecision resource.
Proof. solve_decision. Defined.

(** The resource a call takes (+1) or drops (-1). *)
Definition effect_of (o : obs kernelE) : option (resource * Z) :=
  match o with
  | Obs c a =>
      match c return kans c -> option (resource * Z) with
      | FindGetPid _ => fun p => if p =? 0 then None else Some (RPid p, 1)
      | GetPidTask _ _ => fun t => if t =? 0 then None else Some (RTask t, 1)
      | Kmalloc _ => fun p => if p =? 0 then None else Some (RMem p, 1)
      | PutPid p => fun _ => Some (RPid p, -1)
      | GetTaskStruct t => fun _ => Some (RTask t, 1)
      | PutTaskStruct t => fun _ => Some (RTask t, -1)
      | TaskLock t => fun _ => Some (RTaskLock t, 1)
      | TaskUnlock t => fun _ => Some (RTaskLock t, -1)
      | RcuReadLock => fun _ => Some (RRcu, 1)
      | RcuReadUnlock => fun _ => Some (RRcu, -1)
      | Mmget m => fun _ => Some (RMm m, 1)
      | Mmput m => fun _ => Some (RMm m, -1)
      | Kfree p => fun _ => if p =? 0 then None else Some (RMem p, -1)
      | GetTaskMm _ => fun m => if m =? 0 then None else Some (RMm m, 1)
      | KernPath _ => fun '(e, p) => if e =? 0 then Some (RPath p, 1) else None
      | PathPut p => fun _ => Some (RPath p, -1)
      | Bdget _ => fun b => if b =? 0 then None else Some (RBdev b, 1)
      | Bdput b => fun _ => Some (RBdev b, -1)
      | RegisterKprobe s => fun '(e, _) => if e =? 0 then Some (RKprobe s, 1) else None
      | UnregisterKprobe s => fun _ => Some (RKprobe s, -1)
      | AllocChrdevRegion _ _ _ => fun '(e, dev) => if e =? 0 then Some (RChrdev dev, 1) else None
      | UnregisterChrdevRegion dev _ => fun _ => Some (RChrdev dev, -1)
      | ClassCreate _ => fun c => if is_err c then None else Some (RClass c, 1)
      | ClassDestroy c => fun _ => Some (RClass c, -1)
      | CdevAlloc => fun c => if (c =? 0) || is_err c then None else Some (RCdev c, 1)
      | CdevDel c => fun _ => Some (RCdev c, -1)
      | DeviceCreate _ dev _ => fun d => if is_err d then None else Some (RDevice dev, 1)
      | DeviceDestroy _ dev => fun _ => Some (RDevice dev, -1)
      | GetCpu => fun _ => Some (RPreempt, 1)
      | PutCpu => fun _ => Some (RPreempt, -1)
      | _ => fun _ => None
      end a
  end.

Definition delta (r : resource) (o : obs kernelE) : Z :=
  match effect_of o with
  | Some (r', d) => if decide (r = r') then d else 0
  | None => 0
  end.

(** The trace [t] takes and drops [r] in balance, and never drops it first. *)
Definition balanced (r : resource) (t : trace kernelE) : Prop :=
  counts delta r 0 t 0.

(** The memory of a [struct cdev]. [cdev_alloc] allocates it and makes the kobject free
    it when the last reference is dropped, which [cdev_del] does. [cdev_init] is for
    a [cdev] inside a structure of the caller: it clears the [cdev] and starts the
    kobject again, with one reference and a release function that does not free. *)
Inductive cdev_block :=
| Freed            (** not allocated by [cdev_alloc], or freed *)
| Dynamic          (** freed with the last reference *)
| Leaked.          (** nothing will free it *)

#[export] Instance cdev_block_eq_dec : EqDecision cdev_block.
Proof. solve_decision. Defined.

Definition cdev_step (c : Z) (b : cdev_block) (o : obs kernelE) : cdev_block :=
  match o with
  | Obs k a =>
      match k return kans k -> cdev_block with
      | CdevAlloc => fun p => if (p =? c) && negb (p =? 0) && negb (is_err p) then Dynamic else b
      | CdevInit p => fun _ => if (p =? c) && bool_decide (b = Dynamic) then Leaked else b
      | CdevDel p => fun _ => if (p =? c) && bool_decide (b = Dynamic) then Freed else b
      | _ => fun _ => b
      end a
  end.

(** What has become of the memory at [c] after a trace. *)
Definition cdev_memory (c : Z) (t : trace kernelE) : cdev_block :=
  foldl (cdev_step c) Freed t.

Lemma cdev_memory_app c t t' : cdev_memory c (t ++ t') = foldl (cdev_step c) (cdev_memory c t) t'.
Proof. apply foldl_app. Qed.

Lemma printed_app t t' : printed (t ++ t') = printed t ++ printed t'.
Proof. apply omap_app. Qed.

Lemma balanced_app r t t' : balanced r t -> balanced r t' -> balanced r (t ++ t').
Proof. apply counts_app. Qed.

Lemma balanced_nil r : balanced r [].
Proof. done. Qed.

#[export] Hint Resolve balanced_nil balanced_app : cbits.

(** Evaluates [counts] of an explicit trace, with the equality tests between
    resources decided or split. *)
Ltac counting :=
  cbn [counts held];
  unfold delta; cbn [effect_of];
  repeat (case_decide || case_match; simplify_eq/=; try done);
  try lia.

(** ** Computations that only print

[prints p ls a]: whatever the answers, [p] makes no call but [printk], logs
exactly [ls] and returns [a]. *)
Definition is_printk (o : obs kernelE) : Prop := is_Some (printed_of o).

Definition prints {A} (p : kprog A) (ls : list logline) (a : A) : Prop :=
  always p (fun t o => o = Done a /\ printed t = ls /\ Forall is_printk t).

Lemma prints_ret {A} (a : A) : prints (mret a) [] a.
Proof. by repeat split. Qed.

Lemma prints_skip : prints skip [] tt.
Proof. by repeat split. Qed.

Lemma prints_printk l f a : prints (kdo (Printk l f a)) [Log l f a] tt.
Proof.
  intros []. split; [done|]. split; [done|].
  constructor; [by eexists|constructor].
Qed.

Lemma prints_bind {A B} (p : kprog A) (f : A -> kprog B) ls ls' a b :
  prints p ls a -> prints (f a) ls' b -> prints (p ≫= f) (ls ++ ls') b.
Proof.
  intros Hp Hf. apply always_bind. eapply always_mono; [|exact Hp].
  intros t o (-> & Ht & Hq). eapply always_mono; [|exact Hf].
  intros t' o' (-> & Ht' & Hq'). split; [done|]. split.
  - by rewrite printed_app, Ht, Ht'.
  - by apply Forall_app.
Qed.

Lemma prints_when (b : bool) (p : kprog unit) ls :
  prints p ls tt -> prints (when b p) (if b then ls else []) tt.
Proof. destruct b; [done|intros _; apply prints_skip]. Qed.

Lemma prints_if {A} (b : bool) (p q : kprog A) ls ls' a :
  prints p ls a -> prints q ls' a ->
  prints (if b then p else q) (if b then ls else ls') a.
Proof. by destruct b. Qed.

Lemma prints_eq {A} (p : kprog A) ls ls' a :
  prints p ls a -> ls = ls' -> prints p ls' a.
Proof. by intros ? <-. Qed.

Create HintDb cprints.

#[export] Hint Resolve prints_ret prints_skip prints_printk : cprints.

(** Calls that neither print nor hold references leave both counts alone. *)
Lemma printk_neutral r t : Forall is_printk t -> balanced r t.
Proof.
  induction 1 as [|o t Ho Ht IH]; [done|].
  destruct o as [c a]. unfold balanced, is_printk, printed_of in *. simpl in *.
  destruct c; by destruct Ho.
Qed.

(** [prints] of a sequence, syntactically. *)
Ltac prints_tac :=
  repeat first
    [ eapply prints_bind
    | eapply prints_when
    | apply prints_printk
    | apply prints_ret
    | apply prints_skip
    | eapply prints_if ].

(** ** Computations that keep references in order

[counted r n p m]: every execution of [p] returns; started with [n] references
to [r] it ends with [m], and never drops one it does not have. *)
Definition counted {A} (r : resource) (n : Z) (p : kprog A) (m : Z) : Prop :=
  always p (fun t o => (exists a, o = Done a) /\ counts delta r n t m).

(** [neutral p]: [p] returns and takes or drops nothing. *)
Definition neutral {A} (p : kprog A) : Prop :=
  always p (fun t o => (exists a, o = Done a) /\ Forall (fun c => effect_of c = None) t).

Lemma delta_none r c : effect_of c = None -> delta r c = 0.
Proof. unfold delta. by intros ->. Qed.

Lemma no_effect_counts r n t :
  0 <= n -> Forall (fun c => effect_of c = None) t -> counts delta r n t n.
Proof.
  intros Hn. induction 1 as [|c t Hc _ IH]; [done|]. simpl.
  by rewrite delta_none, Z.add_0_r.
Qed.

Lemma counted_ret {A} r n (a : A) : counted r n (mret a) n.
Proof. split; [by eexists|done]. Qed.

Lemma counted_done {A} r n m (a : A) : n = m -> counted r n (mret a) m.
Proof. intros ->. apply counted_ret. Qed.

Lemma counted_call {A} r n m (c : kcall) (f : kans c -> kprog A) :
  (forall a, 0 <= n + delta r (Obs (E := kernelE) c a) /\
             counted r (n + delta r (Obs (E := kernelE) c a)) (f a) m) ->
  counted r n (kdo c ≫= f) m.
Proof.
  intros Hf a. destruct (Hf a) as [H0 Hc]. cbn.
  eapply always_mono; [|exact Hc]. intros t o [Ho Ht]. done.
Qed.

Lemma counted_neutral {A B} r n m (p : kprog A) (f : A -> kprog B) :
  neutral p -> 0 <= n -> (forall a, counted r n (f a) m) -> counted r n (p ≫= f) m.
Proof.
  intros Hp Hn Hf. apply always_bind. eapply always_mono; [|exact Hp].
  intros t o [[a ->] Ht]. eapply always_mono; [|exact (Hf a)].
  intros t' o' [Ho' Ht']. split; [done|].
  eapply counts_app; [by apply no_effect_counts|done].
Qed.

Lemma neutral_ret {A} (a : A) : neutral (mret a).
Proof. split; [by eexists|done]. Qed.

Lemma neutral_call {A} (c : kcall) (f : kans c -> kprog A) :
  (forall a, effect_of (Obs (E := kernelE) c a) = None) ->
  (forall a, neutral (f a)) -> neutral (kdo c ≫= f).
Proof.
  intros Hc Hf a. eapply always_mono; [|exact (Hf a)]. intros t o [Ho Ht].
  split; [done|]. by constructor.
Qed.

Lemma neutral_do (c : kcall) :
  (forall a, effect_of (Obs (E := kernelE) c a) = None) -> neutral (kdo c).
Proof. intros Hc a. split; [by eexists|]. by constructor. Qed.

Lemma neutral_bind {A B} (p : kprog A) (f : A -> kprog B) :
  neutral p -> (forall a, neutral (f a)) -> neutral (p ≫= f).
Proof.
  intros Hp Hf. apply always_bind. eapply always_mono; [|exact Hp].
  intros t o [[a ->] Ht]. eapply always_mono; [|exact (Hf a)].
  intros t' o' [Ho' Ht']. split; [done|]. by apply Forall_app.
Qed.

Lemma neutral_when (b : bool) (p : kprog unit) : neutral p -> neutral (when b p).
Proof. destruct b; [done|]. intros _. apply neutral_ret. Qed.

(** Solves [neutral p] by following the structure of [p]. *)
Ltac neutral_tac :=
  repeat first
    [ apply neutral_ret
    | apply neutral_when
    | apply neutral_do; reflexivity
    | assumption
    | solve [eauto with cneutral]
    | apply neutral_bind; [|intros ?]
    | progress case_match ].

Create HintDb cneutral.

Lemma neutral_printk l f a : neutral (kdo (Printk l f a)).
Proof. by apply neutral_do. Qed.

#[export] Hint Resolve neutral_printk neutral_ret : cneutral.

Lemma counted_assoc {A B C} r n m (p : kprog A) (f : A -> kprog B) (g : B -> kprog C) :
  counted r n (p ≫= (fun a => f a ≫= g)) m -> counted r n ((p ≫= f) ≫= g) m.
Proof. apply always_assoc. Qed.

Lemma counted_bind {A B} r n m k (p : kprog A) (f : A -> kprog B) :
  counted r n p m -> (forall a, counted r m (f a) k) -> counted r n (p ≫= f) k.
Proof.
  intros Hp Hf. apply always_bind. eapply always_mono; [|exact Hp].
  intros t o [[a ->] Ht]. eapply always_mono; [|exact (Hf a)].
  intros t' o' [Ho' Ht']. split; [done|]. by eapply counts_app.
Qed.

Lemma counted_for_each {A} r n (l : list A) (body : A -> kprog unit) :
  (forall x, counted r n (body x) n) -> counted r n (for_each l body) n.
Proof.
  intros Hb. induction l as [|x l IH]; [apply counted_ret|]. cbn [for_each].
  by eapply counted_bind.
Qed.

(** Every execution returns a result that satisfies [P]. *)
Definition returns {A} (P : A -> Prop) (p : kprog A) : Prop :=
  always p (fun _ o => exists a, o = Done a /\ P a).

Lemma returns_ret {A} (P : A -> Prop) a : P a -> returns P (mret a).
Proof. intros HP. by exists a. Qed.

Lemma returns_call {A} (P : A -> Prop) (c : kcall) (f : kans c -> kprog A) :
  (forall a, returns P (f a)) -> returns P (kdo c ≫= f).
Proof. intros Hf a. apply Hf. Qed.

Lemma returns_bind {A B} (P : B -> Prop) r n m (p : kprog A) (f : A -> kprog B) :
  counted r n p m -> (forall a, returns P (f a)) -> returns P (p ≫= f).
Proof.
  intros Hp Hf. apply always_bind. eapply always_mono; [|exact Hp].
  intros t o [[a ->] _]. apply Hf.
Qed.

Lemma counted_returns {A} (P : A -> Prop) r (p : kprog A) :
  counted r 0 p 0 -> returns P p ->
  always p (fun t o => balanced r t /\ exists a, o = Done a /\ P a).
Proof.
  intros Hc Hr. apply always_behaves. intros t o Hb.
  pose proof (proj1 (always_behaves p _) Hr t o Hb) as Hr'.
  pose proof (proj1 (always_behaves p _) Hc t o Hb) as [_ Hc']. done.
Qed.

(** What is counted for a computation holds of its traces. *)
Lemma counted_balanced {A} r (p : kprog A) :
  counted r 0 p 0 -> always p (fun t _ => balanced r t).
Proof. apply always_mono. by intros t o [_ ?]. Qed.

Lemma counted_when {A} r n m (b : bool) (p : kprog unit) (f : unit -> kprog A) :
  neutral p -> 0 <= n -> counted r n (f tt) m -> counted r n (when b p ≫= f) m.
Proof.
  intros Hp Hn Hf. apply counted_neutral; [by apply neutral_when|done|].
  by intros [].
Qed.

(** One call under [counted]: its effect on the resource is computed, splitting
    on whether it concerns the resource. *)
Ltac counted_call :=
  apply counted_call; intros ?;
  unfold delta; cbn [effect_of];
  repeat (case_decide || case_match); simplify_eq; try done;
  (split; [lia|]); rewrite ?Z.add_0_r.

(** Follows a computation under [counted]; [known] solves the parts for which
    there is a lemma. *)
Ltac counted_with known :=
  repeat first
    [ apply counted_ret
    | apply counted_done; lia
    | eapply counted_bind; [solve [known]|intros ?]
    | apply counted_assoc
    | apply counted_neutral; [solve [neutral_tac]|lia|intros ?]
    | counted_call
    | progress (case_match; simplify_eq) ].

Ltac counted_tac := counted_with fail.

(** ** Accesses to tasks

A read of a field of a task is safe while the module holds a reference to the task,
or inside the RCU read-side section in which it obtained the pointer to it: the
kernel frees a task only after such sections. *)

(** The task of which a call reads a field. *)
Definition accessed (o : obs kernelE) : option Z :=
  match obs_call o with
  | GetTaskComm t | TaskPid t | TaskState t | TaskRealParent t => Some t
  | TaskChildren t | TaskThreads t => Some t
  | _ => None
  end.

(** The tasks protected by RCU: [None] outside a read-side section, in it the
    pointers obtained with [rcu_dereference(task->real_parent)] since it began. *)
Definition rcu_step (rcu : option (list Z)) (o : obs kernelE) : option (list Z) :=
  match o with
  | Obs c a =>
      match c return kans c -> option (list Z) with
      | RcuReadLock => fun _ => Some (default [] rcu)
      | RcuReadUnlock => fun _ => None
      | TaskRealParent _ => fun p => cons p <$> rcu
      | _ => fun _ => rcu
      end a
  end.

(** [guarded_from t rcu n tr m]: starting with [n] references to the task [t] and
    the pointers [rcu] protected, the trace ends with [m], outside of RCU sections,
    never drops a reference it does not have, and reads the fields of [t] only
    while it holds one or RCU protects [t]. *)
Fixpoint guarded_from (t : Z) (rcu : option (list Z)) (n : Z) (tr : trace kernelE) (m : Z) : Prop :=
  match tr with
  | [] => n = m /\ rcu = None
  | o :: tr' =>
      (accessed o = Some t -> 1 <= n \/ t ∈ default [] rcu) /\
      0 <= n + delta (RTask t) o /\
      guarded_from t (rcu_step rcu o) (n + delta (RTask t) o) tr' m
  end.

Abbreviation guarded t := (guarded_from t None).

Lemma guarded_from_app t rcu n tr tr' m k :
  guarded_from t rcu n tr m -> guarded t m tr' k -> guarded_from t rcu n (tr ++ tr') k.
Proof.
  revert rcu n. induction tr as [|o tr IH]; simpl; [by intros ? ? [-> ->]|].
  intros rcu n (? & ? & ?) ?. split_and!; [done..|]. by apply IH.
Qed.

Lemma guarded_app t n tr tr' m k :
  guarded t n tr m -> guarded t m tr' k -> guarded t n (tr ++ tr') k.
Proof. apply guarded_from_app. Qed.

(** A call that reads no task and is none of RCU's. *)
Lemma guarded_cons t n o tr m :
  accessed o = None -> rcu_step None o = None -> 0 <= n + delta (RTask t) o ->
  guarded t (n + delta (RTask t) o) tr m -> guarded t n (o :: tr) m.
Proof. intros Ha Hr Hn Ht. cbn [guarded_from]. rewrite Ha, Hr. by split_and!. Qed.

(** ** Executions with fixed answers

When the kernel always gives the same answer [says c] to a call [c], what a
module prints and returns is a function of [says]. *)
Section fixed.
Context (says : forall c : kcall, kans c).

Definition fixed : env kernelE := fun _ c => says c.

(** [logs p ls a]: with the answers [says], [p] prints [ls] and returns [a]. *)
Definition logs {A} (p : kprog A) (ls : list logline) (a : A) : Prop :=
  forall h, exists t, exec (env_handler fixed) h p = (h ++ t, Done a) /\ printed t = ls.

Lemma logs_ret {A} (a : A) : logs (mret a) [] a.
Proof. intros h. exists []. by rewrite app_nil_r. Qed.

Lemma logs_bind {A B} (p : kprog A) (f : A -> kprog B) ls ls' a b :
  logs p ls a -> logs (f a) ls' b -> logs (p ≫= f) (ls ++ ls') b.
Proof.
  intros Hp Hf h. destruct (Hp h) as (t & He & Ht).
  destruct (Hf (h ++ t)) as (t' & He' & Ht'). exists (t ++ t').
  rewrite exec_bind, He, He', <- app_assoc, printed_app, Ht, Ht'. done.
Qed.

(** A call that prints nothing. *)
Lemma logs_call {A} (c : kcall) (f : kans c -> kprog A) ls a :
  printed_of (Obs (E := kernelE) c (says c)) = None ->
  logs (f (says c)) ls a -> logs (kdo c ≫= f) ls a.
Proof.
  intros Hc Hf h. destruct (Hf (h ++ [Obs (E := kernelE) c (says c)])) as (t & He & Ht).
  exists (Obs (E := kernelE) c (says c) :: t). split.
  - replace (h ++ Obs (E := kernelE) c (says c) :: t)
      with ((h ++ [Obs (E := kernelE) c (says c)]) ++ t) by (by rewrite <- app_assoc).
    exact He.
  - unfold printed. cbn [omap list_omap]. by rewrite Hc.
Qed.

Lemma logs_do (c : kcall) :
  printed_of (Obs (E := kernelE) c (says c)) = None -> logs (kdo c) [] (says c).
Proof.
  intros Hc h. exists [Obs (E := kernelE) c (says c)]. split; [done|].
  unfold printed. cbn [omap list_omap]. by rewrite Hc.
Qed.

Lemma logs_printk l f args : logs (kdo (Printk l f args)) [Log l f args] tt.
Proof.
  intros h. exists [Obs (E := kernelE) (Printk l f args) (says (Printk l f args))].
  split; [|done].
  assert (says (Printk l f args) = tt) as Hs by (by destruct (says (Printk l f args))).
  transitivity (h ++ [Obs (E := kernelE) (Printk l f args) (says (Printk l f args))],
    Done (says (Printk l f args))); [done|]. by rewrite Hs.
Qed.

Lemma logs_printk_then {A} l f args (p : kprog A) ls a :
  logs p ls a -> logs (kdo (Printk l f args) ;; p) (Log l f args :: ls) a.
Proof. intros Hp. apply (logs_bind _ _ [_] ls tt a); [apply logs_printk|done]. Qed.

Lemma logs_for_each {A} (l : list A) (body : A -> kprog unit) (g : A -> list logline) :
  (forall x, x ∈ l -> logs (body x) (g x) tt) ->
  logs (for_each l body) (concat (g <$> l)) tt.
Proof.
  induction l as [|x l IH]; intros Hb; [apply logs_ret|]. cbn.
  eapply logs_bind; [apply Hb, elem_of_cons; by left|].
  apply IH. intros y Hy. apply Hb, elem_of_cons. by right.
Qed.

(** The body prints one line. *)
Lemma logs_for_each_one {A} (l : list A) (body : A -> kprog unit) (g : A -> logline) :
  (forall x, x ∈ l -> logs (body x) [g x] tt) -> logs (for_each l body) (g <$> l) tt.
Proof.
  intros Hb. replace (g <$> l) with (concat ((fun x => [g x]) <$> l)).
  - by apply logs_for_each.
  - clear. induction l as [|x l IH]; [done|]. cbn. by rewrite IH.
Qed.

Lemma logs_unit (p : kprog unit) ls u : logs p ls u -> logs p ls tt.
Proof. by destruct u. Qed.

Lemma logs_run {A} (p : kprog A) ls a :
  logs p ls a -> (run fixed p).2 = Done a /\ printed (run fixed p).1 = ls.
Proof. intros Hp. unfold run. destruct (Hp []) as (t & -> & Ht). done. Qed.

End fixed.

(** Follows a sequence of calls under [logs]. *)
Ltac logs_tac :=
  repeat first
    [ apply logs_ret
    | apply logs_printk_then
    | apply logs_printk
    | apply logs_call; [done|]
    | apply logs_do; done ].
