(* ===== verification/Transitions.v ===== *)
(** Interleaved components: a step function that an actor drives, and its executions.

A component that several tasks run at the same time is a state, a type of actors
and [step]: what the state becomes and which events show when that actor moves
next. A schedule is the list of the actors in the order they move. *)
From S2P Require Import Prelude.

Section system.
Context {S A L : Type}.

Inductive result :=
| Next (s : S) (out : list L)
| Crash                  (** undefined behaviour: code or data that is gone *)
| Stuck.                 (** the actor cannot move now *)

Context (step : S -> A -> result).

(** An execution: where the schedule leads, and the events on the way. *)
Fixpoint exec_from (s : S) (sched : list A) : option (S * list L) :=
  match sched with
  | [] => Some (s, [])
  | a :: sched' =>
      match step s a with
      | Next s' out =>
          '(s'', rest) ← exec_from s' sched';
          Some (s'', out ++ rest)
      | _ => None
      end
  end.

(** The states that can be reached. *)
Inductive reachable (start : S) : S -> Prop :=
| reach_start : reachable start start
| reach_step s a s' out : reachable start s -> step s a = Next s' out -> reachable start s'.

(** What every step keeps, of the events so far and the state, an execution keeps. *)
Lemma exec_invariant (P : list L -> S -> Prop) s sched s' log log0 :
  (forall log s a s' out, P log s -> step s a = Next s' out -> P (log ++ out) s') ->
  P log0 s -> exec_from s sched = Some (s', log) -> P (log0 ++ log) s'.
Proof.
  intros Hstep. revert s log0 log. induction sched as [|a sched IH]; intros s log0 log Hs; cbn.
  - intros [= <- <-]. by rewrite app_nil_r.
  - destruct (step s a) as [s1 out| |] eqn:Ha; [|done..].
    destruct (exec_from s1 sched) as [[s2 rest]|] eqn:He; [|done]. intros [= <- <-].
    rewrite app_assoc. eapply IH; [by eapply Hstep|exact He].
Qed.

(** The states reached by an execution from a reachable one. *)
Lemma exec_reachable start s sched s' log :
  reachable start s -> exec_from s sched = Some (s', log) -> reachable start s'.
Proof.
  intros Hs He. apply (exec_invariant (fun _ => reachable start) s sched s' log []); [|done..].
  intros _ s1 a s2 out. apply reach_step.
Qed.

(** The same for a property of the reachable states. *)
Lemma exec_preserves (P : S -> Prop) start s sched s' log :
  (forall s a s' out, reachable start s -> P s -> step s a = Next s' out -> P s') ->
  reachable start s -> P s -> exec_from s sched = Some (s', log) -> P s'.
Proof.
  intros Hstep Hs HP He.
  apply (exec_invariant (fun _ s => reachable start s /\ P s) s sched s' log []); [|done..].
  intros _ s1 a s2 out [Hr HP1] Ha. split; [by eapply reach_step|by eapply Hstep].
Qed.

Lemma exec_app s sched1 sched2 :
  exec_from s (sched1 ++ sched2) =
  '(s1, log1) ← exec_from s sched1; '(s2, log2) ← exec_from s1 sched2; Some (s2, log1 ++ log2).
Proof.
  revert s. induction sched1 as [|a sched1 IH]; intros s; cbn.
  - by destruct (exec_from s sched2) as [[]|].
  - destruct (step s a) as [s1 out| |]; [|done..]. rewrite IH. cbn.
    destruct (exec_from s1 sched1) as [[s2 log1]|]; [|done]. cbn.
    destruct (exec_from s2 sched2) as [[s3 log2]|]; [|done]. cbn. by rewrite app_assoc.
Qed.

End system.

Arguments result S L : clear implicits.
Arguments reach_start {S A L step start}.
Arguments reach_step {S A L step start} s a s' out _ _.
Arguments exec_reachable {S A L step start} s sched s' log _ _.

(** Updating a pool of tasks. *)
Lemma elem_of_insert {A} (l : list A) i x y : x ∈ <[i := y]> l -> y = x \/ x ∈ l.
Proof.
  intros [j Hj]%list_elem_of_lookup. rewrite list_lookup_insert in Hj.
  case_decide; [left; congruence|right; by eapply list_elem_of_lookup_2].
Qed.
