(* ===== verification/PageTable.v ===== *)
(** src/modules/page_table_walk.c: walking the page tables of x86_64.

This file holds the model: the kernel's page table helpers as an interface
([X86]), the documented laws of that interface ([X86Laws]), one definition per
function of the module, and the log each printing function produces. The
specification is in PageTableFacts.v, the properties are in PageTableThms.v.

A page table entry ([pgd_t] ... [pte_t]) is a structure with one 64-bit field,
modelled by the value of that field; [pgd_val] ... [pte_val] are the
projections and do not appear. *)
From S2P Require Import Prelude Effects Kernel.

(** ** The kernel's page table helpers

Constants, configuration and pure helpers of <linux/pgtable.h> and the headers
it includes. *)
Class X86 := {
  CONFIG_HAVE_ARCH_USERFAULTFD_WP : bool;
  CONFIG_MEM_SOFT_DIRTY : bool;
  (* CONFIG_TRANSPARENT_HUGEPAGE && CONFIG_ARCH_ENABLE_THP_MIGRATION *)
  CONFIG_THP_MIGRATION : bool;
  CONFIG_X86_INTEL_MEMORY_PROTECTION_KEYS : bool;
  pgtable_l5_enabled : bool;
  PGDIR_SHIFT : Z; P4D_SHIFT : Z; PUD_SHIFT : Z; PMD_SHIFT : Z; PAGE_SHIFT : Z;
  PTRS_PER_PGD : Z; PTRS_PER_P4D : Z; PTRS_PER_PUD : Z; PTRS_PER_PMD : Z;
  PTRS_PER_PTE : Z;
  PGDIR_MASK : Z; P4D_MASK : Z; PUD_MASK : Z; PMD_MASK : Z; PAGE_MASK : Z;
  PHYSICAL_PAGE_MASK : Z; PHYSICAL_PMD_PAGE_MASK : Z;
  PHYSICAL_PUD_PAGE_MASK : Z; PTE_PFN_MASK : Z; PAGE_OFFSET : Z;
  _PAGE_PRESENT : Z; _PAGE_RW : Z; _PAGE_USER : Z; _PAGE_PWT : Z; _PAGE_PCD : Z;
  _PAGE_ACCESSED : Z; _PAGE_DIRTY : Z; _PAGE_PAT : Z; _PAGE_PAT_LARGE : Z;
  _PAGE_GLOBAL : Z; _PAGE_PROTNONE : Z; _PAGE_UFFD_WP : Z; _PAGE_SOFT_DIRTY : Z;
  _PAGE_NX : Z; _PAGE_PKEY_MASK : Z; _PAGE_BIT_PKEY_BIT0 : Z;
  _PAGE_SWP_UFFD_WP : Z; _PAGE_SWP_SOFT_DIRTY : Z;
  pgd_index : Z -> Z; p4d_index : Z -> Z; pud_index : Z -> Z;
  pmd_index : Z -> Z; pte_index : Z -> Z;
  pgd_present : Z -> bool; p4d_present : Z -> bool;
  pmd_present : Z -> bool; pte_present : Z -> bool;
  pmd_none : Z -> bool; pte_none : Z -> bool;
  pud_leaf : Z -> bool; pmd_leaf : Z -> bool;
  pud_flags : Z -> Z;
  pud_pfn : Z -> Z; pmd_pfn : Z -> Z; pte_pfn : Z -> Z;
  zero_page_pfn : Z;  (* page_to_pfn(ZERO_PAGE(0)) *)
  __pte_needs_invert : Z -> bool;
  swp_type : Z -> Z; swp_offset : Z -> Z;
  pmd_to_swp_entry : Z -> Z; pte_to_swp_entry : Z -> Z;
  phys_to_virt : Z -> Z;
  MSR_EFER : Z; EFER_LME : Z; EFER_LMA : Z;
  X86_CR0_PG : Z; X86_CR4_PAE : Z; X86_CR4_PKE : Z; X86_CR4_LA57 : Z;
}.

Section walk.
Context `{X86}.

(** ** dump_macros *)

Definition dump_macros : kprog unit :=
  pr_info ("PGDIR_SHIFT            = %d" +:+ nl) [AZ PGDIR_SHIFT] ;;
  pr_info ("P4D_SHIFT              = %d" +:+ nl) [AZ P4D_SHIFT] ;;
  pr_info ("PUD_SHIFT              = %d" +:+ nl) [AZ PUD_SHIFT] ;;
  pr_info ("PMD_SHIFT              = %d" +:+ nl) [AZ PMD_SHIFT] ;;
  pr_info ("PAGE_SHIFT             = %d" +:+ nl) [AZ PAGE_SHIFT] ;;
  pr_info ("PTRS_PER_PGD           = %d" +:+ nl) [AZ PTRS_PER_PGD] ;;
  pr_info ("PTRS_PER_P4D           = %d" +:+ nl) [AZ PTRS_PER_P4D] ;;
  pr_info ("PTRS_PER_PUD           = %d" +:+ nl) [AZ PTRS_PER_PUD] ;;
  pr_info ("PTRS_PER_PMD           = %d" +:+ nl) [AZ PTRS_PER_PMD] ;;
  pr_info ("PTRS_PER_PTE           = %d" +:+ nl) [AZ PTRS_PER_PTE] ;;
  pr_info ("PGDIR_MASK             = 0x%016lx" +:+ nl) [AL PGDIR_MASK] ;;
  pr_info ("P4D_MASK               = 0x%016lx" +:+ nl) [AL P4D_MASK] ;;
  pr_info ("PUD_MASK               = 0x%016lx" +:+ nl) [AL PUD_MASK] ;;
  pr_info ("PMD_MASK               = 0x%016lx" +:+ nl) [AL PMD_MASK] ;;
  pr_info ("PAGE_MASK              = 0x%016lx" +:+ nl) [AL PAGE_MASK] ;;
  pr_info ("PHYSICAL_PAGE_MASK     = 0x%016lx" +:+ nl) [AL PHYSICAL_PAGE_MASK] ;;
  pr_info ("PHYSICAL_PMD_PAGE_MASK = 0x%016lx" +:+ nl) [AL PHYSICAL_PMD_PAGE_MASK] ;;
  pr_info ("PHYSICAL_PUD_PAGE_MASK = 0x%016lx" +:+ nl) [AL PHYSICAL_PUD_PAGE_MASK] ;;
  pr_info ("PTE_PFN_MASK           = 0x%016lx" +:+ nl) [AL PTE_PFN_MASK] ;;
  pr_info ("PAGE_OFFSET            = 0x%016lx" +:+ nl) [AL PAGE_OFFSET].

(** ** Entry helpers *)

Definition pud_present_good (pud : Z) : bool :=
  has (pud_flags pud) (Z.lor _PAGE_PRESENT _PAGE_PROTNONE).

Definition pud_paddr (pud vaddr : Z) : Z :=
  ((pud_pfn pud << PAGE_SHIFT) |` (vaddr & ~` PUD_MASK))%c.

Definition pmd_paddr (pmd vaddr : Z) : Z :=
  ((pmd_pfn pmd << PAGE_SHIFT) |` (vaddr & ~` PMD_MASK))%c.

Definition pte_paddr (pte vaddr : Z) : Z :=
  ((pte_pfn pte << PAGE_SHIFT) |` (vaddr & ~` PAGE_MASK))%c.

Definition is_zero_page_pte (pte : Z) : bool := pte_pfn pte =? zero_page_pfn.

Definition invert_val_if_needed (val : Z) : Z :=
  let mask := PHYSICAL_PAGE_MASK in
  if __pte_needs_invert val
  then ((val & ~` mask) |` (~` val & mask))%c
  else val.

(** ** Printing entries *)

Definition dump_flags_common (val : Z) : kprog unit :=
  when (has val _PAGE_PRESENT) (pr_cont " PRESENT" []) ;;
  when (has val _PAGE_RW) (pr_cont " RW" []) ;;
  (if has val _PAGE_USER then pr_cont " USER" [] else pr_cont " KERNEL" []) ;;
  when (has val _PAGE_PWT) (pr_cont " PWT" []) ;;
  when (has val _PAGE_PCD) (pr_cont " PCD" []) ;;
  when (has val _PAGE_ACCESSED) (pr_cont " ACCESSED" []).

Definition dump_flags_last_level (val : Z) (pke : bool) : kprog unit :=
  when (has val _PAGE_DIRTY) (pr_cont " DIRTY" []) ;;
  when (has val _PAGE_PROTNONE)
    (if has val _PAGE_PRESENT then pr_cont " GLOBAL" [] else pr_cont " PROTNONE" []) ;;
  when (CONFIG_HAVE_ARCH_USERFAULTFD_WP && has val _PAGE_UFFD_WP) (pr_cont " UFFD_WP" []) ;;
  when (CONFIG_MEM_SOFT_DIRTY && has val _PAGE_SOFT_DIRTY) (pr_cont " SOFT_DIRTY" []) ;;
  when (has val _PAGE_NX) (pr_cont " NX" []) ;;
  when pke
    (pr_cont " PKEY=%lx" [AL (Z.shiftr (Z.land val _PAGE_PKEY_MASK) _PAGE_BIT_PKEY_BIT0)]).

Definition dump_swap_flags (val : Z) : kprog unit :=
  when (has val _PAGE_PROTNONE) (pr_cont " PROTNONE" []) ;;
  when (CONFIG_HAVE_ARCH_USERFAULTFD_WP && has val _PAGE_SWP_UFFD_WP)
    (pr_cont " UFFD_WP" []) ;;
  when (CONFIG_MEM_SOFT_DIRTY && has val _PAGE_SWP_SOFT_DIRTY)
    (pr_cont " SOFT_DIRTY" []).

Definition dump_swap_entry (entry : Z) : kprog unit :=
  pr_info "Swap: type %x offset %lx" [AZ (swp_type entry); AL (swp_offset entry)].

Definition paddr_fmt : string := "paddr: 0x%lx%s" +:+ nl.

Definition dump_paddr (paddr : Z) (is_zero : bool) : kprog unit :=
  pr_info paddr_fmt [AL paddr; AS (if is_zero then " (zero page)" else EmptyString)].

Definition dump_pgd (pgd vaddr : Z) : kprog bool :=
  let val := pgd in
  pr_info "pgd: idx %03lx val %016lx" [AL (pgd_index vaddr); AL val] ;;
  if negb (pgd_present pgd) then
    pr_info ("pgd not present" +:+ nl) [] ;;
    mret true
  else
    dump_flags_common val ;;
    pr_cont nl [] ;;
    mret false.

Definition dump_p4d (p4d vaddr : Z) : kprog bool :=
  let val := p4d in
  pr_info "p4d: idx %03lx val %016lx" [AL (p4d_index vaddr); AL val] ;;
  if negb (p4d_present p4d) then
    pr_info ("p4d not present" +:+ nl) [] ;;
    mret true
  else
    dump_flags_common val ;;
    pr_cont nl [] ;;
    mret false.

Definition dump_pud (pud vaddr : Z) (pke : bool) : kprog bool :=
  let val := invert_val_if_needed pud in
  pr_info "pud: idx %03lx val %016lx" [AL (pud_index vaddr); AL val] ;;
  if negb (pud_present_good pud) then
    pr_cont (" not present" +:+ nl) [] ;;
    mret true
  else
    dump_flags_common val ;;
    if pud_leaf pud then
      pr_cont " 1G" [] ;;
      when (has val _PAGE_PAT_LARGE) (pr_cont " PAT" []) ;;
      dump_flags_last_level val pke ;;
      pr_cont nl [] ;;
      dump_paddr (pud_paddr pud vaddr) false ;;
      mret true
    else
      pr_cont nl [] ;;
      mret false.

Definition dump_pmd (pmd vaddr : Z) (pke : bool) : kprog bool :=
  let val := invert_val_if_needed pmd in
  pr_info "pmd: idx %03lx val %016lx" [AL (pmd_index vaddr); AL val] ;;
  if pmd_none pmd then
    pr_cont (" none" +:+ nl) [] ;;
    mret true
  else if negb (pmd_present pmd) then
    (if CONFIG_THP_MIGRATION then
       dump_swap_flags val ;;
       pr_cont nl [] ;;
       dump_swap_entry (pmd_to_swp_entry pmd)
     else
       pr_cont (" not present" +:+ nl) []) ;;
    mret true
  else
    dump_flags_common val ;;
    if pmd_leaf pmd then
      pr_cont " 2M" [] ;;
      when (has val _PAGE_PAT_LARGE) (pr_cont " PAT" []) ;;
      dump_flags_last_level val pke ;;
      pr_cont nl [] ;;
      dump_paddr (pmd_paddr pmd vaddr) false ;;
      mret true
    else
      pr_cont nl [] ;;
      mret false.

Definition dump_pte (pte vaddr : Z) (pke : bool) : kprog unit :=
  let val := invert_val_if_needed pte in
  pr_info "pte: idx %03lx val %016lx" [AL (pte_index vaddr); AL val] ;;
  if pte_none pte then
    pr_cont (" none" +:+ nl) []
  else if negb (pte_present pte) then
    dump_swap_flags val ;;
    pr_cont nl [] ;;
    dump_swap_entry (pte_to_swp_entry pte)
  else
    dump_flags_common val ;;
    when (has val _PAGE_PAT) (pr_cont " PAT" []) ;;
    dump_flags_last_level val pke ;;
    pr_cont nl [] ;;
    dump_paddr (pte_paddr pte vaddr) (is_zero_page_pte pte).

(** ** The walk *)

Definition walk_4l (pgdp vaddr : Z) (pke : bool) (p4dp : Z) : kprog unit :=
  let from_p4d (p4dp : Z) : kprog unit :=
    pudp ← kdo (PudOffset p4dp vaddr) ;
    pud ← kdo (Load pudp) ;
    stop ← dump_pud pud vaddr pke ;
    if (stop : bool) then mret tt else
    pmdp ← kdo (PmdOffset pudp vaddr) ;
    pmd ← kdo (Load pmdp) ;
    stop ← dump_pmd pmd vaddr pke ;
    if (stop : bool) then mret tt else
    ptep ← kdo (PteOffsetKernel pmdp vaddr) ;
    pte ← kdo (Load ptep) ;
    dump_pte pte vaddr pke in
  if p4dp =? 0 then
    pgd ← kdo (Load pgdp) ;
    stop ← dump_pgd pgd vaddr ;
    if (stop : bool) then mret tt else
    p4dp ← kdo (P4dOffset pgdp vaddr) ;
    from_p4d p4dp
  else from_p4d p4dp.

Definition walk_5l (pgdp vaddr : Z) (pke : bool) : kprog unit :=
  pgd ← kdo (Load pgdp) ;
  stop ← dump_pgd pgd vaddr ;
  if (stop : bool) then mret tt else
  p4dp ← kdo (P4dOffset pgdp vaddr) ;
  p4d ← kdo (Load p4dp) ;
  stop ← dump_p4d p4d vaddr ;
  if (stop : bool) then mret tt else
  walk_4l pgdp vaddr pke p4dp.

(** [RDMSR(msr, val)], through [rdmsrl_wrap]. *)
Definition rdmsrl_wrap (name : string) (msrno : Z) : kprog (Z * Z) :=
  '(err, val) ← kdo (RdmsrlSafe msrno) ;
  when (truthy err) (pr_err ("rdmsrl_safe(%s) failed, aborting." +:+ nl) [AS name]) ;;
  mret (err, val).

Definition walk (pgdp vaddr : Z) : kprog Z :=
  '(err, efer) ← rdmsrl_wrap "MSR_EFER" MSR_EFER ;
  if truthy err then mret err else
  cr0 ← kdo ReadCr0 ;
  if negb (has cr0 X86_CR0_PG) then
    pr_err ("Paging disabled, aborting." +:+ nl) [] ;;
    mret 0
  else
  if negb (Z.land efer (Z.lor EFER_LME EFER_LMA) =? Z.lor EFER_LME EFER_LMA) then
    pr_err ("Not in IA-32e mode, aborting." +:+ nl) [] ;;
    mret 0
  else
  cr4 ← kdo ReadCr4 ;
  if negb (has cr4 X86_CR4_PAE) then
    pr_err ("PAE disabled, aborting." +:+ nl) [] ;;
    mret 0
  else
  let pke := (CONFIG_X86_INTEL_MEMORY_PROTECTION_KEYS && has cr4 X86_CR4_PKE)%bool in
  (if has cr4 X86_CR4_LA57
   then walk_5l pgdp vaddr pke
   else walk_4l pgdp vaddr pke 0) ;;
  mret 0.

Definition walk_kernel (vaddr : Z) : kprog Z :=
  pr_info ("Examining kernel vaddr 0x%lx" +:+ nl) [AL vaddr] ;;
  cr3 ← kdo ReadCr3 ;
  let pgdp := phys_to_virt (cr3 & ~` 0xfff)%c in
  pgdp' ← kdo (PgdOffsetPgd pgdp vaddr) ;
  walk pgdp' vaddr.

(** [get_user_pid_task] *)
Definition get_user_pid_task (pid : Z) : kprog Z :=
  p ← kdo (FindGetPid pid) ;
  kdo (GetPidTask p PIDTYPE_PID).

(** The task to inspect: [None] when there is no such task. *)
Definition walk_user_task (user_pid : Z) : kprog (option Z) :=
  if user_pid =? -1 then
    task ← kdo GetCurrent ;
    kdo (GetTaskStruct task) ;;
    mret (Some task)
  else
    task ← get_user_pid_task user_pid ;
    if task =? 0 then
      pr_err ("No task with user PID = %d." +:+ nl) [AZ user_pid] ;;
      mret None
    else mret (Some task).

(** [walk_user] once the task is known and held. *)
Definition walk_task (task vaddr : Z) : kprog Z :=
  comm ← kdo (GetTaskComm task) ;
  pid ← kdo (TaskPid task) ;
  pr_info ("Examining %s[%d] vaddr 0x%lx" +:+ nl) [AS comm; AZ pid; AL vaddr] ;;
  kdo (TaskLock task) ;;
  let with_mm (mm : Z) : kprog Z :=
    kdo (Mmget mm) ;;
    kdo (TaskUnlock task) ;;
    kdo (PutTaskStruct task) ;;
    pgdp ← kdo (PgdOffset mm vaddr) ;
    res ← walk pgdp vaddr ;
    kdo (Mmput mm) ;;
    mret res in
  mm ← kdo (TaskMm task) ;
  if mm =? 0 then
    mm ← kdo (TaskActiveMm task) ;
    if mm =? 0 then
      pr_err ("Task has no own mm nor active mm, aborting." +:+ nl) [] ;;
      kdo (TaskUnlock task) ;;
      kdo (PutTaskStruct task) ;;
      mret (- ESRCH)
    else
      pr_warn ("Task does not have own mm, using active_mm." +:+ nl) [] ;;
      with_mm mm
  else with_mm mm.

Definition walk_user (user_pid vaddr : Z) : kprog Z :=
  found ← walk_user_task user_pid ;
  match found with
  | None => mret (- ESRCH)
  | Some task => walk_task task vaddr
  end.

(** The module parameters [pid], [vaddr] and [dump]. *)
Definition page_table_walk_init (user_pid vaddr : Z) (dump : bool) : kprog Z :=
  if dump then
    dump_macros ;;
    mret (- ECANCELED)
  else
    err ← (if truthy user_pid then walk_user user_pid vaddr else walk_kernel vaddr) ;
    if truthy err then mret err else mret (- ECANCELED).

End walk.
