(* ===== verification/PageTableFacts.v ===== *)
(** Specification and proof machinery for the page table walker of PageTable.v; the
properties are in PageTableThms.v.

The abstract specification is the address translation of the Intel manual
([hw_walk]: 4- or 5-level paging over physical memory). The kernel's helpers
are assumed to do what the kernel documents ([X86Laws] for the pure ones,
[lawful] for the ones that read memory or registers); [x86_64] in
PageTableThms.v is an instance with the values of the architecture. *)
From S2P Require Import Prelude Effects Kernel PageTable.

(** ** Documented laws of the kernel's helpers *)

(** Bits [k .. 51] of an entry: the physical frame of a page of [2^k] bytes. *)
Definition frame_mask (k : Z) : Z := Z.ldiff (Z.ones 52) (Z.ones k).

(** What [__pte_needs_invert] selects: a non-empty entry that is not present. *)
Definition protnone_mask `{X86} (e : Z) : Z :=
  if __pte_needs_invert e then Z.ones 64 else 0.

Class X86Laws `{X86} : Prop := {
  page_shift_law : PAGE_SHIFT = 12;
  pud_mask_law : PUD_MASK = not64 (Z.ones 30);
  pmd_mask_law : PMD_MASK = not64 (Z.ones 21);
  page_mask_law : PAGE_MASK = not64 (Z.ones 12);
  phys_page_mask_law : PHYSICAL_PAGE_MASK = frame_mask 12;
  phys_pmd_mask_law : PHYSICAL_PMD_PAGE_MASK = frame_mask 21;
  phys_pud_mask_law : PHYSICAL_PUD_PAGE_MASK = frame_mask 30;
  pte_pfn_mask_law : PTE_PFN_MASK = frame_mask 12;
  page_offset_law : 0 < PAGE_OFFSET;
  present_law : _PAGE_PRESENT = 2 ^ 0;
  rw_law : _PAGE_RW = 2 ^ 1;
  user_law : _PAGE_USER = 2 ^ 2;
  pwt_law : _PAGE_PWT = 2 ^ 3;
  pcd_law : _PAGE_PCD = 2 ^ 4;
  accessed_law : _PAGE_ACCESSED = 2 ^ 5;
  dirty_law : _PAGE_DIRTY = 2 ^ 6;
  pat_law : _PAGE_PAT = 2 ^ 7;
  global_law : _PAGE_GLOBAL = 2 ^ 8;
  protnone_law : _PAGE_PROTNONE = 2 ^ 8;
  uffd_wp_law : _PAGE_UFFD_WP = 2 ^ 10;
  soft_dirty_law : _PAGE_SOFT_DIRTY = 2 ^ 11;
  nx_law : _PAGE_NX = 2 ^ 63;
  pkey_bit_law : _PAGE_BIT_PKEY_BIT0 = 59;
  pkey_mask_law : _PAGE_PKEY_MASK = Z.shiftl (Z.ones 4) 59;
  pgd_index_law va : pgd_index va =
    Z.land (Z.shiftr va (if pgtable_l5_enabled then 48 else 39)) 511;
  p4d_index_law va : p4d_index va = Z.land (Z.shiftr va 39) 511;
  pud_index_law va : pud_index va = Z.land (Z.shiftr va 30) 511;
  pmd_index_law va : pmd_index va = Z.land (Z.shiftr va 21) 511;
  pte_index_law va : pte_index va = Z.land (Z.shiftr va 12) 511;
  (* with four levels the pgd is folded and always present *)
  pgd_present_law e : pgd_present e =
    if pgtable_l5_enabled then Z.testbit e 0 else true;
  p4d_present_law e : p4d_present e = Z.testbit e 0;
  pud_flags_present_law e : Z.testbit (pud_flags e) 0 = Z.testbit e 0;
  pud_flags_protnone_law e : Z.testbit (pud_flags e) 8 = Z.testbit e 8;
  pmd_present_law e : pmd_present e =
    (Z.testbit e 0 || Z.testbit e 8 || Z.testbit e 7)%bool;
  pte_present_law e : pte_present e = (Z.testbit e 0 || Z.testbit e 8)%bool;
  pmd_none_law e : Z.testbit e 0 = true -> pmd_none e = false;
  pte_none_law e : Z.testbit e 0 = true -> pte_none e = false;
  pud_leaf_law e : Z.testbit e 0 = true -> pud_leaf e = Z.testbit e 7;
  pmd_leaf_law e : Z.testbit e 0 = true -> pmd_leaf e = Z.testbit e 7;
  needs_invert_law e : __pte_needs_invert e = (truthy e && negb (Z.testbit e 0))%bool;
  pte_pfn_law e : pte_pfn e =
    Z.shiftr (Z.land (Z.lxor e (protnone_mask e)) PTE_PFN_MASK) 12;
  pmd_pfn_law e : pmd_pfn e =
    Z.shiftr (Z.land (Z.lxor e (protnone_mask e))
      (if Z.testbit e 7 then PHYSICAL_PMD_PAGE_MASK else PTE_PFN_MASK)) 12;
  pud_pfn_law e : pud_pfn e =
    Z.shiftr (Z.land (Z.lxor e (protnone_mask e))
      (if Z.testbit e 7 then PHYSICAL_PUD_PAGE_MASK else PTE_PFN_MASK)) 12;
  phys_to_virt_law a : phys_to_virt a = PAGE_OFFSET + a;
}.

(** ** The hardware's translation *)

Inductive translation := NotMapped | Mapped (pa : Z).

Section hw.
Context (pmem : Z -> Z).

Definition entry_at (base va shift : Z) : Z :=
  pmem (base + 8 * Z.land (Z.shiftr va shift) 511).

Definition table_of (e : Z) : Z := Z.land e (frame_mask 12).

(** A page of [2^k] bytes mapped by the entry [e]. *)
Definition page (k e va : Z) : translation :=
  Mapped (Z.lor (Z.land e (frame_mask k)) (Z.land va (Z.ones k))).

Definition hw_pt (base va : Z) : translation :=
  let e := entry_at base va 12 in
  if Z.testbit e 0 then page 12 e va else NotMapped.

Definition hw_pd (base va : Z) : translation :=
  let e := entry_at base va 21 in
  if Z.testbit e 0 then
    if Z.testbit e 7 then page 21 e va else hw_pt (table_of e) va
  else NotMapped.

Definition hw_pdpt (base va : Z) : translation :=
  let e := entry_at base va 30 in
  if Z.testbit e 0 then
    if Z.testbit e 7 then page 30 e va else hw_pd (table_of e) va
  else NotMapped.

Definition hw_pml4 (base va : Z) : translation :=
  let e := entry_at base va 39 in
  if Z.testbit e 0 then hw_pdpt (table_of e) va else NotMapped.

Definition hw_pml5 (base va : Z) : translation :=
  let e := entry_at base va 48 in
  if Z.testbit e 0 then hw_pml4 (table_of e) va else NotMapped.

Definition hw_walk (la57 : bool) (root va : Z) : translation :=
  if la57 then hw_pml5 root va else hw_pml4 root va.

End hw.

(** The addresses a translation, or a log, reports. *)
Definition mapped_addrs (x : translation) : list Z :=
  match x with Mapped pa => [pa] | NotMapped => [] end.

Definition paddr_of (l : logline) : option Z :=
  if decide (log_fmt l = paddr_fmt) then
    match log_args l with AL a :: _ => Some a | _ => None end
  else None.

Definition paddrs (ls : list logline) : list Z := omap paddr_of ls.

(** An entry whose software state is visible to the walker although the
    hardware does not translate through it: PROTNONE, or PSE while a huge page
    is being split. *)
Definition plain (e : Z) : Prop :=
  Z.testbit e 0 = true \/ (Z.testbit e 7 = false /\ Z.testbit e 8 = false).

Section laws.
Context `{X86}.
Context (pmem : Z -> Z) (cr3 : Z) (mm_pgd : Z -> Z) (task_mm : Z).

Definition read_entry (p : Z) : Z := pmem (p - PAGE_OFFSET).

Definition table_at (e : Z) : Z := PAGE_OFFSET + table_of e.

(** The documented answers of the calls a walk makes, with page tables that
    do not change during the walk, a CPU in IA-32e mode and an inspected task
    that exists and whose [mm] is [task_mm]. *)
Definition lawful (o : obs kernelE) : Prop :=
  match o with
  | Obs c a =>
      match c return kans c -> Prop with
      | Load p => fun v => v = read_entry p
      | PgdOffsetPgd p va => fun r => r = p + 8 * pgd_index va
      | PgdOffset mm va => fun r => r = PAGE_OFFSET + mm_pgd mm + 8 * pgd_index va
      | P4dOffset p va => fun r =>
          r = if pgtable_l5_enabled
              then table_at (read_entry p) + 8 * p4d_index va else p
      | PudOffset p va => fun r => r = table_at (read_entry p) + 8 * pud_index va
      | PmdOffset p va => fun r => r = table_at (read_entry p) + 8 * pmd_index va
      | PteOffsetKernel p va => fun r => r = table_at (read_entry p) + 8 * pte_index va
      | RdmsrlSafe _ => fun '(err, efer) =>
          err = 0 /\ Z.land efer (Z.lor EFER_LME EFER_LMA) = Z.lor EFER_LME EFER_LMA
      | GetPidTask _ _ => fun r => r <> 0
      | TaskMm _ => fun r => r = task_mm
      | ReadCr0 => fun v => has v X86_CR0_PG = true
      | ReadCr3 => fun v => v = cr3
      | ReadCr4 => fun v =>
          has v X86_CR4_PAE = true /\ has v X86_CR4_LA57 = pgtable_l5_enabled
      | _ => fun _ => True
      end a
  end.

(** With four levels the module does not check the top-level entry itself (see
    [walk_4l_absent_top]), so the walk agrees with the hardware when that entry
    is present, or when there are five levels. *)
Definition top_present (root va : Z) : Prop :=
  pgtable_l5_enabled = true \/ Z.testbit (entry_at pmem root va 39) 0 = true.

(** The root of the page tables the module inspects: the current page tables
    for pid 0, those of the task otherwise. *)
Definition walk_root (user_pid : Z) : Z :=
  if truthy user_pid then mm_pgd task_mm else Z.land cr3 (not64 0xfff).

(** All entries the walk read are [plain]. *)
Definition plain_load (o : obs kernelE) : Prop :=
  match o with
  | Obs c a => match c return kans c -> Prop with
               | Load _ => fun v => plain v
               | _ => fun _ => True
               end a
  end.

End laws.

(** ** What the printing functions log *)

Section printing.
Context `{X86}.

(** [addr p a ps]: [p] only prints, returns [a], and the physical addresses it
    logs are [ps]. *)
Definition addr {A} (p : kprog A) (a : A) (ps : list Z) : Prop :=
  exists ls, prints p ls a /\ paddrs ls = ps.

Lemma addr_bind {A B} (p : kprog A) (f : A -> kprog B) a b ps qs :
  addr p a ps -> addr (f a) b qs -> addr (p ≫= f) b (ps ++ qs).
Proof.
  intros (ls & Hp & <-) (ls' & Hf & <-). exists (ls ++ ls').
  split; [by eapply prints_bind|]. apply omap_app.
Qed.

Lemma addr_seq {A B} (p : kprog A) (f : A -> kprog B) a b qs :
  addr p a [] -> addr (f a) b qs -> addr (p ≫= f) b qs.
Proof. apply addr_bind. Qed.

Lemma addr_then {A B} (p : kprog A) (f : A -> kprog B) a b ps :
  addr p a ps -> addr (f a) b [] -> addr (p ≫= f) b ps.
Proof. intros Hp Hf. rewrite <- (app_nil_r ps). by eapply addr_bind. Qed.

Lemma addr_ret {A} (a : A) : addr (mret a) a [].
Proof. exists []. split; [apply prints_ret|done]. Qed.

Lemma addr_when (b : bool) (p : kprog unit) : addr p tt [] -> addr (when b p) tt [].
Proof. destruct b; [done|]. intros _. apply addr_ret. Qed.

Lemma addr_cont s args : s <> paddr_fmt -> addr (pr_cont s args) tt [].
Proof.
  intros Hs. eexists. split; [apply prints_printk|].
  simpl. unfold paddr_of. simpl. by rewrite decide_False.
Qed.

Lemma addr_info s args : s <> paddr_fmt -> addr (pr_info s args) tt [].
Proof.
  intros Hs. eexists. split; [apply prints_printk|].
  simpl. unfold paddr_of. simpl. by rewrite decide_False.
Qed.

Lemma dump_paddr_addr pa z : addr (dump_paddr pa z) tt [pa].
Proof. eexists. split; [apply prints_printk|done]. Qed.

(** Solves [addr p _ []] of a sequence of other messages. *)
Ltac addr_tac :=
  repeat first
    [ eapply addr_seq
    | apply addr_when
    | apply addr_ret
    | apply addr_cont; discriminate
    | apply addr_info; discriminate
    | progress case_match ].

Lemma dump_flags_common_addr v : addr (dump_flags_common v) tt [].
Proof. unfold dump_flags_common. addr_tac. Qed.

Lemma dump_flags_last_level_addr v pke : addr (dump_flags_last_level v pke) tt [].
Proof. unfold dump_flags_last_level. addr_tac. Qed.

Lemma dump_swap_flags_addr v : addr (dump_swap_flags v) tt [].
Proof. unfold dump_swap_flags. addr_tac. Qed.

Lemma dump_swap_entry_addr e : addr (dump_swap_entry e) tt [].
Proof. unfold dump_swap_entry. addr_tac. Qed.

Hint Resolve dump_flags_common_addr dump_flags_last_level_addr dump_swap_flags_addr
  dump_swap_entry_addr dump_paddr_addr : cprints.

Ltac addr_auto :=
  repeat first
    [ solve [eauto with cprints]
    | eapply addr_seq
    | apply addr_when
    | apply addr_ret
    | apply addr_cont; discriminate
    | apply addr_info; discriminate ].

Lemma dump_pgd_addr e va : addr (dump_pgd e va) (negb (pgd_present e)) [].
Proof.
  unfold dump_pgd. eapply addr_seq; [by apply addr_info|].
  destruct (pgd_present e); addr_auto.
Qed.

Lemma dump_p4d_addr e va : addr (dump_p4d e va) (negb (p4d_present e)) [].
Proof.
  unfold dump_p4d. eapply addr_seq; [by apply addr_info|].
  destruct (p4d_present e); addr_auto.
Qed.

Lemma dump_pud_addr e va pke :
  addr (dump_pud e va pke) (negb (pud_present_good e) || pud_leaf e)%bool
    (if pud_present_good e then if pud_leaf e then [pud_paddr e va] else [] else []).
Proof.
  unfold dump_pud. eapply addr_seq; [by apply addr_info|].
  destruct (pud_present_good e); cbn [negb orb]; [|addr_auto].
  eapply addr_seq; [addr_auto|]. destruct (pud_leaf e); [|addr_auto].
  do 4 (eapply addr_seq; [addr_auto|]).
  eapply addr_then; addr_auto.
Qed.

Lemma dump_pmd_addr e va pke :
  addr (dump_pmd e va pke) (pmd_none e || negb (pmd_present e) || pmd_leaf e)%bool
    (if pmd_none e then [] else
     if pmd_present e then if pmd_leaf e then [pmd_paddr e va] else [] else []).
Proof.
  unfold dump_pmd. eapply addr_seq; [by apply addr_info|].
  destruct (pmd_none e); cbn [negb orb]; [addr_auto|].
  destruct (pmd_present e); cbn [negb orb].
  - eapply addr_seq; [addr_auto|]. destruct (pmd_leaf e); [|addr_auto].
    do 4 (eapply addr_seq; [addr_auto|]).
    eapply addr_then; addr_auto.
  - eapply addr_seq; [|addr_auto]. destruct CONFIG_THP_MIGRATION; addr_auto.
Qed.

Lemma dump_pte_addr e va pke :
  addr (dump_pte e va pke) tt
    (if pte_none e then [] else if pte_present e then [pte_paddr e va] else []).
Proof.
  unfold dump_pte. eapply addr_seq; [by apply addr_info|].
  destruct (pte_none e); [addr_auto|].
  destruct (pte_present e); cbn [negb orb]; addr_auto.
Qed.

End printing.

(** ** Physical addresses of leaf entries *)

Lemma testbit_frame_mask k i :
  0 <= k -> 0 <= i -> Z.testbit (frame_mask k) i = ((i <? 52) && negb (i <? k))%bool.
Proof. intros. unfold frame_mask. by rewrite Z.ldiff_spec, !testbit_ones by lia. Qed.

(** Shifting a frame number back gives the frame. *)
Lemma frame_shift e k :
  12 <= k -> shl64 (Z.shiftr (Z.land e (frame_mask k)) 12) 12 = Z.land e (frame_mask k).
Proof.
  intros Hk. apply Z.bits_inj'. intros i Hi. rewrite testbit_shl64 by lia.
  destruct (Z.ltb_spec i 12).
  - rewrite Z.land_spec, testbit_frame_mask by lia.
    rewrite Z.testbit_neg_r by lia. replace (i <? k) with true by lia. btauto.
  - rewrite Z.shiftr_spec by lia. replace (i - 12 + 12) with i by lia.
    rewrite Z.land_spec, testbit_frame_mask by lia.
    destruct (Z.ltb_spec i 52), (Z.ltb_spec i 64); try lia; btauto.
Qed.

Lemma not64_not64_ones k : 0 <= k <= 64 -> not64 (not64 (Z.ones k)) = Z.ones k.
Proof.
  intros. apply Z.bits_inj'. intros i Hi.
  rewrite !testbit_not64, testbit_ones by lia.
  destruct (Z.ltb_spec i k), (Z.ltb_spec i 64); try lia; done.
Qed.

Section leaves.
Context `{X86Laws}.

Lemma present_not_inverted e : Z.testbit e 0 = true -> protnone_mask e = 0.
Proof.
  intros He. unfold protnone_mask. rewrite needs_invert_law, He. by rewrite andb_false_r.
Qed.

Lemma pte_paddr_page e va :
  Z.testbit e 0 = true -> page 12 e va = Mapped (pte_paddr e va).
Proof.
  intros He. unfold page, pte_paddr.
  rewrite pte_pfn_law, present_not_inverted, Z.lxor_0_r, page_shift_law,
    pte_pfn_mask_law, page_mask_law by done.
  by rewrite frame_shift, not64_not64_ones by lia.
Qed.

Lemma pmd_paddr_page e va :
  Z.testbit e 0 = true -> Z.testbit e 7 = true -> page 21 e va = Mapped (pmd_paddr e va).
Proof.
  intros He Hl. unfold page, pmd_paddr.
  rewrite pmd_pfn_law, present_not_inverted, Z.lxor_0_r, page_shift_law, Hl,
    phys_pmd_mask_law, pmd_mask_law by done.
  by rewrite frame_shift, not64_not64_ones by lia.
Qed.

Lemma pud_paddr_page e va :
  Z.testbit e 0 = true -> Z.testbit e 7 = true -> page 30 e va = Mapped (pud_paddr e va).
Proof.
  intros He Hl. unfold page, pud_paddr.
  rewrite pud_pfn_law, present_not_inverted, Z.lxor_0_r, page_shift_law, Hl,
    phys_pud_mask_law, pud_mask_law by done.
  by rewrite frame_shift, not64_not64_ones by lia.
Qed.

Lemma pud_present_good_bits e :
  pud_present_good e = (Z.testbit e 0 || Z.testbit e 8)%bool.
Proof.
  unfold pud_present_good.
  rewrite has_lor, present_law, protnone_law, !has_pow2 by lia.
  by rewrite pud_flags_present_law, pud_flags_protnone_law.
Qed.

(** ** The walk and the hardware *)

Context (pmem : Z -> Z) (cr3 : Z) (mm_pgd : Z -> Z) (task_mm : Z).

Local Abbreviation top_present := (top_present pmem).

Local Abbreviation walk_root := (walk_root cr3 mm_pgd task_mm).

Local Abbreviation lawful := (lawful pmem cr3 mm_pgd task_mm).

(** The log [t] reports what the hardware translation [x] gives; when nothing
    is mapped this needs the entries read to be [plain]. *)
Definition agrees (t : trace kernelE) (x : translation) : Prop :=
  (forall pa, x = Mapped pa -> paddrs (printed t) = [pa]) /\
  (Forall plain_load t -> paddrs (printed t) = mapped_addrs x).

(** [agrees] of every execution with the documented answers. *)
Definition reports {A} (p : kprog A) (x : translation) : Prop :=
  always p (fun t _ => Forall lawful t -> agrees t x).

Lemma paddrs_app ls ls' : paddrs (ls ++ ls') = paddrs ls ++ paddrs ls'.
Proof. apply omap_app. Qed.

Lemma agrees_app_silent t t' x :
  paddrs (printed t) = [] -> agrees t' x -> agrees (t ++ t') x.
Proof.
  intros Hp [Hm Hn]. split.
  - intros pa Hx. by rewrite printed_app, paddrs_app, Hp, (Hm pa Hx).
  - intros [_ Ht']%Forall_app. by rewrite printed_app, paddrs_app, Hp, Hn.
Qed.

(** A silent prefix: the message about an intermediate entry. *)
Lemma reports_seq {A B} (p : kprog A) (f : A -> kprog B) a x :
  addr p a [] -> reports (f a) x -> reports (p ≫= f) x.
Proof.
  intros (ls & Hp & Hls) Hf. apply always_bind. eapply always_mono; [|exact Hp].
  intros t o (-> & Ht & Hk). eapply always_mono; [|exact Hf].
  intros t' o' Ha [_ Hl]%Forall_app.
  apply agrees_app_silent; [by rewrite Ht|by apply Ha].
Qed.

(** A message followed by nothing. *)
Lemma reports_last {A} (p : kprog A) a ps x :
  addr p a ps -> ps = mapped_addrs x -> reports p x.
Proof.
  intros (ls & Hp & Hls) Hx. eapply always_mono; [|exact Hp].
  intros t o (-> & Ht & Hk) _. unfold agrees. rewrite Ht, Hls, Hx.
  split; [by intros ? ->|done].
Qed.

(** A call that does not print and reads no entry. *)
Lemma reports_call {A} (c : kcall) (f : kans c -> kprog A) x :
  (forall r, printed_of (Obs (E := kernelE) c r) = None) ->
  (forall r, lawful (Obs (E := kernelE) c r) -> reports (f r) x) ->
  reports (kdo c ≫= f) x.
Proof.
  intros Hc Hf r. cbn.
  eapply always_mono; [|apply (always_imp (lawful (Obs (E := kernelE) c r))), Hf].
  intros t o HQ [Hl Ht]%Forall_cons. destruct (HQ Hl Ht) as [Hm Hn].
  split.
  - intros pa Hx. unfold printed. simpl. rewrite Hc. by apply Hm.
  - intros [_ Hp]%Forall_cons. unfold printed. simpl. rewrite Hc. by apply Hn.
Qed.

(** Reading an entry: the walk goes on as the hardware does if the entry is
    present; otherwise nothing is mapped, and a [plain] entry ends the walk. *)
Lemma reports_load {A} p (f : Z -> kprog A) x :
  let e := read_entry pmem p in
  (Z.testbit e 0 = true -> reports (f e) x) ->
  (Z.testbit e 0 = false ->
     x = NotMapped /\ (plain e -> reports (f e) NotMapped)) ->
  reports (kdo (Load p) ≫= f) x.
Proof.
  intros e Hpres Habs r. cbn.
  assert (Hr : r = e -> plain e -> always (f r) (fun t _ => Forall lawful t -> agrees t x)).
  { intros -> Hpl. destruct (Z.testbit e 0) eqn:He; [by apply Hpres|].
    destruct (Habs eq_refl) as [-> Hf]. by apply Hf. }
  destruct (Z.testbit e 0) eqn:He.
  - eapply always_mono; [|apply (always_imp (r = e)); intros Hre; apply Hr;
      [done|by left]].
    intros t o HQ [Hl Ht]%Forall_cons. destruct (HQ Hl Ht) as [Hm Hn].
    split; [exact Hm|]. intros [_ Hp]%Forall_cons. by apply Hn.
  - destruct (Habs eq_refl) as [-> _].
    eapply always_mono; [|apply (always_imp (r = e)); intros Hre;
      apply (always_imp (plain e)); intros Hpl; by apply Hr].
    intros t o HQ [Hl Ht]%Forall_cons. split; [done|].
    intros [Hp0 Hp]%Forall_cons. cbn in Hl, Hp0. rewrite Hl in Hp0. by apply HQ.
Qed.

(** ** The walk, level by level *)

Lemma entry_at_law base va shift :
  read_entry pmem (PAGE_OFFSET + base + 8 * Z.land (Z.shiftr va shift) 511) =
  entry_at pmem base va shift.
Proof. unfold read_entry, entry_at. f_equal. lia. Qed.

(** The rest of [walk_4l] from each level. *)
Definition from_pmd (pmdp va : Z) (pke : bool) : kprog unit :=
  ptep ← kdo (PteOffsetKernel pmdp va) ;
  pte ← kdo (Load ptep) ;
  dump_pte pte va pke.

Definition from_pud (pudp va : Z) (pke : bool) : kprog unit :=
  pmdp ← kdo (PmdOffset pudp va) ;
  pmd ← kdo (Load pmdp) ;
  stop ← dump_pmd pmd va pke ;
  if (stop : bool) then mret tt else from_pmd pmdp va pke.

Definition from_p4d (p4dp va : Z) (pke : bool) : kprog unit :=
  pudp ← kdo (PudOffset p4dp va) ;
  pud ← kdo (Load pudp) ;
  stop ← dump_pud pud va pke ;
  if (stop : bool) then mret tt else from_pud pudp va pke.

(** A [plain] entry that is not present: no bit the walker looks at is set. *)
Lemma plain_absent e :
  Z.testbit e 0 = false -> plain e -> Z.testbit e 7 = false /\ Z.testbit e 8 = false.
Proof. intros He [?|?]; [congruence|done]. Qed.

Lemma from_pmd_reports pmdp va pke :
  reports (from_pmd pmdp va pke) (hw_pt pmem (table_of (read_entry pmem pmdp)) va).
Proof.
  unfold from_pmd. apply reports_call; [done|]. intros ptep ->.
  unfold table_at. rewrite pte_index_law.
  apply reports_load; rewrite entry_at_law; unfold hw_pt;
    set (e := entry_at _ _ _ _); intros He; rewrite He.
  - eapply reports_last; [apply dump_pte_addr|].
    rewrite pte_none_law, pte_present_law, He, pte_paddr_page by done. done.
  - split; [done|]. intros [H7 H8]%plain_absent; [|done].
    eapply reports_last; [apply dump_pte_addr|].
    rewrite pte_present_law, He, H8. by destruct (pte_none e).
Qed.

Lemma from_pud_reports pudp va pke :
  reports (from_pud pudp va pke) (hw_pd pmem (table_of (read_entry pmem pudp)) va).
Proof.
  unfold from_pud. apply reports_call; [done|]. intros pmdp ->.
  unfold table_at. rewrite pmd_index_law.
  apply reports_load; rewrite entry_at_law; unfold hw_pd;
    set (e := entry_at _ _ _ _); intros He; rewrite He.
  - pose proof (dump_pmd_addr e va pke) as Hd. revert Hd.
    rewrite pmd_none_law, pmd_present_law, pmd_leaf_law, He by done. cbn [orb negb].
    destruct (Z.testbit e 7) eqn:H7; intros Hd.
    + rewrite pmd_paddr_page by done.
      eapply reports_last; [eapply addr_then; [exact Hd|apply addr_ret]|done].
    + eapply reports_seq; [exact Hd|].
      replace e with (read_entry pmem (PAGE_OFFSET + table_of (read_entry pmem pudp)
        + 8 * Z.land (Z.shiftr va 21) 511)) by apply entry_at_law.
      apply from_pmd_reports.
  - split; [done|]. intros [H7 H8]%plain_absent; [|done].
    pose proof (dump_pmd_addr e va pke) as Hd. revert Hd.
    rewrite pmd_present_law, He, H7, H8, orb_true_r. intros Hd.
    eapply reports_last; [eapply addr_then; [exact Hd|apply addr_ret]|].
    by destruct (pmd_none e).
Qed.

Lemma from_p4d_reports p4dp va pke :
  reports (from_p4d p4dp va pke) (hw_pdpt pmem (table_of (read_entry pmem p4dp)) va).
Proof.
  unfold from_p4d. apply reports_call; [done|]. intros pudp ->.
  unfold table_at. rewrite pud_index_law.
  apply reports_load; rewrite entry_at_law; unfold hw_pdpt;
    set (e := entry_at _ _ _ _); intros He; rewrite He.
  - pose proof (dump_pud_addr e va pke) as Hd. revert Hd.
    rewrite pud_present_good_bits, pud_leaf_law, He by done. cbn [orb negb].
    destruct (Z.testbit e 7) eqn:H7; intros Hd.
    + rewrite pud_paddr_page by done.
      eapply reports_last; [eapply addr_then; [exact Hd|apply addr_ret]|done].
    + eapply reports_seq; [exact Hd|].
      replace e with (read_entry pmem (PAGE_OFFSET + table_of (read_entry pmem p4dp)
        + 8 * Z.land (Z.shiftr va 30) 511)) by apply entry_at_law.
      apply from_pud_reports.
  - split; [done|]. intros [H7 H8]%plain_absent; [|done].
    pose proof (dump_pud_addr e va pke) as Hd. revert Hd.
    rewrite pud_present_good_bits, He, H8. intros Hd.
    eapply reports_last; [eapply addr_then; [exact Hd|apply addr_ret]|done].
Qed.

Lemma reports_assoc {A B C} (p : kprog A) (f : A -> kprog B) (g : B -> kprog C) x :
  reports (p ≫= (fun a => f a ≫= g)) x -> reports ((p ≫= f) ≫= g) x.
Proof. apply always_assoc. Qed.

Lemma table_of_nonneg e : 0 <= table_of e.
Proof.
  apply Z.land_nonneg. right. apply Z.ldiff_nonneg. by left.
Qed.

Lemma index_nonneg va shift : 0 <= Z.land (Z.shiftr va shift) 511.
Proof. apply Z.land_nonneg. right. lia. Qed.

Lemma walk_4l_reports pgdp va pke :
  pgtable_l5_enabled = false ->
  Z.testbit (read_entry pmem pgdp) 0 = true ->
  reports (walk_4l pgdp va pke 0) (hw_pdpt pmem (table_of (read_entry pmem pgdp)) va).
Proof.
  intros H5 He. unfold walk_4l. simpl (0 =? 0). cbv beta iota.
  apply reports_load; [intros _|congruence].
  eapply reports_seq; [apply dump_pgd_addr|].
  rewrite pgd_present_law, H5. cbn [negb].
  apply reports_call; [done|]. intros p4dp Hp. cbn in Hp. rewrite H5 in Hp. subst p4dp.
  apply from_p4d_reports.
Qed.

Lemma walk_5l_reports pgdp va pke :
  pgtable_l5_enabled = true ->
  reports (walk_5l pgdp va pke)
    (let e := read_entry pmem pgdp in
     if Z.testbit e 0 then hw_pml4 pmem (table_of e) va else NotMapped).
Proof.
  intros H5. unfold walk_5l. cbv zeta.
  apply reports_load; set (e := read_entry pmem pgdp); intros He; rewrite He.
  - eapply reports_seq; [apply dump_pgd_addr|].
    rewrite pgd_present_law, H5, He. cbn [negb].
    apply reports_call; [done|]. intros p4dp Hp. cbn in Hp. rewrite H5 in Hp. subst p4dp.
    unfold table_at. rewrite p4d_index_law.
    apply reports_load; rewrite entry_at_law; unfold hw_pml4;
      set (e4 := entry_at _ _ _ _); intros He4; rewrite He4.
    + eapply reports_seq; [apply dump_p4d_addr|].
      rewrite p4d_present_law, He4. cbn [negb]. unfold walk_4l.
      destruct (Z.eqb_spec (PAGE_OFFSET + table_of (read_entry pmem pgdp) +
        8 * Z.land (Z.shiftr va 39) 511) 0) as [Hz|_].
      * pose proof page_offset_law. pose proof (table_of_nonneg (read_entry pmem pgdp)).
        pose proof (index_nonneg va 39). lia.
      * replace e4 with (read_entry pmem (PAGE_OFFSET +
          table_of (read_entry pmem pgdp) + 8 * Z.land (Z.shiftr va 39) 511))
          by apply entry_at_law.
        apply from_p4d_reports.
    + split; [done|]. intros _. eapply reports_last; [|done].
      eapply addr_then; [apply dump_p4d_addr|]. rewrite p4d_present_law, He4. apply addr_ret.
  - split; [done|]. intros _. eapply reports_last; [|done].
    eapply addr_then; [apply dump_pgd_addr|]. rewrite pgd_present_law, H5, He. apply addr_ret.
Qed.

(** What follows the walk logs no address. *)
Lemma reports_then {A B} (p : kprog A) (f : A -> kprog B) x :
  reports p x ->
  (forall a, always (f a) (fun t _ => paddrs (printed t) = [])) ->
  reports (p ≫= f) x.
Proof.
  intros Hp Hf. apply always_bind. eapply always_mono; [|exact Hp].
  intros t [a|h] Ha; [|done].
  eapply always_mono; [|exact (Hf a)]. cbn. intros t' o Ht' [Hl _]%Forall_app.
  destruct (Ha Hl) as [Hm Hn]. unfold agrees.
  rewrite printed_app, paddrs_app, Ht', app_nil_r.
  split; [done|]. intros [? _]%Forall_app. auto.
Qed.

Lemma walk_reports root va :
  top_present root va ->
  reports (walk (PAGE_OFFSET + root + 8 * pgd_index va) va)
    (hw_walk pmem pgtable_l5_enabled root va).
Proof.
  intros Htop. unfold walk, rdmsrl_wrap. apply reports_assoc.
  apply reports_call; [done|]. intros [err efer] [-> Hefer].
  cbn [truthy Z.eqb negb when]. cbv beta iota.
  apply (reports_call ReadCr0); [done|]. intros cr0 Hcr0. cbn in Hcr0.
  rewrite Hcr0, Hefer, Z.eqb_refl. cbn [negb].
  apply (reports_call ReadCr4); [done|]. intros cr4 [Hpae Hla].
  rewrite Hpae, Hla. cbn [negb].
  apply reports_then; [|done].
  rewrite pgd_index_law. unfold hw_walk.
  destruct pgtable_l5_enabled eqn:H5.
  - unfold hw_pml5. rewrite <- entry_at_law. by apply walk_5l_reports.
  - destruct Htop as [?|He]; [congruence|].
    unfold hw_pml4. rewrite He. rewrite <- entry_at_law in He |- *.
    by apply walk_4l_reports.
Qed.

Lemma walk_kernel_reports va :
  top_present (Z.land cr3 (not64 0xfff)) va ->
  reports (walk_kernel va)
    (hw_walk pmem pgtable_l5_enabled (Z.land cr3 (not64 0xfff)) va).
Proof.
  intros Htop. unfold walk_kernel. eapply reports_seq; [by apply addr_info|].
  apply (reports_call ReadCr3); [done|]. intros r Hr. cbn in Hr. subst r.
  apply (reports_call (PgdOffsetPgd _ _)); [done|]. intros r Hr. cbn in Hr. subst r.
  rewrite phys_to_virt_law. by apply walk_reports.
Qed.

(** The part of [walk_user] that follows the choice of the task. *)
Lemma reports_task user_pid (f : option Z -> kprog Z) x :
  (forall t, reports (f (Some t)) x) -> reports (walk_user_task user_pid ≫= f) x.
Proof.
  intros Hf. unfold walk_user_task, get_user_pid_task.
  destruct (user_pid =? -1).
  - apply reports_assoc. apply (reports_call GetCurrent); [done|]. intros task _.
    apply (reports_call (GetTaskStruct task)); [done|]. intros _ _. apply Hf.
  - apply reports_assoc. apply reports_assoc. apply (reports_call (FindGetPid _)); [done|].
    intros p _. apply (reports_call (GetPidTask _ _)); [done|]. intros task Ht.
    cbn in Ht. apply Z.eqb_neq in Ht. rewrite Ht. apply Hf.
Qed.

Lemma walk_user_reports user_pid va :
  task_mm <> 0 -> top_present (mm_pgd task_mm) va ->
  reports (walk_user user_pid va)
    (hw_walk pmem pgtable_l5_enabled (mm_pgd task_mm) va).
Proof.
  intros Hmm Htop. apply reports_task. intros task.
  apply (reports_call (GetTaskComm _)); [done|]. intros comm _.
  apply (reports_call (TaskPid _)); [done|]. intros pid _.
  eapply reports_seq; [by apply addr_info|].
  apply (reports_call (TaskLock _)); [done|]. intros _ _.
  apply (reports_call (TaskMm _)); [done|]. intros mm Hm. cbn in Hm. subst mm.
  apply Z.eqb_neq in Hmm. rewrite Hmm.
  apply (reports_call (Mmget _)); [done|]. intros _ _.
  apply (reports_call (TaskUnlock _)); [done|]. intros _ _.
  apply (reports_call (PutTaskStruct _)); [done|]. intros _ _.
  apply (reports_call (PgdOffset _ _)); [done|]. intros pgdp Hp. cbn in Hp. subst pgdp.
  apply reports_then; [by apply walk_reports|]. intros res. by intros [].
Qed.

Lemma init_reports user_pid va :
  task_mm <> 0 -> top_present (walk_root user_pid) va ->
  reports (page_table_walk_init user_pid va false)
    (hw_walk pmem pgtable_l5_enabled (walk_root user_pid) va).
Proof.
  unfold walk_root. intros Hmm Htop. unfold page_table_walk_init.
  apply reports_then; [|intros err; by destruct (truthy err)].
  destruct (truthy user_pid); [by apply walk_user_reports|by apply walk_kernel_reports].
Qed.

End leaves.

(** ** The walk holds nothing *)

Section neutrality.
Context `{X86}.

Lemma dump_flags_common_neutral v : neutral (dump_flags_common v).
Proof. unfold dump_flags_common. neutral_tac. Qed.

Lemma dump_flags_last_level_neutral v pke : neutral (dump_flags_last_level v pke).
Proof. unfold dump_flags_last_level. neutral_tac. Qed.

Lemma dump_swap_flags_neutral v : neutral (dump_swap_flags v).
Proof. unfold dump_swap_flags. neutral_tac. Qed.

Hint Resolve dump_flags_common_neutral dump_flags_last_level_neutral
  dump_swap_flags_neutral : cneutral.

Lemma dump_pgd_neutral e va : neutral (dump_pgd e va).
Proof. unfold dump_pgd. neutral_tac. Qed.

Lemma dump_p4d_neutral e va : neutral (dump_p4d e va).
Proof. unfold dump_p4d. neutral_tac. Qed.

Lemma dump_pud_neutral e va pke : neutral (dump_pud e va pke).
Proof. unfold dump_pud. neutral_tac. Qed.

Lemma dump_pmd_neutral e va pke : neutral (dump_pmd e va pke).
Proof. unfold dump_pmd. neutral_tac. Qed.

Lemma dump_pte_neutral e va pke : neutral (dump_pte e va pke).
Proof. unfold dump_pte. neutral_tac. Qed.

Hint Resolve dump_pgd_neutral dump_p4d_neutral dump_pud_neutral dump_pmd_neutral
  dump_pte_neutral : cneutral.

Lemma walk_4l_neutral pgdp va pke p4dp : neutral (walk_4l pgdp va pke p4dp).
Proof. unfold walk_4l. neutral_tac. Qed.

Hint Resolve walk_4l_neutral : cneutral.

Lemma walk_5l_neutral pgdp va pke : neutral (walk_5l pgdp va pke).
Proof. unfold walk_5l. neutral_tac. Qed.

Hint Resolve walk_5l_neutral : cneutral.

Lemma walk_neutral pgdp va : neutral (walk pgdp va).
Proof. unfold walk, rdmsrl_wrap. neutral_tac. Qed.

Hint Resolve walk_neutral : cneutral.

Lemma walk_kernel_neutral va : neutral (walk_kernel va).
Proof. unfold walk_kernel. neutral_tac. Qed.

(** [walk_task] gives back the task reference it is handed, and all it takes. *)
Lemma walk_task_counted task va r :
  counted r (if decide (r = RTask task) then 1 else 0) (walk_task task va) 0.
Proof.
  unfold walk_task. cbv zeta. case_decide; subst; counted_tac.
Qed.

Lemma walk_user_counted user_pid va r :
  (forall p, r <> RPid p) -> counted r 0 (walk_user user_pid va) 0.
Proof.
  intros Hr. unfold walk_user, walk_user_task, get_user_pid_task.
  pose proof (fun task => walk_task_counted task va r) as Hw.
  destruct (user_pid =? -1).
  - apply counted_assoc, counted_neutral; [by neutral_tac|done|intros task].
    specialize (Hw task). apply counted_assoc. counted_call; apply Hw.
  - do 2 apply counted_assoc. apply counted_call. intros p.
    replace (delta r _) with 0.
    + split; [done|]. apply counted_call. intros task. specialize (Hw task).
      unfold delta; cbn [effect_of]. destruct (Z.eqb_spec task 0) as [->|Ht].
      * split; [done|]. counted_tac.
      * case_decide; split; done.
    + unfold delta; cbn [effect_of]. case_match eqn:E; [|done].
      case_match; simplify_eq. case_decide; [naive_solver|done].
Qed.

(** The [struct pid] that [find_get_pid] returned is still held at the end. *)
Lemma walk_user_pid user_pid va :
  user_pid <> -1 ->
  always (walk_user user_pid va) (fun t _ => exists p t',
    t = Obs (E := kernelE) (FindGetPid user_pid) p :: t' /\
    (p <> 0 -> held delta (RPid p) t = 1)).
Proof.
  intros Hpid. unfold walk_user, walk_user_task, get_user_pid_task.
  apply Z.eqb_neq in Hpid. rewrite Hpid.
  do 2 apply always_assoc. intros p. cbn [always].
  assert (Hc : counted (RPid p) 0
    (task ← kdo (GetPidTask p PIDTYPE_PID) ;
     (if task =? 0 then
        pr_err ("No task with user PID = %d." +:+ nl) [AZ user_pid] ;; mret None
      else mret (Some task)) ≫= fun found => match found with
      | None => mret (- ESRCH) | Some task => walk_task task va end) 0).
  { apply counted_call. intros task. pose proof (walk_task_counted task va (RPid p)) as Hw.
    unfold delta; cbn [effect_of]. destruct (Z.eqb_spec task 0) as [->|Ht].
    - split; [done|]. counted_tac.
    - split; done. }
  eapply always_mono; [|exact Hc]. intros t o [_ Ht]. exists p, t. split; [done|].
  intros Hp. apply counts_held in Ht. cbn [held].
  unfold delta at 1; cbn [effect_of]. apply Z.eqb_neq in Hp. rewrite Hp.
  case_decide; [lia|done].
Qed.

End neutrality.
