(* ===== verification/PageTableThms.v ===== *)
(** The properties of src/modules/page_table_walk.c, with the architecture
instance their witnesses use. *)
From S2P Require Import Prelude Effects Kernel PageTable PageTableFacts.

(** ** An instance: x86_64 with 4 ([l5 = false]) or 5 levels

The values of the flags, masks and shifts are the architecture's; the helpers
the properties say nothing about (swap entries, register bit numbers) have the
documented layout. The direct map starts at [0xffff888000000000]. *)
Definition x86_64 (l5 : bool) : X86 := {|
  CONFIG_HAVE_ARCH_USERFAULTFD_WP := true;
  CONFIG_MEM_SOFT_DIRTY := true;
  CONFIG_THP_MIGRATION := true;
  CONFIG_X86_INTEL_MEMORY_PROTECTION_KEYS := true;
  pgtable_l5_enabled := l5;
  PGDIR_SHIFT := if l5 then 48 else 39; P4D_SHIFT := 39; PUD_SHIFT := 30;
  PMD_SHIFT := 21; PAGE_SHIFT := 12;
  PTRS_PER_PGD := 512; PTRS_PER_P4D := if l5 then 512 else 1; PTRS_PER_PUD := 512;
  PTRS_PER_PMD := 512; PTRS_PER_PTE := 512;
  PGDIR_MASK := not64 (Z.ones (if l5 then 48 else 39)); P4D_MASK := not64 (Z.ones 39);
  PUD_MASK := not64 (Z.ones 30); PMD_MASK := not64 (Z.ones 21);
  PAGE_MASK := not64 (Z.ones 12);
  PHYSICAL_PAGE_MASK := frame_mask 12; PHYSICAL_PMD_PAGE_MASK := frame_mask 21;
  PHYSICAL_PUD_PAGE_MASK := frame_mask 30; PTE_PFN_MASK := frame_mask 12;
  PAGE_OFFSET := 0xffff888000000000;
  _PAGE_PRESENT := 2 ^ 0; _PAGE_RW := 2 ^ 1; _PAGE_USER := 2 ^ 2; _PAGE_PWT := 2 ^ 3;
  _PAGE_PCD := 2 ^ 4; _PAGE_ACCESSED := 2 ^ 5; _PAGE_DIRTY := 2 ^ 6;
  _PAGE_PAT := 2 ^ 7; _PAGE_PAT_LARGE := 2 ^ 12; _PAGE_GLOBAL := 2 ^ 8;
  _PAGE_PROTNONE := 2 ^ 8; _PAGE_UFFD_WP := 2 ^ 10; _PAGE_SOFT_DIRTY := 2 ^ 11;
  _PAGE_NX := 2 ^ 63; _PAGE_PKEY_MASK := Z.shiftl (Z.ones 4) 59;
  _PAGE_BIT_PKEY_BIT0 := 59; _PAGE_SWP_UFFD_WP := 2 ^ 2; _PAGE_SWP_SOFT_DIRTY := 2 ^ 1;
  pgd_index va := Z.land (Z.shiftr va (if l5 then 48 else 39)) 511;
  p4d_index va := Z.land (Z.shiftr va 39) 511;
  pud_index va := Z.land (Z.shiftr va 30) 511;
  pmd_index va := Z.land (Z.shiftr va 21) 511;
  pte_index va := Z.land (Z.shiftr va 12) 511;
  pgd_present e := if l5 then Z.testbit e 0 else true;
  p4d_present e := Z.testbit e 0;
  pmd_present e := (Z.testbit e 0 || Z.testbit e 8 || Z.testbit e 7)%bool;
  pte_present e := (Z.testbit e 0 || Z.testbit e 8)%bool;
  pmd_none e := Z.land e (not64 96) =? 0;
  pte_none e := Z.land e (not64 96) =? 0;
  pud_leaf e := Z.testbit e 7; pmd_leaf e := Z.testbit e 7;
  pud_flags e := Z.land e (not64 (if Z.testbit e 7 then frame_mask 30 else frame_mask 12));
  pud_pfn e := Z.shiftr (Z.land (Z.lxor e
    (if (truthy e && negb (Z.testbit e 0))%bool then Z.ones 64 else 0))
    (if Z.testbit e 7 then frame_mask 30 else frame_mask 12)) 12;
  pmd_pfn e := Z.shiftr (Z.land (Z.lxor e
    (if (truthy e && negb (Z.testbit e 0))%bool then Z.ones 64 else 0))
    (if Z.testbit e 7 then frame_mask 21 else frame_mask 12)) 12;
  pte_pfn e := Z.shiftr (Z.land (Z.lxor e
    (if (truthy e && negb (Z.testbit e 0))%bool then Z.ones 64 else 0)) (frame_mask 12)) 12;
  zero_page_pfn := 1;
  __pte_needs_invert e := (truthy e && negb (Z.testbit e 0))%bool;
  swp_type e := Z.shiftr e 58; swp_offset e := Z.land e (Z.ones 58);
  pmd_to_swp_entry e := Z.lor (Z.shiftl (Z.shiftr e 59) 58) (Z.shiftr (Z.shiftl (Z.lnot e) 5) 14);
  pte_to_swp_entry e := Z.lor (Z.shiftl (Z.shiftr e 59) 58) (Z.shiftr (Z.shiftl (Z.lnot e) 5) 14);
  phys_to_virt a := 0xffff888000000000 + a;
  MSR_EFER := 0xc0000080; EFER_LME := 2 ^ 8; EFER_LMA := 2 ^ 10;
  X86_CR0_PG := 2 ^ 31; X86_CR4_PAE := 2 ^ 5; X86_CR4_PKE := 2 ^ 22;
  X86_CR4_LA57 := 2 ^ 12;
|}.

Lemma none_of_present e : Z.testbit e 0 = true -> (Z.land e (not64 96) =? 0) = false.
Proof.
  intros He. apply Z.eqb_neq. intros Hz.
  apply (f_equal (fun z => Z.testbit z 0)) in Hz. rewrite Z.land_spec, He in Hz. done.
Qed.

Lemma pud_flags_bit (e i : Z) :
  0 <= i < 12 ->
  Z.testbit (Z.land e (not64 (if Z.testbit e 7 then frame_mask 30 else frame_mask 12))) i
  = Z.testbit e i.
Proof.
  intros Hi. rewrite Z.land_spec, testbit_not64 by lia.
  replace (i <? 64) with true by lia.
  destruct (Z.testbit e 7); rewrite testbit_frame_mask by lia;
    [replace (i <? 30) with true by lia|replace (i <? 12) with true by lia]; btauto.
Qed.

#[export] Instance x86_64_laws l5 : @X86Laws (x86_64 l5).
Proof.
  split; try done.
  - intros e. by apply (pud_flags_bit e 0).
  - intros e. by apply (pud_flags_bit e 8).
  - intros e. apply none_of_present.
  - intros e. apply none_of_present.
Qed.

(** ** Decoding what was printed *)

(** The flag a message stands for. *)
Definition flag_of_message (s : string) : Z :=
  if decide (s = " PRESENT") then 2 ^ 0 else
  if decide (s = " RW") then 2 ^ 1 else
  if decide (s = " USER") then 2 ^ 2 else
  if decide (s = " PWT") then 2 ^ 3 else
  if decide (s = " PCD") then 2 ^ 4 else
  if decide (s = " ACCESSED") then 2 ^ 5 else
  if decide (s = " DIRTY") then 2 ^ 6 else
  if decide (s = " PAT") then 2 ^ 7 else
  if decide (s = " GLOBAL") then 2 ^ 8 else
  if decide (s = " PROTNONE") then 2 ^ 8 else
  if decide (s = " UFFD_WP") then 2 ^ 10 else
  if decide (s = " SOFT_DIRTY") then 2 ^ 11 else
  if decide (s = " NX") then 2 ^ 63 else 0.

Definition bits_of_line (l : logline) : Z :=
  match log_args l with
  | [AL k] => if decide (log_fmt l = " PKEY=%lx") then Z.shiftl k 59 else 0
  | _ => flag_of_message (log_fmt l)
  end.

(** The entry bits a log stands for. *)
Definition decode_flags (ls : list logline) : Z :=
  foldr (fun l acc => Z.lor (bits_of_line l) acc) 0 ls.

(** The bits of an entry that the log of a page shows. *)
Definition shown_bits `{X86} (pke : bool) : Z :=
  Z.lor (union_bits [0; 1; 2; 3; 4; 5; 7; 6; 8])
    (Z.lor (if CONFIG_HAVE_ARCH_USERFAULTFD_WP then 2 ^ 10 else 0)
      (Z.lor (if CONFIG_MEM_SOFT_DIRTY then 2 ^ 11 else 0)
        (Z.lor (2 ^ 63) (if pke then Z.shiftl (Z.ones 4) 59 else 0)))).

(** ** Theorems *)

Section theorems.
Context `{X86Laws}.

Lemma decode_flags_app ls ls' :
  decode_flags (ls ++ ls') = Z.lor (decode_flags ls) (decode_flags ls').
Proof.
  induction ls as [|l ls IH]; simpl; [done|]. by rewrite IH, Z.lor_assoc.
Qed.

Lemma decode_flags_if (b : bool) ls :
  decode_flags (if b then ls else []) = if b then decode_flags ls else 0.
Proof. by destruct b. Qed.

(** Inversion flips the frame bits of an entry and nothing else. *)
Lemma invert_as_xor e m :
  in_u64 e -> in_u64 m ->
  Z.lor (Z.land e (not64 m)) (Z.land (not64 e) m) = Z.lxor e m.
Proof.
  intros He Hm. apply Z.bits_inj'. intros i Hi.
  rewrite Z.lor_spec, !Z.land_spec, Z.lxor_spec, !testbit_not64 by lia.
  destruct (Z.ltb_spec i 64).
  - by destruct (Z.testbit e i), (Z.testbit m i).
  - by rewrite !(in_u64_testbit _ i) by done.
Qed.

Lemma phys_page_mask_u64 : in_u64 PHYSICAL_PAGE_MASK.
Proof. by rewrite phys_page_mask_law. Qed.

Lemma invert_frame e :
  in_u64 e ->
  Z.land (Z.lxor e (frame_mask 12)) (frame_mask 12) =
  Z.land (Z.lxor e (Z.ones 64)) (frame_mask 12).
Proof.
  intros He. apply Z.bits_inj'. intros i Hi.
  rewrite !Z.land_spec, !Z.lxor_spec, testbit_frame_mask, testbit_ones by lia.
  destruct (Z.ltb_spec i 52), (Z.ltb_spec i 64); try lia; btauto.
Qed.

Lemma invert_val_xor e :
  in_u64 e ->
  invert_val_if_needed e =
  if __pte_needs_invert e then Z.lxor e PHYSICAL_PAGE_MASK else e.
Proof.
  intros He. unfold invert_val_if_needed. case_match; [|done].
  apply invert_as_xor; [done|apply phys_page_mask_u64].
Qed.

Lemma lxor_u64 a b : in_u64 a -> in_u64 b -> in_u64 (Z.lxor a b).
Proof.
  intros Ha Hb. replace (Z.lxor a b) with (u64 (Z.lxor a b)); [apply u64_in|].
  apply Z.bits_inj'. intros i Hi. rewrite testbit_u64, Z.lxor_spec.
  destruct (Z.ltb_spec i 64); [done|]. by rewrite !(in_u64_testbit _ i) by done.
Qed.

Lemma invert_involutive e :
  in_u64 e -> e <> PHYSICAL_PAGE_MASK ->
  invert_val_if_needed (invert_val_if_needed e) = e.
Proof.
  intros He Hne. pose proof phys_page_mask_u64 as Hm.
  rewrite (invert_val_xor e He).
  destruct (__pte_needs_invert e) eqn:Hi; [|by rewrite invert_val_xor, Hi].
  rewrite invert_val_xor by by apply lxor_u64.
  replace (__pte_needs_invert _) with true.
  - by rewrite Z.lxor_assoc, Z.lxor_nilpotent, Z.lxor_0_r.
  - rewrite needs_invert_law in Hi |- *. apply andb_true_iff in Hi as [_ Hb].
    rewrite Z.lxor_spec, phys_page_mask_law, testbit_frame_mask by lia.
    replace ((0 <? 52) && negb (0 <? 12))%bool with false by done.
    rewrite xorb_false_r, Hb. rewrite phys_page_mask_law in Hne.
    unfold truthy. destruct (Z.eqb_spec (Z.lxor e (frame_mask 12)) 0) as [Hz|]; [|done].
    by apply Z.lxor_eq in Hz.
Qed.

(** A flag message is logged exactly when the flag is set. *)
Lemma single_flag v b :
  0 <= b -> (if has v (2 ^ b) then 2 ^ b else 0) = Z.land v (2 ^ b).
Proof.
  intros Hb. pose proof (pick_bits v [b]) as Hp. simpl in Hp.
  rewrite !Z.lor_0_r in Hp. apply Hp. by repeat constructor.
Qed.

Lemma guarded_flag v (c : bool) b :
  0 <= b ->
  (if (c && has v (2 ^ b))%bool then 2 ^ b else 0) = Z.land v (if c then 2 ^ b else 0).
Proof.
  intros Hb. destruct c; simpl; [by apply single_flag|by rewrite Z.land_0_r].
Qed.

Lemma pkey_bits v :
  Z.shiftl (Z.shiftr (Z.land v (Z.shiftl (Z.ones 4) 59)) 59) 59 =
  Z.land v (Z.shiftl (Z.ones 4) 59).
Proof.
  apply Z.bits_inj'. intros i Hi.
  destruct (Z.lt_ge_cases i 59).
  - rewrite Z.shiftl_spec_low, Z.land_spec, Z.shiftl_spec_low by lia. btauto.
  - rewrite Z.shiftl_spec, Z.shiftr_spec by lia.
    by replace (i - 59 + 59) with i by lia.
Qed.

Lemma dump_flags_common_prints v :
  exists ls, prints (dump_flags_common v) ls tt /\
    decode_flags ls = Z.land v (union_bits [0; 1; 2; 3; 4; 5]).
Proof.
  eexists. split; [unfold dump_flags_common; prints_tac|].
  rewrite !decode_flags_app.
  rewrite present_law, rw_law, user_law, pwt_law, pcd_law, accessed_law.
  rewrite <- pick_bits by (by repeat constructor).
  cbn [foldr]. rewrite Z.lor_0_r. by repeat (f_equal; [by case_match|]); case_match.
Qed.

Lemma dump_flags_last_level_prints v pke :
  exists ls, prints (dump_flags_last_level v pke) ls tt /\
    decode_flags ls = Z.land v (Z.lor (2 ^ 6) (Z.lor (2 ^ 8)
      (Z.lor (if CONFIG_HAVE_ARCH_USERFAULTFD_WP then 2 ^ 10 else 0)
        (Z.lor (if CONFIG_MEM_SOFT_DIRTY then 2 ^ 11 else 0)
          (Z.lor (2 ^ 63) (if pke then Z.shiftl (Z.ones 4) 59 else 0)))))).
Proof.
  eexists. split; [unfold dump_flags_last_level; prints_tac|].
  rewrite !decode_flags_app, !Z.land_lor_distr_r.
  rewrite dirty_law, protnone_law, present_law, uffd_wp_law, soft_dirty_law, nx_law,
    pkey_mask_law, pkey_bit_law.
  rewrite <- !single_flag, <- !guarded_flag by lia.
  f_equal; [by case_match|].
  f_equal; [by repeat case_match|].
  do 3 (f_equal; [by case_match|]).
  destruct pke; [|by rewrite Z.land_0_r].
  cbn -[Z.land Z.shiftl Z.shiftr]. by rewrite Z.lor_0_r, pkey_bits.
Qed.

Lemma dump_pte_prints e va pke :
  pte_none e = false -> pte_present e = true ->
  exists ls, prints (dump_pte e va pke) ls tt /\
    decode_flags ls = Z.land (invert_val_if_needed e) (shown_bits pke).
Proof.
  intros Hn Hp. unfold dump_pte. rewrite Hn, Hp. cbn [negb].
  destruct (dump_flags_common_prints (invert_val_if_needed e)) as (l1 & H1 & Hd1).
  destruct (dump_flags_last_level_prints (invert_val_if_needed e) pke) as (l2 & H2 & Hd2).
  eexists. split.
  - eapply prints_bind; [apply prints_printk|].
    eapply prints_bind; [exact H1|].
    eapply prints_bind; [eapply prints_when, prints_printk|].
    eapply prints_bind; [exact H2|].
    eapply prints_bind; apply prints_printk.
  - rewrite !decode_flags_app, Hd1, Hd2, decode_flags_if, pat_law.
    replace (decode_flags [Log KERN_CONT " PAT" []]) with (2 ^ 7) by done.
    rewrite single_flag by lia. unfold shown_bits.
    set (v := invert_val_if_needed e). clearbody v.
    set (rest := Z.lor (if CONFIG_HAVE_ARCH_USERFAULTFD_WP then 2 ^ 10 else 0) _).
    clearbody rest.
    replace (decode_flags [Log KERN_CONT nl []]) with 0 by done.
    replace (decode_flags _) with 0 by (by destruct (is_zero_page_pte e)).
    replace (decode_flags _) with 0 by done.
    rewrite !Z.lor_0_r, Z.lor_0_l, <- !Z.land_lor_distr_r, !Z.lor_assoc. done.
Qed.

(** When the hardware translates the address to [pa], the log contains exactly
    one physical address, [pa]. *)
Lemma init_reports_mapping pmem cr3 mm_pgd task_mm user_pid va pa :
  task_mm <> 0 ->
  top_present pmem (walk_root cr3 mm_pgd task_mm user_pid) va ->
  hw_walk pmem pgtable_l5_enabled (walk_root cr3 mm_pgd task_mm user_pid) va = Mapped pa ->
  always (page_table_walk_init user_pid va false) (fun t _ =>
    Forall (lawful pmem cr3 mm_pgd task_mm) t -> paddrs (printed t) = [pa]).
Proof.
  intros Hmm Htop Hx.
  eapply always_mono; [|apply (init_reports pmem cr3 mm_pgd task_mm user_pid va Hmm Htop)].
  intros t o Ha Hl. by apply (Ha Hl).
Qed.

(** C1. The log agrees with the hardware, whichever page tables the module was
    asked to inspect: when the hardware translates the address to [pa] (4K, 2M
    and 1G pages, 4 and 5 levels) the log contains exactly one physical address,
    [pa]; and if no entry read carries PROTNONE, or PSE without being present,
    it contains an address exactly when the hardware has one, so that nothing is
    reported for an address that is not mapped. *)
Theorem init_agrees_with_hardware pmem cr3 mm_pgd task_mm user_pid va :
  task_mm <> 0 ->
  top_present pmem (walk_root cr3 mm_pgd task_mm user_pid) va ->
  let x := hw_walk pmem pgtable_l5_enabled (walk_root cr3 mm_pgd task_mm user_pid) va in
  always (page_table_walk_init user_pid va false) (fun t _ =>
    Forall (lawful pmem cr3 mm_pgd task_mm) t ->
    (forall pa, x = Mapped pa -> paddrs (printed t) = [pa]) /\
    (Forall plain_load t -> paddrs (printed t) = mapped_addrs x)).
Proof.
  intros Hmm Htop. exact (init_reports pmem cr3 mm_pgd task_mm user_pid va Hmm Htop).
Qed.

(** C3. With four levels the top-level entry is not checked ([pgd_present] is
    constantly true when the p4d is folded): if it is absent, the hardware maps
    nothing, but the module goes on with the table at the frame the absent
    entry names and reports what it finds there. *)
Theorem walk_4l_absent_top pmem cr3 mm_pgd task_mm root va pke pa :
  pgtable_l5_enabled = false ->
  Z.testbit (entry_at pmem root va 39) 0 = false ->
  hw_pdpt pmem (table_of (entry_at pmem root va 39)) va = Mapped pa ->
  hw_walk pmem pgtable_l5_enabled root va = NotMapped /\
  always (walk_4l (PAGE_OFFSET + root + 8 * pgd_index va) va pke 0) (fun t _ =>
    Forall (lawful pmem cr3 mm_pgd task_mm) t -> paddrs (printed t) = [pa]).
Proof.
  intros H5 He Hx. unfold hw_walk, hw_pml4. rewrite H5, He. split; [done|].
  rewrite pgd_index_law, H5. set (pgdp := PAGE_OFFSET + root + _).
  intros pgd. eapply always_mono with (Q := fun t _ =>
    Forall (lawful pmem cr3 mm_pgd task_mm) t -> agrees t (Mapped pa)).
  { intros t o Ha [_ Hl]%Forall_cons. destruct (Ha Hl) as [Hm _]. by apply Hm. }
  refine (reports_seq pmem cr3 mm_pgd task_mm (dump_pgd pgd va) _ _ _ (dump_pgd_addr pgd va) _).
  rewrite pgd_present_law, H5. cbn [negb].
  apply (reports_call pmem cr3 mm_pgd task_mm); [done|].
  intros p4dp Hp. cbn in Hp. rewrite H5 in Hp. subst p4dp.
  rewrite <- Hx, <- entry_at_law. apply (from_p4d_reports pmem cr3 mm_pgd task_mm).
Qed.

(** C4. The flags logged for a mapped page can be read back: they stand for
    exactly the displayed bits of the entry (protection key included when the
    CPU has them), so no flag is lost, invented or mislabelled. *)
Theorem pte_flags_roundtrip e va pke :
  pte_none e = false -> pte_present e = true ->
  always (dump_pte e va pke) (fun t o =>
    o = Done tt /\
    decode_flags (printed t) = Z.land (invert_val_if_needed e) (shown_bits pke)).
Proof.
  intros Hn Hp. destruct (dump_pte_prints e va pke Hn Hp) as (ls & Hls & <-).
  eapply always_mono; [|exact Hls]. by intros t o (-> & -> & _).
Qed.

(** C5. The value shown for an entry whose frame number the kernel inverted
    (L1TF): the frame in it is the one the physical address is computed from,
    the other bits are those of the entry, and inverting again gives the entry
    back (except for the one value that inverts to the empty entry). *)
Theorem invert_val_consistent e :
  in_u64 e ->
  Z.shiftr (Z.land (invert_val_if_needed e) PHYSICAL_PAGE_MASK) 12 = pte_pfn e /\
  Z.land (invert_val_if_needed e) (not64 PHYSICAL_PAGE_MASK) =
    Z.land e (not64 PHYSICAL_PAGE_MASK) /\
  (e <> PHYSICAL_PAGE_MASK -> invert_val_if_needed (invert_val_if_needed e) = e).
Proof.
  intros He. split; [|split].
  - rewrite invert_val_xor by done.
    rewrite pte_pfn_law, pte_pfn_mask_law, phys_page_mask_law. f_equal.
    unfold protnone_mask. destruct (__pte_needs_invert e); [|by rewrite Z.lxor_0_r].
    by apply invert_frame.
  - rewrite invert_val_xor by done. destruct (__pte_needs_invert e); [|done].
    apply Z.bits_inj'. intros i Hi.
    rewrite !Z.land_spec, Z.lxor_spec, testbit_not64 by lia. btauto.
  - by apply invert_involutive.
Qed.

(** The registers, as the trace of [walk] read them. *)
Definition walk_registers (t : trace kernelE) (efer cr0 cr4 : Z) : Prop :=
  exists rest,
    t = Obs (E := kernelE) (RdmsrlSafe MSR_EFER) (0, efer) ::
        Obs (E := kernelE) ReadCr0 cr0 :: Obs (E := kernelE) ReadCr4 cr4 :: rest.

Definition reads_table (t : trace kernelE) : Prop :=
  exists p v, Obs (E := kernelE) (Load p) v ∈ t.

(** A trace with no [Load] in it. *)
Ltac no_read :=
  intros (? & ? & Hin);
  repeat (apply elem_of_cons in Hin as [Hin|Hin]; [discriminate Hin|]);
  by apply not_elem_of_nil in Hin.

(** C6. [walk] always returns, with the error of [rdmsrl_safe] or else 0, and
    it reads page tables only after the registers said that the CPU is in
    IA-32e mode with paging and PAE enabled. *)
Theorem walk_guarded pgdp va :
  always (walk pgdp va) (fun t o =>
    (exists err efer rest, o = Done err /\
      t = Obs (E := kernelE) (RdmsrlSafe MSR_EFER) (err, efer) :: rest) /\
    (reads_table t -> exists efer cr0 cr4,
      walk_registers t efer cr0 cr4 /\
      Z.land efer (Z.lor EFER_LME EFER_LMA) = Z.lor EFER_LME EFER_LMA /\
      has cr0 X86_CR0_PG = true /\ has cr4 X86_CR4_PAE = true)).
Proof.
  intros [err efer]. destruct (truthy err) eqn:Herr.
  { cbn -[truthy]. rewrite Herr. intros []. cbn -[truthy]. rewrite Herr.
    split; [by eexists _, _, _|no_read]. }
  assert (err = 0) as -> by (unfold truthy in Herr; lia). cbn [truthy Z.eqb negb].
  intros cr0. destruct (has cr0 X86_CR0_PG) eqn:Hcr0; cbn -[Z.lor Z.land].
  2: { rewrite Hcr0. intros []. split; [by eexists _, _, _|no_read]. }
  rewrite Hcr0. cbn -[Z.lor Z.land walk_4l walk_5l].
  destruct (Z.eqb_spec (Z.land efer (Z.lor EFER_LME EFER_LMA)) (Z.lor EFER_LME EFER_LMA))
    as [Hefer|]; cbn -[Z.lor Z.land walk_4l walk_5l].
  2: { intros []. split; [by eexists _, _, _|no_read]. }
  intros cr4. destruct (has cr4 X86_CR4_PAE) eqn:Hpae; cbn -[Z.lor Z.land walk_4l walk_5l].
  2: { intros []. split; [by eexists _, _, _|no_read]. }
  apply always_bind. set (pke := (_ && _)%bool).
  assert (Hn : neutral (if has cr4 X86_CR4_LA57
    then walk_5l pgdp va pke else walk_4l pgdp va pke 0))
    by (case_match; [apply walk_5l_neutral|apply walk_4l_neutral]).
  refine (always_mono _ _ _ _ Hn). intros t o [[[] ->] _]. cbn -[Z.lor Z.land]. split; [by eexists _, _, _|].
  intros _. exists efer, cr0, cr4. by repeat split; [eexists|..].
Qed.

(** Whatever it takes, other than the [struct pid], it gives back. *)
Lemma init_balanced user_pid va dump r :
  (forall p, r <> RPid p) ->
  always (page_table_walk_init user_pid va dump) (fun t o => balanced r t).
Proof.
  intros Hr. unfold page_table_walk_init. destruct dump.
  - apply counted_balanced. unfold dump_macros. counted_tac.
  - apply always_bind. destruct (truthy user_pid).
    + eapply always_mono; [|by apply (walk_user_counted user_pid va r)].
      intros t o [[err ->] Ht]. destruct (truthy err); cbn; by rewrite app_nil_r.
    + eapply always_mono; [|apply walk_kernel_neutral].
      intros t o [[err ->] Ht]. destruct (truthy err); cbn; rewrite app_nil_r;
        by apply no_effect_counts.
Qed.

(** The [struct pid] taken by [find_get_pid] is still held at the end. *)
Lemma init_leaks_pid user_pid va :
  user_pid <> 0 -> user_pid <> -1 ->
  always (page_table_walk_init user_pid va false) (fun t o => exists p t',
    t = Obs (E := kernelE) (FindGetPid user_pid) p :: t' /\
    (p <> 0 -> held delta (RPid p) t = 1)).
Proof.
  intros H0' H1. unfold page_table_walk_init. apply always_bind.
  assert (truthy user_pid = true) as -> by (unfold truthy; lia).
  eapply always_mono; [|by apply walk_user_pid].
  intros t [err|h] Ht; [|done].
  destruct (truthy err); cbn; by rewrite app_nil_r.
Qed.

Lemma init_never_succeeds user_pid va dump :
  always (page_table_walk_init user_pid va dump) (fun t o =>
    exists err, o = Done err /\ err <> 0).
Proof.
  unfold page_table_walk_init. destruct dump.
  - cbn. intros. by eexists.
  - apply always_bind. destruct (truthy user_pid).
    + eapply always_mono; [|by apply (walk_user_counted user_pid va RRcu)].
      intros t o [[err ->] _]. destruct (truthy err) eqn:He; cbn; eexists;
        (split; [done|]); unfold truthy, ECANCELED in *; lia.
    + eapply always_mono; [|apply walk_kernel_neutral].
      intros t o [[err ->] _]. destruct (truthy err) eqn:He; cbn; eexists;
        (split; [done|]); unfold truthy, ECANCELED in *; lia.
Qed.

(** C7. Every reference and lock the module takes it gives back, on every path and
    whatever the kernel answers, except the [struct pid] of the task it was asked
    for: after every execution for a pid that exists the reference taken by
    [find_get_pid] is still held. Loading never succeeds, so the module can be
    inserted, and lose a reference, again. *)
Theorem init_references user_pid va dump :
  always (page_table_walk_init user_pid va dump) (fun t o =>
    (forall r, (forall p, r <> RPid p) -> balanced r t) /\
    (dump = false -> user_pid <> 0 -> user_pid <> -1 -> exists p t',
      t = Obs (E := kernelE) (FindGetPid user_pid) p :: t' /\
      (p <> 0 -> held delta (RPid p) t = 1)) /\
    exists err, o = Done err /\ err <> 0).
Proof.
  apply always_behaves. intros t o Hb. split_and!.
  - intros r Hr. exact (proj1 (always_behaves _ _) (init_balanced user_pid va dump r Hr) t o Hb).
  - intros -> Hp0 Hp1.
    exact (proj1 (always_behaves _ _) (init_leaks_pid user_pid va Hp0 Hp1) t o Hb).
  - exact (proj1 (always_behaves _ _) (init_never_succeeds user_pid va dump) t o Hb).
Qed.

End theorems.

(** ** Witnesses

Page tables at physical 0x1000 (top), 0x2000, 0x3000, 0x4000 that map the
address with index 1 at every level to the page at 0x5000, and, at index 2 of
the top level, an absent entry. *)
Definition demo_va : Z := 2 ^ 39 + 2 ^ 30 + 2 ^ 21 + 2 ^ 12 + 0xabc.

Definition demo_mem (a : Z) : Z :=
  if a =? 0x1008 then 0x2003 else
  if a =? 0x2008 then 0x3003 else
  if a =? 0x3008 then 0x4003 else
  if a =? 0x4008 then 0x5000 + 0x67 + 2 ^ 63 else
  (* physical page 0, read through an absent top-level entry *)
  if a =? 0x8 then 0x80000083 else 0.

(** The documented answers, computed. *)
Definition demo_env (l5 : bool) : env kernelE :=
  fun _ c =>
  let X := x86_64 l5 in
  match c return kans c with
  | Load p => demo_mem (p - PAGE_OFFSET)
  | PgdOffsetPgd p va => p + 8 * pgd_index va
  | PgdOffset mm va => PAGE_OFFSET + 0x1000 + 8 * pgd_index va
  | P4dOffset p va =>
      if l5 then table_at (read_entry demo_mem p) + 8 * p4d_index va else p
  | PudOffset p va => table_at (read_entry demo_mem p) + 8 * pud_index va
  | PmdOffset p va => table_at (read_entry demo_mem p) + 8 * pmd_index va
  | PteOffsetKernel p va => table_at (read_entry demo_mem p) + 8 * pte_index va
  | RdmsrlSafe _ => (0, Z.lor EFER_LME EFER_LMA)
  | ReadCr0 => X86_CR0_PG
  | ReadCr3 => 0x1000
  | ReadCr4 => Z.lor X86_CR4_PAE (if l5 then X86_CR4_LA57 else 0)
  | c' => kdefault c'
  end.

(** The documented answers are possible, and the log is the expected one. *)
Example demo_walk :
  let t := (run (demo_env false) (@page_table_walk_init (x86_64 false) 0 demo_va false)).1 in
  paddrs (printed t) = [0x5abc].
Proof. vm_compute. reflexivity. Qed.

Lemma init_agrees_with_hardware_witness :
  always (@page_table_walk_init (x86_64 false) 0 demo_va false) (fun t _ =>
    Forall (@lawful (x86_64 false) demo_mem 0x1000 (fun _ => 0x1000) 1) t ->
    paddrs (printed t) = [0x5abc]) /\
  always (@page_table_walk_init (x86_64 true) 1 demo_va false) (fun t _ =>
    Forall (@lawful (x86_64 true) demo_mem 0x1000 (fun _ => 0x1000) 1) t ->
    Forall plain_load t -> paddrs (printed t) = []).
Proof.
  assert (1 <> 0) as H1 by done. split.
  - refine (always_mono _ _ _ _ (@init_agrees_with_hardware (x86_64 false) _ demo_mem 0x1000
      (fun _ => 0x1000) 1 0 demo_va H1 (or_intror _))); [|vm_compute; reflexivity].
    intros t _ Ht Hl. apply (proj1 (Ht Hl)). vm_compute. reflexivity.
  - refine (always_mono _ _ _ _ (@init_agrees_with_hardware (x86_64 true) _ demo_mem 0x1000
      (fun _ => 0x1000) 1 1 demo_va H1 (or_introl eq_refl))).
    intros t _ Ht Hl Hp. etrans; [exact (proj2 (Ht Hl) Hp)|]. vm_compute. reflexivity.
Defined.

Lemma walk_4l_absent_top_witness :
  let X := x86_64 false in
  hw_walk demo_mem false 0x1000 (2 ^ 40 + 2 ^ 30 + 5) = NotMapped /\
  always (walk_4l (PAGE_OFFSET + 0x1000 + 8 * pgd_index (2 ^ 40 + 2 ^ 30 + 5))
      (2 ^ 40 + 2 ^ 30 + 5) false 0) (fun t _ =>
    Forall (lawful demo_mem 0x1000 (fun _ => 0x1000) 1) t ->
    paddrs (printed t) = [0x80000005]).
Proof.
  apply (@walk_4l_absent_top (x86_64 false) _ demo_mem 0x1000 (fun _ => 0x1000) 1 0x1000).
  - reflexivity.
  - vm_compute. reflexivity.
  - vm_compute. reflexivity.
Defined.

Lemma pte_flags_roundtrip_witness :
  let X := x86_64 false in
  always (dump_pte (0x5000 + 0x67 + 2 ^ 63) demo_va true) (fun t o =>
    o = Done tt /\ decode_flags (printed t) = 0x67 + 2 ^ 63).
Proof.
  apply (@pte_flags_roundtrip (x86_64 false) _ (0x5000 + 0x67 + 2 ^ 63) demo_va true).
  - vm_compute. reflexivity.
  - vm_compute. reflexivity.
Defined.

(** The page of a PROTNONE mapping: present clear, bit 8 set, frame inverted. *)
Lemma invert_val_consistent_witness :
  let X := x86_64 false in
  let e := Z.lor 0x100 (Z.lxor (frame_mask 12) 0x7000) in
  Z.shiftr (Z.land (invert_val_if_needed e) PHYSICAL_PAGE_MASK) 12 = pte_pfn e /\
  Z.land (invert_val_if_needed e) (not64 PHYSICAL_PAGE_MASK) =
    Z.land e (not64 PHYSICAL_PAGE_MASK) /\
  (e <> PHYSICAL_PAGE_MASK -> invert_val_if_needed (invert_val_if_needed e) = e).
Proof.
  apply (@invert_val_consistent (x86_64 false) _).
  vm_compute. split; [discriminate|reflexivity].
Defined.

(** ** The addresses reported *)

Create HintDb page_addr discriminated.

Section addresses.
Context `{X86Laws}.

(** A physical address of the architecture, with the offset in the page of [va]. *)
Definition page_addr (va pa : Z) : Prop := 0 <= pa < 2 ^ 52 /\ pa mod 2 ^ 12 = va mod 2 ^ 12.

Lemma page_addr_bits va pa :
  (forall i, 52 <= i -> Z.testbit pa i = false) ->
  (forall i, 0 <= i < 12 -> Z.testbit pa i = Z.testbit va i) -> page_addr va pa.
Proof.
  intros Hhi Hlo. split.
  - assert (pa = pa mod 2 ^ 52) as ->; [|by apply Z.mod_pos_bound].
    apply Z.bits_inj'. intros i Hi. destruct (Z.lt_ge_cases i 52).
    + by rewrite Z.mod_pow2_bits_low by lia.
    + by rewrite Z.mod_pow2_bits_high, Hhi by lia.
  - apply Z.bits_inj'. intros i Hi. destruct (Z.lt_ge_cases i 12).
    + by rewrite !Z.mod_pow2_bits_low, Hlo by lia.
    + by rewrite !Z.mod_pow2_bits_high by lia.
Qed.

Lemma frame_page_addr x k j va :
  12 <= k -> 12 <= j <= 52 ->
  page_addr va (Z.lor (shl64 (Z.shiftr (Z.land x (frame_mask k)) 12) 12)
    (Z.land va (not64 (not64 (Z.ones j))))).
Proof.
  intros Hk Hj. rewrite frame_shift, not64_not64_ones by lia.
  apply page_addr_bits; intros i Hi;
    rewrite Z.lor_spec, !Z.land_spec, testbit_frame_mask, testbit_ones by lia.
  - replace (i <? 52) with false by lia. replace (i <? j) with false by lia. btauto.
  - replace (i <? k) with true by lia. replace (i <? j) with true by lia. btauto.
Qed.

Lemma pte_page_addr e va : page_addr va (pte_paddr e va).
Proof.
  unfold pte_paddr. rewrite pte_pfn_law, page_shift_law, pte_pfn_mask_law, page_mask_law.
  apply frame_page_addr; lia.
Qed.

Lemma pmd_page_addr e va : page_addr va (pmd_paddr e va).
Proof.
  unfold pmd_paddr.
  rewrite pmd_pfn_law, page_shift_law, pmd_mask_law, phys_pmd_mask_law, pte_pfn_mask_law.
  destruct (Z.testbit e 7); apply frame_page_addr; lia.
Qed.

Lemma pud_page_addr e va : page_addr va (pud_paddr e va).
Proof.
  unfold pud_paddr.
  rewrite pud_pfn_law, page_shift_law, pud_mask_law, phys_pud_mask_law, pte_pfn_mask_law.
  destruct (Z.testbit e 7); apply frame_page_addr; lia.
Qed.

(** The call logs no other physical address. *)
Definition logs_page_addr (va : Z) (o : obs kernelE) : Prop :=
  forall l pa, printed_of o = Some l -> paddr_of l = Some pa -> page_addr va pa.

Lemma dump_paddr_page_addr va pa z :
  page_addr va pa -> only (logs_page_addr va) (dump_paddr pa z).
Proof.
  intros Hp. apply only_do. intros [] l pa' [= <-]. unfold paddr_of. cbn.
  rewrite decide_True by done. by intros [= <-].
Qed.

(** Solves [only (logs_page_addr va) p] for what prints other lines. *)
Ltac other_line :=
  let Hp := fresh in intros ? ? ? [= <-] Hp; exfalso; revert Hp; vm_compute; discriminate.

Ltac no_line := intros ? ? ? [=].

Ltac page_addr_tac :=
  repeat lazymatch goal with
    | |- only _ (_ ≫= _) => apply only_bind; [|intros ?]
    | |- only _ (kdo _) => apply only_do; solve [no_line|other_line]
    | |- only _ (mret _) => apply only_ret
    | |- only _ (Ret _) => apply only_ret
    | |- only _ (match _ with _ => _ end) => case_match
    | |- _ => solve [auto with nocore page_addr]
    end.

Lemma dump_macros_page_addr va : only (logs_page_addr va) dump_macros.
Proof. unfold dump_macros, pr_info. page_addr_tac. Qed.

Lemma dump_flags_page_addr va v : only (logs_page_addr va) (dump_flags_common v).
Proof. unfold dump_flags_common, when, skip, pr_cont. page_addr_tac. Qed.

Lemma dump_last_page_addr va v pke : only (logs_page_addr va) (dump_flags_last_level v pke).
Proof. unfold dump_flags_last_level, when, skip, pr_cont. page_addr_tac. Qed.

Lemma dump_swap_page_addr va v : only (logs_page_addr va) (dump_swap_flags v).
Proof. unfold dump_swap_flags, when, skip, pr_cont. page_addr_tac. Qed.

Lemma dump_swap_entry_page_addr va e : only (logs_page_addr va) (dump_swap_entry e).
Proof. unfold dump_swap_entry, pr_info. page_addr_tac. Qed.

#[local] Hint Resolve dump_flags_page_addr dump_last_page_addr dump_swap_page_addr
  dump_swap_entry_page_addr dump_paddr_page_addr pte_page_addr pmd_page_addr pud_page_addr : page_addr.

Lemma dump_pgd_page_addr va e : only (logs_page_addr va) (dump_pgd e va).
Proof. unfold dump_pgd, pr_info, pr_cont. page_addr_tac. Qed.

Lemma dump_p4d_page_addr va e : only (logs_page_addr va) (dump_p4d e va).
Proof. unfold dump_p4d, pr_info, pr_cont. page_addr_tac. Qed.

Lemma dump_pud_page_addr va e pke : only (logs_page_addr va) (dump_pud e va pke).
Proof. unfold dump_pud, when, skip, pr_info, pr_cont. page_addr_tac. Qed.

Lemma dump_pmd_page_addr va e pke : only (logs_page_addr va) (dump_pmd e va pke).
Proof. unfold dump_pmd, when, skip, pr_info, pr_cont. page_addr_tac. Qed.

Lemma dump_pte_page_addr va e pke : only (logs_page_addr va) (dump_pte e va pke).
Proof. unfold dump_pte, when, skip, pr_info, pr_cont. page_addr_tac. Qed.

#[local] Hint Resolve dump_macros_page_addr dump_pgd_page_addr dump_p4d_page_addr
  dump_pud_page_addr dump_pmd_page_addr dump_pte_page_addr : page_addr.

Lemma walk_4l_page_addr pgdp va pke p4dp :
  only (logs_page_addr va) (walk_4l pgdp va pke p4dp).
Proof. unfold walk_4l. cbn zeta. page_addr_tac. Qed.

#[local] Hint Resolve walk_4l_page_addr : page_addr.

Lemma walk_page_addr pgdp va : only (logs_page_addr va) (walk pgdp va).
Proof. unfold walk, walk_5l, rdmsrl_wrap, when, skip, pr_err. cbn zeta. page_addr_tac. Qed.

#[local] Hint Resolve walk_page_addr : page_addr.

Lemma walk_user_page_addr user_pid va : only (logs_page_addr va) (walk_user user_pid va).
Proof.
  unfold walk_user, walk_user_task, walk_task, get_user_pid_task, pr_info, pr_err, pr_warn.
  cbn zeta. page_addr_tac.
Qed.

Lemma walk_kernel_page_addr va : only (logs_page_addr va) (walk_kernel va).
Proof. unfold walk_kernel, pr_info. cbn zeta. page_addr_tac. Qed.

#[local] Hint Resolve walk_user_page_addr walk_kernel_page_addr : page_addr.

Lemma paddrs_page_addr va t :
  Forall (logs_page_addr va) t -> Forall (page_addr va) (paddrs (printed t)).
Proof.
  induction 1 as [|o t Ho _ IH]; [constructor|].
  unfold printed, paddrs in *. cbn [omap list_omap]. destruct (printed_of o) as [l|] eqn:Hl; [|done].
  cbn [omap list_omap]. destruct (paddr_of l) as [pa|] eqn:Hpa; [|done].
  constructor; [by eapply Ho|done].
Qed.

Lemma init_page_addr user_pid va dump :
  always (page_table_walk_init user_pid va dump) (fun t _ =>
    Forall (page_addr va) (paddrs (printed t))).
Proof.
  assert (only (logs_page_addr va) (page_table_walk_init user_pid va dump)) as Ho.
  { unfold page_table_walk_init. page_addr_tac. }
  eapply always_mono; [|exact Ho]. intros t o. apply paddrs_page_addr.
Qed.

(** C8. Whatever the page tables hold and the kernel answers, every number that is
    logged as a physical address is one: it has at most 52 bits, and it has the
    offset of the virtual address in its page. *)
Theorem paddrs_well_formed user_pid va dump :
  always (page_table_walk_init user_pid va dump) (fun t _ =>
    Forall (fun pa => 0 <= pa < 2 ^ 52 /\ pa mod 2 ^ 12 = va mod 2 ^ 12) (paddrs (printed t))).
Proof. apply init_page_addr. Qed.

End addresses.

Lemma paddrs_well_formed_witness :
  let X := x86_64 false in
  always (page_table_walk_init 42 0x7f0012345678 false) (fun t _ =>
    Forall (fun pa => 0 <= pa < 2 ^ 52 /\ pa mod 2 ^ 12 = 0x678) (paddrs (printed t))).
Proof. apply (@paddrs_well_formed (x86_64 false) _ 42 0x7f0012345678 false). Defined.
