(* ===== verification/TaskTree.v ===== *)
(** src/modules/task_bfs_dfs.c: dumping the tree of children of a task, in
depth-first (default) or breadth-first order.

The work list is the module's own linked list of kmalloc'ed [struct queue]
nodes, so the model keeps the list in memory: a node at address [q] has its
[task] field at [q] and its [next] field at [q + 8], and the breadth-first mode
appends through a pointer to the last [next] field ([tail]). *)
From S2P Require Import Prelude Effects Kernel.

Definition sizeof_queue : Z := 16.

(** [&q->task], [&q->next] *)
Definition q_task (q : Z) : Z := q.

Definition q_next (q : Z) : Z := q + 8.

Section module.
(** The module parameters [bfs] and [threads], and whether the kernel is 5.14 or
    newer. *)
Context (use_bfs dump_threads NEW_STATE : bool).

(** The state of a task is an [unsigned int] since 5.14, a [long] before; the
    format changes with it. *)
Definition TASK_STATE_FMT : string := if NEW_STATE then "%u" else "%ld".

Definition task_state (task : Z) : kprog arg :=
  state ← kdo (TaskState task) ;
  mret (if NEW_STATE then AZ (u32 state) else AL (s64 state)).

Definition thread_fmt : string :=
  "  Thead: %-20s State: " +:+ TASK_STATE_FMT +:+ tab +:+ "PID: %d" +:+ tab +:+
  "PPID: %d" +:+ nl.

Definition name_fmt : string :=
  "Name: %-20s State: " +:+ TASK_STATE_FMT +:+ tab +:+ "PID: %d" +:+ tab +:+
  "PPID: %d" +:+ nl.

(** The pid of the real parent, read under RCU. *)
Definition read_ppid (task : Z) : kprog Z :=
  kdo RcuReadLock ;;
  parent ← kdo (TaskRealParent task) ;
  ppid ← kdo (TaskPid parent) ;
  kdo RcuReadUnlock ;;
  mret ppid.

Definition dump_thread (thread : Z) : kprog unit :=
  kdo (GetTaskStruct thread) ;;
  ppid ← read_ppid thread ;
  comm ← kdo (GetTaskComm thread) ;
  state ← task_state thread ;
  pid ← kdo (TaskPid thread) ;
  pr_info thread_fmt [AS comm; state; AZ pid; AZ ppid] ;;
  kdo (PutTaskStruct thread).

Definition dump_task_threads (task : Z) : kprog unit :=
  threads ← kdo (TaskThreads task) ;
  for_each threads dump_thread.

(** One pass of the [list_for_each] over the children. The result is the new
    head and tail of the work list, or the head at [goto out_nomem]. *)
Fixpoint add_children (children : list Z) (q tail : Z) : kprog (Z + Z * Z) :=
  match children with
  | [] => mret (inr (q, tail))
  | child :: children' =>
      kdo (GetTaskStruct child) ;;
      tmp ← kdo (Kmalloc sizeof_queue) ;
      if tmp =? 0 then mret (inl q) else
      kdo (Store (q_task tmp) child) ;;
      if use_bfs then
        kdo (Store (q_next tmp) 0) ;;
        kdo (Store tail tmp) ;;
        add_children children' q (q_next tmp)
      else
        kdo (Store (q_next tmp) q) ;;
        add_children children' tmp tail
  end.

(** [tmp = q; q = q->next; kfree(tmp);] *)
Definition pop (q : Z) : kprog Z :=
  next ← kdo (Load (q_next q)) ;
  kdo (Kfree q) ;;
  mret next.

(** The lines that print one task. *)
Definition dump_task (task : Z) : kprog unit :=
  ppid ← read_ppid task ;
  comm ← kdo (GetTaskComm task) ;
  state ← task_state task ;
  pid ← kdo (TaskPid task) ;
  pr_info name_fmt [AS comm; state; AZ pid; AZ ppid] ;;
  when dump_threads (dump_task_threads task).

(** One iteration of [while (q)]: goes on with a new head and tail, leaves the
    loop ([None]) or jumps to [out_nomem] with the head ([Some]). *)
Definition tree_step (st : Z * Z) : kprog ((Z * Z) + option Z) :=
  let '(q, tail) := st in
  if q =? 0 then mret (inr None) else
  task ← kdo (Load (q_task q)) ;
  q ← (if use_bfs then mret q else pop q) ;
  dump_task task ;;
  children ← kdo (TaskChildren task) ;
  r ← add_children children q tail ;
  match r with
  | inl q => mret (inr (Some q))
  | inr (q, tail) =>
      kdo (PutTaskStruct task) ;;
      q ← (if use_bfs then pop q else mret q) ;
      mret (inl (q, tail))
  end.

(** [out_nomem: while (q) ...] *)
Definition free_step (q : Z) : kprog (Z + unit) :=
  if q =? 0 then mret (inr tt) else
  q ← pop q ;
  mret (inl q).

(** [fuel] bounds both loops; see [TaskTreeThms.dump_safe]. *)
Definition dump_children_tree (fuel : nat) (task : Z) : kprog unit :=
  q ← kdo (Kmalloc sizeof_queue) ;
  if q =? 0 then loop fuel free_step q else
  kdo (Store (q_task q) task) ;;
  kdo (Store (q_next q) 0) ;;
  r ← loop fuel tree_step (q, if use_bfs then q_next q else 0) ;
  match r with
  | None => mret tt
  | Some q => loop fuel free_step q
  end.

(** [get_user_pid_task] and [modinit], with the module parameter [pid]. *)
Definition get_user_pid_task (pid : Z) : kprog Z :=
  p ← kdo (FindGetPid pid) ;
  kdo (GetPidTask p PIDTYPE_PID).

Definition modinit (fuel : nat) (user_pid : Z) : kprog Z :=
  tsk ← get_user_pid_task user_pid ;
  if tsk =? 0 then
    pr_err ("No process with user PID = %d." +:+ nl) [AZ user_pid] ;;
    mret (- ESRCH)
  else
    comm ← kdo (GetTaskComm tsk) ;
    pid ← kdo (TaskPid tsk) ;
    pr_info ("Running %s on task " +:+ dq +:+ "%s" +:+ dq +:+ " (PID: %d)" +:+ nl)
      [AS (if use_bfs then "BFS" else "DFS"); AS comm; AZ pid] ;;
    dump_children_tree fuel tsk ;;
    mret (- ECANCELED).

End module.

(** ** The machine the module runs on

Memory is word-granular and a freshly allocated word is uninitialised; the
allocator may fail, or answer any free block. The other kernel calls answer
what [answer] says, which may depend on everything that happened before (the
kernel does not stop while the module runs). A load, store or free outside
allocated memory is refused (and [exec] faults). The trace of calls is kept. *)
Record kstate := KState {
  mem : gmap Z (option Z);
  blocks : gset Z;
  nalloc : nat;
  calls : trace kernelE;
}.

Section machine.
Context (answer : trace kernelE -> forall c : kcall, kans c).
Context (kmalloc : nat -> gmap Z (option Z) -> option Z).

Definition logged (s : kstate) (c : kcall) (a : kans c) : kstate :=
  KState (mem s) (blocks s) (nalloc s) (calls s ++ [Obs (E := kernelE) c a]).

Definition set_mem (s : kstate) (m : gmap Z (option Z)) : kstate :=
  KState m (blocks s) (nalloc s) (calls s).

Definition set_blocks (s : kstate) (b : gset Z) : kstate :=
  KState (mem s) b (nalloc s) (calls s).

Definition allocated (s : kstate) : kstate :=
  KState (mem s) (blocks s) (S (nalloc s)) (calls s).

Definition machine : handler kernelE kstate := fun s c =>
  match c return option (kans c * kstate) with
  | Load p =>
      match mem s !! p with
      | Some (Some v) => Some (v, logged s (Load p) v)
      | _ => None
      end
  | Store p v =>
      match mem s !! p with
      | Some _ => Some (tt, logged (set_mem s (<[p := Some v]> (mem s))) (Store p v) tt)
      | None => None
      end
  | Kmalloc size =>
      match kmalloc (nalloc s) (mem s) with
      | Some p =>
          Some (p, logged (set_mem (set_blocks (allocated s) ({[p]} ∪ blocks s))
                            (<[p := None]> (<[p + 8 := None]> (mem s)))) (Kmalloc size) p)
      | None => Some (0, logged (allocated s) (Kmalloc size) 0)
      end
  | Kfree p =>
      if decide (p ∈ blocks s) then
        Some (tt, logged (set_mem (set_blocks s (blocks s ∖ {[p]}))
                            (delete p (delete (p + 8) (mem s)))) (Kfree p) tt)
      else None
  | c' => Some (answer (calls s) c', logged s c' (answer (calls s) c'))
  end.

End machine.
