(* ===== verification/LinkedQueue.v ===== *)
(** The linked list of [struct queue] nodes in word-granular memory: the shape
[lseg] of a list segment, the invariant [holds] of a list that owns its nodes,
and how the stores of TaskTree.v (push at the front, append through the tail
pointer, pop) change the list. *)
From S2P Require Import Prelude.

Abbreviation memory := (gmap Z (option Z)).

(** The nodes [ns] (address, task), linked from [q] to [e]. *)
Fixpoint lseg (m : memory) (q : Z) (ns : list (Z * Z)) (e : Z) : Prop :=
  match ns with
  | [] => q = e
  | (a, t) :: ns' =>
      q = a /\ a <> 0 /\ m !! a = Some (Some t) /\
      exists n, m !! (a + 8) = Some (Some n) /\ lseg m n ns' e
  end.

(** The words of the nodes. *)
Definition cells (ns : list (Z * Z)) : list Z :=
  concat ((fun n => [n.1; n.1 + 8]) <$> ns).

(** The memory [m] is [m0] plus the nodes of a list that starts at [q]. *)
Record holds (m0 m : memory) (ns : list (Z * Z)) (q : Z) : Prop := {
  holds_lseg : lseg m q ns 0;
  holds_nodup : NoDup (cells ns);
  holds_fresh a : a ∈ cells ns -> m0 !! a = None;
  holds_rest x : (x ∉ cells ns) -> m !! x = m0 !! x;
}.

Lemma cells_cons a t ns : cells ((a, t) :: ns) = a :: a + 8 :: cells ns.
Proof. done. Qed.

Lemma cells_app ns ns' : cells (ns ++ ns') = cells ns ++ cells ns'.
Proof. unfold cells. by rewrite fmap_app, concat_app. Qed.

Lemma lseg_frame m m' q ns e :
  (forall x, x ∈ cells ns -> m' !! x = m !! x) -> lseg m q ns e -> lseg m' q ns e.
Proof.
  revert q. induction ns as [|[a t] ns IH]; intros q Hm; simpl; [done|].
  rewrite cells_cons in Hm.
  intros (-> & Ha & Ht & n & Hn & Hl). split_and!; [done..| |].
  - by rewrite Hm by (rewrite !elem_of_cons; auto).
  - exists n. rewrite Hm by (rewrite !elem_of_cons; auto). split; [done|].
    apply IH; [|done]. intros x Hx. apply Hm. rewrite !elem_of_cons. auto.
Qed.

Lemma lseg_app m q ns ns' e :
  lseg m q (ns ++ ns') e <-> exists k, lseg m q ns k /\ lseg m k ns' e.
Proof.
  revert q. induction ns as [|[a t] ns IH]; intros q; simpl.
  - split; [eauto|]. by intros (k & -> & ?).
  - split.
    + intros (-> & Ha & Ht & n & Hn & (k & ? & ?)%IH). exists k. eauto 10.
    + intros (k & (-> & Ha & Ht & n & Hn & ?) & ?). split_and!; [done..|].
      exists n. split; [done|]. apply IH. eauto.
Qed.

(** Every word of a list is allocated. *)
Lemma lseg_alloc m q ns e x : lseg m q ns e -> x ∈ cells ns -> is_Some (m !! x).
Proof.
  revert q. induction ns as [|[a t] ns IH]; intros q; simpl; [by rewrite elem_of_nil|].
  rewrite cells_cons. intros (-> & Ha & Ht & n & Hn & Hl).
  rewrite !elem_of_cons. intros [->|[->|Hx]]; [by eexists..|]. eauto.
Qed.

Lemma holds_nil m : holds m m [] 0.
Proof.
  split; [done|apply NoDup_nil_2| |done]. intros a Ha. by apply not_elem_of_nil in Ha.
Qed.

Lemma holds_nil_inv m0 m q : holds m0 m [] q -> m = m0 /\ q = 0.
Proof.
  intros [Hl _ _ Hr]. split; [|done].
  apply map_eq. intros x. apply Hr, not_elem_of_nil.
Qed.

(** A word that is free is not one of the list, nor allocated before. *)
Lemma holds_free m0 m ns q x :
  holds m0 m ns q -> m !! x = None -> (x ∉ cells ns) /\ m0 !! x = None.
Proof.
  intros [Hl Hn Hf Hr] Hx. assert (x ∉ cells ns) as Hin.
  { intros Hin. apply (lseg_alloc _ _ _ _ _ Hl) in Hin as [v Hv]. congruence. }
  split; [done|]. by rewrite <- Hr.
Qed.

(** [tmp = kmalloc(); tmp->task = t; tmp->next = q; q = tmp] *)
Lemma holds_push m0 m ns q p t :
  holds m0 m ns q -> p <> 0 -> m !! p = None -> m !! (p + 8) = None ->
  holds m0 (<[p + 8 := Some q]> (<[p := Some t]> (<[p := None]> (<[p + 8 := None]> m))))
    ((p, t) :: ns) p.
Proof.
  intros Hh Hp Hp0 Hp8.
  destruct (holds_free _ _ _ _ _ Hh Hp0) as [Hi0 Hm0].
  destruct (holds_free _ _ _ _ _ Hh Hp8) as [Hi8 Hm8].
  destruct Hh as [Hl Hn Hf Hr].
  split; rewrite ?cells_cons.
  - simpl. split_and!; [done..| |].
    + by rewrite lookup_insert_ne, lookup_insert_eq by lia.
    + exists q. rewrite lookup_insert_eq. split; [done|].
      apply (lseg_frame m); [|done]. intros x Hx.
      by rewrite !lookup_insert_ne by (intros <-; tauto).
  - apply NoDup_cons. split; [|apply NoDup_cons; done].
    rewrite elem_of_cons. intros [?|?]; [lia|done].
  - intros a. rewrite !elem_of_cons. intros [->|[->|?]]; [done..|auto].
  - intros x Hx. rewrite !elem_of_cons in Hx.
    rewrite !lookup_insert_ne by naive_solver. apply Hr. naive_solver.
Qed.

(** [tmp = kmalloc(); tmp->task = t; tmp->next = NULL; *tail = tmp], where
    [tail] is the address of the [next] field of the last node. *)
Lemma holds_append m0 m ns l tl q p t :
  holds m0 m (ns ++ [(l, tl)]) q -> p <> 0 -> m !! p = None -> m !! (p + 8) = None ->
  holds m0
    (<[l + 8 := Some p]> (<[p + 8 := Some 0]>
      (<[p := Some t]> (<[p := None]> (<[p + 8 := None]> m)))))
    ((ns ++ [(l, tl)]) ++ [(p, t)]) q.
Proof.
  intros Hh Hp Hp0 Hp8.
  destruct (holds_free _ _ _ _ _ Hh Hp0) as [Hi0 Hm0].
  destruct (holds_free _ _ _ _ _ Hh Hp8) as [Hi8 Hm8].
  destruct Hh as [Hl Hn Hf Hr].
  rewrite cells_app in Hi0, Hi8, Hn, Hf, Hr. cbn in Hi0, Hi8, Hn, Hf, Hr.
  setoid_rewrite elem_of_app in Hf. setoid_rewrite elem_of_app in Hr.
  rewrite elem_of_app, !elem_of_cons, elem_of_nil in Hi0, Hi8.
  apply NoDup_app in Hn as (Hn1 & Hn2 & Hn3).
  split; rewrite ?cells_app; cbn.
  - apply lseg_app in Hl as (k & Hk & Hlast). simpl in Hlast.
    destruct Hlast as (-> & Hl0 & Htl & n & Hn & ->).
    apply lseg_app. exists p. split; [apply lseg_app; exists l; split|].
    + apply (lseg_frame m); [|done]. intros x Hx.
      assert (x <> l + 8).
      { intros ->. apply (Hn2 (l + 8) Hx). rewrite !elem_of_cons. auto. }
      assert (x <> p) by (intros ->; tauto).
      assert (x <> p + 8) by (intros ->; tauto).
      by rewrite !lookup_insert_ne by done.
    + simpl. split_and!; [done..| |].
      * by rewrite !lookup_insert_ne by (first [lia | intros <-; tauto]).
      * exists p. by rewrite lookup_insert_eq.
    + assert (l + 8 <> p) by (intros <-; tauto).
      assert (l <> p) by (intros <-; tauto).
      simpl. split_and!; [done..| |exists 0; split; [|done]].
      * by rewrite lookup_insert_ne, lookup_insert_ne, lookup_insert_eq by lia.
      * by rewrite lookup_insert_ne, lookup_insert_eq by lia.
  - apply NoDup_app. split_and!.
    + apply NoDup_app. by split_and!.
    + intros x. rewrite elem_of_app, !elem_of_cons, !elem_of_nil.
      intros Hx [->|[->|[]]]; tauto.
    + apply NoDup_cons. split; [|apply NoDup_singleton].
      rewrite list_elem_of_singleton. lia.
  - intros a. rewrite (elem_of_app _ [p; p + 8]), elem_of_app, !(elem_of_cons _ a), !elem_of_nil.
    intros [Hx|[->|[->|[]]]]; [|done..]. apply Hf. rewrite !elem_of_cons, elem_of_nil. tauto.
  - intros x. rewrite !elem_of_app, !elem_of_cons, !elem_of_nil. intros Hx.
    rewrite !lookup_insert_ne by (intros <-; tauto).
    apply Hr. rewrite !elem_of_cons, elem_of_nil. tauto.
Qed.

(** [tmp = q; q = q->next; kfree(tmp)] *)
Lemma holds_pop m0 m ns a t q :
  holds m0 m ((a, t) :: ns) q ->
  q = a /\ exists n, m !! (a + 8) = Some (Some n) /\
    holds m0 (delete a (delete (a + 8) m)) ns n.
Proof.
  intros [Hl Hn Hf Hr]. rewrite cells_cons in Hn, Hf, Hr.
  destruct Hl as (-> & Ha & Ht & n & Hnx & Hl). split; [done|].
  exists n. split; [done|].
  apply NoDup_cons in Hn as [Hn1 [Hn2 Hn3]%NoDup_cons].
  split.
  - apply (lseg_frame m); [|done]. intros x Hx.
    assert (x <> a) by (intros ->; apply Hn1; rewrite elem_of_cons; auto).
    assert (x <> a + 8) by (intros ->; tauto).
    by rewrite !lookup_delete_ne by done.
  - done.
  - intros x Hx. apply Hf. rewrite !elem_of_cons. auto.
  - intros x Hx. destruct (decide (x = a)) as [->|Hxa].
    { rewrite lookup_delete_eq. symmetry. apply Hf. rewrite !elem_of_cons. auto. }
    rewrite lookup_delete_ne by done. destruct (decide (x = a + 8)) as [->|Hx8].
    { rewrite lookup_delete_eq. symmetry. apply Hf. rewrite !elem_of_cons. auto. }
    rewrite lookup_delete_ne by done. apply Hr. rewrite !elem_of_cons. tauto.
Qed.
