(* ===== verification/TaskTreeFacts.v ===== *)
(** Proof machinery for TaskTree.v: process trees and their orders, the linked
list in memory, and the simulation of the loops of the module by a work list
of trees. The properties are in TaskTreeThms.v. *)
From S2P Require Import Prelude Effects Kernel TaskTree.

(** ** Process trees *)

Inductive tree := Node (t : Z) (cs : list tree).

Definition root (T : tree) : Z := let 'Node t _ := T in t.

Definition kids (T : tree) : list tree := let 'Node _ cs := T in cs.

Fixpoint size (T : tree) : nat :=
  match T with Node _ cs => S (sum_list_with size cs) end.

Definition forest_size (ts : list tree) : nat := sum_list_with size ts.

(** The order in which the depth-first mode visits: a task before its
    children, the last child first. *)
Fixpoint dfs_order (T : tree) : list Z :=
  match T with Node t cs => t :: concat (rev (dfs_order <$> cs)) end.

(** The tasks at depth [k], from left to right, and the breadth-first order:
    all levels, from the root down. *)
Fixpoint level (k : nat) (T : tree) : list Z :=
  match k, T with
  | O, Node t _ => [t]
  | S k', Node _ cs => concat (level k' <$> cs)
  end.

Definition bfs_order (T : tree) : list Z :=
  concat ((fun k => level k T) <$> seq 0 (size T)).

(** [answer] describes the tree [T]: the children lists of the kernel are the
    children in [T]. *)
Fixpoint describes (children : Z -> list Z) (T : tree) : Prop :=
  match T with
  | Node t cs => children t = (root <$> cs) /\ foldr (fun T' P => describes children T' /\ P) True cs
  end.

Lemma describes_node children T :
  describes children T <->
  children (root T) = (root <$> kids T) /\ Forall (describes children) (kids T).
Proof.
  destruct T as [t cs]. cbn [describes root kids].
  assert (foldr (fun T' P => describes children T' /\ P) True cs <->
          Forall (describes children) cs) as ->; [|done].
  induction cs as [|T cs IH]; simpl; [done|]. by rewrite Forall_cons, IH.
Qed.

(** ** The work list of trees *)

Section worklist.
Context (use_bfs : bool).

(** What replaces the head of the work list. *)
Definition enqueue {A} (ts cs : list A) : list A :=
  if use_bfs then ts ++ cs else rev cs ++ ts.

(** The visits of the module, on trees. *)
Fixpoint visits (fuel : nat) (ts : list tree) : list Z :=
  match fuel, ts with
  | S fuel', T :: ts' => root T :: visits fuel' (enqueue ts' (kids T))
  | _, _ => []
  end.

End worklist.

Lemma forest_size_app ts us : forest_size (ts ++ us) = (forest_size ts + forest_size us)%nat.
Proof. apply sum_list_with_app. Qed.

Lemma forest_size_rev ts : forest_size (rev ts) = forest_size ts.
Proof.
  induction ts as [|T ts IH]; simpl; [done|].
  rewrite forest_size_app, IH. unfold forest_size. simpl. lia.
Qed.

Lemma forest_size_enqueue b ts cs :
  forest_size (enqueue b ts cs) = (forest_size ts + forest_size cs)%nat.
Proof.
  unfold enqueue. destruct b; rewrite forest_size_app, ?forest_size_rev; lia.
Qed.

Lemma forest_size_length ts : (length ts <= forest_size ts)%nat.
Proof.
  induction ts as [|[t cs] ts IH]; simpl; [lia|].
  unfold forest_size in *. simpl. lia.
Qed.

Lemma size_kids T : size T = S (forest_size (kids T)).
Proof. by destruct T. Qed.

Lemma fmap_rev {A B} (f : A -> B) (l : list A) : f <$> rev l = rev (f <$> l).
Proof. induction l as [|x l IH]; simpl; [done|]. by rewrite fmap_app, IH. Qed.

(** Depth first: the visits are the preorder of the trees of the list. *)
Lemma visits_dfs fuel ts :
  (forest_size ts <= fuel)%nat -> visits false fuel ts = concat (dfs_order <$> ts).
Proof.
  revert ts. induction fuel as [|fuel IH]; intros [|[t cs] ts] Hf; simpl; try done.
  - unfold forest_size in Hf. simpl in Hf. lia.
  - rewrite IH.
    + unfold enqueue. simpl. by rewrite fmap_app, concat_app, fmap_rev.
    + rewrite forest_size_app, forest_size_rev. unfold forest_size in *. simpl in *. lia.
Qed.

(** Breadth first: a whole level is visited before the children it appends. *)
Lemma visits_bfs_level fuel ts us :
  visits true (length ts + fuel) (ts ++ us) =
  (root <$> ts) ++ visits true fuel (us ++ concat (kids <$> ts)).
Proof.
  revert us. induction ts as [|T ts IH]; intros us; simpl.
  - by rewrite app_nil_r.
  - unfold enqueue. rewrite <- app_assoc, IH. by rewrite <- app_assoc.
Qed.

Lemma level_list_S k ts :
  concat (level (S k) <$> ts) = concat (level k <$> concat (kids <$> ts)).
Proof.
  induction ts as [|[t cs] ts IH]; [done|].
  cbn [fmap list_fmap concat kids].
  change (level (S k) (Node t cs)) with (concat (level k <$> cs)).
  by rewrite fmap_app, concat_app, IH.
Qed.

Lemma level_list_0 ts : concat (level 0 <$> ts) = (root <$> ts).
Proof.
  induction ts as [|[t cs] ts IH]; [done|].
  cbn [fmap list_fmap concat root].
  change (level 0 (Node t cs)) with [t]. by rewrite IH.
Qed.

Lemma forest_size_kids ts :
  forest_size ts = (length ts + forest_size (concat (kids <$> ts)))%nat.
Proof.
  induction ts as [|T ts IH]; [done|].
  cbn [fmap list_fmap concat length]. rewrite forest_size_app.
  unfold forest_size in *. simpl. rewrite IH, (size_kids T). unfold forest_size. lia.
Qed.

Lemma visits_nil b fuel : visits b fuel [] = [].
Proof. by destruct fuel. Qed.

Lemma visits_bfs n fuel ts :
  (forest_size ts <= fuel)%nat -> (forest_size ts <= n)%nat ->
  visits true fuel ts =
  concat ((fun k => concat (level k <$> ts)) <$> seq 0 n).
Proof.
  revert fuel ts. induction n as [|n IH]; intros fuel ts Hf Hn.
  - destruct ts as [|T ts]; [by rewrite visits_nil|].
    unfold forest_size in Hn. simpl in Hn. rewrite size_kids in Hn. lia.
  - rewrite <- cons_seq. cbn [fmap list_fmap concat]. rewrite level_list_0.
    pose proof (forest_size_kids ts) as Hk.
    replace (visits true fuel ts)
      with (visits true (length ts + (fuel - length ts)) (ts ++ []))
      by (rewrite app_nil_r; f_equal; lia).
    rewrite visits_bfs_level, app_nil_l. f_equal.
    destruct ts as [|T ts].
    { simpl. rewrite visits_nil. clear. generalize (seq 1 n). intros l.
      by induction l as [|k l IH]; simpl; rewrite <- ?IH. }
    rewrite IH; [|simpl in *; lia..].
    rewrite <- seq_shift, <- list_fmap_compose. f_equal.
    apply list_fmap_ext. intros i k _. simpl. symmetry.
    apply (level_list_S k (T :: ts)).
Qed.

Lemma visits_order use_bfs T fuel :
  (size T <= fuel)%nat ->
  visits use_bfs fuel [T] = if use_bfs then bfs_order T else dfs_order T.
Proof.
  intros Hf. assert (forest_size [T] = size T) as Hs by (unfold forest_size; simpl; lia).
  destruct use_bfs.
  - rewrite (visits_bfs (size T)) by lia. unfold bfs_order. f_equal.
    apply list_fmap_ext. intros i k _. simpl. by rewrite app_nil_r.
  - rewrite visits_dfs by lia. simpl. by rewrite app_nil_r.
Qed.

(** ** Traces of the module *)

(** The calls that do not concern the module's own memory. *)
Definition plain (o : obs kernelE) : Prop :=
  match obs_call o with
  | Load _ | Store _ _ | Kmalloc _ | Kfree _ => False
  | _ => True
  end.

Section traces.
Context (NEW_STATE : bool).

(** What the kernel says of its tasks, when it always says the same. *)
Context (says : forall c : kcall, kans c).

Definition said (o : obs kernelE) : Prop :=
  plain o -> obs_ans o = says (obs_call o).

(** The line printed for a task. *)
Definition task_line (t : Z) : logline :=
  Log KERN_INFO (name_fmt NEW_STATE)
    [AS (says (GetTaskComm t));
     if NEW_STATE then AZ (u32 (says (TaskState t))) else AL (s64 (says (TaskState t)));
     AZ (says (TaskPid t)); AZ (says (TaskPid (says (TaskRealParent t))))].

(** The lines of a trace that print a task of the tree (not a thread). *)
Definition task_lines (tr : trace kernelE) : list logline :=
  filter (fun l => log_fmt l = name_fmt NEW_STATE) (printed tr).

Lemma task_lines_app tr tr' : task_lines (tr ++ tr') = task_lines tr ++ task_lines tr'.
Proof. unfold task_lines. by rewrite printed_app, filter_app. Qed.

(** How many times a task is in a list: the references a work list holds. *)
Fixpoint cnt (u : Z) (ts : list Z) : Z :=
  match ts with
  | [] => 0
  | t :: ts' => (if decide (u = t) then 1 else 0) + cnt u ts'
  end.

Lemma cnt_app u ts ts' : cnt u (ts ++ ts') = cnt u ts + cnt u ts'.
Proof. induction ts as [|t ts IH]; simpl; lia. Qed.

Lemma cnt_rev u ts : cnt u (rev ts) = cnt u ts.
Proof. induction ts as [|t ts IH]; simpl; rewrite ?cnt_app; simpl; lia. Qed.

Lemma cnt_nonneg u ts : 0 <= cnt u ts.
Proof. induction ts as [|t ts IH]; simpl; [lia|]. case_decide; lia. Qed.

Lemma cnt_enqueue b u ts cs : cnt u (enqueue b ts cs) = cnt u ts + cnt u cs.
Proof. unfold enqueue. destruct b; rewrite cnt_app, ?cnt_rev; lia. Qed.

(** A trace that leaves the references to tasks as they were, given that the
    task [t] is referenced while it runs. *)
Definition steady (t : Z) (tr : trace kernelE) : Prop :=
  forall u n, 0 <= n -> (u = t -> 1 <= n) -> guarded u n tr n.

Lemma steady_app t tr tr' : steady t tr -> steady t tr' -> steady t (tr ++ tr').
Proof. intros H H' u n Hn Hu. eapply guarded_app; [by apply H|by apply H']. Qed.

End traces.

(** Evaluates [guarded] of an explicit trace. *)
Ltac guarding :=
  cbn [guarded_from]; unfold accessed, delta;
  cbn [obs_call effect_of rcu_step default fmap option_fmap option_map];
  repeat (case_decide; simplify_eq); split_and!; intros; simplify_eq; try done;
  first [left; lia | solve [right; apply elem_of_cons; by left] | lia].

Lemma dump_thread_always new_state t u :
  always (dump_thread new_state u) (fun tr o =>
    o = Done tt /\ Forall plain tr /\ steady t tr /\ task_lines new_state tr = []).
Proof.
  intros [] [] parent ppid [] comm state pid [] []. cbn [always].
  split; [done|]. split; [repeat constructor|]. split; [|done].
  intros v n Hn Hv. guarding.
Qed.

Lemma dump_task_threads_always new_state t :
  always (dump_task_threads new_state t) (fun tr o =>
    o = Done tt /\ Forall plain tr /\ steady t tr /\ task_lines new_state tr = []).
Proof.
  intros threads. eapply always_mono, (always_for_each _ _
    (fun tr => Forall plain tr /\ steady t tr /\ task_lines new_state tr = [])).
  - intros tr o (-> & Hp & Hs & Hl). split; [done|]. split; [by constructor|]. split; [|done].
    change (Obs (E := kernelE) (TaskThreads t) threads :: tr)
      with ([Obs (E := kernelE) (TaskThreads t) threads] ++ tr).
    apply steady_app; [|done]. intros v n Hn Hv. guarding.
  - split; [done|]. split; [|done]. by intros v n _ _.
  - intros tr tr' (? & ? & Hl) (? & ? & Hl'). split; [by apply Forall_app|].
    split; [by apply steady_app|]. by rewrite task_lines_app, Hl, Hl'.
  - intros u _. apply dump_thread_always.
Qed.

Lemma dump_task_always use_threads new_state t :
  always (dump_task use_threads new_state t) (fun tr o =>
    o = Done tt /\ Forall plain tr /\ steady t tr /\
    forall says, Forall (said says) tr -> task_lines new_state tr = [task_line new_state says t]).
Proof.
  assert (always (when use_threads (dump_task_threads new_state t)) (fun tr o =>
    o = Done tt /\ Forall plain tr /\ steady t tr /\ task_lines new_state tr = [])) as Ht.
  { destruct use_threads; [apply dump_task_threads_always|].
    split_and!; [done..| |done]. by intros v n _ _. }
  intros [] parent ppid [] comm state pid []. apply always_bind.
  cbn [always]. eapply always_mono; [|exact Ht].
  intros tr o (-> & Hp & Hs & Hl). split; [done|]. split; [by repeat constructor|].
  match goal with |- context [task_lines new_state ?l] =>
    let l' := eval cbv [take] in (take 8 l) in change l with (l' ++ tr) end.
  split; [apply steady_app; [|done]; intros v n Hn Hv; guarding|].
  intros says [H _]%Forall_app. rewrite task_lines_app, Hl, app_nil_r.
  unfold task_lines. cbn [printed omap list_omap printed_of obs_call filter list_filter].
  rewrite decide_True by done. f_equal. unfold task_line.
  repeat (match goal with H : Forall _ (_ :: _) |- _ => apply Forall_cons in H as [? H] end).
  repeat (match goal with H : said _ _ |- _ => specialize (H I); cbn in H end).
  by subst.
Qed.
