(* ===== verification/TaskTreeSim.v ===== *)
(** Simulation of task_bfs_dfs.c: what the loops of TaskTree.v do to the work
list, the memory and the references, on a machine whose allocator may fail and
whose task lists may change at any time. *)
From S2P Require Import Prelude Effects Kernel TaskTree LinkedQueue TaskTreeFacts.

(** A call on the module's memory concerns no task. *)
Lemma guarded_mem u n o tr m :
  ~ plain o -> 0 <= n -> guarded u n tr m -> guarded u n (o :: tr) m.
Proof.
  intros Hp Hn H. destruct o as [c a]. unfold plain in Hp. cbn in Hp.
  assert (delta (RTask u) (Obs (E := kernelE) c a) = 0) as Hd.
  { unfold delta. destruct c; try tauto; cbn; repeat case_match; congruence. }
  apply guarded_cons; rewrite ?Hd, ?Z.add_0_r; [..|done|done]; by destruct c; try tauto.
Qed.

(** Calls that neither read a task nor hold one. *)
Definition aside (tr : trace kernelE) : Prop := forall u n, 0 <= n -> guarded u n tr n.

Lemma aside_nil : aside [].
Proof. by intros u n _. Qed.

Lemma aside_cons o tr : ~ plain o -> aside tr -> aside (o :: tr).
Proof. intros Ho H u n Hn. by apply guarded_mem, H. Qed.

Lemma aside_steady t tr : aside tr -> steady t tr.
Proof. intros H u n Hn _. by apply H. Qed.

Lemma delta_get u c a : delta (RTask u) (Obs (E := kernelE) (GetTaskStruct c) a) = cnt u [c].
Proof. unfold delta. cbn. repeat case_decide; congruence || lia. Qed.

Lemma delta_put u c a : delta (RTask u) (Obs (E := kernelE) (PutTaskStruct c) a) = - cnt u [c].
Proof. unfold delta. cbn. repeat case_decide; congruence || lia. Qed.

Lemma guarded_get c a tr : aside tr ->
  forall u n, 0 <= n ->
  guarded u n (Obs (E := kernelE) (GetTaskStruct c) a :: tr) (n + cnt u [c]).
Proof.
  intros Ht u n Hn. pose proof (cnt_nonneg u [c]).
  apply guarded_cons; rewrite ?delta_get; [done..|lia|]. apply Ht. lia.
Qed.

Lemma guarded_put c a tr : aside tr ->
  forall u n, 0 <= n ->
  guarded u (n + cnt u [c]) (Obs (E := kernelE) (PutTaskStruct c) a :: tr) n.
Proof.
  intros Ht u n Hn. apply guarded_cons; rewrite ?delta_put; [done..|lia|].
  replace (n + cnt u [c] + - cnt u [c]) with n by lia. by apply Ht.
Qed.

(** Solves [aside] of an explicit trace of memory calls. *)
Ltac aside_tac :=
  repeat first [apply aside_nil | apply aside_cons; [by intros []|] | done].

Section sim.
Context (use_bfs dump_threads new_state : bool).
Context (answer : trace kernelE -> forall c : kcall, kans c).
Context (kmalloc : nat -> memory -> option Z).

(** [kmalloc] answers a block that is free. *)
Definition fresh_alloc : Prop := forall n m p, kmalloc n m = Some p ->
  p <> 0 /\ m !! p = None /\ m !! (p + 8) = None.

Definition never_fails : Prop := forall n m, kmalloc n m <> None.

Context (Hfresh : fresh_alloc).

Local Abbreviation hd := (machine answer kmalloc).

(** An answer the machine may have given. *)
Definition heard (o : obs kernelE) : Prop :=
  plain o -> exists h, obs_ans o = answer h (obs_call o).

(** The execution of [p] from [s] ends in a state, having made calls and with
    an outcome that satisfy [Q]. *)
Definition ends {A} (s : kstate) (p : kprog A)
    (Q : kstate -> trace kernelE -> outcome A -> Prop) : Prop :=
  exists s' tr o, exec hd s p = (s', o) /\ calls s' = calls s ++ tr /\
    Forall heard tr /\ Q s' tr o.

Lemma ends_mono {A} s (p : kprog A) (Q R : kstate -> trace kernelE -> outcome A -> Prop) :
  (forall s' tr o, Q s' tr o -> R s' tr o) -> ends s p Q -> ends s p R.
Proof. intros HQR (s' & tr & o & ? & ? & ? & ?). exists s', tr, o. auto. Qed.

Lemma ends_ret {A} s (a : A) (Q : kstate -> trace kernelE -> outcome A -> Prop) :
  Q s [] (Done a) -> ends s (mret a) Q.
Proof. intros HQ. exists s, [], (Done a). by rewrite app_nil_r. Qed.

Lemma ends_bind {A B} s (p : kprog A) (f : A -> kprog B)
    (Q : kstate -> trace kernelE -> outcome B -> Prop) :
  ends s p (fun s' tr o => match o with
    | Done a => ends s' (f a) (fun s'' tr' o' => Q s'' (tr ++ tr') o')
    | Halted x => Q s' tr (Halted x)
    end) -> ends s (p ≫= f) Q.
Proof.
  intros (s' & tr & o & He & Hc & Hh & HQ). unfold ends. rewrite exec_bind, He.
  destruct o as [a|x]; [|by exists s', tr, (Halted x)].
  destruct HQ as (s'' & tr' & o' & He' & Hc' & Hh' & HQ).
  exists s'', (tr ++ tr'), o'. split_and!; [done| |by apply Forall_app|done].
  by rewrite Hc', Hc, app_assoc.
Qed.

Lemma ends_mret {A B} s (a : A) (f : A -> kprog B) Q :
  ends s (f a) Q -> ends s (mret a ≫= f) Q.
Proof. done. Qed.

(** One call. *)
Lemma ends_call {A} s (c : kcall) (a : kans c) s' (f : kans c -> kprog A) Q :
  hd s c = Some (a, s') -> calls s' = calls s ++ [Obs (E := kernelE) c a] ->
  heard (Obs (E := kernelE) c a) ->
  ends s' (f a) (fun s'' tr o => Q s'' (Obs (E := kernelE) c a :: tr) o) ->
  ends s (kdo c ≫= f) Q.
Proof.
  intros Hs Hc Hh (s'' & tr & o & He & Hc' & Hh' & HQ).
  exists s'', (Obs (E := kernelE) c a :: tr), o. split_and!; [|..|by constructor|done].
  - change (match hd s c with
            | Some (r, s1) => exec hd s1 (f r)
            | None => (s, Halted (Faulted BadAccess))
            end = (s'', o)). by rewrite Hs.
  - by rewrite Hc', Hc, <- app_assoc.
Qed.

(** One call the kernel answers. *)
Lemma ends_kernel {A} s (c : kcall) (f : kans c -> kprog A) Q :
  plain (Obs (E := kernelE) c (answer (calls s) c)) ->
  ends (logged s c (answer (calls s) c)) (f (answer (calls s) c))
    (fun s'' tr o => Q s'' (Obs (E := kernelE) c (answer (calls s) c) :: tr) o) ->
  ends s (kdo c ≫= f) Q.
Proof.
  intros Hc. eapply ends_call; [|done|by intros _; exists (calls s)].
  unfold plain in Hc. cbn in Hc. by destruct c.
Qed.

Lemma ends_do s (c : kcall) Q : ends s (kdo c ≫= mret) Q -> ends s (kdo c) Q.
Proof. done. Qed.

(** A computation that does not touch the module's memory. *)
Lemma ends_plain {A} s (p : kprog A) (Q : kstate -> trace kernelE -> outcome A -> Prop) :
  always p (fun tr o => Forall plain tr /\
    forall s', mem s' = mem s -> blocks s' = blocks s -> calls s' = calls s ++ tr ->
      Forall heard tr -> Q s' tr o) ->
  ends s p Q.
Proof.
  revert s Q. induction p as [a|x|c k IH]; intros s Q Hp; cbn [always] in Hp.
  - exists s, [], (Done a). rewrite app_nil_r. split_and!; [done..|].
    apply Hp; rewrite ?app_nil_r; done.
  - exists s, [], (Halted x). rewrite app_nil_r. split_and!; [done..|].
    apply Hp; rewrite ?app_nil_r; done.
  - assert (plain (Obs (E := kernelE) c (answer (calls s) c))) as Hc.
    { set (rho := (fun _ c => answer (calls s) c) : env kernelE).
      destruct (always_run _ _ (Hp (answer (calls s) c)) rho) as [HF _].
      by apply Forall_cons in HF as [? _]. }
    apply (ends_call s c (answer (calls s) c) (logged s c (answer (calls s) c)) k); try done.
    + unfold plain in Hc. cbn in Hc. by destruct c.
    + intros _. by exists (calls s).
    + apply IH. eapply always_mono; [|apply Hp]. intros t o [HF HQ].
      apply Forall_cons in HF as [_ HF]. split; [done|].
      intros s' Hm Hb Hcs Hh. apply HQ; [done..| |].
      * rewrite Hcs. unfold logged. cbn. by rewrite <- app_assoc.
      * constructor; [|done]. intros _. by exists (calls s).
Qed.

(** ** The work list in memory *)

(** The module owns exactly the nodes [ns], on top of the memory [m0]. *)
Definition owns (m0 : memory) (s : kstate) (ns : list (Z * Z)) (q : Z) : Prop :=
  holds m0 (mem s) ns q /\ blocks s = list_to_set (ns.*1).

(** In the breadth-first mode [tail] points to the last [next] field. *)
Definition tail_ok (ns : list (Z * Z)) (tail : Z) : Prop :=
  use_bfs = true -> forall l t, last ns = Some (l, t) -> tail = l + 8.

Lemma owns_head m0 s a t ns q : owns m0 s ((a, t) :: ns) q -> q = a /\ a <> 0.
Proof. intros [[Hl _ _ _] _]. by destruct Hl as (-> & ? & _). Qed.

Lemma owns_nil m0 s ns : owns m0 s ns 0 -> ns = [].
Proof.
  intros [[Hl _ _ _] _]. destruct ns as [|[a t] ns]; [done|].
  destruct Hl as (<- & ? & _). done.
Qed.

Lemma cells_fst a ns : a ∈ ns.*1 -> a ∈ cells ns.
Proof.
  induction ns as [|[b t] ns IH]; [done|]. rewrite cells_cons. cbn [fmap list_fmap fst].
  rewrite !elem_of_cons. tauto.
Qed.

(** [t = q->task] *)
Lemma load_task {A} m0 s a t ns q (f : Z -> kprog A) Q :
  owns m0 s ((a, t) :: ns) q ->
  (forall s', mem s' = mem s -> blocks s' = blocks s ->
     ends s' (f t) (fun s'' tr o => Q s'' (Obs (E := kernelE) (Load (q_task q)) t :: tr) o)) ->
  ends s (kdo (Load (q_task q)) ≫= f) Q.
Proof.
  intros [[Hl _ _ _] _] Hf. destruct Hl as (-> & Ha & Ht & _).
  apply (ends_call s (Load (q_task a)) t (logged s (Load (q_task a)) t) f);
    [|done|by intros []|by apply Hf].
  unfold q_task. simpl. by rewrite Ht.
Qed.

Lemma machine_kfree s p : p ∈ blocks s ->
  hd s (Kfree p) =
  Some (tt, logged (set_mem (set_blocks s (blocks s ∖ {[p]}))
              (delete p (delete (p + 8) (mem s)))) (Kfree p) tt).
Proof. intros Hp. simpl. by rewrite decide_True. Qed.

Lemma pop_ends m0 s a t ns q :
  owns m0 s ((a, t) :: ns) q ->
  ends s (pop q) (fun s' tr o => aside tr /\ task_lines new_state tr = [] /\
    exists n, o = Done n /\ owns m0 s' ns n).
Proof.
  intros [Hh Hb]. destruct (holds_pop _ _ _ _ _ _ Hh) as (-> & n & Hn & Hh').
  unfold pop.
  apply (ends_call s (Load (q_next a)) n (logged s (Load (q_next a)) n)); [|done|by intros []|].
  { unfold q_next. simpl. by rewrite Hn. }
  eapply ends_call; [apply machine_kfree|done|by intros []|].
  { change (a ∈ blocks s). rewrite Hb. simpl. apply elem_of_union. left.
    by apply elem_of_singleton. }
  apply ends_ret. split; [aside_tac|]. split; [done|].
  exists n. split; [done|]. split; [done|]. simpl. rewrite Hb. simpl.
  assert (a ∉ ns.*1) as Hna.
  { destruct Hh as [_ Hnd _ _]. rewrite cells_cons in Hnd.
    apply NoDup_cons in Hnd as [Hnd _]. intros ?%cells_fst. apply Hnd.
    rewrite elem_of_cons. auto. }
  apply set_eq. intros x. rewrite elem_of_difference, elem_of_union, !elem_of_singleton.
  rewrite !elem_of_list_to_set. split; [tauto|]. intros Hx. split; [auto|]. by intros ->.
Qed.

Lemma machine_store s p v : is_Some (mem s !! p) ->
  hd s (Store p v) = Some (tt, logged (set_mem s (<[p := Some v]> (mem s))) (Store p v) tt).
Proof. intros [x Hx]. simpl. by rewrite Hx. Qed.

Lemma machine_kmalloc s size p : kmalloc (nalloc s) (mem s) = Some p ->
  hd s (Kmalloc size) =
  Some (p, logged (set_mem (set_blocks (allocated s) ({[p]} ∪ blocks s))
             (<[p := None]> (<[p + 8 := None]> (mem s)))) (Kmalloc size) p).
Proof. intros Hp. simpl. by rewrite Hp. Qed.

Lemma machine_nomem s size : kmalloc (nalloc s) (mem s) = None ->
  hd s (Kmalloc size) = Some (0, logged (allocated s) (Kmalloc size) 0).
Proof. intros Hp. simpl. by rewrite Hp. Qed.

(** The state after a node [p] is allocated and stored at the front. *)
Lemma owns_push m0 s s' ns q p t :
  owns m0 s ns q -> kmalloc (nalloc s) (mem s) = Some p ->
  mem s' = <[p + 8 := Some q]> (<[p := Some t]> (<[p := None]> (<[p + 8 := None]> (mem s)))) ->
  blocks s' = {[p]} ∪ blocks s ->
  owns m0 s' ((p, t) :: ns) p.
Proof.
  intros [Hh Hb] (Hp & Hp0 & Hp8)%Hfresh Hm Hbs. split.
  - rewrite Hm. by apply holds_push.
  - by rewrite Hbs, Hb.
Qed.

Lemma owns_append m0 s s' ns l tl q p t :
  owns m0 s (ns ++ [(l, tl)]) q -> kmalloc (nalloc s) (mem s) = Some p ->
  mem s' = <[l + 8 := Some p]> (<[p + 8 := Some 0]>
    (<[p := Some t]> (<[p := None]> (<[p + 8 := None]> (mem s))))) ->
  blocks s' = {[p]} ∪ blocks s ->
  owns m0 s' ((ns ++ [(l, tl)]) ++ [(p, t)]) q.
Proof.
  intros [Hh Hb] (Hp & Hp0 & Hp8)%Hfresh Hm Hbs. split.
  - rewrite Hm. by apply holds_append.
  - rewrite Hbs, Hb, (fmap_app _ (ns ++ [(l, tl)])), list_to_set_app_L. simpl.
    by rewrite union_empty_r_L, (union_comm_L {[p]}).
Qed.

(** ** Adding the children *)

Lemma enqueue_cons {A} (ts : list A) c cs :
  enqueue use_bfs ts (c :: cs) = enqueue use_bfs (enqueue use_bfs ts [c]) cs.
Proof. unfold enqueue. destruct use_bfs; simpl; by rewrite <- app_assoc. Qed.

(** What [add_children] leaves: the new list, or, when an allocation failed,
    the list so far, a child [c] being referenced and not in the list. *)
Definition added (m0 : memory) (ts cs : list Z) (s' : kstate) (tr : trace kernelE)
    (o : outcome (Z + Z * Z)) : Prop :=
  task_lines new_state tr = [] /\
  match o with
  | Done (inr (q', tail')) => exists ns',
      owns m0 s' ns' q' /\ tail_ok ns' tail' /\ ns'.*2 = enqueue use_bfs ts cs /\
      forall u n, 0 <= n -> guarded u n tr (n + cnt u cs)
  | Done (inl q') => ~ never_fails /\ exists ns' cs1 c cs2,
      owns m0 s' ns' q' /\ cs = cs1 ++ c :: cs2 /\ ns'.*2 = enqueue use_bfs ts cs1 /\
      forall u n, 0 <= n -> guarded u n tr (n + cnt u (cs1 ++ [c]))
  | Halted _ => False
  end.

(** One child is added, and the rest of the loop goes on from there. *)
Lemma added_cons m0 ts c cs s' tr tr1 o :
  added m0 (enqueue use_bfs ts [c]) cs s' tr o ->
  task_lines new_state tr1 = [] -> (forall u n, 0 <= n -> guarded u n tr1 (n + cnt u [c])) ->
  added m0 ts (c :: cs) s' (tr1 ++ tr) o.
Proof.
  intros [Hl Ha] Hl1 Hg1. split; [by rewrite task_lines_app, Hl, Hl1|].
  assert (forall u n k, 0 <= n -> (forall u n, 0 <= n -> guarded u n tr (n + k u)) ->
    guarded u n (tr1 ++ tr) (n + (cnt u [c] + k u))) as Hg.
  { intros u n k Hn Hk. eapply guarded_app; [by apply Hg1|]. rewrite Z.add_assoc.
    apply Hk. pose proof (cnt_nonneg u [c]). lia. }
  destruct o as [[q'|[q' tail']]|x]; [| |done].
  - destruct Ha as (Hf & ns' & cs1 & d & cs2 & Ho & -> & Hns & Hg').
    split; [done|]. exists ns', (c :: cs1), d, cs2. rewrite enqueue_cons.
    split_and!; [done..|]. intros u n Hn.
    change (cnt u ((c :: cs1) ++ [d])) with (cnt u ([c] ++ (cs1 ++ [d]))).
    rewrite cnt_app. by apply (Hg u n (fun u => cnt u (cs1 ++ [d]))).
  - destruct Ha as (ns' & Ho & Ht & Hns & Hg').
    exists ns'. rewrite enqueue_cons. split_and!; [done..|]. intros u n Hn.
    change (cnt u (c :: cs)) with (cnt u ([c] ++ cs)). rewrite cnt_app.
    by apply (Hg u n (fun u => cnt u cs)).
Qed.

Lemma add_children_ends m0 cs s ns q tail :
  owns m0 s ns q -> tail_ok ns tail -> (use_bfs = true -> ns <> []) ->
  ends s (add_children use_bfs cs q tail) (added m0 (ns.*2) cs).
Proof.
  revert s ns q tail. induction cs as [|c cs IH]; intros s ns q tail Ho Ht Hn.
  { apply ends_ret. split; [done|]. exists ns. split_and!; [done..| |].
    - unfold enqueue. destruct use_bfs; [by rewrite app_nil_r|done].
    - intros u n Hu. simpl. split; [lia|done]. }
  cbn [add_children].
  eapply (ends_call s (GetTaskStruct c)); [done..|by intros _; exists (calls s)|].
  destruct (kmalloc (nalloc s) (mem s)) as [p|] eqn:Hk.
  - eapply ends_call; [by apply machine_kmalloc|done|by intros []|].
    destruct (Hfresh _ _ _ Hk) as (Hp & Hp0 & Hp8).
    cbn beta. rewrite (proj2 (Z.eqb_neq p 0)) by done.
    eapply ends_call; [apply machine_store|done|by intros []|].
    { unfold q_task. cbn. rewrite lookup_insert_eq. by eexists. }
    destruct use_bfs eqn:Hb.
    + destruct (last ns) as [[l tl]|] eqn:Hlast;
        [|apply last_None in Hlast; by destruct (Hn eq_refl)].
      rewrite (Ht Hb l tl Hlast) in *. apply last_Some in Hlast as [ns0 ->].
      assert (mem s !! (l + 8) <> None) as Hl8.
      { destruct Ho as [[Hseg _ _ _] _].
        assert (is_Some (mem s !! (l + 8))) as [v ->]; [|done].
        eapply lseg_alloc; [done|]. rewrite cells_app, elem_of_app. right. cbn.
        rewrite !elem_of_cons. auto. }
      eapply ends_call; [apply machine_store|done|by intros []|].
      { unfold q_task, q_next. cbn. rewrite lookup_insert_ne, lookup_insert_ne by lia.
        rewrite lookup_insert_eq. by eexists. }
      eapply ends_call; [apply machine_store|done|by intros []|].
      { unfold q_task, q_next. cbn. rewrite !lookup_insert_ne by congruence.
        by apply not_eq_None_Some. }
      eapply ends_mono; [|apply (IH _ ((ns0 ++ [(l, tl)]) ++ [(p, c)]))].
      * intros s' tr o Ha. eapply (added_cons _ _ _ _ _ _ [_; _; _; _; _]); [|done|].
        { unfold enqueue. rewrite Hb. by rewrite fmap_app in Ha. }
        apply guarded_get. aside_tac.
      * by eapply owns_append.
      * intros _ l' t'. rewrite last_snoc. by intros [= <- <-].
      * intros _ H. by apply app_nil in H as [_ ?].
    + eapply ends_call; [apply machine_store|done|by intros []|].
      { unfold q_task, q_next. cbn. rewrite lookup_insert_ne, lookup_insert_ne by lia.
        rewrite lookup_insert_eq. by eexists. }
      eapply ends_mono; [|apply (IH _ ((p, c) :: ns))].
      * intros s' tr o Ha. eapply (added_cons _ _ _ _ _ _ [_; _; _; _]); [|done|].
        { unfold enqueue. by rewrite Hb. }
        apply guarded_get. aside_tac.
      * eapply owns_push; [done|done|done|done].
      * intros Hb'. congruence.
      * done.
  - eapply ends_call; [by apply machine_nomem|done|by intros []|]. simpl.
    apply ends_ret. split; [done|]. split; [intros HF; by eapply HF|].
    exists ns, [], c, cs. split_and!; [done..| |].
    + unfold enqueue. destruct use_bfs; [by rewrite app_nil_r|done].
    + apply (guarded_get c (answer (calls s) (GetTaskStruct c))). aside_tac.
Qed.

(** ** One iteration *)

(** The kernel's answers never change. *)
Definition static (says : forall c : kcall, kans c) : Prop :=
  forall h c, answer h c = says c.

Lemma static_heard says tr : static says -> Forall heard tr -> Forall (said says) tr.
Proof.
  intros Hs Htr. eapply Forall_impl; [exact Htr|]. intros o Ho Hp.
  destruct (Ho Hp) as [h ->]. apply Hs.
Qed.

Definition prints_task (t : Z) (tr : trace kernelE) : Prop :=
  forall says, static says -> task_lines new_state tr = [task_line new_state says t].

(** Printing a task and adding its children. *)
Lemma visit_ends {A} b m0 s ns q tail t (f : Z + Z * Z -> kprog A) Q :
  use_bfs = b -> owns m0 s ns q -> tail_ok ns tail -> (use_bfs = true -> ns <> []) ->
  (forall s' tr1 tr2 h r, steady t tr1 -> prints_task t tr1 ->
    added m0 (ns.*2) (answer h (TaskChildren t)) s' tr2 (Done r) ->
    ends s' (f r) (fun s'' tr' o => Q s'' (tr1 ++ tr2 ++ tr') o)) ->
  ends s (dump_task dump_threads new_state t ;;
          children ← kdo (TaskChildren t) ;
          r ← add_children b children q tail ;
          f r) Q.
Proof.
  intros <- Ho Ht Hn Hf. apply ends_bind. apply ends_plain.
  eapply always_mono; [|apply dump_task_always].
  intros tr1 o (-> & Hp1 & Hs1 & Hl1). split; [done|]. intros s1 Hm1 Hb1 _ Hh1.
  eapply (ends_call s1 (TaskChildren t)); [done..|by intros _; exists (calls s1)|].
  apply ends_bind. eapply ends_mono; [|apply add_children_ends]; [|..|exact Ht|exact Hn].
  - intros s2 tr2 [r|x] Ha; [|by destruct Ha as [_ []]].
    eapply ends_mono; [|apply (Hf s2 (tr1 ++ [Obs (E := kernelE) (TaskChildren t)
      (answer (calls s1) (TaskChildren t))]) tr2 (calls s1) r); [| |exact Ha]].
    + intros s3 tr3 o. cbn beta. by rewrite <- !app_assoc.
    + apply steady_app; [done|]. intros u n Hu Hut. guarding.
    + intros says Hsays. rewrite task_lines_app, (Hl1 says); [done|].
      by apply static_heard.
  - destruct Ho as [Ho Hob]. split; cbn; congruence.
Qed.

(** What an iteration leaves when it goes on or fails. *)
Definition stepped (m0 : memory) (ns : list (Z * Z)) (s' : kstate) (tr : trace kernelE)
    (o : outcome ((Z * Z) + option Z)) : Prop :=
  match o with
  | Done (inr None) => ns = [] /\ tr = [] /\ owns m0 s' [] 0
  | Done (inl (q', tail')) => exists a t ns0 h ns',
      ns = (a, t) :: ns0 /\ owns m0 s' ns' q' /\ tail_ok ns' tail' /\
      ns'.*2 = enqueue use_bfs (ns0.*2) (answer h (TaskChildren t)) /\
      (forall u, guarded u (cnt u (ns.*2)) tr (cnt u (ns'.*2))) /\ prints_task t tr
  | Done (inr (Some q')) => ~ never_fails /\ exists a t ns0 h ns' lost,
      ns = (a, t) :: ns0 /\ owns m0 s' ns' q' /\
      (length ns' <= length ns + length (answer h (TaskChildren t)))%nat /\
      prints_task t tr /\ lost <> [] /\ (forall u, guarded u (cnt u (ns.*2)) tr (cnt u lost))
  | Halted _ => False
  end.

Lemma steady_guarded t ts tr1 tr2 d u :
  steady t tr1 -> (forall n, 0 <= n -> guarded u n tr2 (n + d)) ->
  guarded u (cnt u (t :: ts)) (tr1 ++ tr2) (cnt u (t :: ts) + d).
Proof.
  intros Hs Hd. pose proof (cnt_nonneg u (t :: ts)).
  eapply guarded_app; [apply Hs; [done|]|by apply Hd].
  intros ->. cbn [cnt]. rewrite decide_True by done. pose proof (cnt_nonneg t ts). lia.
Qed.

Lemma prints_task_app t tr tr' :
  prints_task t tr -> task_lines new_state tr' = [] -> prints_task t (tr ++ tr').
Proof. intros H Hl says Hs. by rewrite task_lines_app, (H says Hs), Hl, app_nil_r. Qed.

(** The case of a failed allocation, common to the two modes. *)
Lemma stepped_nomem m0 a t (ns0 ns : list (Z * Z)) s' tr0 tr1 tr2 h q' :
  aside tr0 -> steady t tr1 -> task_lines new_state tr0 = [] -> prints_task t tr1 ->
  (length ns <= S (length ns0))%nat ->
  added m0 (ns.*2) (answer h (TaskChildren t)) s' tr2 (Done (inl q')) ->
  stepped m0 ((a, t) :: ns0) s' (tr0 ++ tr1 ++ tr2) (Done (inr (Some q'))).
Proof.
  intros Ht0 Hs Hl0 Hp Hlen [Hl2 (Hf & ns' & cs1 & c & cs2 & Ho & Hcs & Hns & Hg)].
  split; [done|]. exists a, t, ns0, h, ns', ((t :: (ns0.*2)) ++ cs1 ++ [c]).
  split_and!; [done|done| | |done|].
  - rewrite Hcs, length_app. apply (f_equal length) in Hns. revert Hns.
    unfold enqueue. destruct use_bfs; rewrite ?length_app, ?length_rev, ?length_fmap;
      simpl; lia.
  - intros says Hsays. rewrite !task_lines_app, Hl0, Hl2, (Hp says Hsays). done.
  - intros u. rewrite cnt_app. eapply guarded_app; [by apply Ht0, cnt_nonneg|].
    apply steady_guarded; [done|]. intros n Hn. by apply Hg.
Qed.

(** The whole trace of an iteration: what comes before the task is printed,
    printing it, adding its children, and dropping it. *)
Lemma step_guarded t ts cs tr0 tr1 tr2 a tr3 :
  aside tr0 -> steady t tr1 -> (forall u n, 0 <= n -> guarded u n tr2 (n + cnt u cs)) ->
  aside tr3 -> forall u,
  guarded u (cnt u (t :: ts))
    (tr0 ++ tr1 ++ tr2 ++ Obs (E := kernelE) (PutTaskStruct t) a :: tr3)
    (cnt u (enqueue use_bfs ts cs)).
Proof.
  intros H0 H1 H2 H3 u. rewrite cnt_enqueue.
  eapply guarded_app; [by apply H0, cnt_nonneg|].
  rewrite (app_assoc tr1). eapply guarded_app.
  { apply steady_guarded; [done|]. intros n Hn. by apply H2. }
  replace (cnt u (t :: ts) + cnt u cs) with (cnt u ts + cnt u cs + cnt u [t])
    by (cbn [cnt]; lia).
  apply guarded_put; [done|]. pose proof (cnt_nonneg u ts).
  pose proof (cnt_nonneg u cs). lia.
Qed.

Lemma step_prints t tr0 tr1 tr2 a tr3 :
  task_lines new_state tr0 = [] -> prints_task t tr1 -> task_lines new_state tr2 = [] ->
  task_lines new_state tr3 = [] ->
  prints_task t (tr0 ++ tr1 ++ tr2 ++ Obs (E := kernelE) (PutTaskStruct t) a :: tr3).
Proof.
  intros H0 H1 H2 H3 says Hs. rewrite !task_lines_app, H0, (H1 says Hs), H2.
  cbn [app]. f_equal. exact H3.
Qed.

Lemma tree_step_ends m0 s ns q tail :
  owns m0 s ns q -> tail_ok ns tail ->
  ends s (tree_step use_bfs dump_threads new_state (q, tail)) (stepped m0 ns).
Proof.
  intros Ho Ht. destruct ns as [|[a t] ns0].
  { assert (q = 0) as -> by (destruct Ho as [[Hl _ _ _] _]; exact Hl).
    apply ends_ret. by split_and!. }
  destruct (owns_head _ _ _ _ _ _ Ho) as [-> Ha].
  unfold tree_step. rewrite (proj2 (Z.eqb_neq a 0)) by done.
  eapply load_task; [exact Ho|]. intros s1 Hm1 Hb1.
  assert (owns m0 s1 ((a, t) :: ns0) a) as Ho1 by (destruct Ho; split; congruence).
  destruct use_bfs eqn:Hb.
  - apply ends_mret, (visit_ends true m0 s1 ((a, t) :: ns0) a tail t); [done..|].
    intros s2 tr1 tr2 h [q'|[q' tail']] Hs Hp Had.
    { apply ends_ret. rewrite app_nil_r.
      eapply (stepped_nomem _ _ _ _ _ _ [_]); [aside_tac|done..| |exact Had]. done. }
    eapply (ends_call s2 (PutTaskStruct t)); [done..|by intros _; exists (calls s2)|].
    destruct Had as [Hl (ns' & Ho' & Ht' & Hns' & Hg)].
    destruct ns' as [|[a' t'] ns']; [by rewrite Hb in Hns'|].
    unfold enqueue in Hns'. rewrite Hb in Hns'. injection Hns' as -> Hns'.
    assert (ns'.*2 = enqueue use_bfs (ns0.*2) (answer h (TaskChildren t))) as Hq
      by (unfold enqueue; rewrite Hb; exact Hns').
    apply ends_bind. eapply ends_mono; [|eapply pop_ends; exact Ho'].
    intros s3 tr3 o (Ha3 & Hl3 & n & -> & Ho3). apply ends_ret.
    exists a, t, ns0, h, ns'. split_and!; [done|exact Ho3| |exact Hq| |].
    + intros _ l' tl' Hlast. eapply Ht'; [done|]. rewrite last_cons, Hlast. done.
    + intros u. rewrite Hq.
      apply (step_guarded t _ _ [_]); rewrite ?app_nil_r; [aside_tac|done..].
    + apply (step_prints t [_]); rewrite ?app_nil_r; done.
  - apply ends_bind. eapply ends_mono; [|eapply pop_ends; exact Ho1].
    intros s2 tr0 o (Ha2 & Hl2 & n & -> & Ho2).
    apply (visit_ends false m0 s2 ns0 n tail t); [done..|congruence|congruence|].
    intros s3 tr1 tr2 h [q'|[q' tail']] Hs Hp Had.
    { apply ends_ret. rewrite app_nil_r.
      eapply (stepped_nomem _ _ _ _ _ _ (_ :: tr0)); [aside_tac|done..| |exact Had]. lia. }
    eapply (ends_call s3 (PutTaskStruct t)); [done..|by intros _; exists (calls s3)|].
    destruct Had as [Hl (ns' & Ho' & Ht' & Hns' & Hg)].
    apply ends_mret, ends_ret. exists a, t, ns0, h, ns'. split_and!; [done..| |].
    + intros u. rewrite Hns'. by apply (step_guarded t _ _ (_ :: tr0)); [aside_tac|..].
    + by apply (step_prints t (_ :: tr0)).
Qed.

(** ** The loops *)

(** The work list [ns] is the list of trees [ts], which never change. *)
Definition tree_of (says : forall c : kcall, kans c) (ts : list tree)
    (ns : list (Z * Z)) : Prop :=
  static says /\ Forall (describes (fun t => says (TaskChildren t))) ts /\
  ns.*2 = root <$> ts.

Lemma tree_of_head says T ts a t ns :
  tree_of says (T :: ts) ((a, t) :: ns) ->
  t = root T /\ tree_of says ts ns /\ (forall h, answer h (TaskChildren t) = root <$> kids T).
Proof.
  intros (Hs & [HT Hts]%Forall_cons & Hns). injection Hns as Ht Hns.
  split_and!; [done|by split_and!|]. intros h. rewrite (Hs h (TaskChildren t)), Ht.
  apply describes_node in HT as [HT _]. exact HT.
Qed.

Lemma tree_of_step says T ts a t ns h ns' :
  tree_of says (T :: ts) ((a, t) :: ns) ->
  ns'.*2 = enqueue use_bfs (ns.*2) (answer h (TaskChildren t)) ->
  tree_of says (enqueue use_bfs ts (kids T)) ns'.
Proof.
  intros HT Hns'. destruct (tree_of_head _ _ _ _ _ _ HT) as (Ht & (Hs & Hts & Hns) & Hc).
  split; [done|].
  destruct HT as (_ & [HT _]%Forall_cons & _).
  apply describes_node in HT as [_ HT]. split.
  - unfold enqueue. destruct use_bfs; apply Forall_app; [done|].
    split; [by apply Forall_rev|done].
  - rewrite Hns', Hc, Hns. unfold enqueue. destruct use_bfs; by rewrite fmap_app, ?fmap_rev.
Qed.

Lemma tree_of_nil says ts : tree_of says ts [] -> ts = [].
Proof. intros (_ & _ & H). by destruct ts. Qed.

Definition looped (m0 : memory) (fuel : nat) (ns : list (Z * Z)) (s' : kstate)
    (tr : trace kernelE) (o : outcome (option Z)) : Prop :=
  match o with
  | Done None => owns m0 s' [] 0 /\ forall u, guarded u (cnt u (ns.*2)) tr 0
  | Done (Some q') => ~ never_fails /\ exists ns' lost,
      owns m0 s' ns' q' /\ lost <> [] /\
      (forall u, guarded u (cnt u (ns.*2)) tr (cnt u lost)) /\
      forall says ts, tree_of says ts ns -> (length ns' <= forest_size ts)%nat
  | Halted x => x = Faulted OutOfFuel /\
      (forall u, exists k, guarded u (cnt u (ns.*2)) tr k) /\
      forall says ts, tree_of says ts ns -> ~ (forest_size ts < fuel)%nat
  end /\
  forall says ts, tree_of says ts ns ->
    task_lines new_state tr `prefix_of` (task_line new_state says <$> visits use_bfs fuel ts) /\
    (o = Done None -> task_lines new_state tr = (task_line new_state says <$> visits use_bfs fuel ts)).

Lemma tree_of_cons says ts a t ns :
  tree_of says ts ((a, t) :: ns) -> exists T ts0, ts = T :: ts0.
Proof. intros (_ & _ & H). destruct ts as [|T ts0]; [done|]. by eexists _, _. Qed.

(** A first iteration, followed by the rest of the loop. *)
Lemma looped_step m0 fuel a t ns0 h ns' s' tr tr' o :
  ns'.*2 = enqueue use_bfs (ns0.*2) (answer h (TaskChildren t)) ->
  (forall u, guarded u (cnt u (((a, t) :: ns0).*2)) tr (cnt u (ns'.*2))) ->
  prints_task t tr ->
  looped m0 fuel ns' s' tr' o ->
  looped m0 (S fuel) ((a, t) :: ns0) s' (tr ++ tr') o.
Proof.
  intros Hns' Hg Hp [Ho Hl].
  assert (forall says ts, tree_of says ts ((a, t) :: ns0) -> exists T ts0,
    ts = T :: ts0 /\ t = root T /\ tree_of says (enqueue use_bfs ts0 (kids T)) ns' /\
    forest_size ts = S (forest_size (enqueue use_bfs ts0 (kids T)))) as Hts.
  { intros says ts HT. destruct (tree_of_cons _ _ _ _ _ HT) as (T & ts0 & ->).
    exists T, ts0. split_and!; [done|by eapply tree_of_head|by eapply tree_of_step|].
    rewrite forest_size_enqueue. unfold forest_size at 1. cbn [sum_list_with].
    rewrite size_kids. fold (forest_size ts0). lia. }
  assert (forall u k, guarded u (cnt u (ns'.*2)) tr' k ->
    guarded u (cnt u (((a, t) :: ns0).*2)) (tr ++ tr') k) as Hga.
  { intros u k Hk. by eapply guarded_app. }
  split.
  - destruct o as [[q'|]|x].
    + destruct Ho as (Hf & ns'' & lost & Ho & Hlost & Hg' & Hlen). split; [done|].
      exists ns'', lost. split_and!; [done|done|by auto|].
      intros says ts (T & ts0 & -> & _ & HT & Hsz)%Hts. specialize (Hlen _ _ HT). lia.
    + destruct Ho as [Ho Hg']. split; [done|auto].
    + destruct Ho as (-> & Hk & Hsz). split_and!; [done| |].
      * intros u. destruct (Hk u) as [k Hk']. exists k. auto.
      * intros says ts (T & ts0 & -> & _ & HT & Hsz')%Hts. specialize (Hsz _ _ HT). lia.
  - intros says ts HT. pose proof (proj1 HT) as Hs.
    destruct (Hts _ _ HT) as (T & ts0 & -> & -> & HT' & _).
    destruct (Hl _ _ HT') as [Hpre Heq]. cbn [visits]. rewrite fmap_cons.
    rewrite task_lines_app, (Hp says Hs). split; [by apply prefix_cons|].
    intros Hd. by rewrite (Heq Hd).
Qed.

Lemma tree_loop_ends m0 fuel s ns q tail :
  owns m0 s ns q -> tail_ok ns tail ->
  ends s (loop fuel (tree_step use_bfs dump_threads new_state) (q, tail)) (looped m0 fuel ns).
Proof.
  revert s ns q tail. induction fuel as [|fuel IH]; intros s ns q tail Ho Ht.
  { exists s, [], (Halted (Faulted OutOfFuel)). rewrite app_nil_r. split_and!; [done..|].
    split; [split_and!; [done|by eexists|lia]|]. intros says ts _.
    split; [apply prefix_nil|done]. }
  cbn [loop]. apply ends_bind. eapply ends_mono; [|by apply tree_step_ends].
  intros s' tr [[[q' tail']|[q'|]]|x] Hst; [| | |done].
  - destruct Hst as (a & t & ns0 & h & ns' & -> & Ho' & Ht' & Hns' & Hg & Hp).
    eapply ends_mono; [|by apply IH]. intros s'' tr' o. by apply (looped_step m0 fuel a t ns0 h ns').
  - destruct Hst as (Hf & a & t & ns0 & h & ns' & lost & -> & Ho' & Hlen & Hp & Hlost & Hg).
    apply ends_ret. rewrite app_nil_r. split.
    + split; [done|]. exists ns', lost. split_and!; [done..|].
      intros says ts HT. destruct (tree_of_cons _ _ _ _ _ HT) as (T & ts0 & ->).
      destruct (tree_of_head _ _ _ _ _ _ HT) as (_ & (_ & _ & Hns) & Hc).
      rewrite (Hc h), length_fmap in Hlen. apply (f_equal length) in Hns.
      rewrite !length_fmap in Hns. simpl in Hlen.
      pose proof (forest_size_length (kids T)). pose proof (forest_size_length ts0).
      unfold forest_size at 1. cbn [sum_list_with]. rewrite size_kids.
      fold (forest_size ts0). lia.
    + intros says ts HT. destruct (tree_of_cons _ _ _ _ _ HT) as (T & ts0 & ->).
      rewrite (Hp says (proj1 HT)). destruct (tree_of_head _ _ _ _ _ _ HT) as (-> & _ & _).
      split; [|done]. cbn [visits]. rewrite fmap_cons. apply prefix_cons, prefix_nil.
  - destruct Hst as (-> & -> & Ho'). apply ends_ret. split; [by split|].
    intros says ts ->%tree_of_nil. done.
Qed.

(** The loop at [out_nomem] frees all nodes, and touches no task. *)
Lemma free_loop_ends m0 fuel s ns q :
  owns m0 s ns q ->
  ends s (loop fuel free_step q) (fun s' tr o => aside tr /\ task_lines new_state tr = [] /\
    match o with
    | Done _ => owns m0 s' [] 0
    | Halted x => x = Faulted OutOfFuel /\ ~ (length ns < fuel)%nat
    end).
Proof.
  revert s ns q. induction fuel as [|fuel IH]; intros s ns q Ho.
  { exists s, [], (Halted (Faulted OutOfFuel)). rewrite app_nil_r.
    split_and!; [done..|apply aside_nil|done|done|lia]. }
  cbn [loop]. apply ends_bind. unfold free_step at 1. destruct ns as [|[a t] ns0].
  { assert (q = 0) as -> by (destruct Ho as [[Hl _ _ _] _]; exact Hl).
    apply ends_ret, ends_ret. split_and!; [apply aside_nil|done|exact Ho]. }
  destruct (owns_head _ _ _ _ _ _ Ho) as [-> Ha].
  rewrite (proj2 (Z.eqb_neq a 0)) by done.
  apply ends_bind. eapply ends_mono; [|eapply pop_ends; exact Ho].
  intros s1 tr1 o (Ha1 & Hl1 & n & -> & Ho1). apply ends_ret.
  eapply ends_mono; [|apply (IH s1 ns0 n Ho1)].
  intros s2 tr2 o (Ha2 & Hl2 & Hout). rewrite app_nil_r. split_and!.
  - intros u k Hk. eapply guarded_app; [by apply Ha1|by apply Ha2].
  - by rewrite task_lines_app, Hl1, Hl2.
  - destruct o as [[]|x]; [done|]. simpl. intuition lia.
Qed.

(** ** The whole dump *)

(** [lost] are the tasks whose references are never dropped. *)
Definition dumped (s : kstate) (fuel : nat) (task : Z) (s' : kstate)
    (tr : trace kernelE) (o : outcome unit) : Prop :=
  (exists lost, (forall u, exists k, guarded u (cnt u [task]) tr k /\
                  (o = Done tt -> k = cnt u lost)) /\
     (lost <> [] -> ~ never_fails) /\
     forall T says, tree_of says [T] [(0, task)] ->
       task_lines new_state tr `prefix_of` (task_line new_state says <$> visits use_bfs fuel [T]) /\
       (o = Done tt -> lost = [] ->
        task_lines new_state tr = (task_line new_state says <$> visits use_bfs fuel [T]))) /\
  match o with
  | Done _ => mem s' = mem s /\ blocks s' = blocks s
  | Halted x => x = Faulted OutOfFuel /\
      forall T says, tree_of says [T] [(0, task)] -> ~ (size T < fuel)%nat
  end.

Lemma owns_done m0 s : owns m0 s [] 0 -> mem s = m0 /\ blocks s = ∅.
Proof. intros [Hh Hb]. split; [|exact Hb]. by apply holds_nil_inv in Hh as [? _]. Qed.

Lemma dumped_loop s s1 fuel task p tr0 tr o :
  aside tr0 -> task_lines new_state tr0 = [] -> blocks s = ∅ ->
  looped (mem s) fuel [(p, task)] s1 tr o ->
  match o with
  | Done r =>
      ends s1 (match r with None => mret tt | Some q => loop fuel free_step q end)
        (fun s' tr' o' => dumped s fuel task s' (tr0 ++ tr ++ tr') o')
  | Halted x => dumped s fuel task s1 (tr0 ++ tr) (Halted x)
  end.
Proof.
  intros H0 Hl0 Hb [Ho Hl].
  assert (forall u k, guarded u (cnt u [task]) tr k ->
    guarded u (cnt u [task]) (tr0 ++ tr) k) as Hg0.
  { intros u k Hk. eapply guarded_app; [|done]. by apply H0, cnt_nonneg. }
  destruct o as [[q'|]|x].
  - destruct Ho as (Hf & ns' & lost & Ho & Hlost & Hg & Hlen).
    eapply ends_mono; [|by apply (free_loop_ends (mem s) fuel s1 ns' q')].
    intros s2 tr2 o2 (Ha2 & Hl2 & Hout). split.
    + exists lost. split_and!; [|done|].
      * intros u. exists (cnt u lost). split; [|done]. rewrite app_assoc.
        eapply guarded_app; [by apply Hg0, Hg|]. by apply Ha2, cnt_nonneg.
      * intros T says HT. split; [|done]. rewrite !task_lines_app, Hl0, Hl2, app_nil_r.
        by apply Hl.
    + destruct o2 as [[]|x].
      * apply owns_done in Hout as [-> ->]. by rewrite Hb.
      * destruct Hout as [-> Hn]. split; [done|]. intros T says HT.
        specialize (Hlen says [T] HT). unfold forest_size in Hlen. cbn in Hlen. lia.
  - destruct Ho as [Ho Hg]. apply ends_ret. rewrite app_nil_r.
    apply owns_done in Ho as [Hm Hb1]. split; [|by rewrite Hb].
    exists []. split_and!; [|done|].
    + intros u. exists 0. split; [by apply Hg0|done].
    + intros T says HT. rewrite task_lines_app, Hl0. destruct (Hl _ _ HT) as [Hp Hd].
      split; [done|]. intros _ _. by apply Hd.
  - destruct Ho as (-> & Hk & Hsz). split.
    + exists []. split_and!; [|done|].
      * intros u. destruct (Hk u) as [k Hk']. exists k. split; [by apply Hg0|done].
      * intros T says HT. rewrite task_lines_app, Hl0. split; [|done]. by apply Hl.
    + split; [done|]. intros T says HT Hlt. apply (Hsz says [T] HT).
      unfold forest_size. cbn. lia.
Qed.

Lemma dump_ends fuel s task :
  blocks s = ∅ ->
  ends s (dump_children_tree use_bfs dump_threads new_state fuel task) (dumped s fuel task).
Proof.
  intros Hb0. assert (owns (mem s) s [] 0) as Ho by (split; [apply holds_nil|done]).
  unfold dump_children_tree.
  destruct (kmalloc (nalloc s) (mem s)) as [p|] eqn:Hk.
  - eapply ends_call; [by apply machine_kmalloc|done|by intros []|].
    destruct (Hfresh _ _ _ Hk) as (Hp & Hp0 & Hp8).
    cbn beta. rewrite (proj2 (Z.eqb_neq p 0)) by done.
    eapply ends_call; [apply machine_store|done|by intros []|].
    { unfold q_task. cbn. rewrite lookup_insert_eq. by eexists. }
    eapply ends_call; [apply machine_store|done|by intros []|].
    { unfold q_task, q_next. cbn. rewrite lookup_insert_ne, lookup_insert_ne by lia.
      rewrite lookup_insert_eq. by eexists. }
    apply ends_bind.
    eapply ends_mono; [|apply (tree_loop_ends (mem s) fuel _ [(p, task)])].
    + intros s1 tr1 o1 Hl. by apply (dumped_loop s s1 fuel task p [_; _; _] tr1 o1); [aside_tac|..].
    + by eapply owns_push.
    + intros ->. by intros l t [= <- <-].
  - eapply ends_call; [by apply machine_nomem|done|by intros []|].
    cbn beta. rewrite Z.eqb_refl.
    eapply ends_mono; [|apply (free_loop_ends (mem s) fuel (logged (allocated s)
      (Kmalloc sizeof_queue) 0) [] 0)]; [|exact Ho].
    intros s1 tr1 o (Ha & Hl & Hout). split.
    + exists [task]. split_and!.
      * intros u. exists (cnt u [task]). split; [|done].
        by apply aside_cons; [by intros []| |apply cnt_nonneg].
      * intros _ HF. by eapply HF.
      * intros T says HT. split; [|done].
        change (_ :: tr1) with ([Obs (E := kernelE) (Kmalloc sizeof_queue) 0] ++ tr1).
        rewrite task_lines_app, Hl. apply prefix_nil.
    + destruct o as [[]|x].
      * apply owns_done in Hout as [-> ->]. by rewrite Hb0.
      * destruct Hout as [-> Hf]. split; [done|]. intros T says _. cbn in Hf. lia.
Qed.

End sim.
