(* ===== verification/TaskTreeThms.v ===== *)
(** Properties of task_bfs_dfs.c: the order of the dump, memory safety and
termination for any allocator, and what happens to the references. *)
From S2P Require Import Prelude Effects Kernel TaskTree LinkedQueue TaskTreeFacts TaskTreeSim.

(** ** A concrete machine for the witnesses

A tree of four tasks, 1 with children 2 and 3, 2 with child 4; an allocator
that never fails and one that always does. *)
Definition demo_children (t : Z) : list Z :=
  if t =? 1 then [2; 3] else if t =? 2 then [4] else [].

Definition demo_says (c : kcall) : kans c :=
  match c return kans c with
  | TaskPid t => t
  | GetTaskComm _ => "sh"%string
  | TaskChildren t => demo_children t
  | TaskThreads t => [t]
  | c' => kdefault c'
  end.

Definition demo_answer (h : trace kernelE) (c : kcall) : kans c := demo_says c.

Definition demo_tree : tree := Node 1 [Node 2 [Node 4 []]; Node 3 []].

(** The first address above all allocated ones. *)
Definition top (m : memory) : Z :=
  foldr (fun kv a => Z.max (Z.abs (fst kv)) a) 0 (map_to_list m).

Definition demo_kmalloc (n : nat) (m : memory) : option Z := Some (top m + 1).

Definition no_kmalloc (n : nat) (m : memory) : option Z := None.

Definition demo_state : kstate := KState ∅ ∅ 0 [].

Lemma top_above m x : top m < x -> m !! x = None.
Proof.
  intros Hx. destruct (m !! x) as [v|] eqn:Hm; [|done]. exfalso.
  apply elem_of_map_to_list in Hm. unfold top in Hx. revert Hx Hm.
  induction (map_to_list m) as [|[k w] l IH]; simpl; [by rewrite elem_of_nil|].
  intros Hx [[= <- <-]|Hm]%elem_of_cons; [lia|]. apply IH; [lia|done].
Qed.

Lemma top_nonneg m : 0 <= top m.
Proof. unfold top. induction (map_to_list m) as [|[k w] l IH]; simpl; lia. Qed.

Lemma demo_fresh : fresh_alloc demo_kmalloc.
Proof.
  intros n m p [= <-]. pose proof (top_nonneg m).
  split_and!; [lia|apply top_above; lia..].
Qed.

Lemma no_fresh : fresh_alloc no_kmalloc.
Proof. done. Qed.

Lemma demo_describes : describes (fun t => demo_says (TaskChildren t)) demo_tree.
Proof. by repeat split. Qed.

(** ** The dump *)

Section dump.
Context (use_bfs dump_threads new_state : bool).
Context (answer : trace kernelE -> forall c : kcall, kans c).
Context (kmalloc : nat -> memory -> option Z).

(** The module's dump of the tree of [task], run from the state [s]. *)
Definition dump (fuel : nat) (s : kstate) (task : Z) : kstate * outcome unit :=
  exec (machine answer kmalloc) s (dump_children_tree use_bfs dump_threads new_state fuel task).

(** C9. With the default options the tasks are printed in depth-first order, a
    task before its children and the last child first; with [bfs] they are
    printed level by level from the root down. On a tree that does not change,
    with an allocator that does not fail, the lines of the log that print tasks
    are exactly those of the tree in that order, and the dump returns. *)
Theorem dump_order says T fuel s :
  fresh_alloc kmalloc -> never_fails kmalloc -> static answer says ->
  describes (fun t => says (TaskChildren t)) T -> (size T < fuel)%nat ->
  blocks s = ∅ -> calls s = [] ->
  (dump fuel s (root T)).2 = Done tt /\
  task_lines new_state (calls (dump fuel s (root T)).1) =
    (task_line new_state says <$> if use_bfs then bfs_order T else dfs_order T).
Proof.
  intros Hf Hn Hs HT Hfuel Hb Hc.
  destruct (dump_ends use_bfs dump_threads new_state answer kmalloc Hf fuel s (root T) Hb)
    as (s' & tr & o & He & Hcs & _ & (lost & _ & Hlost & Hl) & Ho).
  assert (tree_of answer says [T] [(0, root T)]) as HTo
    by (split_and!; [done|by apply Forall_singleton|done]).
  destruct (Hl T says HTo) as [_ Hd]. unfold dump. rewrite He. simpl.
  rewrite Hcs, Hc, <- (visits_order use_bfs T fuel) by lia.
  destruct o as [[]|x]; [|by destruct (proj2 Ho T says HTo)].
  split; [done|]. apply Hd; [done|].
  destruct lost as [|t l]; [done|]. by destruct (Hlost ltac:(done) Hn).
Qed.

(** C10. On every finite tree the dump returns, whichever allocations fail (the
    fuel of the model need only exceed the number of tasks), and what it prints
    is a prefix of the order of [dump_order]. And it is memory safe in any case:
    whatever the kernel answers, even when the tree changes under the module, it
    never accesses freed, uninitialised or foreign memory through the work list,
    and when it returns it has freed every node and left the rest of memory as
    it was. *)
Theorem dump_safe fuel s task :
  fresh_alloc kmalloc -> blocks s = ∅ ->
  (forall says T, static answer says -> describes (fun t => says (TaskChildren t)) T ->
    (size T < fuel)%nat -> root T = task -> calls s = [] ->
    (dump fuel s task).2 = Done tt /\
    task_lines new_state (calls (dump fuel s task).1) `prefix_of`
      (task_line new_state says <$> if use_bfs then bfs_order T else dfs_order T)) /\
  ((dump fuel s task).2 = Done tt /\ mem (dump fuel s task).1 = mem s /\
   blocks (dump fuel s task).1 = ∅ \/
   (dump fuel s task).2 = Halted (Faulted OutOfFuel)).
Proof.
  intros Hf Hb. destruct (dump_ends use_bfs dump_threads new_state answer kmalloc Hf fuel s task Hb)
    as (s' & tr & o & He & Hcs & _ & (lost & _ & Hlost & Hl) & Ho).
  unfold dump. rewrite He. cbn [fst snd]. split.
  - intros says T Hs HT Hfuel <- Hc.
    assert (tree_of answer says [T] [(0, root T)]) as HTo
      by (split_and!; [done|by apply Forall_singleton|done]).
    destruct (Hl T says HTo) as [Hp _]. rewrite Hcs, Hc, <- (visits_order use_bfs T fuel) by lia.
    destruct o as [[]|x]; [done|by destruct (proj2 Ho T says HTo)].
  - destruct o as [[]|x]; [left|right]; [|by destruct Ho as [-> _]]. by rewrite <- Hb.
Qed.

(** The calls before the dump: [get_pid_task] takes the reference under which the
    name and the number of the task are read. *)
Lemma guarded_start t task p comm pid l fmt args (u : unit) tr k :
  task <> 0 -> guarded t (cnt t [task]) tr k ->
  guarded t 0 (Obs (E := kernelE) (FindGetPid p) l ::
    Obs (E := kernelE) (GetPidTask l PIDTYPE_PID) task ::
    Obs (E := kernelE) (GetTaskComm task) comm :: Obs (E := kernelE) (TaskPid task) pid ::
    Obs (E := kernelE) (Printk KERN_INFO fmt args) u :: tr) k.
Proof.
  intros Ht Hg. cbn [guarded_from cnt] in *. unfold accessed, delta. cbn [obs_call effect_of rcu_step].
  rewrite (proj2 (Z.eqb_neq task 0)) by done.
  destruct (l =? 0); repeat (case_decide; simplify_eq); split_and!; intros; simplify_eq;
    try done; first [left; lia | lia | idtac].
Qed.

(** What the module reads, and the references of its dump. *)
Lemma modinit_guarded fuel s nr :
  fresh_alloc kmalloc -> blocks s = ∅ -> calls s = [] ->
  let '(s', o) := exec (machine answer kmalloc) s
    (modinit use_bfs dump_threads new_state fuel nr) in
  forall t, exists k, guarded t 0 (calls s') k /\
    (never_fails kmalloc -> (exists r, o = Done r) -> k = 0).
Proof.
  intros Hf Hb Hc.
  assert (ends answer kmalloc s (modinit use_bfs dump_threads new_state fuel nr)
    (fun s' tr o => forall t, exists k, guarded t 0 tr k /\
       (never_fails kmalloc -> (exists r, o = Done r) -> k = 0)))
    as (s' & tr & o & -> & -> & _ & H); [|by rewrite Hc].
  unfold modinit, get_user_pid_task. apply ends_bind, ends_kernel; [done|].
  refine (ends_do _ _ _ (GetPidTask _ PIDTYPE_PID) _ _).
  apply ends_kernel; [done|]. apply ends_ret.
  set (task := answer _ (GetPidTask _ _)). destruct (Z.eqb_spec task 0) as [H0|H0].
  - unfold pr_err. apply ends_kernel; [done|]. apply ends_ret. intros t. exists 0.
    split; [|done]. cbn [guarded_from app]. unfold accessed, delta. cbn [obs_call effect_of].
    rewrite H0. cbn. destruct (_ =? 0); repeat (case_decide; simplify_eq); by split_and!.
  - unfold pr_info. do 3 (apply ends_kernel; [done|]). apply ends_bind.
    eapply ends_mono; [|apply dump_ends; [exact Hf|exact Hb]].
    intros s1 tr o [(lost & Hg & Hlost & _) _].
    destruct o as [[]|x]; [apply ends_ret; rewrite app_nil_r|];
      intros t; destruct (Hg t) as (k & Hk & Hkl); exists k; (split; [by apply (guarded_start t task nr)|]).
    + intros Hn _. rewrite (Hkl eq_refl). destruct lost as [|x l]; [done|].
      by destruct (Hlost ltac:(done) Hn).
    + by intros _ [r ?].
Qed.

(** The error path does not: when the first allocation fails the module
    returns with the reference to the task found for [pid] still held. *)
Lemma modinit_nomem_leaks_task fuel s nr :
  kmalloc (nalloc s) (mem s) = None -> calls s = [] -> (0 < fuel)%nat ->
  (forall h p ty, answer h (GetPidTask p ty) <> 0) ->
  let '(s', o) := exec (machine answer kmalloc) s
    (modinit use_bfs dump_threads new_state fuel nr) in
  o = Done (- ECANCELED) /\
  exists p t, Obs (E := kernelE) (GetPidTask p PIDTYPE_PID) t ∈ calls s' /\
    held delta (RTask t) (calls s') = 1.
Proof.
  intros Hk Hc Hfuel Ht. destruct fuel as [|fuel]; [lia|].
  set (p := answer [] (FindGetPid nr)).
  set (t := answer [Obs (E := kernelE) (FindGetPid nr) p] (GetPidTask p PIDTYPE_PID)).
  assert (ends answer kmalloc s (modinit use_bfs dump_threads new_state (S fuel) nr)
    (fun s' tr o => o = Done (- ECANCELED) /\
       Obs (E := kernelE) (GetPidTask p PIDTYPE_PID) t ∈ tr /\
       held delta (RTask t) tr = 1)) as (s' & tr & o & -> & -> & _ & Ho & Hin & Hh).
  - unfold modinit, get_user_pid_task.
    apply ends_bind, ends_kernel; [done|]. rewrite Hc. fold p.
    refine (ends_do _ _ _ (GetPidTask p PIDTYPE_PID) _ _).
    apply ends_kernel; [done|]. cbn [calls logged]. rewrite Hc. cbn [app]. fold t.
    apply ends_ret. rewrite (proj2 (Z.eqb_neq t 0)) by apply Ht.
    unfold pr_info. do 3 (apply ends_kernel; [done|]). apply ends_bind. unfold dump_children_tree.
    eapply ends_call; [apply machine_nomem, Hk|done|by intros []|].
    cbn beta. rewrite Z.eqb_refl. cbn [loop]. apply ends_ret, ends_ret.
    split; [done|]. split; [by rewrite !elem_of_cons; auto|].
    cbn [held app]. unfold delta. cbn [effect_of].
    rewrite (proj2 (Z.eqb_neq t 0)) by apply Ht. cbn. rewrite decide_True by done.
    destruct (p =? 0); [done|]. by rewrite decide_False.
  - rewrite Hc. eauto.
Qed.

End dump.

(** The calls after the first one take and drop no [struct pid]. *)
Ltac not_pid := intros ?; unfold delta; cbn; repeat case_match; congruence.

(** The reference to the [struct pid] taken by [find_get_pid] is never
    dropped: after every execution it is still held. *)
Lemma modinit_leaks_pid use_bfs dump_threads new_state fuel nr :
  always (modinit use_bfs dump_threads new_state fuel nr) (fun t o => exists p t',
    t = Obs (E := kernelE) (FindGetPid nr) p :: t' /\
    (p <> 0 -> held delta (RPid p) t = 1)).
Proof.
  unfold modinit, get_user_pid_task. apply always_assoc. intros p. cbn [always].
  assert (forall b cs q tail, only (fun o => delta (RPid p) o = 0)
    (add_children b cs q tail)) as Hadd.
  { intros b cs. induction cs as [|c cs IH]; intros q tail;
      cbn [add_children]; only_tac not_pid. }
  assert (forall q, only (fun o => delta (RPid p) o = 0) (free_step q)) as Hfree.
  { intros q. unfold free_step, pop. only_tac not_pid. }
  assert (forall st, only (fun o => delta (RPid p) o = 0)
    (tree_step use_bfs dump_threads new_state st)) as Hstep.
  { intros st. unfold tree_step, dump_task, dump_task_threads, dump_thread, when, read_ppid, task_state,
      pop, skip. only_tac not_pid. }
  eapply always_mono; [|match goal with |- always ?P _ =>
    assert (only (fun o => delta (RPid p) o = 0) P) as H; [|exact H] end].
  - intros tr o Htr. exists p, tr. split; [done|]. intros Hp. cbn [held].
    rewrite (held_zero _ _ _ Htr). unfold delta. cbn [effect_of].
    rewrite (proj2 (Z.eqb_neq p 0)) by done. by rewrite decide_True.
  - unfold dump_children_tree. only_tac not_pid.
Qed.

(** C12. In every execution of the module a field of a task is only read, and a
    reference to a task only dropped, while the module holds one, other than the
    number of a real parent, which is only read inside the RCU read-side section
    that obtained the parent; and every section is closed. When allocations do not
    fail, a run that returns has dropped every reference to a task. Two references
    of the module are lost: the one to the root task when the first allocation
    fails, and always the one to the [struct pid]. (How a child or a thread is found
    is not part of this: the lists are walked, and a first reference to an element
    taken, with neither RCU nor a lock.) *)
Theorem dump_references use_bfs dump_threads new_state answer kmalloc fuel s nr :
  fresh_alloc kmalloc -> blocks s = ∅ -> calls s = [] -> (0 < fuel)%nat ->
  let '(s', o) := exec (machine answer kmalloc) s
    (modinit use_bfs dump_threads new_state fuel nr) in
  (forall t, exists k, guarded t 0 (calls s') k /\
    (never_fails kmalloc -> (exists r, o = Done r) -> k = 0)) /\
  (kmalloc (nalloc s) (mem s) = None -> (forall h p ty, answer h (GetPidTask p ty) <> 0) ->
    o = Done (- ECANCELED) /\
    exists p t, Obs (E := kernelE) (GetPidTask p PIDTYPE_PID) t ∈ calls s' /\
      held delta (RTask t) (calls s') = 1) /\
  always (modinit use_bfs dump_threads new_state fuel nr) (fun t _ => exists p t',
    t = Obs (E := kernelE) (FindGetPid nr) p :: t' /\
    (p <> 0 -> held delta (RPid p) t = 1)).
Proof.
  intros Hf Hb Hc Hfuel.
  pose proof (modinit_guarded use_bfs dump_threads new_state answer kmalloc fuel s nr Hf Hb Hc) as Hg.
  pose proof (modinit_nomem_leaks_task use_bfs dump_threads new_state answer kmalloc fuel s nr) as Hl.
  destruct (exec _ _ _) as [s' o]. split_and!; [exact Hg|by intros; apply Hl|].
  apply modinit_leaks_pid.
Qed.

(** ** Witnesses *)

Ltac demo_tac :=
  first [apply demo_fresh | apply no_fresh | apply demo_describes | by intros ?? |
         done | simpl; lia].

Lemma dump_order_witness :
  (dump false true true demo_answer demo_kmalloc 6 demo_state 1).2 = Done tt /\
  task_lines true (calls (dump false true true demo_answer demo_kmalloc 6 demo_state 1).1) =
    (task_line true demo_says <$> [1; 3; 2; 4]) /\
  (dump true false true demo_answer demo_kmalloc 6 demo_state 1).2 = Done tt /\
  task_lines true (calls (dump true false true demo_answer demo_kmalloc 6 demo_state 1).1) =
    (task_line true demo_says <$> [1; 2; 3; 4]).
Proof.
  split; [|split].
  - apply (dump_order false true true demo_answer demo_kmalloc demo_says demo_tree); demo_tac.
  - apply (dump_order false true true demo_answer demo_kmalloc demo_says demo_tree); demo_tac.
  - apply (dump_order true false true demo_answer demo_kmalloc demo_says demo_tree); demo_tac.
Defined.

Lemma dump_safe_witness :
  let d := dump true true true demo_answer no_kmalloc 6 demo_state 1 in
  (d.2 = Done tt /\
   task_lines true (calls d.1) `prefix_of` (task_line true demo_says <$> [1; 2; 3; 4])) /\
  (d.2 = Done tt /\ mem d.1 = ∅ /\ blocks d.1 = ∅ \/ d.2 = Halted (Faulted OutOfFuel)).
Proof.
  destruct (dump_safe true true true demo_answer no_kmalloc 6 demo_state 1 no_fresh eq_refl)
    as [Ht Hs].
  split; [|exact Hs]. apply (Ht demo_says demo_tree); demo_tac.
Defined.

Lemma dump_references_witness :
  (let '(s', o) := exec (machine demo_answer demo_kmalloc) demo_state
     (modinit false true true 6 1) in
   o = Done (- ECANCELED) /\ guarded 3 0 (calls s') 0) /\
  let '(s', o) := exec (machine demo_answer no_kmalloc) demo_state
    (modinit false false true 1 1) in
  o = Done (- ECANCELED) /\
  exists p t, Obs (E := kernelE) (GetPidTask p PIDTYPE_PID) t ∈ calls s' /\
    held delta (RTask t) (calls s') = 1.
Proof.
  assert (0 < 6)%nat as H6 by lia. assert (0 < 1)%nat as H1 by lia. split.
  - pose proof (dump_references false true true demo_answer demo_kmalloc 6 demo_state 1
      demo_fresh eq_refl eq_refl H6) as H.
    destruct (exec _ _ _) as [s' o] eqn:He.
    assert (o = Done (- ECANCELED)) as Ho
      by (change o with (s', o).2; rewrite <- He; vm_compute; reflexivity).
    split; [exact Ho|]. destruct H as [H _]. destruct (H 3) as (k & Hk & H0).
    assert (k = 0) as -> by (apply H0; [by intros ??|by eexists]). exact Hk.
  - pose proof (dump_references false false true demo_answer no_kmalloc 1 demo_state 1
      no_fresh eq_refl eq_refl H1) as H.
    destruct (exec _ _ _) as [s' o]. apply H; [reflexivity|discriminate].
Defined.
