(* ===== verification/CStrings.v ===== *)
(** Numbers in C strings: the part of the C library's [strtol], [strtoul] and
[printf] that the programs of src/userspace/ rely on, and their round trips. A
C string is a [string] without its terminator. *)
From Stdlib Require Import Ascii.
From S2P Require Import Prelude.

(** ** Concatenation *)

Lemma length_append a b : String.length (a +:+ b) = (String.length a + String.length b)%nat.
Proof. induction a as [|c a IH]; [done|]. cbn. by rewrite <- IH. Qed.

Lemma append_assoc a b c : (a +:+ b) +:+ c = a +:+ (b +:+ c).
Proof. induction a as [|x a IH]; [done|]. exact (f_equal (String x) IH). Qed.

Lemma append_nil a : a +:+ EmptyString = a.
Proof. induction a as [|x a IH]; [done|]. exact (f_equal (String x) IH). Qed.

(** ** Characters *)

(** The code of a character. *)
Definition code (a : ascii) : Z := Z.of_N (N_of_ascii a).

Definition chr (z : Z) : ascii := ascii_of_N (Z.to_N z).

(** ** Reading *)

Definition is_space (a : ascii) : bool :=
  (code a =? 32) || (9 <=? code a) && (code a <=? 13).

(** The value of a digit, in any base up to 36. *)
Definition digit_val (a : ascii) : option Z :=
  let c := code a in
  if (48 <=? c) && (c <=? 57) then Some (c - 48)
  else if (97 <=? c) && (c <=? 122) then Some (c - 87)
  else if (65 <=? c) && (c <=? 90) then Some (c - 55)
  else None.

Definition digit (base : Z) (a : ascii) : option Z :=
  match digit_val a with
  | Some d => if d <? base then Some d else None
  | None => None
  end.

(** Accumulates the digits at the front of [s]; returns what is left. *)
Fixpoint scan (base acc : Z) (s : string) : Z * string :=
  match s with
  | String a s' =>
      match digit base a with
      | Some d => scan base (acc * base + d) s'
      | None => (acc, s)
      end
  | EmptyString => (acc, s)
  end.

Fixpoint skip_spaces (s : string) : string :=
  match s with
  | String a s' => if is_space a then skip_spaces s' else s
  | EmptyString => s
  end.

Definition starts_digit (base : Z) (s : string) : bool :=
  match s with
  | String a _ => match digit base a with Some _ => true | None => false end
  | EmptyString => false
  end.

(** An optional sign. *)
Definition sign (s : string) : bool * string :=
  match s with
  | String a s' =>
      if code a =? 45 then (true, s') else if code a =? 43 then (false, s') else (false, s)
  | EmptyString => (false, s)
  end.

(** For base 0 the prefix decides: [0x] followed by a hexadecimal digit, [0], or
    none. *)
Definition base_prefix (base : Z) (s : string) : Z * string :=
  if base =? 0 then
    match s with
    | String a (String b s') =>
        if (code a =? 48) && ((code b =? 120) || (code b =? 88)) && starts_digit 16 s'
        then (16, s')
        else (if code a =? 48 then 8 else 10, s)
    | String a EmptyString => (if code a =? 48 then 8 else 10, s)
    | EmptyString => (10, s)
    end
  else (base, s).

(** The sign, magnitude and rest of the number at the front of [s], if any. *)
Definition number (base : Z) (s : string) : option (bool * Z * string) :=
  let '(neg, s1) := sign (skip_spaces s) in
  let '(b, s2) := base_prefix base s1 in
  if starts_digit b s2 then
    let '(mag, rest) := scan b 0 s2 in Some (neg, mag, rest)
  else None.

Definition LONG_MAX : Z := 2 ^ 63 - 1.
Definition LONG_MIN : Z := - 2 ^ 63.
Definition ULONG_MAX : Z := 2 ^ 64 - 1.
Definition INT_MAX : Z := 2 ^ 31 - 1.

(** What [strtol] and [strtoul] give: the value, [*endp] ([None] when nothing
    was converted: [endp == s]) and whether [errno] is set to [ERANGE]. *)
Record converted := Converted { value : Z; endp : option string; erange : bool }.

Definition strtol (s : string) (base : Z) : converted :=
  match number base s with
  | Some (neg, mag, rest) =>
      let v := if neg then - mag else mag in
      if v >? LONG_MAX then Converted LONG_MAX (Some rest) true
      else if v <? LONG_MIN then Converted LONG_MIN (Some rest) true
      else Converted v (Some rest) false
  | None => Converted 0 None false
  end.

Definition strtoul (s : string) (base : Z) : converted :=
  match number base s with
  | Some (neg, mag, rest) =>
      if mag >? ULONG_MAX then Converted ULONG_MAX (Some rest) true
      else Converted (u64 (if neg then - mag else mag)) (Some rest) false
  | None => Converted 0 None false
  end.

(** ** Printing *)

Definition digit_char (d : Z) : ascii := chr (if d <? 10 then d + 48 else d + 87).

(** The digits of [n] in front of [acc]; [fuel] bounds their number. *)
Fixpoint digits (fuel : nat) (base n : Z) (acc : string) : string :=
  match fuel with
  | O => acc
  | S fuel' =>
      let acc' := String (digit_char (n mod base)) acc in
      if n <? base then acc' else digits fuel' base (n / base) acc'
  end.

(** [%d] and [%lx] of a non-negative number below [2 ^ 64]. *)
Definition dec (n : Z) : string := digits 64 10 n EmptyString.

Definition hex (n : Z) : string := digits 64 16 n EmptyString.

(** ** Laws *)

Lemma code_chr z : 0 <= z < 256 -> code (chr z) = z.
Proof.
  intros Hz. unfold code, chr. rewrite N_ascii_embedding by lia. lia.
Qed.

Lemma digit_digit_char base d :
  base <= 16 -> 0 <= d < base -> digit base (digit_char d) = Some d.
Proof.
  intros Hb Hd. unfold digit, digit_char, digit_val.
  rewrite code_chr by (case_match; lia).
  destruct (d <? 10) eqn:H.
  - replace ((48 <=? d + 48) && (d + 48 <=? 57)) with true by lia.
    replace (d + 48 - 48) with d by lia. by replace (d <? base) with true by lia.
  - replace ((48 <=? d + 87) && (d + 87 <=? 57)) with false by lia.
    replace ((97 <=? d + 87) && (d + 87 <=? 122)) with true by lia.
    replace (d + 87 - 87) with d by lia. by replace (d <? base) with true by lia.
Qed.

(** Scanning what [digits] wrote reads the number back. *)
Lemma scan_digits fuel base n acc a :
  2 <= base <= 16 -> 0 <= n < base ^ Z.of_nat fuel -> (0 < fuel)%nat ->
  exists k, 0 <= k /\
    scan base a (digits fuel base n acc) = scan base (a * base ^ k + n) acc.
Proof.
  intros Hb. revert n acc. induction fuel as [|fuel IH]; intros n acc Hn Hf; [lia|].
  cbn [digits]. destruct (n <? base) eqn:Hlt.
  - exists 1. split; [lia|]. cbn [scan].
    rewrite digit_digit_char by (try apply Z.mod_pos_bound; lia).
    rewrite Z.mod_small by lia. by rewrite Z.pow_1_r.
  - assert (0 <= n / base < base ^ Z.of_nat fuel) as Hd.
    { split; [apply Z.div_pos; lia|]. apply Z.div_lt_upper_bound; [lia|].
      rewrite Nat2Z.inj_succ, Z.pow_succ_r in Hn by lia. lia. }
    assert (0 < fuel)%nat as Hf'.
    { destruct fuel; [|lia]. rewrite Z.pow_0_r in Hd.
      assert (n / base = 0) as H0 by lia. apply Z.div_small_iff in H0; lia. }
    destruct (IH (n / base) (String (digit_char (n mod base)) acc) Hd Hf') as (k & Hk & ->).
    exists (k + 1). split; [lia|]. cbn [scan].
    rewrite digit_digit_char by (try apply Z.mod_pos_bound; lia).
    f_equal. rewrite Z.pow_add_r, Z.pow_1_r by lia.
    rewrite (Z.div_mod n base) at 3 by lia. ring.
Qed.

(** The first character of a printed number is a digit. *)
Lemma digits_head fuel base n acc :
  2 <= base <= 16 -> 0 <= n -> (0 < fuel)%nat ->
  exists d s, digits fuel base n acc = String (digit_char d) s /\ 0 <= d < base.
Proof.
  intros Hb. revert n acc. induction fuel as [|fuel IH]; intros n acc Hn Hf; [lia|].
  cbn [digits]. destruct (n <? base) eqn:Hlt.
  { eexists _, _. split; [done|]. apply Z.mod_pos_bound. lia. }
  destruct fuel as [|fuel].
  { eexists _, _. split; [done|]. apply Z.mod_pos_bound. lia. }
  apply IH; [apply Z.div_pos; lia|lia].
Qed.

Lemma code_digit_char d : 0 <= d < 16 ->
  code (digit_char d) = if d <? 10 then d + 48 else d + 87.
Proof. intros Hd. unfold digit_char. apply code_chr. case_match; lia. Qed.

Lemma number_digits base b n :
  2 <= b <= 16 -> 0 <= n < b ^ 64 ->
  base_prefix base (digits 64 b n EmptyString) = (b, digits 64 b n EmptyString) ->
  number base (digits 64 b n EmptyString) = Some (false, n, EmptyString).
Proof.
  intros Hb Hn Hp. unfold number.
  destruct (digits_head 64 b n EmptyString Hb (proj1 Hn) ltac:(lia)) as (d & s & Hs & Hd).
  assert (code (digit_char d) = 45 -> False) as H45
    by (rewrite code_digit_char by lia; case_match; lia).
  assert (code (digit_char d) = 43 -> False) as H43
    by (rewrite code_digit_char by lia; case_match; lia).
  assert (skip_spaces (digits 64 b n EmptyString) = digits 64 b n EmptyString) as ->.
  { rewrite Hs. cbn [skip_spaces]. unfold is_space.
    rewrite code_digit_char by lia. case_match; [|done]. case_match; lia. }
  assert (sign (digits 64 b n EmptyString) = (false, digits 64 b n EmptyString)) as ->.
  { rewrite Hs. unfold sign. by rewrite !(proj2 (Z.eqb_neq _ _)) by done. }
  rewrite Hp. assert (starts_digit b (digits 64 b n EmptyString) = true) as ->.
  { rewrite Hs. cbn. by rewrite digit_digit_char by lia. }
  destruct (scan_digits 64 b n EmptyString 0 Hb Hn ltac:(lia)) as (k & _ & ->).
  by rewrite Z.mul_0_l.
Qed.

(** [strtol] reads back what [%d] prints. *)
Lemma strtol_dec n : 0 <= n <= LONG_MAX ->
  strtol (dec n) 10 = Converted n (Some EmptyString) false.
Proof.
  intros Hn. unfold strtol, dec. unfold LONG_MAX, LONG_MIN in *.
  rewrite (number_digits 10 10) by (done || lia).
  replace (n >? 2 ^ 63 - 1) with false by lia.
  by replace (n <? - 2 ^ 63) with false by lia.
Qed.

(** [strtoul] with base 0 reads back what [0x%lx] prints. *)
Lemma strtoul_hex n : 0 <= n <= ULONG_MAX ->
  strtoul ("0x" +:+ hex n) 0 = Converted n (Some EmptyString) false.
Proof.
  intros Hn. unfold strtoul, hex, ULONG_MAX in *.
  destruct (digits_head 64 16 n EmptyString ltac:(lia) (proj1 Hn) ltac:(lia))
    as (d & s & Hs & Hd).
  assert (starts_digit 16 (digits 64 16 n EmptyString) = true) as Hst.
  { rewrite Hs. cbn. by rewrite digit_digit_char by lia. }
  assert (number 0 ("0x" +:+ digits 64 16 n EmptyString) =
          Some (false, n, EmptyString)) as ->.
  { change ("0x" +:+ digits 64 16 n EmptyString)
      with (String "0" (String "x" (digits 64 16 n EmptyString))).
    unfold number. cbn [skip_spaces]. change (is_space "0") with false. cbn [sign].
    change (code "0" =? 45) with false. change (code "0" =? 43) with false.
    unfold base_prefix. change (0 =? 0) with true. change (code "0" =? 48) with true.
    change (code "x" =? 120) with true. rewrite Hst. cbn [andb orb]. rewrite Hst.
    destruct (scan_digits 64 16 n EmptyString 0 ltac:(lia) ltac:(lia) ltac:(lia))
      as (k & _ & ->).
    by rewrite Z.mul_0_l. }
  replace (n >? 2 ^ 64 - 1) with false by lia.
  unfold u64, wrap. by rewrite Z.mod_small by lia.
Qed.
