(* ===== verification/Format.v ===== *)
(** Rendering what printf() and printk() are given: the conversions the programs
use, as the C standard and the kernel's vsnprintf() describe them.

A format is parsed into literal characters and directives
([%[-0][width][.precision][l]conversion], or [%px]), and rendered with the arguments; the
result is [None] where the behaviour is undefined: a conversion whose type does not
fit its argument (an [int] for [%ld], a [long] for [%u], an integer for [%px] or
[%s]), a missing argument, an argument left over, or a directive that is not of the
form above. Between the signed and the unsigned integers of one size an argument is
converted, as va_arg() does on the machines the programs are for. *)
From Stdlib Require Import Ascii.
From S2P Require Import Prelude Effects CStrings.

(** ** Formats *)

Record directive := Directive {
  left : bool;          (** [-] *)
  zero : bool;          (** [0] *)
  width : Z;
  precision : option Z;
  long : bool;          (** [l] *)
}.

Definition plain : directive := Directive false false 0 None false.

Inductive conv := Cd | Cu | Cx | Cs | Cc | Cf
| Cp.                 (** [%px] of the kernel: an address, unhashed *)

Inductive item := Lit (a : ascii) | Dir (d : directive) (c : conv).

(** How far a directive has been read. *)
Inductive phase := Flags | Width | Precision | Length | Pointer.

Definition conv_of (a : ascii) : option conv :=
  match a with
  | "d" => Some Cd | "u" => Some Cu | "x" => Some Cx
  | "s" => Some Cs | "c" => Some Cc | "f" => Some Cf
  | _ => None
  end%char.

Definition add_flag (d : directive) (a : ascii) : directive :=
  if Ascii.eqb a "-" then Directive true (zero d) (width d) (precision d) (long d)
  else Directive (left d) true (width d) (precision d) (long d).

Definition add_digit (d : directive) (ph : phase) (n : Z) : directive :=
  match ph with
  | Precision =>
      Directive (left d) (zero d) (width d) (Some (default 0 (precision d) * 10 + n)) (long d)
  | _ => Directive (left d) (zero d) (width d * 10 + n) (precision d) (long d)
  end.

(** One more character of a directive: more of the directive, or an item. *)
Definition more (d : directive) (ph : phase) (a : ascii) : option ((directive * phase) + item) :=
  match ph, conv_of a with
  | Pointer, _ => if Ascii.eqb a "x" then Some (inr (Dir d Cp)) else None
  | _, Some c => Some (inr (Dir d c))
  | _, None =>
      match ph with
      | Flags =>
          if Ascii.eqb a "%" then Some (inr (Lit a))
          else if Ascii.eqb a "-" || Ascii.eqb a "0" then Some (inl (add_flag d a, Flags))
          else if Ascii.eqb a "." then
            Some (inl (Directive (left d) (zero d) (width d) (Some 0) (long d), Precision))
          else if Ascii.eqb a "l" then
            Some (inl (Directive (left d) (zero d) (width d) (precision d) true, Length))
          else if Ascii.eqb a "p" then Some (inl (d, Pointer))
          else (fun n => inl (add_digit d Width n, Width)) <$> digit 10 a
      | Width =>
          if Ascii.eqb a "." then
            Some (inl (Directive (left d) (zero d) (width d) (Some 0) (long d), Precision))
          else if Ascii.eqb a "l" then
            Some (inl (Directive (left d) (zero d) (width d) (precision d) true, Length))
          else (fun n => inl (add_digit d Width n, Width)) <$> digit 10 a
      | Precision =>
          if Ascii.eqb a "l" then
            Some (inl (Directive (left d) (zero d) (width d) (precision d) true, Length))
          else (fun n => inl (add_digit d Precision n, Precision)) <$> digit 10 a
      | Length | Pointer => None
      end
  end.

Fixpoint items (cur : option (directive * phase)) (s : string) : option (list item) :=
  match s with
  | EmptyString => match cur with None => Some [] | Some _ => None end
  | String a s' =>
      match cur with
      | None =>
          if Ascii.eqb a "%" then items (Some (plain, Flags)) s'
          else cons (Lit a) <$> items None s'
      | Some (d, ph) =>
          match more d ph a with
          | Some (inl cur') => items (Some cur') s'
          | Some (inr i) => cons i <$> items None s'
          | None => None
          end
      end
  end.

(** ** Arguments as text *)

Definition repeat_char (a : ascii) (n : Z) : string :=
  String.string_of_list_ascii (replicate (Z.to_nat n) a).

(** The digits of [n] in a base, as many as there are. *)
Definition numeral (base n : Z) : string := digits (S (Z.to_nat (Z.log2 n))) base n EmptyString.

(** A number with its sign, padded to the width. *)
Definition pad_number (d : directive) (neg : bool) (text : string) : string :=
  let sign := if neg then "-"%string else EmptyString in
  let fill := width d - Z.of_nat (String.length sign + String.length text) in
  if left d then sign +:+ text +:+ repeat_char " " fill
  else if zero d then sign +:+ repeat_char "0" fill +:+ text
  else repeat_char " " fill +:+ sign +:+ text.

Definition pad_text (d : directive) (text : string) : string :=
  let fill := width d - Z.of_nat (String.length text) in
  if left d then text +:+ repeat_char " " fill else repeat_char " " fill +:+ text.

(** [m * 2 ^ e * 10 ^ p], rounded to an integer, ties to even. *)
Definition scaled (m e p : Z) : Z :=
  let n := m * 10 ^ p in
  if 0 <=? e then n * 2 ^ e else
  let q := n / 2 ^ (- e) in
  let r := n mod 2 ^ (- e) in
  match 2 * r ?= 2 ^ (- e) with
  | Lt => q
  | Gt => q + 1
  | Eq => if Z.even q then q else q + 1
  end.

(** [%.pf] of a [double] without its sign: the sign, and the digits. *)
Definition fixed_point (f : spec_float) (p : Z) : bool * string :=
  let text n :=
    let frac := numeral 10 (n mod 10 ^ p) in
    numeral 10 (n / 10 ^ p) +:+
    (if p =? 0 then EmptyString
     else "." +:+ repeat_char "0" (p - Z.of_nat (String.length frac)) +:+ frac) in
  match f with
  | S754_zero s => (s, text 0)
  | S754_infinity s => (s, "inf"%string)
  | S754_nan => (false, "nan"%string)
  | S754_finite s m e => (s, text (scaled (Zpos m) e p))
  end.

(** An integer, as a signed and as an unsigned number of the directive's type. *)
Definition show_int (d : directive) (c : conv) (signed unsigned : Z) : string :=
  match c with
  | Cd => pad_number d (signed <? 0) (numeral 10 (Z.abs signed))
  | Cu => pad_number d false (numeral 10 unsigned)
  | _ => pad_number d false (numeral 16 unsigned)
  end.

Definition show (d : directive) (c : conv) (a : arg) : option string :=
  match c, a with
  | (Cd | Cu | Cx), AZ z => if long d then None else Some (show_int d c (s32 z) (u32 z))
  | (Cd | Cu | Cx), AL z => if long d then Some (show_int d c (s64 z) (u64 z)) else None
  | Cp, AP z => Some (pad_number (Directive false true 16 None true) false (numeral 16 (u64 z)))
  | Cs, AS s => if long d then None else Some (pad_text d s)
  | Cc, AS s =>
      if negb (long d) && (String.length s =? 1)%nat then Some (pad_text d s) else None
  | Cf, AF f =>
      let '(neg, text) := fixed_point f (default 6 (precision d)) in
      Some (pad_number d neg text)
  | _, _ => None
  end.

Fixpoint fill (l : list item) (args : list arg) : option string :=
  match l, args with
  | [], [] => Some EmptyString
  | Lit a :: l', _ => String a <$> fill l' args
  | Dir d c :: l', a :: args' =>
      match show d c a, fill l' args' with
      | Some s, Some rest => Some (s +:+ rest)
      | _, _ => None
      end
  | _, _ => None
  end.

Definition render (fmt : string) (args : list arg) : option string :=
  match items None fmt with
  | Some l => fill l args
  | None => None
  end.

(** ** Formats that fit their arguments *)

(** Whether an argument is of the type that a conversion takes; the length modifier
    [l] makes the difference between [int] and [long]. *)
Definition takes (d : directive) (c : conv) (a : arg) : bool :=
  match c, a with
  | (Cd | Cu | Cx), AZ _ | Cs, AS _ => negb (long d)
  | (Cd | Cu | Cx), AL _ => long d
  | Cc, AS s => negb (long d) && (String.length s =? 1)%nat
  | Cp, AP _ | Cf, AF _ => true
  | _, _ => false
  end.

Fixpoint fits_items (l : list item) (args : list arg) : bool :=
  match l, args with
  | [], [] => true
  | Lit _ :: l', _ => fits_items l' args
  | Dir d c :: l', a :: args' => takes d c a && fits_items l' args'
  | _, _ => false
  end.

Definition fits (fmt : string) (args : list arg) : bool :=
  match items None fmt with
  | Some l => fits_items l args
  | None => false
  end.

Lemma show_takes d c a : is_Some (show d c a) <-> takes d c a = true.
Proof.
  destruct c, a; cbn [show takes]; repeat case_match;
    by split; [intros []|intros; eauto using mk_is_Some].
Qed.

Lemma fill_fits l args : is_Some (fill l args) <-> fits_items l args = true.
Proof.
  revert args. induction l as [|[a|d c] l IH]; intros args; cbn [fill fits_items].
  - destruct args; [by split; eauto|split; [by intros []|done]].
  - rewrite fmap_is_Some. apply IH.
  - destruct args as [|a args]; [split; [by intros []|done]|].
    rewrite andb_true_iff, <- IH, <- (show_takes d).
    split.
    + destruct (show d c a), (fill l args); by intros [].
    + intros [[t ->] [rest ->]]. by eexists.
Qed.

(** A line has a text exactly when its format fits its arguments. *)
Lemma render_fits fmt args : is_Some (render fmt args) <-> fits fmt args = true.
Proof.
  unfold render, fits. destruct (items None fmt); [apply fill_fits|].
  split; [by intros []|done].
Qed.

(** ** The text of several lines *)

(** [None] when some line has no text. *)
Fixpoint concat_texts (l : list (option string)) : option string :=
  match l with
  | [] => Some EmptyString
  | None :: _ => None
  | Some s :: l' => (fun rest => s +:+ rest) <$> concat_texts l'
  end.

Lemma concat_texts_some l : Forall is_Some l -> is_Some (concat_texts l).
Proof.
  induction 1 as [|x l [s ->] _ [rest IH]]; [by eexists|]. cbn. rewrite IH. by eexists.
Qed.

(** ** Numerals *)

(** The fuel of [digits] does not matter once it is enough. *)
Lemma digits_fuel f f' base n acc : 2 <= base -> 0 <= n ->
  (0 < f)%nat -> (0 < f')%nat -> n < base ^ Z.of_nat f -> n < base ^ Z.of_nat f' ->
  digits f base n acc = digits f' base n acc.
Proof.
  intros Hb. revert f' n acc.
  induction f as [|f IH]; intros [|f'] n acc Hn Hf0 Hf0' Hf Hf'; [lia..|].
  cbn [digits]. destruct (Z.ltb_spec n base) as [|Hlt]; [done|].
  rewrite Nat2Z.inj_succ, Z.pow_succ_r in Hf, Hf' by lia.
  assert (forall g : nat, n < base * base ^ Z.of_nat g ->
    (0 < g)%nat /\ n / base < base ^ Z.of_nat g) as Hg.
  { intros g Hg. split; [|apply Z.div_lt_upper_bound; lia].
    destruct g; [|lia]. change (Z.of_nat 0) with 0 in Hg. rewrite Z.pow_0_r in Hg. lia. }
  apply Hg in Hf as [? ?], Hf' as [? ?]. apply IH; try done. apply Z.div_pos; lia.
Qed.

Lemma log2_bound n base : 2 <= base -> 0 <= n -> n < base ^ Z.of_nat (S (Z.to_nat (Z.log2 n))).
Proof.
  intros Hb Hn. pose proof (Z.log2_nonneg n) as Hl.
  replace (Z.of_nat (S (Z.to_nat (Z.log2 n)))) with (Z.succ (Z.log2 n)) by lia.
  destruct (Z.eq_dec n 0) as [->|]; [by apply Z.pow_pos_nonneg; lia|].
  eapply Z.lt_le_trans; [apply (Z.log2_spec n); lia|]. apply Z.pow_le_mono_l. lia.
Qed.

Lemma numeral_digits base n : 2 <= base -> in_u64 n ->
  numeral base n = digits 64 base n EmptyString.
Proof.
  intros Hb [Hn Hn']. unfold numeral. apply digits_fuel; [lia..| |]; [by apply log2_bound|].
  eapply Z.lt_le_trans; [exact Hn'|]. apply Z.pow_le_mono_l. lia.
Qed.

Lemma numeral_hex n : in_u64 n -> numeral 16 n = hex n.
Proof. intros. by apply numeral_digits. Qed.

Lemma numeral_dec n : in_u64 n -> numeral 10 n = dec n.
Proof. intros. by apply numeral_digits. Qed.

Lemma repeat_char_nil a n : n <= 0 -> repeat_char a n = EmptyString.
Proof. intros. unfold repeat_char. by rewrite Z2Nat.nonpos. Qed.

Lemma pad_number_plain d neg text : width d = 0 ->
  pad_number d neg text = (if neg then "-"%string else EmptyString) +:+ text.
Proof.
  intros Hw. unfold pad_number. rewrite Hw, !repeat_char_nil by lia.
  destruct (left d), (zero d); by rewrite ?append_nil.
Qed.

(** [%lx] *)
Lemma show_lx n : in_u64 n -> show (Directive false false 0 None true) Cx (AL n) = Some (hex n).
Proof.
  intros Hn. cbn [show show_int long]. rewrite pad_number_plain by done. rewrite u64_id by done.
  by rewrite numeral_hex.
Qed.

(** [%s] *)
Lemma show_s s : show plain Cs (AS s) = Some s.
Proof. cbn. unfold pad_text. cbn [width left plain]. by rewrite repeat_char_nil by lia. Qed.

(** [%ld], with or without the flag [0] *)
Lemma show_ld z n : 0 <= n < 2 ^ 63 ->
  show (Directive false z 0 None true) Cd (AL n) = Some (dec n).
Proof.
  intros Hn. cbn [show show_int long]. rewrite s64_id by lia. rewrite pad_number_plain by done.
  rewrite Z.abs_eq by lia. replace (n <? 0) with false by lia.
  rewrite numeral_dec by (unfold in_u64; lia). done.
Qed.

(** [%02d] *)
Lemma show_02d n : 0 <= n < 100 ->
  show (Directive false true 2 None false) Cd (AZ n) =
  Some ((if n <? 10 then "0"%string else EmptyString) +:+ dec n).
Proof.
  intros Hn. assert (Forall (fun n => show (Directive false true 2 None false) Cd (AZ n) =
    Some ((if n <? 10 then "0"%string else EmptyString) +:+ dec n)) (seqZ 0 100)) as H.
  { apply (bool_decide_unpack _). vm_compute. exact I. }
  rewrite Forall_forall in H. apply H. apply elem_of_seqZ. lia.
Qed.

(** ** Reading a line back *)

(** What follows a label. *)
Fixpoint after (label s : string) : option string :=
  match label, s with
  | EmptyString, _ => Some s
  | String a label', String b s' => if Ascii.eqb a b then after label' s' else None
  | _, EmptyString => None
  end.

Lemma after_app label rest : after label (label +:+ rest) = Some rest.
Proof.
  induction label as [|c label IH]; [by destruct rest|].
  change (after (String c label) (String c label +:+ rest)) with
    (if Ascii.eqb c c then after label (label +:+ rest) else None). by rewrite Ascii.eqb_refl.
Qed.

(** The end of a word: a blank or a comma. *)
Definition ends_word (a : ascii) : bool := is_space a || Ascii.eqb a ",".

Fixpoint word (s : string) : string :=
  match s with
  | EmptyString => EmptyString
  | String a s' => if ends_word a then EmptyString else String a (word s')
  end.

(** The word after a label at the beginning of a line. *)
Definition reported (label text : string) : option string := word <$> after label text.

Lemma digits_app f base n acc acc' :
  digits f base n (acc +:+ acc') = digits f base n acc +:+ acc'.
Proof.
  revert n acc. induction f as [|f IH]; intros n acc; [done|]. cbn [digits].
  case_match; [done|]. apply (IH _ (String _ acc)).
Qed.

Lemma digit_char_in_word d : 0 <= d < 16 -> ends_word (digit_char d) = false.
Proof.
  intros Hd. assert (code (digit_char d) <> 44 /\ is_space (digit_char d) = false) as [Hc Hs].
  { unfold is_space. rewrite code_digit_char by done. split; case_match; lia. }
  unfold ends_word. rewrite Hs. apply Ascii.eqb_neq. intros He; by rewrite He in Hc.
Qed.

Lemma word_digits f base n acc : 2 <= base <= 16 ->
  word (digits f base n acc) = digits f base n (word acc).
Proof.
  intros Hb. revert n acc. induction f as [|f IH]; intros n acc; [done|]. cbn [digits].
  pose proof (Z.mod_pos_bound n base ltac:(lia)).
  case_match; [|rewrite IH]; cbn [word]; by rewrite digit_char_in_word by lia.
Qed.

Lemma word_nil_app z rest :
  word z = EmptyString -> word rest = EmptyString -> word (z +:+ rest) = EmptyString.
Proof.
  destruct z as [|c z]; [done|]. intros Hz _.
  change (word (String c z +:+ rest)) with
    (if ends_word c then EmptyString else String c (word (z +:+ rest))).
  cbn [word] in Hz. by destruct (ends_word c).
Qed.

(** A number ends where the blank or the comma after it is. *)
Lemma word_hex n rest : word rest = EmptyString -> word (hex n +:+ rest) = hex n.
Proof.
  intros Hr. unfold hex. rewrite <- digits_app, word_digits by lia.
  assert (EmptyString +:+ rest = rest) as -> by done. by rewrite Hr.
Qed.

(** A decimal number and the character after it. *)
Definition field (sep : ascii) (s : string) : option (Z * string) :=
  match scan 10 0 s with
  | (v, String a rest) => if Ascii.eqb a sep then Some (v, rest) else None
  | _ => None
  end.

Lemma field_dec sep n rest : in_u64 n -> digit 10 sep = None ->
  field sep (dec n +:+ String sep rest) = Some (n, rest).
Proof.
  intros [Hn Hn'] Hs. unfold field, dec. rewrite <- digits_app.
  assert (EmptyString +:+ String sep rest = String sep rest) as -> by done.
  destruct (scan_digits 64 10 n (String sep rest) 0) as (k & _ & ->); [lia| |lia|].
  { split; [done|]. eapply Z.lt_le_trans; [exact Hn'|]. vm_compute; discriminate. }
  cbn [scan]. rewrite Hs, Z.mul_0_l, Z.add_0_l. by rewrite Ascii.eqb_refl.
Qed.

Lemma field_02d sep n rest : 0 <= n < 100 -> digit 10 sep = None ->
  field sep (((if n <? 10 then "0"%string else EmptyString) +:+ dec n) +:+ String sep rest) =
  Some (n, rest).
Proof.
  intros Hn Hs. assert (in_u64 n) as Hn' by (unfold in_u64; lia).
  rewrite append_assoc. rewrite <- (field_dec sep n rest) by done. by case_match.
Qed.

Example render_hex : render "0x%016lx" [AL 0x1234abcd] = Some "0x000000001234abcd"%string.
Proof. vm_compute. reflexivity. Qed.

Example render_int : render "%d|%5d|%-5d|%05d" [AZ (-7); AZ 42; AZ 42; AZ (-42)] =
  Some "-7|   42|42   |-0042"%string.
Proof. vm_compute. reflexivity. Qed.

Example render_fixed : render "%.3f %-7.3f|" [AF (SFdiv 53 1024 (binary_normalize 53 1024 2 0 false)
  (binary_normalize 53 1024 3 0 false)); AF (binary_normalize 53 1024 12 0 false)] =
  Some "0.667 12.000 |"%string.
Proof. vm_compute. reflexivity. Qed.

Example render_mismatch : render "%s" [AZ 1] = None /\ render "%ld" [AZ 1] = None /\
  render "%u" [AL 1] = None /\ render "%px" [AL 1] = None /\ render "%d" [] = None /\ render "x" [AZ 1] = None.
Proof. done. Qed.

Example render_pointer : render "0x%px %s" [AP 0xffff888000000000; AS "_text"] =
  Some "0xffff888000000000 _text"%string.
Proof. vm_compute. reflexivity. Qed.
