(* ===== verification/Libc.v ===== *)
(** The C library and the system calls of the programs under src/userspace/ and
src/myinit/.

As in Kernel.v, [ucall] lists the functions the programs call, one constructor
each, and the answers are left to the environment. A program that ends by
returning from [main] has the outcome [Done status]; [exit] and [_exit] are
[Halt]s. *)
From S2P Require Import Prelude Effects CStrings Format.

Inductive stream := Stdout | Stderr.

#[export] Instance stream_eq_dec : EqDecision stream.
Proof. solve_decision. Defined.

Inductive ucall :=
(* stdio *)
| Fprintf (f : stream) (fmt : string) (args : list arg)
| Fputs (f : stream) (s : string)
| Perror (s : string)
| Strerror (e : Z)
| GetErrno
(* files *)
| Open (path : string) (flags : Z)
| Pread (fd count off : Z)       (** the number of bytes read, and the word read *)
| Close (fd : Z)
| Write (fd : Z) (data : string)  (** the number of bytes written *)
| Fopen (path mode : string)
| Fread (fp n : Z)                (** the bytes read *)
| Fwrite (f : stream) (data : string)
| Fclose (fp : Z)
| Fseek (fp off : Z)              (** from the start *)
| FreadUlong (fp : Z)             (** how many were read, and the value *)
| Freopen (path mode : string)   (** of [stdin] *)
(* memory *)
| Mmap (len prot flags fd off : Z)
| Mlock (p len : Z)
| LoadUlong (p : Z)
| StoreUlong (p v : Z)
| Mkdir (path : string) (mode : Z)
| Mount (src target fs_type : string) (flags data : Z)
(* processes *)
| Getpid
| Vfork
| Execl (path : string) (args : list string)
| Wait                           (** the pid, and the status *)
(* credentials and capabilities; a [cap_t] is a handle *)
| CapGetProc
| CapGetFlag (c cap flag : Z)    (** the error, and the value *)
| CapSetFlag (c flag : Z) (caps : list Z) (value : Z)
| CapClear (c : Z)
| CapSetProc (c : Z)
| CapFree (c : Z)
| CapIsSupported (cap : Z)
| Prctl (option arg2 : Z)
| Setresgid (r e s : Z)
| Setresuid (r e s : Z)
| Geteuid
| Getegid
| Getuid
| Getgid
| Sync
| Reboot (cmd : Z)
| Fork
(* time and scheduling *)
| ClockGettime (clock : Z)       (** the seconds, and the nanoseconds *)
| Usleep (usec : Z)
| SchedSetaffinity (pid : Z) (cpus : list Z)
| Fflush (f : stream)
(* bytes of memory, and transactions *)
| LoadByte (p : Z)
| StoreByte (p v : Z)
| Xbegin
| Xend.

Definition uans (c : ucall) : Type :=
  match c with
  | Fprintf _ _ _ | Fputs _ _ | Perror _ => unit
  | Strerror _ | Fread _ _ => string
  | Fwrite _ _ | Fclose _ => unit
  | Write _ _ | Fopen _ _ | Getpid | Fseek _ _ => Z
  | FreadUlong _ => Z * Z
  | Mmap _ _ _ _ _ | Mlock _ _ | LoadUlong _ => Z
  | StoreUlong _ _ => unit
  | GetErrno | Open _ _ | Close _ => Z
  | Pread _ _ _ | Wait => Z * Z
  | Freopen _ _ | Mkdir _ _ | Mount _ _ _ _ _ | Vfork | Execl _ _ | Reboot _ => Z
  | CapGetFlag _ _ _ => Z * Z
  | CapGetProc | CapSetFlag _ _ _ _ | CapClear _ | CapSetProc _ | CapFree _ => Z
  | CapIsSupported _ | Prctl _ _ | Setresgid _ _ _ | Setresuid _ _ _ => Z
  | Geteuid | Getegid | Getuid | Getgid => Z
  | Sync => unit
  | ClockGettime _ => Z * Z
  | Fork | SchedSetaffinity _ _ | LoadByte _ | Xbegin | Usleep _ => Z
  | Fflush _ | StoreByte _ _ | Xend => unit
  end.

Definition userE : sig := Sig ucall uans.

Abbreviation uprog := (prog userE).

Definition udo (c : ucall) : uprog (uans c) := do (E := userE) c.

Definition printf (fmt : string) (args : list arg) : uprog unit :=
  udo (Fprintf Stdout fmt args).

Definition fprintf (f : stream) (fmt : string) (args : list arg) : uprog unit :=
  udo (Fprintf f fmt args).

Definition fputs (s : string) (f : stream) : uprog unit := udo (Fputs f s).

Definition puts (s : string) : uprog unit := fputs (s +:+ nl) Stdout.

(** Some answer to every call. *)
Definition udefault (c : ucall) : uans c :=
  match c return uans c with
  | Fprintf _ _ _ | Fputs _ _ | Perror _ => tt
  | Strerror _ | Fread _ _ => EmptyString
  | Fwrite _ _ | Fclose _ => tt
  | Write _ _ | Fopen _ _ | Getpid | Fseek _ _ => 0
  | FreadUlong _ => (0, 0)
  | Mmap _ _ _ _ _ | Mlock _ _ | LoadUlong _ => 0
  | StoreUlong _ _ => tt
  | GetErrno | Open _ _ | Close _ => 0
  | Pread _ _ _ | Wait => (0, 0)
  | Freopen _ _ | Mkdir _ _ | Mount _ _ _ _ _ | Vfork | Execl _ _ | Reboot _ => 0
  | CapGetFlag _ _ _ => (0, 0)
  | CapGetProc | CapSetFlag _ _ _ _ | CapClear _ | CapSetProc _ | CapFree _ => 0
  | CapIsSupported _ | Prctl _ _ | Setresgid _ _ _ | Setresuid _ _ _ => 0
  | Geteuid | Getegid | Getuid | Getgid => 0
  | Sync => tt
  | ClockGettime _ => (0, 0)
  | Fork | SchedSetaffinity _ _ | LoadByte _ | Xbegin | Usleep _ => 0
  | Fflush _ | StoreByte _ _ | Xend => tt
  end.

(** [_exit(status)] and [exit(status)] *)
Definition _exit {A} (status : Z) : uprog A := Halt (ExitedNow status).

Definition exit {A} (status : Z) : uprog A := Halt (Exited status).

Definition O_RDONLY : Z := 0.

Definition O_WRONLY : Z := 1.

Definition EXIT_FAILURE : Z := 1.

(** Values of <sys/mman.h>. *)
Definition PROT_READ : Z := 1.
Definition PROT_WRITE : Z := 2.
Definition MAP_PRIVATE : Z := 2.
Definition MAP_ANONYMOUS : Z := 0x20.
Definition MAP_FAILED : Z := u64 (-1).

(** ** What was written *)

(** A piece of output: text, or a format with its arguments. *)
Inductive piece := Text (s : string) | Fmt (fmt : string) (args : list arg).

#[export] Instance piece_eq_dec : EqDecision piece.
Proof. solve_decision. Defined.

Definition written_of (f : stream) (o : obs userE) : option piece :=
  match obs_call o with
  | Fprintf g fmt args => if decide (g = f) then Some (Fmt fmt args) else None
  | Fputs g s => if decide (g = f) then Some (Text s) else None
  | Fwrite g s => if decide (g = f) then Some (Text s) else None
  | Perror s => if decide (Stderr = f) then Some (Text s) else None
  | _ => None
  end.

Definition written (f : stream) (t : trace userE) : list piece := omap (written_of f) t.

(** The text of a piece, and of all that went to a stream. *)
Definition piece_text (p : piece) : option string :=
  match p with
  | Text s => Some s
  | Fmt fmt args => render fmt args
  end.

Definition output_text (f : stream) (t : trace userE) : option string :=
  concat_texts (piece_text <$> written f t).

Lemma written_app f t t' : written f (t ++ t') = written f t ++ written f t'.
Proof. apply omap_app. Qed.

(** ** Computations that only write to [stdout]

[writes p ls a]: whatever the answers, [p] calls nothing but [printf] and
[fputs] to [stdout], writes exactly [ls] and returns [a]. *)
Definition is_output (o : obs userE) : Prop := is_Some (written_of Stdout o).

Definition writes {A} (p : uprog A) (ls : list piece) (a : A) : Prop :=
  always p (fun t o => o = Done a /\ written Stdout t = ls /\ Forall is_output t).

Lemma writes_ret {A} (a : A) : writes (mret a) [] a.
Proof. by repeat split. Qed.

Lemma writes_skip : writes skip [] tt.
Proof. by repeat split. Qed.

Lemma writes_printf fmt args : writes (printf fmt args) [Fmt fmt args] tt.
Proof.
  intros []. split; [done|]. split; [done|]. constructor; [by eexists|constructor].
Qed.

Lemma writes_fputs s : writes (fputs s Stdout) [Text s] tt.
Proof.
  intros []. split; [done|]. split; [done|]. constructor; [by eexists|constructor].
Qed.

Lemma writes_bind {A B} (p : uprog A) (f : A -> uprog B) ls ls' a b :
  writes p ls a -> writes (f a) ls' b -> writes (p ≫= f) (ls ++ ls') b.
Proof.
  intros Hp Hf. apply always_bind. eapply always_mono; [|exact Hp].
  intros t o (-> & Ht & Hq). eapply always_mono; [|exact Hf].
  intros t' o' (-> & Ht' & Hq'). split; [done|]. split.
  - by rewrite written_app, Ht, Ht'.
  - by apply Forall_app.
Qed.

Lemma writes_when (b : bool) (p : uprog unit) ls :
  writes p ls tt -> writes (when b p) (if b then ls else []) tt.
Proof. destruct b; [done|intros _; apply writes_skip]. Qed.

Lemma writes_if {A} (b : bool) (p q : uprog A) ls ls' a :
  writes p ls a -> writes q ls' a ->
  writes (if b then p else q) (if b then ls else ls') a.
Proof. by destruct b. Qed.

Lemma writes_eq {A} (p : uprog A) ls ls' a : writes p ls a -> ls = ls' -> writes p ls' a.
Proof. by intros ? <-. Qed.

(** The first call of such a computation, and what follows it. *)
Lemma writes_call {A} c (k : uans c -> uprog A) ls a r :
  writes (Call (E := userE) c k) ls a ->
  exists l ls', written_of Stdout (Obs (E := userE) c r) = Some l /\ ls = l :: ls' /\
    writes (k r) ls' a.
Proof.
  intros Hp. specialize (Hp r).
  destruct (always_run _ _ Hp (fun _ c => udefault c)) as (_ & Hw & HF).
  apply Forall_cons in HF as [[l Hl] _]. exists l.
  assert (forall t, written Stdout (Obs (E := userE) c r :: t) = l :: written Stdout t) as Hc.
  { intros t. unfold written. cbn [omap list_omap]. by rewrite Hl. }
  rewrite Hc in Hw. eexists. split_and!; [done|by symmetry|].
  eapply always_mono; [|exact Hp]. intros t o (Ho & Ht & HF). rewrite Hc in Ht.
  apply Forall_cons in HF as [_ HF]. split_and!; [done| |done].
  rewrite <- Hw in Ht. by injection Ht.
Qed.
