(* ===== verification/PageInfo.v ===== *)
(** src/userspace/pageinfo.c: human readable information about a page, from
/proc/[pid]/pagemap, /proc/kpageflags and /proc/kpagecount. *)
From S2P Require Import Prelude Effects CStrings Libc.

Local Open Scope c_scope.
Local Open Scope Z_scope.

Definition PAGE_SHIFT : Z := 12.
Definition PAGE_MASK : Z := not64 (shl64 1 PAGE_SHIFT - 1).

Definition PM_PRESENT : Z := shl64 1 63.
Definition PM_SWAP : Z := shl64 1 62.
Definition PM_FILE : Z := shl64 1 61.
Definition PM_UFFD_WP : Z := shl64 1 57.
Definition PM_MMAP_EXCLUSIVE : Z := shl64 1 56.
Definition PM_SOFT_DIRTY : Z := shl64 1 55.
Definition PM_PFRAME_MASK : Z := shl64 1 55 - 1.

Definition PM_SWAP_TYPE_MASK : Z := 0x1f.
Definition PM_SWAP_OFFSET_SHIFT : Z := 5.
Definition PM_SWAP_OFFSET_MASK : Z := shl64 (shl64 1 50 - 1) PM_SWAP_OFFSET_SHIFT.

Definition PM_FLAGS : Z :=
  PM_PRESENT |` PM_SWAP |` PM_FILE |` PM_UFFD_WP |` PM_MMAP_EXCLUSIVE |` PM_SOFT_DIRTY.

Definition KPF_LOCKED : Z := 1 << 0.
Definition KPF_ERROR : Z := 1 << 1.
Definition KPF_REFERENCED : Z := 1 << 2.
Definition KPF_UPTODATE : Z := 1 << 3.
Definition KPF_DIRTY : Z := 1 << 4.
Definition KPF_LRU : Z := 1 << 5.
Definition KPF_ACTIVE : Z := 1 << 6.
Definition KPF_SLAB : Z := 1 << 7.
Definition KPF_WRITEBACK : Z := 1 << 8.
Definition KPF_RECLAIM : Z := 1 << 9.
Definition KPF_BUDDY : Z := 1 << 10.
Definition KPF_MMAP : Z := 1 << 11.
Definition KPF_ANON : Z := 1 << 12.
Definition KPF_SWAPCACHE : Z := 1 << 13.
Definition KPF_SWAPBACKED : Z := 1 << 14.
Definition KPF_COMPOUND_HEAD : Z := 1 << 15.
Definition KPF_COMPOUND_TAIL : Z := 1 << 16.
Definition KPF_HUGE : Z := 1 << 17.
Definition KPF_UNEVICTABLE : Z := 1 << 18.
Definition KPF_HWPOISON : Z := 1 << 19.
Definition KPF_NOPAGE : Z := 1 << 20.
Definition KPF_KSM : Z := 1 << 21.
Definition KPF_THP : Z := 1 << 22.
Definition KPF_BALLOON : Z := 1 << 23.
Definition KPF_ZERO_PAGE : Z := 1 << 24.
Definition KPF_IDLE : Z := 1 << 25.
Definition KPF_PGTABLE : Z := 1 << 26.
Definition KPF_FLAGS : Z := (KPF_PGTABLE << 1) - 1.

Definition KPF_RESERVED : Z := 1 << 32.
Definition KPF_MLOCKED : Z := 1 << 33.
Definition KPF_MAPPEDTODISK : Z := 1 << 34.
Definition KPF_PRIVATE : Z := 1 << 35.
Definition KPF_PRIVATE_2 : Z := 1 << 36.
Definition KPF_OWNER_PRIVATE : Z := 1 << 37.
Definition KPF_ARCH : Z := 1 << 38.
Definition KPF_UNCACHED : Z := 1 << 39.
Definition KPF_SOFTDIRTY : Z := 1 << 40.
Definition KPF_ARCH_2 : Z := 1 << 41.
Definition KPF_ARCH_3 : Z := 1 << 42.
Definition KPF_HACK_FLAGS : Z := ((KPF_ARCH_3 << 1) - 1) & ~`(KPF_RESERVED - 1).

Definition read_ulong_at_offset (path : string) (offset : Z) : uprog Z :=
  fd ← udo (Open path O_RDONLY) ;
  if fd =? -1 then
    errno ← udo GetErrno ;
    err ← udo (Strerror errno) ;
    fprintf Stderr ("Failed to open " +:+ dq +:+ "%s" +:+ dq +:+ ": %s" +:+ nl)
      [AS path; AS err] ;;
    _exit 1
  else
    '(nread, res) ← udo (Pread fd 8 offset) ;
    if negb (nread =? 8) then
      (if nread =? 0 then
         fprintf Stderr ("EOF while reading " +:+ dq +:+ "%s" +:+ dq +:+
           ": page does not exist?" +:+ nl) [AS path]
       else udo (Perror "pread failed")) ;;
      _exit 1
    else
      udo (Close fd) ;;
      mret res.

(** [sprintf] into [char path[128]] overflows it when the text and its
    terminator do not fit. *)
Definition read_pagemap (pid : string) (vaddr : Z) : uprog Z :=
  let path := "/proc/" +:+ pid +:+ "/pagemap" in
  if (128 <=? String.length path)%nat then Halt (Faulted BufferOverflow) else
  read_ulong_at_offset path (u64 (Z.shiftr vaddr PAGE_SHIFT * 8)).

Definition dump_pagemap (pm vaddr : Z) : uprog unit :=
  (if has pm PM_PRESENT then
     let pfn := pm & PM_PFRAME_MASK in
     printf ("Paddr: 0x%lx, page: 0x%lx, PFN: 0x%lx" +:+ nl)
       [AL ((pfn << PAGE_SHIFT) |` (vaddr & ~`PAGE_MASK)); AL (pfn << PAGE_SHIFT); AL pfn]
   else if has pm PM_SWAP then
     printf ("Swap type: 0x%lx, offset: 0x%lx" +:+ nl)
       [AL (pm & PM_SWAP_TYPE_MASK);
        AL (Z.shiftr (pm & PM_SWAP_OFFSET_MASK) PM_SWAP_OFFSET_SHIFT)]
   else skip) ;;
  printf "/proc/[pid]/pagemap: 0x%016lx =" [AL pm] ;;
  (if has pm PM_FLAGS then
     when (has pm PM_PRESENT) (fputs " PRESENT" Stdout) ;;
     when (has pm PM_SWAP) (fputs " SWAP" Stdout) ;;
     when (has pm PM_FILE) (fputs " FILE(_OR_SHANON)" Stdout) ;;
     when (has pm PM_UFFD_WP) (fputs " UFFD_WP" Stdout) ;;
     when (has pm PM_MMAP_EXCLUSIVE) (fputs " MMAP_EXCLUSIVE" Stdout) ;;
     when (has pm PM_SOFT_DIRTY) (fputs " SOFT_DIRTY" Stdout)
   else
     fputs (" no flags set, page does not exist?" +:+ nl) Stdout ;;
     _exit 1) ;;
  fputs nl Stdout.

(** The flags of /proc/kpageflags, lines 176 to 216 of the source. *)
Definition dump_kpf_flags (kpf : Z) : uprog unit :=
  when (has kpf KPF_LOCKED) (fputs " LOCKED" Stdout) ;;
  when (has kpf KPF_ERROR) (fputs " ERROR" Stdout) ;;
  when (has kpf KPF_REFERENCED) (fputs " REFERENCED" Stdout) ;;
  when (has kpf KPF_UPTODATE) (fputs " UPTODATE" Stdout) ;;
  when (has kpf KPF_DIRTY) (fputs " DIRTY" Stdout) ;;
  when (has kpf KPF_LRU) (fputs " LRU" Stdout) ;;
  when (has kpf KPF_ACTIVE) (fputs " ACTIVE" Stdout) ;;
  when (has kpf KPF_SLAB) (fputs " SLAB" Stdout) ;;
  when (has kpf KPF_WRITEBACK) (fputs " WRITEBACK" Stdout) ;;
  when (has kpf KPF_RECLAIM) (fputs " RECLAIM" Stdout) ;;
  when (has kpf KPF_BUDDY) (fputs " BUDDY" Stdout) ;;
  when (has kpf KPF_MMAP) (fputs " MMAP" Stdout) ;;
  when (has kpf KPF_ANON) (fputs " ANON" Stdout) ;;
  when (has kpf KPF_SWAPCACHE) (fputs " SWAPCACHE" Stdout) ;;
  when (has kpf KPF_SWAPBACKED) (fputs " SWAPBACKED" Stdout) ;;
  when (has kpf KPF_COMPOUND_HEAD) (fputs " COMPOUND_HEAD" Stdout) ;;
  when (has kpf KPF_COMPOUND_TAIL) (fputs " COMPOUND_TAIL" Stdout) ;;
  when (has kpf KPF_HUGE) (fputs " HUGE" Stdout) ;;
  when (has kpf KPF_UNEVICTABLE) (fputs " UNEVICTABLE" Stdout) ;;
  when (has kpf KPF_HWPOISON) (fputs " HWPOISON" Stdout) ;;
  when (has kpf KPF_NOPAGE) (fputs " NOPAGE" Stdout) ;;
  when (has kpf KPF_KSM) (fputs " KSM" Stdout) ;;
  when (has kpf KPF_THP) (fputs " THP" Stdout) ;;
  when (has kpf KPF_BALLOON) (fputs " BALLOON" Stdout) ;;
  when (has kpf KPF_ZERO_PAGE) (fputs " ZERO_PAGE" Stdout) ;;
  when (has kpf KPF_IDLE) (fputs " IDLE" Stdout).

Definition dump_kpf_hack_flags (kpf : Z) : uprog unit :=
  fputs (if has kpf KPF_FLAGS then " | hack:" else " hack:") Stdout ;;
  when (has kpf KPF_RESERVED) (fputs " RESERVED" Stdout) ;;
  when (has kpf KPF_MLOCKED) (fputs " MLOCKED" Stdout) ;;
  when (has kpf KPF_MAPPEDTODISK) (fputs " MAPPEDTODISK" Stdout) ;;
  when (has kpf KPF_PRIVATE) (fputs " PRIVATE" Stdout) ;;
  when (has kpf KPF_PRIVATE_2) (fputs " PRIVATE_2" Stdout) ;;
  when (has kpf KPF_OWNER_PRIVATE) (fputs " OWNER_PRIVATE" Stdout) ;;
  when (has kpf KPF_ARCH) (fputs " ARCH" Stdout) ;;
  when (has kpf KPF_UNCACHED) (fputs " UNCACHED" Stdout) ;;
  when (has kpf KPF_SOFTDIRTY) (fputs " SOFTDIRTY" Stdout) ;;
  when (has kpf KPF_ARCH_2) (fputs " ARCH_2" Stdout) ;;
  when (has kpf KPF_ARCH_3) (fputs " ARCH_3" Stdout).

Definition dump_kpageflags_kpagecount (pfn : Z) (hack spacing : bool) : uprog unit :=
  kpf ← read_ulong_at_offset "/proc/kpageflags" (u64 (pfn * 8)) ;
  count ← read_ulong_at_offset "/proc/kpagecount" (u64 (pfn * 8)) ;
  let mask := KPF_FLAGS |` (if hack then KPF_HACK_FLAGS else 0) in
  printf "/proc/kpageflags%s: 0x%016lx =" [AS (if spacing then "   " else EmptyString); AL kpf] ;;
  (if has kpf mask then
     dump_kpf_flags kpf ;;
     when (hack && has kpf KPF_HACK_FLAGS) (dump_kpf_hack_flags kpf)
   else
     fputs " no known flags set" Stdout) ;;
  printf (nl +:+ "/proc/kpagecount%s: %ld" +:+ nl)
    [AS (if spacing then "   " else EmptyString); AL (s64 count)].

(** [pid] is [None] for a NULL pointer: [addr] is then physical. *)
Definition dump_page_info (pid : option string) (addr : Z) (hack : bool) : uprog unit :=
  printf ("%caddr: 0x%lx, page: 0x%lx" +:+ nl)
    [AS (match pid with Some _ => "V" | None => "P" end); AL addr; AL (addr & PAGE_MASK)] ;;
  match pid with
  | Some pid =>
      pm ← read_pagemap pid addr ;
      dump_pagemap pm addr ;;
      when (has pm PM_PRESENT)
        (dump_kpageflags_kpagecount (pm & PM_PFRAME_MASK) hack true)
  | None => dump_kpageflags_kpagecount (Z.shiftr addr PAGE_SHIFT) hack false
  end.

Definition usage_exit {A} (name : string) : uprog A :=
  fprintf Stderr ("Usage: %s PID VADDR [hack]" +:+ nl) [AS name] ;;
  fprintf Stderr ("       %s self VADDR [hack]" +:+ nl) [AS name] ;;
  fprintf Stderr ("       %s PADDR [hack]" +:+ nl) [AS name] ;;
  exit 1.

(** [*endp != '\0'], [endp == s] and the [errno] test, after a conversion. *)
Definition not_a_number (c : converted) : bool :=
  match endp c with
  | Some EmptyString => erange c
  | Some _ | None => true
  end.

(** The test on [argv[1]], unless it is [self]. *)
Definition invalid_pid (pid : string) : bool :=
  negb (String.eqb pid "self") &&
  (let c := strtol pid 10 in
   not_a_number c || (value c <? 1) || (value c >? INT_MAX)).

Definition main (argv : list string) : uprog Z :=
  let name := default "pageinfo" (argv !! 0%nat) in
  let arg i := default EmptyString (argv !! i) in
  let argc := length argv in
  if (4 <? argc)%nat then usage_exit name else
  let hack := (3 <=? argc)%nat && String.eqb (arg (argc - 1)%nat) "hack" in
  let argc := if hack then (argc - 1)%nat else argc in
  if negb (argc =? 2)%nat && negb (argc =? 3)%nat then usage_exit name else
  let pid := if (argc =? 3)%nat then Some (arg 1%nat) else None in
  if match pid with Some p => invalid_pid p | None => false end then
    fputs ("Invalid PID!" +:+ nl) Stderr ;;
    mret 1
  else
    let c := strtoul (arg (argc - 1)%nat) 0 in
    if not_a_number c then
      fputs ("Invalid address!" +:+ nl) Stderr ;;
      mret 1
    else
      dump_page_info pid (value c) hack ;;
      mret 0.
