(* ===== verification/PageInfoFacts.v ===== *)
(** Specification and proof machinery for PageInfo.v: the report the program
should print, the proc file system it runs on, and what its functions write.
The properties are in PageInfoThms.v. *)
From S2P Require Import Prelude Effects CStrings Libc PageInfo.

(** ** The report *)

(** The documented bits of the two files, with the names they are shown under
    (Documentation/admin-guide/mm/pagemap.rst; the undocumented ones from the
    kernel's kernel-page-flags.h). *)
Definition pm_table : list (Z * string) :=
  [(63, " PRESENT"); (62, " SWAP"); (61, " FILE(_OR_SHANON)"); (57, " UFFD_WP");
   (56, " MMAP_EXCLUSIVE"); (55, " SOFT_DIRTY")]%string.

Definition kpf_table : list (Z * string) :=
  [(0, " LOCKED"); (1, " ERROR"); (2, " REFERENCED"); (3, " UPTODATE");
   (4, " DIRTY"); (5, " LRU"); (6, " ACTIVE"); (7, " SLAB"); (8, " WRITEBACK");
   (9, " RECLAIM"); (10, " BUDDY"); (11, " MMAP"); (12, " ANON"); (13, " SWAPCACHE");
   (14, " SWAPBACKED"); (15, " COMPOUND_HEAD"); (16, " COMPOUND_TAIL");
   (17, " HUGE"); (18, " UNEVICTABLE"); (19, " HWPOISON"); (20, " NOPAGE");
   (21, " KSM"); (22, " THP"); (23, " BALLOON"); (24, " ZERO_PAGE"); (25, " IDLE")]%string.

Definition hack_table : list (Z * string) :=
  [(32, " RESERVED"); (33, " MLOCKED"); (34, " MAPPEDTODISK"); (35, " PRIVATE");
   (36, " PRIVATE_2"); (37, " OWNER_PRIVATE"); (38, " ARCH"); (39, " UNCACHED");
   (40, " SOFTDIRTY"); (41, " ARCH_2"); (42, " ARCH_3")]%string.

(** The names of the bits that are set. *)
Fixpoint flag_names (tbl : list (Z * string)) (v : Z) : list piece :=
  match tbl with
  | [] => []
  | (b, name) :: tbl' => (if Z.testbit v b then [Text name] else []) ++ flag_names tbl' v
  end.

(** One of the bits of a table is set. *)
Definition any_flag (tbl : list (Z * string)) (v : Z) : bool :=
  existsb (fun e => Z.testbit v (fst e)) tbl.

(** The lines on /proc/[pid]/pagemap for an entry with flags. *)
Definition pagemap_report (pm vaddr : Z) : list piece :=
  let pfn := pm mod 2 ^ 55 in
  (if Z.testbit pm 63 then
     [Fmt ("Paddr: 0x%lx, page: 0x%lx, PFN: 0x%lx" +:+ nl)
        [AL (pfn * 4096 + vaddr mod 4096); AL (pfn * 4096); AL pfn]]
   else if Z.testbit pm 62 then
     [Fmt ("Swap type: 0x%lx, offset: 0x%lx" +:+ nl)
        [AL (pm mod 32); AL (pm / 32 mod 2 ^ 50)]]
   else []) ++
  [Fmt "/proc/[pid]/pagemap: 0x%016lx =" [AL pm]] ++ flag_names pm_table pm ++ [Text nl].

(** The lines on /proc/kpageflags and /proc/kpagecount. Bit 26 (PGTABLE) counts
    as a flag but has no name. *)
Definition kpage_report (kpf count : Z) (hack spacing : bool) : list piece :=
  let pad := if spacing then "   "%string else EmptyString in
  let documented := any_flag kpf_table kpf || Z.testbit kpf 26 in
  [Fmt "/proc/kpageflags%s: 0x%016lx =" [AS pad; AL kpf]] ++
  (if documented || hack && any_flag hack_table kpf then
     flag_names kpf_table kpf ++
     (if hack && any_flag hack_table kpf then
        Text (if documented then " | hack:" else " hack:") :: flag_names hack_table kpf
      else [])
   else [Text " no known flags set"]) ++
  [Fmt (nl +:+ "/proc/kpagecount%s: %ld" +:+ nl) [AS pad; AL (s64 count)]].

Definition header (c : string) (addr : Z) : piece :=
  Fmt ("%caddr: 0x%lx, page: 0x%lx" +:+ nl) [AS c; AL addr; AL (addr / 4096 * 4096)].

(** ** Flags *)

Lemma has_bit v n : 0 <= n < 64 -> has v (shl64 1 n) = Z.testbit v n.
Proof.
  intros Hn. unfold shl64. rewrite Z.shiftl_1_l, u64_id; [apply has_pow2; lia|].
  split; [lia|]. apply Z.pow_lt_mono_r; lia.
Qed.

Lemma writes_flag v n s : 0 <= n < 64 ->
  writes (when (has v (shl64 1 n)) (fputs s Stdout)) (if Z.testbit v n then [Text s] else []) tt.
Proof. intros Hn. rewrite has_bit by done. apply writes_when, writes_fputs. Qed.

(** Follows a sequence of flag tests. *)
Ltac flags_tac :=
  eapply writes_eq;
  [repeat (eapply writes_bind; [apply writes_flag; lia|]); apply writes_flag; lia|];
  cbn [flag_names]; by rewrite ?app_nil_r.

Lemma dump_kpf_flags_writes kpf : writes (dump_kpf_flags kpf) (flag_names kpf_table kpf) tt.
Proof. unfold dump_kpf_flags, kpf_table. flags_tac. Qed.

(** The mask [m] has exactly the bits [bs]. *)
Lemma has_union v m bs :
  m = union_bits bs -> Forall (fun b => 0 <= b) bs -> has v m = existsb (Z.testbit v) bs.
Proof.
  intros -> H. induction H as [|b bs Hb _ IH].
  - unfold has, truthy. cbn. by rewrite Z.land_0_r.
  - cbn [union_bits foldr existsb]. rewrite has_lor, has_pow2 by done. by f_equal.
Qed.

Lemma existsb_fst {B} (f : Z -> bool) (tbl : list (Z * B)) :
  existsb f (tbl.*1) = existsb (fun e => f (fst e)) tbl.
Proof. induction tbl as [|[b n] tbl IH]; [done|]. cbn. by rewrite <- IH. Qed.

Lemma has_PM_FLAGS pm : has pm PM_FLAGS = any_flag pm_table pm.
Proof.
  unfold any_flag. rewrite <- existsb_fst.
  apply has_union; [done|]. by repeat constructor.
Qed.

Lemma has_KPF_FLAGS v : has v KPF_FLAGS = any_flag kpf_table v || Z.testbit v 26.
Proof.
  unfold any_flag. rewrite <- existsb_fst.
  rewrite (has_union v KPF_FLAGS (kpf_table.*1 ++ [26])) by (done || by repeat constructor).
  rewrite existsb_app. cbn [existsb]. by rewrite orb_false_r.
Qed.

Lemma has_KPF_HACK_FLAGS v : has v KPF_HACK_FLAGS = any_flag hack_table v.
Proof.
  unfold any_flag. rewrite <- existsb_fst.
  apply has_union; [done|]. by repeat constructor.
Qed.

Lemma pm_flags_writes pm :
  writes (when (has pm PM_PRESENT) (fputs " PRESENT" Stdout) ;;
          when (has pm PM_SWAP) (fputs " SWAP" Stdout) ;;
          when (has pm PM_FILE) (fputs " FILE(_OR_SHANON)" Stdout) ;;
          when (has pm PM_UFFD_WP) (fputs " UFFD_WP" Stdout) ;;
          when (has pm PM_MMAP_EXCLUSIVE) (fputs " MMAP_EXCLUSIVE" Stdout) ;;
          when (has pm PM_SOFT_DIRTY) (fputs " SOFT_DIRTY" Stdout))
    (flag_names pm_table pm) tt.
Proof. unfold pm_table. flags_tac. Qed.

Lemma dump_kpf_hack_flags_writes kpf :
  writes (dump_kpf_hack_flags kpf)
    (Text (if any_flag kpf_table kpf || Z.testbit kpf 26 then " | hack:" else " hack:") ::
     flag_names hack_table kpf) tt.
Proof.
  unfold dump_kpf_hack_flags, hack_table. rewrite has_KPF_FLAGS.
  apply (writes_bind _ _ [_] _ tt); [apply writes_fputs|]. flags_tac.
Qed.

(** ** Arithmetic of the masks *)

Lemma page_of a : in_u64 a -> Z.land a PAGE_MASK = a / 4096 * 4096.
Proof.
  intros Ha. change PAGE_MASK with (not64 (Z.ones 12)).
  change 4096 with (2 ^ 12) at 1. change 4096 with (2 ^ 12).
  rewrite <- Z.shiftl_mul_pow2, <- Z.shiftr_div_pow2 by lia.
  apply Z.bits_inj'. intros i Hi. bits_rw. rewrite testbit_ones by lia.
  rewrite Z.shiftl_spec by lia. destruct (Z.ltb_spec i 64).
  - destruct (Z.ltb_spec i 12).
    + rewrite (Z.testbit_neg_r _ (i - 12)) by lia. btauto.
    + rewrite Z.shiftr_spec by lia. replace (i - 12 + 12) with i by lia. btauto.
  - rewrite (in_u64_testbit a i), Z.shiftr_spec by (done || lia).
    by rewrite (in_u64_testbit a) by (done || lia).
Qed.

Lemma page_offset a : in_u64 a -> Z.land a (not64 PAGE_MASK) = a mod 4096.
Proof.
  intros Ha. change 4096 with (2 ^ 12). rewrite <- Z.land_ones by lia. f_equal.
Qed.

Lemma pfn_of pm : Z.land pm PM_PFRAME_MASK = pm mod 2 ^ 55.
Proof. change PM_PFRAME_MASK with (Z.ones 55). by apply Z.land_ones. Qed.

Lemma shl_page pfn : 0 <= pfn < 2 ^ 52 -> shl64 pfn PAGE_SHIFT = pfn * 4096.
Proof.
  intros Hp. unfold shl64, PAGE_SHIFT. rewrite Z.shiftl_mul_pow2 by lia.
  apply u64_id. unfold in_u64. lia.
Qed.

Lemma paddr_of pfn a : 0 <= pfn < 2 ^ 52 -> in_u64 a ->
  Z.lor (shl64 pfn PAGE_SHIFT) (Z.land a (not64 PAGE_MASK)) = pfn * 4096 + a mod 4096.
Proof.
  intros Hp Ha. rewrite page_offset, shl_page by done. apply lor_disjoint_add.
  change 4096 with (2 ^ 12). rewrite <- Z.land_ones, <- Z.shiftl_mul_pow2 by lia.
  apply Z.bits_inj'. intros i Hi. rewrite !Z.land_spec, Z.bits_0, testbit_ones by lia.
  destruct (Z.ltb_spec i 12); [|btauto]. by rewrite Z.shiftl_spec_low by lia.
Qed.

Lemma swap_type pm : Z.land pm PM_SWAP_TYPE_MASK = pm mod 32.
Proof. change PM_SWAP_TYPE_MASK with (Z.ones 5). by apply Z.land_ones. Qed.

Lemma swap_offset pm : 0 <= pm ->
  Z.shiftr (Z.land pm PM_SWAP_OFFSET_MASK) PM_SWAP_OFFSET_SHIFT = pm / 32 mod 2 ^ 50.
Proof.
  intros Hp. change 32 with (2 ^ 5). rewrite <- Z.shiftr_div_pow2, <- Z.land_ones by lia.
  unfold PM_SWAP_OFFSET_SHIFT.
  change PM_SWAP_OFFSET_MASK with (shl64 (Z.ones 50) 5).
  apply Z.bits_inj'. intros i Hi. do 2 bits_rw. rewrite !testbit_ones by lia.
  replace (i + 5 - 5) with i by lia.
  destruct (Z.ltb_spec i 50), (Z.ltb_spec (i + 5) 64); try lia; cbn; by rewrite ?andb_false_r, ?andb_true_r.
Qed.

(** ** What the dump functions write *)

Lemma dump_pagemap_writes pm vaddr :
  in_u64 pm -> in_u64 vaddr -> pm mod 2 ^ 55 < 2 ^ 52 -> any_flag pm_table pm = true ->
  writes (dump_pagemap pm vaddr) (pagemap_report pm vaddr) tt.
Proof.
  intros Hpm Hva Hpfn Hany. unfold dump_pagemap, pagemap_report.
  assert (0 <= pm mod 2 ^ 55 < 2 ^ 52) as Hp by (pose proof (Z.mod_pos_bound pm (2 ^ 55)); lia).
  eapply writes_eq.
  - eapply writes_bind; [|eapply writes_bind; [apply writes_printf|]].
    + unfold PM_PRESENT, PM_SWAP. rewrite !has_bit by lia.
      rewrite pfn_of, paddr_of, shl_page, swap_type, swap_offset by (done || apply Hpm).
      apply writes_if; [apply writes_printf|].
      apply writes_if; [apply writes_printf|apply writes_skip].
    + rewrite has_PM_FLAGS, Hany. eapply writes_bind; [apply pm_flags_writes|].
      apply writes_fputs.
  - done.
Qed.

(** The part of [dump_kpageflags_kpagecount] after the two reads. *)
Lemma kpage_writes (kpf count : Z) (hack spacing : bool) :
  writes
    (let mask := Z.lor KPF_FLAGS (if hack then KPF_HACK_FLAGS else 0) in
     printf "/proc/kpageflags%s: 0x%016lx ="
       [AS (if spacing then "   " else EmptyString); AL kpf] ;;
     (if has kpf mask then
        dump_kpf_flags kpf ;;
        when (hack && has kpf KPF_HACK_FLAGS) (dump_kpf_hack_flags kpf)
      else fputs " no known flags set" Stdout) ;;
     printf (nl +:+ "/proc/kpagecount%s: %ld" +:+ nl)
       [AS (if spacing then "   " else EmptyString); AL (s64 count)])
    (kpage_report kpf count hack spacing) tt.
Proof.
  unfold kpage_report. cbn zeta.
  assert (has kpf (Z.lor KPF_FLAGS (if hack then KPF_HACK_FLAGS else 0)) =
    (any_flag kpf_table kpf || Z.testbit kpf 26) || hack && any_flag hack_table kpf) as ->.
  { rewrite has_lor, has_KPF_FLAGS. f_equal. destruct hack; [apply has_KPF_HACK_FLAGS|].
    unfold has. by rewrite Z.land_0_r. }
  eapply writes_bind; [apply writes_printf|]. eapply writes_bind; [|apply writes_printf].
  apply writes_if; [|apply writes_fputs].
  eapply writes_bind; [apply dump_kpf_flags_writes|].
  rewrite has_KPF_HACK_FLAGS. apply writes_when, dump_kpf_hack_flags_writes.
Qed.

(** ** The proc file system

[file path] is what the kernel offers under [path]: the word at each offset, up
to the end of the file. [open] gives a fresh descriptor if there is a file,
[pread] the word, or 0 bytes past the end. *)
Record ustate := UState {
  fds : gmap Z string;
  next_fd : Z;
  events : trace userE;
}.

Section procfs.
Context (file : string -> option (Z -> option Z)).

Definition event (s : ustate) (c : ucall) (a : uans c) : ustate :=
  UState (fds s) (next_fd s) (events s ++ [Obs (E := userE) c a]).

Definition procfs : handler userE ustate := fun s c =>
  match c return option (uans c * ustate) with
  | Open path flags =>
      match file path with
      | Some _ =>
          Some (next_fd s, event (UState (<[next_fd s := path]> (fds s)) (next_fd s + 1)
            (events s)) (Open path flags) (next_fd s))
      | None => Some (-1, event s (Open path flags) (-1))
      end
  | Pread fd count off =>
      match fds s !! fd ≫= file with
      | Some f =>
          let r := match f off with Some v => (8, v) | None => (0, 0) end in
          Some (r, event s (Pread fd count off) r)
      | None => Some ((-1, 0), event s (Pread fd count off) (-1, 0))
      end
  | Close fd =>
      Some (0, event (UState (delete fd (fds s)) (next_fd s) (events s)) (Close fd) 0)
  | Strerror e => Some ("No such file or directory"%string,
      event s (Strerror e) "No such file or directory"%string)
  | GetErrno => Some (2, event s GetErrno 2)
  | Fprintf f fmt args => Some (tt, event s (Fprintf f fmt args) tt)
  | Fputs f str => Some (tt, event s (Fputs f str) tt)
  | Perror str => Some (tt, event s (Perror str) tt)
  | c' => Some (udefault c', event s c' (udefault c'))
  end.

(** [outs p ls a]: on the proc file system, [p] returns [a] having written [ls]
    to [stdout], with every descriptor it opened closed again. *)
Definition outs {A} (p : uprog A) (ls : list piece) (a : A) : Prop :=
  forall s, 0 <= next_fd s -> (forall fd, next_fd s <= fd -> fds s !! fd = None) ->
  exists s', exec procfs s p = (s', Done a) /\
    next_fd s <= next_fd s' /\ fds s' = fds s /\
    written Stdout (events s') = written Stdout (events s) ++ ls.

Lemma outs_ret {A} (a : A) : outs (mret a) [] a.
Proof. intros s Hs Hf. exists s. by rewrite app_nil_r. Qed.

Lemma outs_bind {A B} (p : uprog A) (f : A -> uprog B) ls ls' a b :
  outs p ls a -> outs (f a) ls' b -> outs (p ≫= f) (ls ++ ls') b.
Proof.
  intros Hp Hf s Hs Hfd. destruct (Hp s Hs Hfd) as (s1 & He1 & Hn1 & Hfd1 & Hw1).
  destruct (Hf s1) as (s2 & He2 & Hn2 & Hfd2 & Hw2); [lia| |].
  { intros fd Hfd'. rewrite Hfd1. apply Hfd. lia. }
  exists s2. rewrite exec_bind, He1, He2. split_and!; [done|lia|congruence|].
  by rewrite Hw2, Hw1, app_assoc.
Qed.

Lemma outs_writes {A} (p : uprog A) ls a : writes p ls a -> outs p ls a.
Proof.
  revert ls. induction p as [x|x|c k IH]; intros ls Hp.
  - destruct Hp as ([= ->] & <- & _). apply outs_ret.
  - by destruct Hp.
  - intros s Hs Hfd.
    destruct (writes_call c k ls a (udefault c) Hp) as (l & ls' & Hl & -> & Hk).
    destruct (IH _ _ Hk (event s c (udefault c))) as (s' & He & Hn & Hf & Hw); [done..|].
    exists s'. split_and!; [|done..|].
    + destruct c; try done; exact He.
    + rewrite Hw. cbn [event events]. rewrite written_app, <- app_assoc. f_equal.
      unfold written. cbn [omap list_omap]. by rewrite Hl.
Qed.

Lemma outs_read path off f v :
  file path = Some f -> f off = Some v -> outs (read_ulong_at_offset path off) [] v.
Proof.
  intros Hfile Hv s Hs Hfd. unfold read_ulong_at_offset.
  eexists. split.
  { cbn. rewrite Hfile. cbn. rewrite (proj2 (Z.eqb_neq (next_fd s) (-1))) by lia.
    cbn. rewrite lookup_insert_eq. cbn. rewrite Hfile, Hv. cbn. done. }
  cbn [event events fds next_fd]. split_and!; [lia| |].
  - rewrite delete_insert_id; [done|]. apply Hfd. lia.
  - rewrite !written_app. by rewrite !app_nil_r.
Qed.

End procfs.
