(* ===== verification/PageInfoThms.v ===== *)
(** Properties of pageinfo.c: what the program reports on a proc file system,
which flags its pieces stand for, its exit status, and the buffer it can
overflow. *)
From Stdlib Require Import Ascii.
From S2P Require Import Prelude Effects CStrings Libc PageInfo PageInfoFacts.

(** The process starts with no descriptors of its own; 3 is the first free. *)
Definition initial : ustate := UState ∅ 3 [].

(** What a program writes to [stdout] on a proc file system. *)
Definition stdout_of {A} (file : string -> option (Z -> option Z)) (p : uprog A) : list piece :=
  written Stdout (events (exec (procfs file) initial p).1).

Definition result_of {A} (file : string -> option (Z -> option Z)) (p : uprog A) : outcome A :=
  (exec (procfs file) initial p).2.

Definition open_files {A} (file : string -> option (Z -> option Z)) (p : uprog A) : gmap Z string :=
  fds (exec (procfs file) initial p).1.

Lemma outs_run {A} file (p : uprog A) ls a : outs file p ls a ->
  result_of file p = Done a /\ stdout_of file p = ls /\ open_files file p = ∅.
Proof.
  intros Hp. unfold result_of, stdout_of, open_files.
  destruct (Hp initial) as (s' & -> & _ & Hf & Hw); [by simpl|done|]. done.
Qed.

Lemma outs_then_ret {A} file (p : uprog unit) ls (a : A) :
  outs file p ls tt -> outs file (p ;; mret a) ls a.
Proof.
  intros Hp. rewrite <- (app_nil_r ls). by apply (outs_bind _ _ _ _ [] tt); [|apply outs_ret].
Qed.

(** The arguments of the command line. *)
Definition valid_pid (pid : string) : Prop :=
  pid = "self"%string \/ exists n, pid = dec n /\ 1 <= n <= INT_MAX.

Definition address (a : Z) : string := "0x" +:+ hex a.

Definition hack_arg (hack : bool) : list string := if hack then ["hack"%string] else [].

(** ** Arguments *)

Lemma length_digits fuel base n acc :
  (String.length (digits fuel base n acc) <= fuel + String.length acc)%nat.
Proof.
  revert n acc. induction fuel as [|fuel IH]; intros n acc; simpl; [lia|].
  destruct (n <? base); simpl; [lia|].
  etrans; [apply IH|]. simpl. lia.
Qed.

Lemma valid_pid_short pid : valid_pid pid -> (String.length pid <= 64)%nat.
Proof.
  intros [->|(n & -> & _)]; [simpl; lia|].
  etrans; [apply length_digits|]. simpl. lia.
Qed.

Lemma valid_pid_accepted pid : valid_pid pid -> invalid_pid pid = false.
Proof.
  unfold invalid_pid. intros [->|(n & -> & Hn)]; [done|].
  rewrite strtol_dec by (unfold INT_MAX, LONG_MAX in *; lia). cbn [value not_a_number endp erange].
  unfold INT_MAX in *. replace (n <? 1) with false by lia.
  replace (n >? 2 ^ 31 - 1) with false by lia. apply andb_false_r.
Qed.

Lemma address_accepted a : in_u64 a ->
  not_a_number (strtoul (address a) 0) = false /\ value (strtoul (address a) 0) = a.
Proof.
  intros Ha. unfold address. rewrite strtoul_hex; [done|].
  unfold in_u64, ULONG_MAX in *. lia.
Qed.

Lemma address_not_hack a : String.eqb (address a) "hack" = false.
Proof. done. Qed.

(** [main] on valid arguments goes on to [dump_page_info]. *)
Lemma main_virtual name pid a hack :
  valid_pid pid -> in_u64 a ->
  main ([name; pid; address a] ++ hack_arg hack) =
  (dump_page_info (Some pid) a hack ;; mret 0).
Proof.
  intros Hp Ha. destruct (address_accepted a Ha) as [Hn Hv]. unfold main, hack_arg.
  destruct hack; cbn [length app lookup list_lookup Nat.leb Nat.ltb Nat.sub Nat.eqb
    default from_option negb andb id];
    rewrite ?address_not_hack; cbn [String.eqb Ascii.eqb Bool.eqb andb negb Nat.eqb
      lookup list_lookup default from_option id Nat.sub];
    by rewrite valid_pid_accepted, Hn, Hv.
Qed.

Lemma main_physical name a hack : in_u64 a ->
  main ([name; address a] ++ hack_arg hack) = (dump_page_info None a hack ;; mret 0).
Proof.
  intros Ha. destruct (address_accepted a Ha) as [Hn Hv]. unfold main, hack_arg.
  destruct hack; cbn [length app lookup list_lookup Nat.leb Nat.ltb Nat.sub Nat.eqb
    default from_option negb andb id];
    rewrite ?address_not_hack; cbn [String.eqb Ascii.eqb Bool.eqb andb negb Nat.eqb
      lookup list_lookup default from_option id Nat.sub];
    by rewrite Hn, Hv.
Qed.

(** ** The report *)

Lemma outs_kpage file g h pfn kpf count hack spacing :
  0 <= pfn < 2 ^ 61 ->
  file "/proc/kpageflags"%string = Some g -> g (pfn * 8) = Some kpf ->
  file "/proc/kpagecount"%string = Some h -> h (pfn * 8) = Some count ->
  outs file (dump_kpageflags_kpagecount pfn hack spacing)
    (kpage_report kpf count hack spacing) tt.
Proof.
  intros Hp Hg Hkpf Hh Hcount. unfold dump_kpageflags_kpagecount.
  rewrite u64_id by (unfold in_u64; lia).
  apply (outs_bind _ _ _ [] _ kpf); [by eapply outs_read|].
  apply (outs_bind _ _ _ [] _ count); [by eapply outs_read|].
  apply outs_writes, kpage_writes.
Qed.

Lemma outs_pagemap file f pid a pm :
  valid_pid pid -> in_u64 a ->
  file ("/proc/" +:+ pid +:+ "/pagemap") = Some f -> f (a / 4096 * 8) = Some pm ->
  outs file (read_pagemap pid a) [] pm.
Proof.
  intros Hp Ha Hf Hpm. unfold read_pagemap.
  assert ((128 <=? String.length ("/proc/" +:+ pid +:+ "/pagemap"))%nat = false) as ->.
  { pose proof (valid_pid_short _ Hp). rewrite !length_append.
    apply Nat.leb_gt. cbn [String.length]. lia. }
  eapply outs_read; [done|]. rewrite <- Hpm. f_equal.
  unfold PAGE_SHIFT. rewrite Z.shiftr_div_pow2 by lia. change (2 ^ 12) with 4096.
  apply u64_id. unfold in_u64 in *.
  pose proof (Z.div_le_upper_bound a 4096 (2 ^ 52)). pose proof (Z.div_pos a 4096). lia.
Qed.

Lemma outs_virtual file f g h name pid a hack pm kpf count :
  valid_pid pid -> in_u64 a ->
  file ("/proc/" +:+ pid +:+ "/pagemap") = Some f -> f (a / 4096 * 8) = Some pm ->
  in_u64 pm -> pm mod 2 ^ 55 < 2 ^ 52 -> any_flag pm_table pm = true ->
  file "/proc/kpageflags"%string = Some g -> file "/proc/kpagecount"%string = Some h ->
  g (pm mod 2 ^ 55 * 8) = Some kpf -> h (pm mod 2 ^ 55 * 8) = Some count ->
  outs file (main ([name; pid; address a] ++ hack_arg hack))
    (header "V" a :: pagemap_report pm a ++
      (if Z.testbit pm 63 then kpage_report kpf count hack true else [])) 0.
Proof.
  intros Hpid Ha Hf Hpm Hpm64 Hpfn Hany Hg Hh Hkpf Hcount.
  rewrite main_virtual by done. unfold dump_page_info, header.
  rewrite page_of by done.
  apply outs_then_ret.
  apply (outs_bind _ _ _ [_] _ tt); [apply outs_writes, writes_printf|].
  apply (outs_bind _ _ _ [] _ pm); [by eapply outs_pagemap|].
  apply (outs_bind _ _ _ _ _ tt); [by apply outs_writes, dump_pagemap_writes|].
  unfold PM_PRESENT. rewrite has_bit by lia. rewrite pfn_of.
  destruct (Z.testbit pm 63); [|apply outs_ret].
  apply (outs_kpage file g h); try done.
  pose proof (Z.mod_pos_bound pm (2 ^ 55)). lia.
Qed.

(** C13. Given a process and a virtual address, the program reports what the
    kernel's files say: the entry of the page in the page map with the names of
    its flags, and, when the page is present, its physical address (the page's
    frame number times 4096, plus the offset in the page) and the flags and count
    of that frame; when it is swapped out, where to. It exits with status 0 and
    leaves no file open. *)
Theorem pageinfo_virtual file f g h name pid a hack pm kpf count :
  valid_pid pid -> in_u64 a ->
  file ("/proc/" +:+ pid +:+ "/pagemap") = Some f -> f (a / 4096 * 8) = Some pm ->
  in_u64 pm -> pm mod 2 ^ 55 < 2 ^ 52 -> any_flag pm_table pm = true ->
  file "/proc/kpageflags"%string = Some g -> file "/proc/kpagecount"%string = Some h ->
  g (pm mod 2 ^ 55 * 8) = Some kpf -> h (pm mod 2 ^ 55 * 8) = Some count ->
  let p := main ([name; pid; address a] ++ hack_arg hack) in
  result_of file p = Done 0 /\
  stdout_of file p =
    header "V" a :: pagemap_report pm a ++
      (if Z.testbit pm 63 then kpage_report kpf count hack true else []) /\
  open_files file p = ∅.
Proof.
  intros. by apply outs_run, (outs_virtual file f g h).
Qed.

Lemma outs_physical file g h name a hack kpf count :
  in_u64 a ->
  file "/proc/kpageflags"%string = Some g -> file "/proc/kpagecount"%string = Some h ->
  g (a / 4096 * 8) = Some kpf -> h (a / 4096 * 8) = Some count ->
  outs file (main ([name; address a] ++ hack_arg hack))
    (header "P" a :: kpage_report kpf count hack false) 0.
Proof.
  intros Ha Hg Hh Hkpf Hcount.
  rewrite main_physical by done. unfold dump_page_info, header.
  rewrite page_of by done.
  apply outs_then_ret.
  apply (outs_bind _ _ _ [_] _ tt); [apply outs_writes, writes_printf|].
  unfold PAGE_SHIFT. rewrite Z.shiftr_div_pow2 by lia. change (2 ^ 12) with 4096.
  apply (outs_kpage file g h); try done. unfold in_u64 in Ha.
  split; [apply Z.div_pos; lia|]. apply Z.div_lt_upper_bound; lia.
Qed.

(** Given a physical address alone, it reports the flags and the count of
    the frame the address lies in. *)
Lemma pageinfo_physical file g h name a hack kpf count :
  in_u64 a ->
  file "/proc/kpageflags"%string = Some g -> file "/proc/kpagecount"%string = Some h ->
  g (a / 4096 * 8) = Some kpf -> h (a / 4096 * 8) = Some count ->
  let p := main ([name; address a] ++ hack_arg hack) in
  result_of file p = Done 0 /\
  stdout_of file p = header "P" a :: kpage_report kpf count hack false /\
  open_files file p = ∅.
Proof.
  intros Ha Hg Hh Hkpf Hcount. by apply outs_run, (outs_physical file g h).
Qed.

(** ** Reading the flags back *)

(** The bits of a table that are named in the output. *)
Definition decode (tbl : list (Z * string)) (out : list piece) : Z :=
  foldr (fun e acc => Z.lor (if decide (Text (snd e) ∈ out) then 2 ^ fst e else 0) acc) 0 tbl.

Lemma decode_pick tbl out v :
  Forall (fun b => 0 <= b) (tbl.*1) ->
  (forall b n, (b, n) ∈ tbl -> Text n ∈ out <-> Z.testbit v b = true) ->
  decode tbl out = Z.land v (union_bits (tbl.*1)).
Proof.
  intros Hb Hin. rewrite <- pick_bits by done. unfold decode.
  induction tbl as [|[b n] tbl IH]; [done|]. cbn [foldr fmap list_fmap fst snd].
  apply Forall_cons in Hb as [Hb0 Hb]. rewrite IH; [|done|].
  - f_equal. rewrite has_pow2 by done. pose proof (Hin b n) as Hbn.
    rewrite elem_of_cons in Hbn. specialize (Hbn (or_introl eq_refl)).
    destruct (decide _) as [Hd|Hd].
    + by rewrite (proj1 Hbn Hd).
    + destruct (Z.testbit v b) eqn:E; [|done]. destruct Hd. by apply Hbn.
  - intros b' n' H. apply Hin. rewrite elem_of_cons. auto.
Qed.

(** Names that occur once can be read back. *)
Lemma elem_flag_names tbl v n :
  Text n ∈ flag_names tbl v <-> exists b, (b, n) ∈ tbl /\ Z.testbit v b = true.
Proof.
  induction tbl as [|[b m] tbl IH]; cbn [flag_names].
  - split; [by intros ?%not_elem_of_nil|]. by intros (b & ?%not_elem_of_nil & _).
  - rewrite elem_of_app, IH. split.
    + intros [Hm|(b' & Hin & Hb)].
      * destruct (Z.testbit v b) eqn:E; [|by apply not_elem_of_nil in Hm].
        apply list_elem_of_singleton in Hm as [= <-]. exists b. rewrite elem_of_cons. auto.
      * exists b'. rewrite elem_of_cons. auto.
    + intros (b' & Hin & Hb). apply elem_of_cons in Hin as [[= -> ->]|Hin]; [left|right; eauto].
      rewrite Hb. by apply list_elem_of_singleton.
Qed.

(** Each name of a table stands for one bit. *)
Definition distinct_names (tbl : list (Z * string)) : bool :=
  bool_decide (NoDup (tbl.*2)).

Lemma flag_names_bit tbl v b n :
  distinct_names tbl = true -> (b, n) ∈ tbl ->
  Text n ∈ flag_names tbl v <-> Z.testbit v b = true.
Proof.
  intros Hd Hin. rewrite elem_flag_names. split; [|by eauto].
  intros (b' & Hin' & Hb). apply bool_decide_eq_true in Hd.
  assert (b' = b) as <-; [|done]. revert Hin Hin' Hd. clear.
  induction tbl as [|[c m] tbl IH]; [by intros ?%not_elem_of_nil|].
  intros Hin Hin' [Hm Hnd]%NoDup_cons.
  apply elem_of_cons in Hin as [?|Hin]; apply elem_of_cons in Hin' as [?|Hin']; simplify_eq/=;
    [done| | |auto]; destruct Hm; apply list_elem_of_fmap; by eexists (_, _).
Qed.

(** The two tables of page flags share no name. *)
Lemma other_table (tbl tbl' : list (Z * string)) v n b :
  forallb (fun e => negb (bool_decide (e.2 ∈ tbl'.*2))) tbl = true ->
  (b, n) ∈ tbl -> ~ Text n ∈ flag_names tbl' v.
Proof.
  intros Hd Hin Hn. apply elem_flag_names in Hn as (b' & Hin' & _).
  rewrite forallb_forall in Hd. specialize (Hd (b, n)).
  apply list_elem_of_In in Hin. specialize (Hd Hin). apply negb_true_iff in Hd.
  apply bool_decide_eq_false in Hd. apply Hd. apply list_elem_of_fmap. by exists (b', n).
Qed.

(** A text that is no name of the table. *)
Lemma not_name (tbl : list (Z * string)) b n s :
  bool_decide (s ∈ tbl.*2) = false -> (b, n) ∈ tbl -> Text n <> Text s.
Proof.
  intros Hs Hin [= ->]. apply bool_decide_eq_false in Hs. destruct Hs.
  apply list_elem_of_fmap. by exists (b, s).
Qed.

Lemma any_flag_bit tbl v b n : (b, n) ∈ tbl -> Z.testbit v b = true -> any_flag tbl v = true.
Proof.
  intros Hin Hb. unfold any_flag. apply existsb_exists. exists (b, n).
  by rewrite <- list_elem_of_In.
Qed.

Lemma kpf_name_reported kpf count hack spacing b n :
  (b, n) ∈ kpf_table ->
  Text n ∈ kpage_report kpf count hack spacing <-> Z.testbit kpf b = true.
Proof.
  intros Hin. rewrite <- (flag_names_bit kpf_table) by done. unfold kpage_report.
  rewrite !elem_of_app, !list_elem_of_singleton.
  pose proof (not_name kpf_table _ _ " no known flags set" eq_refl Hin).
  pose proof (not_name kpf_table _ _ " | hack:" eq_refl Hin).
  pose proof (not_name kpf_table _ _ " hack:" eq_refl Hin).
  pose proof (other_table kpf_table hack_table kpf _ _ eq_refl Hin).
  assert (Text n ∈ flag_names kpf_table kpf -> any_flag kpf_table kpf = true) as Hany.
  { intros Hn. apply elem_flag_names in Hn as (b' & ? & ?). by eapply any_flag_bit. }
  split.
  - intros [?|[Hn|?]]; [done| |done]. case_match.
    + apply elem_of_app in Hn as [?|Hn]; [done|]. case_match.
      * apply elem_of_cons in Hn as [Hn|?]; [|done]. case_match; done.
      * by apply not_elem_of_nil in Hn.
    + by apply list_elem_of_singleton in Hn.
  - intros Hn. right. left. rewrite (Hany Hn). cbn [orb]. apply elem_of_app. by left.
Qed.

Lemma hack_name_reported kpf count hack spacing b n :
  (b, n) ∈ hack_table ->
  Text n ∈ kpage_report kpf count hack spacing <-> hack = true /\ Z.testbit kpf b = true.
Proof.
  intros Hin. rewrite <- (flag_names_bit hack_table) by done. unfold kpage_report.
  rewrite !elem_of_app, !list_elem_of_singleton.
  pose proof (not_name hack_table _ _ " no known flags set" eq_refl Hin).
  pose proof (not_name hack_table _ _ " | hack:" eq_refl Hin).
  pose proof (not_name hack_table _ _ " hack:" eq_refl Hin).
  pose proof (other_table hack_table kpf_table kpf _ _ eq_refl Hin).
  assert (Text n ∈ flag_names hack_table kpf -> any_flag hack_table kpf = true) as Hany.
  { intros Hn. apply elem_flag_names in Hn as (b' & ? & ?). by eapply any_flag_bit. }
  split.
  - intros [?|[Hn|?]]; [done| |done]. case_match.
    + apply elem_of_app in Hn as [?|Hn]; [done|]. case_match eqn:Hh.
      * apply andb_prop in Hh as [-> _].
        apply elem_of_cons in Hn as [Hn|?]; [|done]. case_match; done.
      * by apply not_elem_of_nil in Hn.
    + by apply list_elem_of_singleton in Hn.
  - intros [-> Hn]. right. left. rewrite (Hany Hn), orb_true_r. cbn [andb].
    apply elem_of_app. right. apply elem_of_cons. by right.
Qed.

(** The names printed, read back. *)
Lemma kpage_flags_decode file g h name a hack kpf count :
  in_u64 a ->
  file "/proc/kpageflags"%string = Some g -> file "/proc/kpagecount"%string = Some h ->
  g (a / 4096 * 8) = Some kpf -> h (a / 4096 * 8) = Some count ->
  let out := stdout_of file (main ([name; address a] ++ hack_arg hack)) in
  decode kpf_table out = Z.land kpf (KPF_FLAGS - KPF_PGTABLE) /\
  decode hack_table out = (if hack then Z.land kpf KPF_HACK_FLAGS else 0).
Proof.
  intros Ha Hg Hh Hkpf Hcount. cbn zeta.
  pose proof (outs_physical file g h name a hack kpf count Ha Hg Hh Hkpf Hcount) as Ho.
  apply outs_run in Ho as (_ & -> & _).
  assert (forall n, Text n ∈ header "P" a :: kpage_report kpf count hack false <->
    Text n ∈ kpage_report kpf count hack false) as Hcons.
  { intros n. rewrite elem_of_cons. split; [|auto]. by intros [?|?]. }
  split.
  - change (KPF_FLAGS - KPF_PGTABLE) with (union_bits (kpf_table.*1)).
    apply decode_pick; [by repeat constructor|]. intros b n Hin.
    rewrite Hcons. by apply kpf_name_reported.
  - destruct hack.
    + change KPF_HACK_FLAGS with (union_bits (hack_table.*1)).
      apply decode_pick; [by repeat constructor|]. intros b n Hin.
      rewrite Hcons, hack_name_reported by done. naive_solver.
    + rewrite (decode_pick _ _ 0); [done|by repeat constructor|]. intros b n Hin.
      rewrite Hcons, hack_name_reported by done. rewrite Z.bits_0. naive_solver.
Qed.

(** A page of page tables is not reported as such: with bit 26 (PGTABLE) the
    only one set, the line on /proc/kpageflags shows no flag, and does not say
    that there is none either. *)
Lemma kpf_pgtable_unreported file g h name a count :
  in_u64 a ->
  file "/proc/kpageflags"%string = Some g -> file "/proc/kpagecount"%string = Some h ->
  g (a / 4096 * 8) = Some KPF_PGTABLE -> h (a / 4096 * 8) = Some count ->
  stdout_of file (main [name; address a]) =
    [header "P" a; Fmt "/proc/kpageflags%s: 0x%016lx =" [AS EmptyString; AL KPF_PGTABLE];
     Fmt (nl +:+ "/proc/kpagecount%s: %ld" +:+ nl) [AS EmptyString; AL (s64 count)]].
Proof.
  intros Ha Hg Hh Hkpf Hcount.
  change [name; address a] with ([name; address a] ++ hack_arg false).
  pose proof (outs_physical file g h name a false KPF_PGTABLE count Ha Hg Hh Hkpf Hcount) as Ho.
  apply outs_run in Ho as (_ & -> & _). reflexivity.
Qed.

(** ** Exit status *)

(** A call that did not fail. *)
Definition good (o : obs userE) : Prop :=
  match o with
  | Obs c a =>
      match c return uans c -> Prop with
      | Open _ _ => fun fd => fd <> -1
      | Pread _ _ _ => fun r => r.1 = 8
      | Perror _ => fun _ => False
      | _ => fun _ => True
      end a
  end.

(** [fine P p]: [p] returns and nothing failed, or calls [_exit(1)], or overflows
    a buffer, and this only if [P]. *)
Definition fine {A} (P : Prop) (p : uprog A) : Prop :=
  always p (fun t o => Forall good t /\ (exists a, o = Done a) \/
    o = Halted (ExitedNow 1) \/ o = Halted (Faulted BufferOverflow) /\ P).

Lemma fine_bind {A B} P (p : uprog A) (f : A -> uprog B) :
  fine P p -> (forall a, fine P (f a)) -> fine P (p ≫= f).
Proof.
  intros Hp Hf. apply always_bind. eapply always_mono; [|exact Hp].
  intros t o [[Ht [a ->]]|[->|[-> HP]]]; [|by right; left|by right; right].
  eapply always_mono; [|exact (Hf a)].
  intros t' o' [[Ht' Ho']|Ho']; [left|by right]. split; [by apply Forall_app|done].
Qed.

Lemma fine_writes {A} P (p : uprog A) ls a : writes p ls a -> fine P p.
Proof.
  apply always_mono. intros t o (-> & _ & Ht). left. split; [|by eexists].
  eapply Forall_impl; [exact Ht|]. intros [c r] [l Hl]. by destruct c.
Qed.

Lemma fine_read P path off : fine P (read_ulong_at_offset path off).
Proof.
  unfold read_ulong_at_offset. intros fd. cbn. destruct (fd =? -1) eqn:Hfd.
  - intros e err []. by right; left.
  - intros [n v]. cbn. destruct (n =? 8) eqn:Hn; cbn.
    + intros r. left. split; [|by eexists]. repeat constructor; simpl; lia.
    + destruct (n =? 0); intros []; by right; left.
Qed.

Lemma fine_dump_pagemap P pm vaddr : fine P (dump_pagemap pm vaddr).
Proof.
  apply fine_bind; [|intros []; apply fine_bind; [|intros []; apply fine_bind]].
  - case_match; [eapply fine_writes, writes_printf|].
    case_match; [eapply fine_writes, writes_printf|eapply fine_writes, writes_skip].
  - eapply fine_writes, writes_printf.
  - case_match; [eapply fine_writes, pm_flags_writes|]. intros []. by right; left.
  - intros []. eapply fine_writes, writes_fputs.
Qed.

Lemma fine_kpage P pfn hack spacing : fine P (dump_kpageflags_kpagecount pfn hack spacing).
Proof.
  apply fine_bind; [apply fine_read|]. intros kpf.
  apply fine_bind; [apply fine_read|]. intros count.
  eapply fine_writes, kpage_writes.
Qed.

Lemma fine_dump_page_info pid a hack :
  fine (exists p, pid = Some p /\ (114 <= String.length p)%nat) (dump_page_info pid a hack).
Proof.
  apply fine_bind; [eapply fine_writes, writes_printf|]. intros [].
  destruct pid as [pid|]; [|apply fine_kpage].
  apply fine_bind.
  { unfold read_pagemap. case_match eqn:Hlen; [right; right|apply fine_read].
    split; [done|]. exists pid. split; [done|]. apply Nat.leb_le in Hlen.
    rewrite !length_append in Hlen. cbn [String.length] in Hlen. lia. }
  intros pm. apply fine_bind; [apply fine_dump_pagemap|]. intros [].
  unfold when. case_match; [apply fine_kpage|eapply fine_writes, writes_skip].
Qed.

(** Splits on the condition the program tests next. *)
Ltac if_always :=
  match goal with |- always (if ?b then _ else _) _ => destruct b eqn:? end.

(** C15. Every execution ends in one of four ways: with status 0, when every file
    could be opened and every word read; with status 1 after writing only to
    [stderr], when the arguments are wrong, and then no file was touched; in
    [_exit(1)]; or by overflowing a buffer (see C21 and C22). *)
Theorem main_status argv :
  always (main argv) (fun t o =>
    (o = Done 0 /\ Forall good t) \/
    ((o = Done 1 \/ o = Halted (Exited 1)) /\
     Forall (fun c => is_Some (written_of Stderr c)) t) \/
    o = Halted (ExitedNow 1) \/ o = Halted (Faulted BufferOverflow)).
Proof.
  assert (forall name, always (A := Z) (usage_exit name) (fun t o =>
    o = Halted (Exited 1) /\ Forall (fun c => is_Some (written_of Stderr c)) t)) as Hu.
  { intros name [] [] []. split; [done|]. repeat constructor; by eexists. }
  assert (forall s, always (fputs s Stderr ;; mret 1) (fun t o =>
    o = Done 1 /\ Forall (fun c => is_Some (written_of Stderr c)) t)) as Hs.
  { intros s []. split; [done|]. repeat constructor; by eexists. }
  unfold main. cbn zeta.
  do 2 (if_always; [eapply always_mono; [|apply Hu]; naive_solver|]).
  do 2 (if_always; [eapply always_mono; [|apply Hs]; naive_solver|]).
  apply always_bind. eapply always_mono; [|apply fine_dump_page_info].
  intros t o [[Ht [a ->]]|[->|[-> _]]]; [|auto..]. left. by rewrite app_nil_r.
Qed.

(** ** The path buffer *)

(** A pid written with [k] leading zeros. *)
Fixpoint zeros (k : nat) (s : string) : string :=
  match k with
  | O => s
  | S k' => String "0"%char (zeros k' s)
  end.

Lemma scan_zeros k s : scan 10 0 (zeros k s) = scan 10 0 s.
Proof. induction k as [|k IH]; [done|exact IH]. Qed.

Lemma strtol_zeros k : strtol (zeros k "1") 10 = Converted 1 (Some EmptyString) false.
Proof.
  unfold strtol. assert (number 10 (zeros k "1") = Some (false, 1, EmptyString)) as ->; [|done].
  destruct k as [|k]; [done|]. cbn [zeros]. unfold number.
  change (skip_spaces (String "0"%char (zeros k "1"))) with (zeros (S k) "1").
  change (sign (zeros (S k) "1")) with (false, zeros (S k) "1").
  cbn iota beta.
  assert (base_prefix 10 (zeros (S k) "1") = (10, zeros (S k) "1")) as -> by done.
  assert (starts_digit 10 (zeros (S k) "1") = true) as -> by done.
  by rewrite (scan_zeros (S k)).
Qed.

Lemma length_zeros k s : String.length (zeros k s) = (k + String.length s)%nat.
Proof. induction k as [|k IH]; [done|]. cbn. by rewrite IH. Qed.

(** A pid padded with zeros passes the check. *)
Lemma pid_overflows_path name k a :
  (113 <= k)%nat -> in_u64 a ->
  always (main [name; zeros k "1"; address a]) (fun _ o => o = Halted (Faulted BufferOverflow)).
Proof.
  intros Hk Ha. destruct (address_accepted a Ha) as [Hn Hv].
  assert (invalid_pid (zeros k "1") = false) as Hp.
  { unfold invalid_pid. rewrite strtol_zeros. apply andb_false_r. }
  assert (main [name; zeros k "1"; address a] =
    (dump_page_info (Some (zeros k "1")) a false ;; mret 0)) as ->.
  { unfold main. cbn [length Nat.leb Nat.ltb Nat.sub Nat.eqb lookup list_lookup default
      from_option negb andb id].
    rewrite address_not_hack. cbn [andb negb Nat.eqb lookup list_lookup default
      from_option id Nat.sub].
    by rewrite Hp, Hn, Hv. }
  apply always_bind. intros []. unfold read_pagemap.
  assert ((128 <=? String.length ("/proc/" +:+ zeros k "1" +:+ "/pagemap"))%nat = true) as H.
  { rewrite !length_append, length_zeros. apply Nat.leb_le. cbn [String.length]. lia. }
  cbn [mbind]. unfold read_pagemap. rewrite H. done.
Qed.

(** Pids as they are meant, decimal numbers and [self], are shorter. *)
Lemma overflow_only_by_pid argv :
  always (main argv) (fun _ o => o = Halted (Faulted BufferOverflow) ->
    exists pid, argv !! 1%nat = Some pid /\ (114 <= String.length pid)%nat /\
      invalid_pid pid = false /\ ~ valid_pid pid).
Proof.
  assert (forall s, always (fputs s Stderr ;; mret 1)
    (fun _ o => o <> Halted (Faulted BufferOverflow))) as Hs by (by intros s []).
  assert (forall name, always (A := Z) (usage_exit name)
    (fun _ o => o <> Halted (Faulted BufferOverflow))) as Hu by (by intros name [] [] []).
  unfold main. cbn zeta.
  do 2 (if_always; [eapply always_mono; [|apply Hu]; done|]).
  do 2 (if_always; [eapply always_mono; [|apply Hs]; done|]).
  apply always_bind. eapply always_mono; [|apply fine_dump_page_info].
  intros t o [[_ [a ->]]|[->|[-> (pid & Hpid & Hlen)]]]; [done..|]. intros _.
  rewrite Hpid in *.
  assert (argv !! 1%nat = Some pid) as Harg.
  { case_match; [|done]. injection Hpid as <-.
    destruct (argv !! 1%nat); [done|]. cbn in Hlen. lia. }
  exists pid. split_and!; [done..|].
  intros Hv. apply valid_pid_short in Hv. lia.
Qed.

(** C16. [path] holds 128 bytes, and the check on the pid does not bound its
    length: a pid written with 113 or more leading zeros passes, and every
    execution overflows the buffer. Nothing else overflows: an execution ends that
    way only for a first argument of at least 114 characters that passes the
    check, which no decimal number and not [self] is. *)
Theorem path_overflow :
  (forall name k a, (113 <= k)%nat -> in_u64 a ->
    always (main [name; zeros k "1"; address a])
      (fun _ o => o = Halted (Faulted BufferOverflow))) /\
  (forall argv, always (main argv) (fun _ o => o = Halted (Faulted BufferOverflow) ->
    exists pid, argv !! 1%nat = Some pid /\ (114 <= String.length pid)%nat /\
      invalid_pid pid = false /\ ~ valid_pid pid)).
Proof. split; [apply pid_overflows_path|apply overflow_only_by_pid]. Qed.

(** ** Witnesses

A page at 0x1234000 with frame 5, dirty and locked, mapped once; frame 6 holds
page tables. *)
Definition demo_flags (off : Z) : option Z :=
  if off =? 40 then Some 17 else if off =? 48 then Some KPF_PGTABLE else None.

Definition demo_count (off : Z) : option Z :=
  if (off =? 40) || (off =? 48) then Some 1 else None.

Definition demo_file (path : string) : option (Z -> option Z) :=
  if String.eqb path "/proc/self/pagemap" then
    Some (fun off => if off =? 0x1234 * 8 then Some (2 ^ 63 + 2 ^ 55 + 5) else None)
  else if String.eqb path "/proc/kpageflags" then Some demo_flags
  else if String.eqb path "/proc/kpagecount" then Some demo_count
  else None.

Lemma pageinfo_virtual_witness :
  exists f g h,
  let p := main (["pageinfo"%string; "self"%string; address 0x1234567] ++ hack_arg true) in
  demo_file "/proc/self/pagemap"%string = Some f /\
  demo_file "/proc/kpageflags"%string = Some g /\
  demo_file "/proc/kpagecount"%string = Some h /\
  result_of demo_file p = Done 0 /\
  stdout_of demo_file p =
    header "V" 0x1234567 :: pagemap_report (2 ^ 63 + 2 ^ 55 + 5) 0x1234567 ++
      kpage_report 17 1 true true /\
  open_files demo_file p = ∅.
Proof.
  eexists _, _, _. cbn zeta. do 3 (split; [reflexivity|]).
  eapply (pageinfo_virtual demo_file _ _ _ "pageinfo" "self" 0x1234567 true
    (2 ^ 63 + 2 ^ 55 + 5) 17 1); try reflexivity; [by left|done|done].
Defined.

Lemma pageinfo_physical_witness :
  let p := main (["pageinfo"%string; address 0x5123] ++ hack_arg false) in
  result_of demo_file p = Done 0 /\
  stdout_of demo_file p = header "P" 0x5123 :: kpage_report 17 1 false false /\
  open_files demo_file p = ∅.
Proof. by eapply (pageinfo_physical demo_file _ _ "pageinfo" 0x5123 false 17 1). Defined.

