(* ===== verification/PageInfoText.v ===== *)
(** The report of pageinfo.c as the text that is on the terminal: its words, and the
flags that can be read back from them. *)
From Stdlib Require Import Ascii.
From S2P Require Import Prelude Effects CStrings Format Libc PageInfo PageInfoFacts PageInfoThms.

(** ** The words of a text *)

(** The word a text begins with, empty at a blank, and the words after it. *)
Fixpoint split_word (s : string) : string * list string :=
  match s with
  | EmptyString => (EmptyString, [])
  | String a s' =>
      let '(w, ws) := split_word s' in
      if is_space a then (EmptyString, if String.eqb w EmptyString then ws else w :: ws)
      else (String a w, ws)
  end.

Definition words (s : string) : list string :=
  let '(w, ws) := split_word s in if String.eqb w EmptyString then ws else w :: ws.

Definition starts_blank (s : string) : bool :=
  match s with
  | EmptyString => false
  | String a _ => is_space a
  end.

Fixpoint no_blank (s : string) : bool :=
  match s with
  | EmptyString => true
  | String a s' => negb (is_space a) && no_blank s'
  end.

Lemma split_app_blank s t : starts_blank t = true ->
  split_word (s +:+ t) = ((split_word s).1, (split_word s).2 ++ words t).
Proof.
  intros Ht. induction s as [|a s IH].
  - destruct t as [|a t]; [done|]. change (is_space a = true) in Ht. unfold words.
    change (EmptyString +:+ String a t) with (String a t). cbn [split_word].
    destruct (split_word t) as [w ws]. by rewrite Ht.
  - change (String a s +:+ t) with (String a (s +:+ t)). cbn [split_word]. rewrite IH.
    destruct (split_word s) as [w ws]. cbn [fst snd].
    destruct (is_space a), (String.eqb w EmptyString); done.
Qed.

Lemma words_app_blank s t : starts_blank t = true -> words (s +:+ t) = words s ++ words t.
Proof.
  intros Ht. unfold words at 1 2. rewrite split_app_blank by done.
  destruct (split_word s) as [w ws]. cbn [fst snd].
  by destruct (String.eqb w EmptyString).
Qed.

Lemma words_skip a s : is_space a = true -> words (String a s) = words s.
Proof.
  intros Ha. unfold words. cbn [split_word]. destruct (split_word s) as [w ws]. rewrite Ha. done.
Qed.

(** A line ends the word before it. *)
Definition ends_line (s : string) : Prop := exists s', s = s' +:+ nl.

Lemma ends_line_nl : ends_line nl.
Proof. by exists EmptyString. Qed.

Lemma ends_line_app s t : ends_line t -> ends_line (s +:+ t).
Proof. intros [t' ->]. exists (s +:+ t'). by rewrite append_assoc. Qed.

Lemma ends_line_cons a t : ends_line t -> ends_line (String a t).
Proof. intros [t' ->]. by exists (String a t'). Qed.

Lemma words_app_line s t : ends_line s -> words (s +:+ t) = words s ++ words t.
Proof.
  intros [s' ->]. rewrite append_assoc, words_app_blank, (words_app_blank s' nl) by done.
  change (nl +:+ t) with (String "010" t). rewrite words_skip by done.
  change (words nl) with (@nil string). by rewrite app_nil_r.
Qed.

Lemma split_no_blank s t : no_blank s = true ->
  split_word (s +:+ t) = (s +:+ (split_word t).1, (split_word t).2).
Proof.
  induction s as [|a s IH].
  { intros _. change (split_word t = ((split_word t).1, (split_word t).2)). by destruct (split_word t). }
  cbn [no_blank]. intros [Ha%negb_true_iff Hs]%andb_true_iff.
  change (String a s +:+ t) with (String a (s +:+ t)). cbn [split_word].
  rewrite IH, Ha by done. done.
Qed.

Lemma no_blank_app s t : no_blank (s +:+ t) = no_blank s && no_blank t.
Proof.
  induction s as [|a s IH]; [done|]. change (String a s +:+ t) with (String a (s +:+ t)).
  cbn [no_blank]. by rewrite IH, andb_assoc.
Qed.

Lemma no_blank_digits f base n acc : 2 <= base <= 16 ->
  no_blank (digits f base n acc) = no_blank acc.
Proof.
  intros Hb. revert n acc. induction f as [|f IH]; intros n acc; [done|]. cbn [digits].
  pose proof (Z.mod_pos_bound n base ltac:(lia)).
  pose proof (digit_char_in_word (n mod base) ltac:(lia)) as [Hs _]%orb_false_iff.
  case_match; [|rewrite IH]; cbn [no_blank]; by rewrite Hs.
Qed.

Lemma no_blank_zeros k : no_blank (repeat_char "0" k) = true.
Proof. unfold repeat_char. by induction (Z.to_nat k). Qed.

(** ** Names among the words *)

Definition upper (a : ascii) : bool := (65 <=? code a) && (code a <=? 90).

(** Capital letters, digits and underscores, a letter first. *)
Definition is_name (w : string) : bool :=
  match w with
  | EmptyString => false
  | String a w' => upper a &&
      forallb (fun b => upper b || bool_decide (is_Some (digit 10 b)) || Ascii.eqb b "_")
        (String.list_ascii_of_string w')
  end.

Definition names (s : string) : list string := filter (fun w => is_name w = true) (words s).

(** A word that begins with another character is no name. *)
Lemma names_skip_word c s t :
  upper c = false -> is_space c = false -> no_blank s = true -> starts_blank t = true ->
  names (String c s +:+ t) = names t.
Proof.
  intros Hu Hc Hs Ht. unfold names. rewrite words_app_blank, filter_app by done.
  assert (words (String c s) = [String c s]) as ->.
  { unfold words. rewrite <- (append_nil (String c s)), split_no_blank; [done|].
    cbn [no_blank]. by rewrite Hc, Hs. }
  rewrite filter_cons_False; [done|]. cbn [is_name]. by rewrite Hu.
Qed.

Lemma names_skip_blank a s : is_space a = true -> names (String a s) = names s.
Proof. intros Ha. unfold names. by rewrite words_skip. Qed.

Lemma names_app_blank s t : starts_blank t = true -> names (s +:+ t) = names s ++ names t.
Proof. intros Ht. unfold names. by rewrite words_app_blank, filter_app. Qed.

Lemma names_label s t : names s = [] -> starts_blank t = true -> names (s +:+ t) = names t.
Proof. intros Hs Ht. by rewrite names_app_blank, Hs. Qed.

Lemma names_app_line s t : ends_line s -> names (s +:+ t) = names s ++ names t.
Proof. intros Hs. unfold names. by rewrite words_app_line, filter_app. Qed.

(** Texts one after the other, the ones after the first beginning with a blank. *)
Lemma names_join s l : forallb starts_blank l = true ->
  names (s +:+ foldr String.append EmptyString l) = names s ++ concat (names <$> l).
Proof.
  revert s. induction l as [|t l IH]; intros s; cbn [forallb foldr fmap list_fmap concat].
  { intros _. by rewrite append_nil, app_nil_r. }
  intros [Ht Hl]%andb_true_iff. rewrite names_app_blank, IH by (done || by destruct t). done.
Qed.

Lemma concat_texts_all l : concat_texts (Some <$> l) = Some (foldr String.append EmptyString l).
Proof. induction l as [|s l IH]; [done|]. cbn [fmap list_fmap concat_texts]. by rewrite IH. Qed.

(** ** The lines without names *)

Lemma names_header a : in_u64 a ->
  exists s, piece_text (header "P" a) = Some s /\ names s = [] /\ ends_line s.
Proof.
  intros Ha. assert (in_u64 (a / 4096 * 4096)) as Hp.
  { unfold in_u64 in *. pose proof (Z.div_mod a 4096). pose proof (Z.mod_pos_bound a 4096).
    pose proof (Z.div_pos a 4096). lia. }
  unfold header. set (p := a / 4096 * 4096) in *. clearbody p.
  exists ("Paddr:" +:+ String " " (String "0" (String "x" (hex a) +:+ ",") +:+ String " " ("page:" +:+
    String " " (String "0" (String "x" (hex p)) +:+ nl)))). split_and!.
  - cbn [piece_text]. unfold render.
    match goal with |- context [items None ?f] =>
      let i := eval vm_compute in (items None f) in change (items None f) with i end.
    cbn [fill]. rewrite (show_lx a), (show_lx p) by done.
    change (String "0" (String "x" (hex a) +:+ ",")) with ("0x" +:+ (hex a +:+ ",")).
    rewrite !append_assoc. done.
  - assert (forall n, no_blank (String "x" (hex n)) = true) as Hb.
    { intros n. change (no_blank (hex n) = true). unfold hex. by rewrite no_blank_digits by lia. }
    rewrite names_label, names_skip_blank, names_skip_word by (done || by rewrite no_blank_app, Hb).
    rewrite names_skip_blank, names_label, names_skip_blank by done.
    by rewrite names_skip_word.
  - auto 20 using ends_line_app, ends_line_cons, ends_line_nl.
Qed.

Lemma names_kpageflags v : in_u64 v ->
  exists s, piece_text (Fmt "/proc/kpageflags%s: 0x%016lx =" [AS EmptyString; AL v]) = Some s /\
    names s = [].
Proof.
  intros Hv. set (k := 16 - Z.of_nat (String.length (EmptyString +:+ hex v))).
  exists ("/proc/kpageflags:" +:+ String " " (String "0" (String "x" (repeat_char "0" k +:+ hex v)) +:+ " =")).
  split.
  - cbn [piece_text]. unfold render.
    match goal with |- context [items None ?f] =>
      let i := eval vm_compute in (items None f) in change (items None f) with i end.
    cbn [fill]. rewrite show_s.
    assert (show (Directive false true 16 None true) Cx (AL v) = Some (repeat_char "0" k +:+ hex v)) as ->.
    { cbn [show show_int long]. rewrite u64_id, numeral_hex by done. done. }
    done.
  - assert (no_blank (String "x" (repeat_char "0" k +:+ hex v)) = true).
    { change (no_blank (repeat_char "0" k +:+ hex v) = true). rewrite no_blank_app, no_blank_zeros.
      unfold hex. by rewrite no_blank_digits by lia. }
    rewrite names_label, names_skip_blank by done. by rewrite names_skip_word.
Qed.

Lemma names_kpagecount v : - 2 ^ 63 <= v < 2 ^ 63 ->
  exists s, piece_text (Fmt (nl +:+ "/proc/kpagecount%s: %ld" +:+ nl) [AS EmptyString; AL v]) = Some s /\
    names s = [] /\ starts_blank s = true.
Proof.
  intros Hv. assert (in_u64 (Z.abs v)) as Ha by (unfold in_u64; lia).
  exists (String "010" ("/proc/kpagecount:" +:+ String " " (
    ((if v <? 0 then "-"%string else EmptyString) +:+ dec (Z.abs v)) +:+ nl))).
  split_and!; [| |done].
  - cbn [piece_text]. unfold render.
    match goal with |- context [items None ?f] =>
      let i := eval vm_compute in (items None f) in change (items None f) with i end.
    cbn [fill]. rewrite show_s. cbn [show show_int long].
    rewrite pad_number_plain, s64_id, numeral_dec by (done || lia). done.
  - assert (no_blank (dec (Z.abs v)) = true) as Hd by (unfold dec; by rewrite no_blank_digits by lia).
    rewrite names_skip_blank, names_label, names_skip_blank by done. case_match.
    + change ("-" +:+ dec (Z.abs v)) with (String "-" (dec (Z.abs v))).
      by rewrite names_skip_word.
    + change (EmptyString +:+ dec (Z.abs v)) with (dec (Z.abs v)). unfold dec in *.
      destruct (digits_head 64 10 (Z.abs v) EmptyString ltac:(lia) ltac:(lia) ltac:(lia))
        as (d & s & Hs & Hr). rewrite Hs in *.
      cbn [no_blank] in Hd. apply andb_true_iff in Hd as [Hc%negb_true_iff Hd].
      rewrite names_skip_word; [done| |done..].
      unfold upper. rewrite code_digit_char by lia. case_match; lia.
Qed.

(** ** The flags in a report *)

Definition flag_texts : list string := kpf_table.*2 ++ hack_table.*2.

Definition known_texts : list string :=
  flag_texts ++ [" no known flags set"; " | hack:"; " hack:"]%string.

(** Each text shows one name, its own, or none. *)
Lemma known_names : Forall (fun s => starts_blank s = true /\
  (fun n => " " +:+ n) <$> names s = if decide (s ∈ flag_texts) then [s] else []) known_texts.
Proof. apply (bool_decide_unpack _). vm_compute. exact I. Qed.

Abbreviation known l := (Forall (fun s => s ∈ known_texts) l).

Lemma flag_names_texts tbl v : (forall s, s ∈ tbl.*2 -> s ∈ known_texts) ->
  exists l, flag_names tbl v = Text <$> l /\ known l.
Proof.
  induction tbl as [|[b n] tbl IH]; intros Htbl; [by exists []|].
  cbn [fmap list_fmap snd] in Htbl. destruct IH as (l & IH & Hl).
  { intros s Hs. apply Htbl. by right. }
  cbn [flag_names]. rewrite IH. case_match; [|by exists l].
  exists (n :: l). split; [done|]. constructor; [|done]. apply Htbl. by left.
Qed.

Lemma kpage_report_texts kpf count hack :
  exists l, kpage_report kpf count hack false =
    Fmt "/proc/kpageflags%s: 0x%016lx =" [AS EmptyString; AL kpf] :: (Text <$> l) ++
    [Fmt (nl +:+ "/proc/kpagecount%s: %ld" +:+ nl) [AS EmptyString; AL (s64 count)]] /\
    known l.
Proof.
  assert (forall s, s ∈ kpf_table.*2 -> s ∈ known_texts) as Hk
    by (intros s Hs; apply elem_of_app; left; apply elem_of_app; by left).
  assert (forall s, s ∈ hack_table.*2 -> s ∈ known_texts) as Hh
    by (intros s Hs; apply elem_of_app; left; apply elem_of_app; by right).
  assert (known [" no known flags set"; " | hack:"; " hack:"]%string) as Ho
    by (apply (bool_decide_unpack _); vm_compute; exact I).
  apply Forall_cons in Ho as [H1 [H2 [H3 _]%Forall_cons]%Forall_cons].
  destruct (flag_names_texts kpf_table kpf Hk) as (l1 & Hn1 & Hl1).
  destruct (flag_names_texts hack_table kpf Hh) as (l2 & Hn2 & Hl2).
  unfold kpage_report. rewrite Hn1, Hn2.
  generalize (any_flag kpf_table kpf || Z.testbit kpf 26) (hack && any_flag hack_table kpf).
  intros documented hacks.
  exists (if documented || hacks then
      l1 ++ (if hacks then (if documented then " | hack:" else " hack:")%string :: l2 else [])
    else [" no known flags set"%string]).
  split.
  - cbn [app]. f_equal. f_equal. destruct documented, hacks; cbn [orb]; by rewrite ?fmap_app.
  - destruct documented, hacks; cbn [orb]; rewrite ?Forall_app; auto.
Qed.

(** The pieces that show the names in a text. *)
Definition shown (text : string) : list piece := (fun n => Text (" " +:+ n)) <$> names text.

Lemma texts_blank l s : known l -> starts_blank s = true ->
  forallb starts_blank (l ++ [s]) = true.
Proof.
  intros Hl Hs. rewrite forallb_app. cbn [forallb]. rewrite Hs, andb_true_r.
  induction Hl as [|t l Ht _ IH]; [done|]. cbn [forallb]. rewrite IH, andb_true_r.
  by apply (proj1 (Forall_forall _ _) known_names t Ht).
Qed.

Lemma shown_known text l n :
  names text = concat (names <$> l) -> known l -> n ∈ flag_texts ->
  Text n ∈ shown text <-> n ∈ l.
Proof.
  intros Ht Hl Hn. unfold shown. rewrite Ht. clear Ht.
  induction Hl as [|s l Hs _ IH]; [by split; intros ?%not_elem_of_nil|].
  cbn [fmap list_fmap concat]. rewrite fmap_app, elem_of_app, IH, elem_of_cons.
  destruct (proj1 (Forall_forall _ _) known_names s Hs) as [_ Hshow].
  assert (Text n ∈ (fun n => Text (" " +:+ n)) <$> names s <->
    n ∈ (fun n => " " +:+ n) <$> names s) as ->.
  { rewrite !list_elem_of_fmap. naive_solver. }
  rewrite Hshow. case_decide as Hin; [by rewrite list_elem_of_singleton|].
  rewrite elem_of_nil. split; [by intros [[]|]; auto|]. intros [->|]; [done|auto].
Qed.

Lemma report_text a kpf count hack : in_u64 a -> in_u64 kpf ->
  exists text, concat_texts (piece_text <$> header "P" a :: kpage_report kpf count hack false) = Some text /\
    forall n, n ∈ flag_texts ->
      Text n ∈ shown text <-> Text n ∈ kpage_report kpf count hack false.
Proof.
  intros Ha Hkpf. destruct (kpage_report_texts kpf count hack) as (l & -> & Hl).
  destruct (names_header a Ha) as (s1 & H1 & Hn1 & He).
  destruct (names_kpageflags kpf Hkpf) as (s2 & H2 & Hn2).
  destruct (names_kpagecount (s64 count)) as (s3 & H3 & Hn3 & Hb3).
  { unfold s64, swrap. pose proof (Z.mod_pos_bound count (2 ^ 64)). case_match; lia. }
  exists (foldr String.append EmptyString (s1 :: s2 :: l ++ [s3])). split.
  - rewrite <- concat_texts_all. f_equal. cbn [fmap list_fmap]. rewrite H1, H2, !fmap_app.
    cbn [fmap list_fmap]. rewrite H3, <- list_fmap_compose. done.
  - assert (names (foldr String.append EmptyString (s1 :: s2 :: l ++ [s3])) =
      concat (names <$> l)) as Ht.
    { cbn [foldr]. rewrite names_app_line, Hn1, names_join, Hn2 by (done || by apply texts_blank).
      rewrite fmap_app, concat_app. cbn. by rewrite Hn3, app_nil_r. }
    intros n Hn. rewrite (shown_known _ l n Ht Hl Hn).
    rewrite elem_of_cons, elem_of_app, list_elem_of_singleton, list_elem_of_fmap. naive_solver.
Qed.

Lemma decode_ext tbl out out' :
  (forall e, e ∈ tbl -> Text e.2 ∈ out <-> Text e.2 ∈ out') -> decode tbl out = decode tbl out'.
Proof.
  induction tbl as [|e tbl IH]; intros H; [done|]. unfold decode. cbn [foldr]. f_equal.
  - pose proof (H e ltac:(by left)). do 2 case_decide; tauto.
  - apply IH. intros e' He'. apply H. by right.
Qed.

(** What is on the terminal when a program has run on a proc file system. *)
Definition terminal {A} (file : string -> option (Z -> option Z)) (p : uprog A) : option string :=
  output_text Stdout (events (exec (procfs file) initial p).1).

(** C14. The flags of a frame can be read back from the text on the terminal: the
    words of the text that are names (capital letters, digits and underscores)
    stand for exactly the documented flags that are set, except PGTABLE, and with
    the second argument for the undocumented ones, so no other flag is lost,
    invented or mislabelled. A frame whose only flag is PGTABLE is reported with no
    name at all, and without the line that says so. *)
Theorem kpage_flags_roundtrip file g h name a hack kpf count :
  in_u64 a -> in_u64 kpf ->
  file "/proc/kpageflags"%string = Some g -> file "/proc/kpagecount"%string = Some h ->
  g (a / 4096 * 8) = Some kpf -> h (a / 4096 * 8) = Some count ->
  let p := main ([name; address a] ++ hack_arg hack) in
  exists text, terminal file p = Some text /\
    decode kpf_table (shown text) = Z.land kpf (KPF_FLAGS - KPF_PGTABLE) /\
    decode hack_table (shown text) = (if hack then Z.land kpf KPF_HACK_FLAGS else 0) /\
    (kpf = KPF_PGTABLE -> hack = false -> stdout_of file p =
      [header "P" a; Fmt "/proc/kpageflags%s: 0x%016lx =" [AS EmptyString; AL KPF_PGTABLE];
       Fmt (nl +:+ "/proc/kpagecount%s: %ld" +:+ nl) [AS EmptyString; AL (s64 count)]]).
Proof.
  intros Ha Hkpf64 Hg Hh Hkpf Hcount. cbn zeta.
  destruct (report_text a kpf count hack Ha Hkpf64) as (text & Htext & Hshown).
  pose proof (kpage_flags_decode file g h name a hack kpf count Ha Hg Hh Hkpf Hcount) as [Hd1 Hd2].
  destruct (pageinfo_physical file g h name a hack kpf count Ha Hg Hh Hkpf Hcount) as (_ & Hout & _).
  rewrite Hout in Hd1, Hd2.
  assert (forall tbl, (forall s, s ∈ tbl.*2 -> s ∈ flag_texts) -> decode tbl (shown text) =
    decode tbl (header "P" a :: kpage_report kpf count hack false)) as Hdec.
  { intros tbl Htbl. apply decode_ext. intros e He.
    rewrite (Hshown e.2) by (apply Htbl, list_elem_of_fmap; by exists e).
    rewrite elem_of_cons. naive_solver. }
  exists text. rewrite !Hdec by (intros s Hs; apply elem_of_app; auto). split_and!; [|done|done|].
  - unfold terminal, output_text. by rewrite <- Htext, <- Hout.
  - intros -> ->. cbn [hack_arg]. rewrite app_nil_r. by apply (kpf_pgtable_unreported file g h).
Qed.

Lemma kpage_flags_roundtrip_witness :
  (exists text, terminal demo_file (main (["pageinfo"%string; address 0x5123] ++ hack_arg true)) = Some text /\
    decode kpf_table (shown text) = Z.land 17 (KPF_FLAGS - KPF_PGTABLE) /\
    decode hack_table (shown text) = Z.land 17 KPF_HACK_FLAGS) /\
  stdout_of demo_file (main (["pageinfo"%string; address 0x6000] ++ hack_arg false)) =
    [header "P" 0x6000; Fmt "/proc/kpageflags%s: 0x%016lx =" [AS EmptyString; AL KPF_PGTABLE];
     Fmt (nl +:+ "/proc/kpagecount%s: %ld" +:+ nl) [AS EmptyString; AL (s64 1)]].
Proof.
  split.
  - destruct (kpage_flags_roundtrip demo_file demo_flags demo_count "pageinfo" 0x5123 true 17 1)
      as (text & Ht & Hk & Hh & _); [done..|]. by exists text.
  - destruct (kpage_flags_roundtrip demo_file demo_flags demo_count "pageinfo" 0x6000 false KPF_PGTABLE 1)
      as (_ & _ & _ & _ & H); [done..|]. by apply H.
Defined.

(** What the words are. *)
Example demo_words :
  words <$> terminal demo_file (main ["pageinfo"; "0x5123"]%string) =
  Some ["Paddr:"; "0x5123,"; "page:"; "0x5000"; "/proc/kpageflags:"; "0x0000000000000011"; "=";
    "LOCKED"; "DIRTY"; "/proc/kpagecount:"; "1"]%string.
Proof. vm_compute. reflexivity. Qed.
