(* ===== verification/CharDev.v ===== *)
(** src/modules/test_chardev.c: a character device that spits out the same
string over and over. *)
From Stdlib Require Import Ascii.
From S2P Require Import Prelude Effects Kernel.

(** The static variables of the module. [mebeim_mode] and [mebeim_content] are
    the module parameters [mode] and [content]. *)
Record vars := Vars {
  devno : Z;
  cdevice : Z;
  mebeim_class : Z;
  mebeim_device : Z;
  mebeim_mode : Z;
  mebeim_content : string;
  mebeim_content_length : Z;
}.

(** Before [mychardev_init]. *)
Definition loaded (mode : Z) (content : string) : vars := Vars 0 0 0 0 mode content 6.

(** [PTR_ERR], as an [int]. *)
Definition PTR_ERR (p : Z) : Z := s32 p.

Arguments PTR_ERR : simpl never.

(** [s[i]], the terminator included; reading past it is out of bounds. *)
Definition char_at (s : string) (i : Z) : option Z :=
  if i =? Z.of_nat (String.length s) then Some 0
  else (fun c => Z.of_nat (nat_of_ascii c)) <$> String.get (Z.to_nat i) s.

(** One iteration of the loop of [read_mebeim]. [o] and [i] are [size_t]. *)
Definition read_step (v : vars) (o buf i : Z) : kprog unit :=
  if mebeim_content_length v =? 0 then Halt (Faulted DivByZero) else
  match char_at (mebeim_content v) (u64 (i + o) mod mebeim_content_length v) with
  | Some c => kdo (PutUser c (buf + i)) ;; skip
  | None => Halt (Faulted BadAccess)
  end.

(** The result, and the new [*off]. *)
Definition read_mebeim (v : vars) (buf n off : Z) : kprog (Z * Z) :=
  let o := u64 off in
  for_each (seqZ 0 n) (read_step v o buf) ;;
  mret (s64 n, s64 (off + n)).

Definition write_mebeim (buf n off : Z) : kprog Z := mret (s64 n).

(** [*mode] for a non-NULL [mode], and the name of the node (NULL). *)
Definition mebeim_devnode (v : vars) (mode : bool) : option Z * Z :=
  (if mode then Some (wrap 16 (mebeim_mode v)) else None, 0).

(** A store through a pointer. *)
Definition deref {A} (p : Z) (k : kprog A) : kprog A :=
  if p =? 0 then Halt (Faulted NullDeref) else k.

(** The labels [fail_cdev_add] and [fail_device_create], [fail_cdev_alloc],
    [fail_class_create] and [fail_chrdev_alloc], each falling into the next. *)
Definition fail_chrdev_alloc (v : vars) (res : Z) : kprog (Z * vars) := mret (res, v).

Definition fail_class_create (v : vars) (res : Z) : kprog (Z * vars) :=
  kdo (UnregisterChrdevRegion (devno v) 1) ;;
  fail_chrdev_alloc v res.

Definition fail_cdev_alloc (v : vars) (res : Z) : kprog (Z * vars) :=
  kdo (ClassDestroy (mebeim_class v)) ;;
  fail_class_create v res.

Definition fail_cdev_add (v : vars) (res : Z) : kprog (Z * vars) :=
  kdo (CdevDel (cdevice v)) ;;
  fail_cdev_alloc v res.

(** The result, and the static variables after. *)
Definition mychardev_init (v : vars) : kprog (Z * vars) :=
  pr_debug ("init" +:+ nl) [] ;;
  let len := Z.of_nat (String.length (mebeim_content v)) in
  '(res, dev) ← kdo (AllocChrdevRegion 0 1 "mebeim") ;
  let v := Vars (if res =? 0 then dev else devno v) (cdevice v) (mebeim_class v)
             (mebeim_device v) (mebeim_mode v) (mebeim_content v) len in
  if negb (res =? 0) then
    pr_err ("error getting dev major (%d)" +:+ nl) [AZ res] ;;
    fail_chrdev_alloc v res
  else
  pr_debug ("got dev 0x%08x major %d minor %d" +:+ nl)
    [AZ (devno v); AZ (MAJOR (devno v)); AZ (MINOR (devno v))] ;;
  class ← kdo (ClassCreate "mebeim") ;
  let v := Vars (devno v) (cdevice v) class (mebeim_device v) (mebeim_mode v)
             (mebeim_content v) len in
  if is_err class then
    pr_err ("error creating device class (%d)" +:+ nl) [AZ (PTR_ERR class)] ;;
    fail_class_create v (PTR_ERR class)
  else deref class (
  kdo (SetClassDevnode class) ;;
  cdev ← kdo CdevAlloc ;
  let v := Vars (devno v) cdev (mebeim_class v) (mebeim_device v) (mebeim_mode v)
             (mebeim_content v) len in
  if is_err cdev then
    pr_err ("error allocating cdev (%d)" +:+ nl) [AZ (PTR_ERR cdev)] ;;
    fail_cdev_alloc v (PTR_ERR cdev)
  else deref cdev (
  kdo (CdevInit cdev) ;;
  kdo (SetCdevOwner cdev) ;;
  res ← kdo (CdevAdd cdev (devno v) 1) ;
  if negb (res =? 0) then
    pr_err ("error adding cdev (%d)" +:+ nl) [AZ res] ;;
    fail_cdev_add v res
  else
  pr_debug ("cdev added" +:+ nl) [] ;;
  device ← kdo (DeviceCreate (mebeim_class v) (devno v) "mebeim") ;
  let v := Vars (devno v) (cdevice v) (mebeim_class v) device (mebeim_mode v)
             (mebeim_content v) len in
  if is_err device then
    pr_err ("error creating device (%d)" +:+ nl) [AZ (PTR_ERR device)] ;;
    fail_cdev_add v (PTR_ERR device)
  else
  pr_debug ("device created" +:+ nl) [] ;;
  pr_debug ("init done" +:+ nl) [] ;;
  mret (0, v))).

Definition mychardev_cleanup (v : vars) : kprog unit :=
  pr_debug ("cleanup" +:+ nl) [] ;;
  kdo (DeviceDestroy (mebeim_class v) (devno v)) ;;
  kdo (CdevDel (cdevice v)) ;;
  kdo (ClassDestroy (mebeim_class v)) ;;
  kdo (UnregisterChrdevRegion (devno v) 1) ;;
  pr_debug ("cleanup done" +:+ nl) [].
