(* ===== verification/CharDevThms.v ===== *)
(** Properties of test_chardev.c: what a read delivers, the resources taken
and given back by initialisation and cleanup, and the memory that is not. *)
From Stdlib Require Import Ascii.
From S2P Require Import Prelude Effects Kernel CharDev.

(** ** Reading *)

(** The endless repetition of the content. *)
Definition stream (content : string) (k : Z) : Z :=
  match char_at content (k mod Z.of_nat (String.length content)) with
  | Some c => c
  | None => 0
  end.

(** The bytes put into user memory, with their addresses. *)
Definition put_of (o : obs kernelE) : option (Z * Z) :=
  match obs_call o with
  | PutUser v p => Some (p, v)
  | _ => None
  end.

Definition puts (t : trace kernelE) : list (Z * Z) := omap put_of t.

(** The state after initialisation. *)
Definition ready (v : vars) : Prop :=
  mebeim_content_length v = Z.of_nat (String.length (mebeim_content v)) /\
  mebeim_content_length v <> 0.

Lemma get_some i s : (i < String.length s)%nat -> is_Some (String.get i s).
Proof.
  revert i. induction s as [|a s IH]; intros i Hi; simpl in *; [lia|].
  destruct i as [|i]; [by eexists|]. apply IH. lia.
Qed.

Lemma char_at_some s i : 0 <= i < Z.of_nat (String.length s) -> is_Some (char_at s i).
Proof.
  intros Hi. unfold char_at. rewrite (proj2 (Z.eqb_neq _ _)) by lia.
  destruct (get_some (Z.to_nat i) s) as [c ->]; [lia|]. by eexists.
Qed.

Lemma read_step_puts v o buf i :
  ready v -> 0 <= o -> 0 <= i -> i + o < 2 ^ 64 ->
  always (read_step v o buf i) (fun t r => r = Done tt /\
    puts t = [(buf + i, stream (mebeim_content v) (i + o))]).
Proof.
  intros [Hlen Hne] Ho Hi Hio. unfold read_step.
  rewrite (proj2 (Z.eqb_neq _ _)) by done. rewrite u64_id by (unfold in_u64; lia).
  unfold stream. rewrite <- Hlen.
  destruct (char_at_some (mebeim_content v) ((i + o) mod mebeim_content_length v)) as [c ->].
  - rewrite <- Hlen. apply Z.mod_pos_bound. lia.
  - by intros r.
Qed.

Lemma puts_app t t' : puts (t ++ t') = puts t ++ puts t'.
Proof. apply omap_app. Qed.

(** What a read of [n] bytes at offset [off] puts at [buf]. *)
Definition delivery (content : string) (buf n off : Z) : list (Z * Z) :=
  (fun i => (buf + i, stream content (off + i))) <$> seqZ 0 n.

Lemma for_each_puts (l : list Z) (body : Z -> kprog unit) (f : Z -> Z * Z) :
  (forall i, i ∈ l -> always (body i) (fun t r => r = Done tt /\ puts t = [f i])) ->
  always (for_each l body) (fun t r => r = Done tt /\ puts t = f <$> l).
Proof.
  induction l as [|i l IH]; intros Hb; [done|]. cbn [for_each].
  apply always_bind. eapply always_mono; [|apply Hb, elem_of_cons; by left].
  intros t r [-> Ht]. eapply always_mono; [|apply IH].
  - intros t' r' [-> Ht']. by rewrite puts_app, Ht, Ht'.
  - intros j Hj. apply Hb, elem_of_cons. by right.
Qed.

Lemma read_puts v buf n off :
  ready v -> 0 <= n -> 0 <= off -> off + n < 2 ^ 63 ->
  always (read_mebeim v buf n off) (fun t r => r = Done (n, off + n) /\
    puts t = delivery (mebeim_content v) buf n off).
Proof.
  intros Hv Hn Hoff Hmax. unfold read_mebeim. cbn zeta. apply always_bind.
  rewrite u64_id by (unfold in_u64; lia).
  eapply always_mono; [|apply (for_each_puts _ _
    (fun i => (buf + i, stream (mebeim_content v) (off + i))))].
  - intros t r [-> Ht]. cbn. rewrite app_nil_r. split; [|done].
    by rewrite !s64_id by lia.
  - intros i Hi%elem_of_seqZ. rewrite (Z.add_comm off i).
    apply read_step_puts; [done|lia..].
Qed.

(** Reading in pieces makes no difference: two consecutive reads deliver
    what one read of the total length does. *)
Lemma read_mebeim_split v buf n1 n2 off :
  ready v -> 0 <= n1 -> 0 <= n2 -> 0 <= off -> off + n1 + n2 < 2 ^ 63 ->
  always (r ← read_mebeim v buf n1 off ; read_mebeim v (buf + n1) n2 r.2)
    (fun t r => always (read_mebeim v buf (n1 + n2) off) (fun t' r' =>
       puts t = puts t' /\ exists k off', r = Done (k, off') /\ r' = Done (n1 + n2, off'))).
Proof.
  intros Hv H1 H2 Hoff Hmax. apply always_bind.
  eapply always_mono; [|by apply read_puts; [..|lia]].
  intros t1 r [-> Ht1]. cbn [snd]. eapply always_mono; [|apply read_puts; [done|lia..]].
  intros t2 r [-> Ht2]. eapply always_mono; [|apply read_puts; [done|lia..]].
  intros t r [-> Ht]. split.
  - rewrite puts_app, Ht1, Ht2, Ht. unfold delivery.
    rewrite seqZ_app, fmap_app, Z.add_0_l by lia. f_equal.
    replace (seqZ n1 n2) with ((fun i => n1 + i) <$> seqZ 0 n2)
      by (rewrite fmap_add_seqZ; f_equal; lia).
    rewrite <- list_fmap_compose. apply list_fmap_ext. intros j i _. simpl.
    f_equal; [lia|]. f_equal. lia.
  - eexists _, _. split; [done|]. do 2 f_equal. lia.
Qed.

(** ** Initialisation and cleanup *)

(** What the module holds while it is loaded. *)
Definition owned (v : vars) (r : resource) : Z :=
  match r with
  | RChrdev dev | RDevice dev => if decide (dev = devno v) then 1 else 0
  | RClass c => if decide (c = mebeim_class v) then 1 else 0
  | RCdev c => if decide (c = cdevice v) then 1 else 0
  | _ => 0
  end.

(** [class_create], or [cdev_alloc], answered NULL. *)
Definition class_null (o : obs kernelE) : bool :=
  match o with
  | Obs c a =>
      match c return kans c -> bool with
      | ClassCreate _ => fun p => p =? 0
      | _ => fun _ => false
      end a
  end.

Definition cdev_null (o : obs kernelE) : bool :=
  match o with
  | Obs c a =>
      match c return kans c -> bool with
      | CdevAlloc => fun p => p =? 0
      | _ => fun _ => false
      end a
  end.

Definition init_spec (v : vars) (t : trace kernelE) (o : outcome (Z * vars)) : Prop :=
  match o with
  | Done (res, v') =>
      mebeim_content v' = mebeim_content v /\ existsb cdev_null t = false /\
      mebeim_content_length v' = Z.of_nat (String.length (mebeim_content v)) /\
      (res = 0 -> forall r, counts delta r 0 t (owned v' r)) /\
      (res <> 0 -> forall r, balanced r t)
  | Halted x => x = Faulted NullDeref /\ existsb class_null t || existsb cdev_null t = true
  end.

Lemma PTR_ERR_nonzero p : is_err p = true -> PTR_ERR p <> 0.
Proof.
  unfold is_err, PTR_ERR, s32, swrap. intros [H1 H2]%andb_prop.
  apply Z.leb_le in H1. apply Z.ltb_lt in H2.
  rewrite <- (Z.mod_unique p (2 ^ 32) (2 ^ 32 - 1) (p - 2 ^ 64 + 2 ^ 32)) by lia.
  case_match; lia.
Qed.

(** Counts the references of an explicit trace, for an arbitrary resource. *)
Ltac count_tac :=
  intros r; unfold balanced, delta, owned;
  repeat (cbn [counts effect_of fst snd orb devno cdevice mebeim_class];
    repeat match goal with
    | H : ?b = true |- context [?b] => rewrite H
    | H : ?b = false |- context [?b] => rewrite H
    | |- context [_ || true] => rewrite orb_true_r
    end);
  destruct r; repeat (case_decide; simplify_eq); split_and!; try done; try lia.

Lemma is_err_nonzero p : is_err p = true -> (p =? 0) = false.
Proof. unfold is_err. lia. Qed.

Ltac init_tac :=
  split_and!; try done;
  try solve [cbn; repeat match goal with
    | H : (_ =? 0) = _ |- _ => rewrite H
    | H : is_err _ = true |- _ => apply is_err_nonzero in H
    end; done].

Lemma mychardev_init_always v : always (mychardev_init v) (init_spec v).
Proof.
  unfold mychardev_init, deref. intros []. cbn. intros [res dev]. cbn.
  destruct (res =? 0) eqn:Hres; cbn.
  2: { intros []. init_tac; [lia|]. intros _. count_tac. }
  intros [] class. cbn. destruct (is_err class) eqn:Hclass; cbn.
  { intros [] []. init_tac; [by intros ?%PTR_ERR_nonzero|].
    intros _. count_tac. }
  destruct (class =? 0) eqn:Hclass0; cbn.
  { split; [done|]. cbn. by rewrite Hclass0. }
  intros [] cdev. cbn. destruct (is_err cdev) eqn:Hcdev; cbn.
  { intros [] [] []. init_tac; [by intros ?%PTR_ERR_nonzero|].
    intros _. count_tac. }
  destruct (cdev =? 0) eqn:Hcdev0; cbn.
  { split; [done|]. cbn. by rewrite Hcdev0, orb_true_r. }
  intros [] [] add. cbn. destruct (add =? 0) eqn:Hadd; cbn.
  2: { intros [] [] [] []. init_tac; [lia|]. intros _. count_tac. }
  intros [] device. cbn. destruct (is_err device) eqn:Hdev; cbn.
  { intros [] [] [] []. init_tac; [by intros ?%PTR_ERR_nonzero|].
    intros _. count_tac. }
  intros [] []. init_tac. intros _. count_tac.
Qed.

(** The module is ready for reads once it is loaded with a content. *)
Lemma init_ready mode content :
  always (mychardev_init (loaded mode content)) (fun _ o => forall v, o = Done (0, v) ->
    mebeim_content v = content /\
    mebeim_content_length v = Z.of_nat (String.length content)).
Proof.
  eapply always_mono; [|apply mychardev_init_always].
  intros t o Ho v ->. destruct Ho as (Hc & _ & Hl & _).
  split; [exact Hc|exact Hl].
Qed.

(** Nothing to repeat. *)
Lemma read_mebeim_empty mode buf n off :
  0 < n ->
  always (mychardev_init (loaded mode EmptyString)) (fun _ o => forall v, o = Done (0, v) ->
    always (read_mebeim v buf n off) (fun _ r => r = Halted (Faulted DivByZero))).
Proof.
  intros Hn. eapply always_mono; [|apply init_ready].
  intros t o Hv v Ho. destruct (Hv v Ho) as [_ Hl].
  unfold read_mebeim. cbn zeta. rewrite seqZ_cons by lia.
  assert (read_step v (u64 off) buf 0 = Halt (Faulted DivByZero)) as Hs
    by (unfold read_step; by rewrite Hl).
  cbn [for_each]. by rewrite Hs.
Qed.

(** C17. A read delivers the next [n] characters of the endless repetition of the
    content, starting at the file position, returns [n] and advances the
    position by [n]; it never reads outside the content. Reading in pieces makes no
    difference: two consecutive reads deliver what one of the total length does.
    With an empty [content] the module loads like with any other, and then every
    read of at least one byte divides by zero. *)
Theorem read_mebeim_delivers :
  (forall v buf n off, ready v -> 0 <= n -> 0 <= off -> off + n < 2 ^ 63 ->
    always (read_mebeim v buf n off) (fun t r => r = Done (n, off + n) /\
      puts t = delivery (mebeim_content v) buf n off)) /\
  (forall v buf n1 n2 off, ready v -> 0 <= n1 -> 0 <= n2 -> 0 <= off -> off + n1 + n2 < 2 ^ 63 ->
    always (r ← read_mebeim v buf n1 off ; read_mebeim v (buf + n1) n2 r.2)
      (fun t r => always (read_mebeim v buf (n1 + n2) off) (fun t' r' =>
        puts t = puts t' /\ exists k off', r = Done (k, off') /\ r' = Done (n1 + n2, off')))) /\
  (forall mode buf n off, 0 < n ->
    always (mychardev_init (loaded mode EmptyString)) (fun _ o => forall v, o = Done (0, v) ->
      always (read_mebeim v buf n off) (fun _ r => r = Halted (Faulted DivByZero)))).
Proof. split_and!; [apply read_puts|apply read_mebeim_split|apply read_mebeim_empty]. Qed.

Lemma cleanup_counts v :
  always (mychardev_cleanup v) (fun t o => o = Done tt /\
    forall r, counts delta r (owned v r) t 0).
Proof. intros [] [] [] [] [] []. split; [done|]. count_tac. Qed.

(** What is taken is given back. *)
Lemma mychardev_balanced v :
  always (mychardev_init v) (fun t o => forall res v', o = Done (res, v') ->
    if res =? 0 then
      always (mychardev_cleanup v') (fun t' o' => o' = Done tt /\ forall r, balanced r (t ++ t'))
    else forall r, balanced r t).
Proof.
  eapply always_mono; [|apply mychardev_init_always].
  intros t o Ho res v' ->. destruct Ho as (_ & _ & _ & H0 & H1).
  destruct (Z.eqb_spec res 0) as [->|Hres]; [|auto].
  eapply always_mono; [|apply cleanup_counts].
  intros t' o' [-> Ht']. split; [done|]. intros r.
  eapply counts_app; [by apply H0|apply Ht'].
Qed.

(** NULL is not an error pointer. *)
Lemma cdev_alloc_null v :
  always (mychardev_init v) (fun t o => existsb class_null t = false ->
    (o = Halted (Faulted NullDeref) <-> existsb cdev_null t = true) /\
    forall x, o = Halted x -> x = Faulted NullDeref).
Proof.
  eapply always_mono; [|apply mychardev_init_always].
  intros t [[res v']|x] Ho Hc.
  - destruct Ho as (_ & Hn & _). rewrite Hn. by split.
  - destruct Ho as [-> Hn]. rewrite Hc in Hn. cbn [orb] in Hn. split; [by rewrite Hn|]. by intros x [= <-].
Qed.

(** ** The memory of the [cdev] *)

(** [cdev_init] was called on [c]. *)
Definition initialised (c : Z) (t : trace kernelE) : bool :=
  existsb (fun o : obs kernelE => match obs_call o with CdevInit p => p =? c | _ => false end) t.

(** Computes the memory of any [cdev] after an explicit trace. *)
Ltac memory_tac :=
  intros c; unfold cdev_memory, initialised; cbn [foldl cdev_step existsb obs_call orb];
  repeat match goal with H : ?b = _ |- context [?b] => rewrite H end;
  cbn [negb]; rewrite ?andb_false_r, ?andb_true_r;
  repeat match goal with |- context [?x =? c] => destruct (x =? c) end; reflexivity.

(** Where the initialisation leaves the memory of a [cdev]. *)
Definition init_memory (t : trace kernelE) (o : outcome (Z * vars)) : Prop :=
  forall res v', o = Done (res, v') ->
    (res = 0 -> initialised (cdevice v') t = true) /\
    forall c, cdev_memory c t = if initialised c t then Leaked else Freed.

Lemma mychardev_init_memory v : always (mychardev_init v) init_memory.
Proof.
  unfold mychardev_init, deref. intros []. cbn. intros [res dev]. cbn.
  destruct (res =? 0) eqn:Hres; cbn.
  2: { intros [] ? ? [= <- <-]. split; [lia|]. memory_tac. }
  intros [] class. cbn. destruct (is_err class) eqn:Hclass; cbn.
  { intros [] [] ? ? [= <- <-]. split; [by intros ?%PTR_ERR_nonzero|]. memory_tac. }
  destruct (class =? 0) eqn:Hclass0; cbn; [done|].
  intros [] cdev. cbn. destruct (is_err cdev) eqn:Hcdev; cbn.
  { intros [] [] [] ? ? [= <- <-]. split; [by intros ?%PTR_ERR_nonzero|]. memory_tac. }
  destruct (cdev =? 0) eqn:Hcdev0; cbn; [done|].
  intros [] [] add. cbn. destruct (add =? 0) eqn:Hadd; cbn.
  2: { intros [] [] [] [] ? ? [= <- <-]. split; [lia|]. memory_tac. }
  intros [] device. cbn. destruct (is_err device) eqn:Hdev; cbn.
  { intros [] [] [] [] ? ? [= <- <-]. split; [by intros ?%PTR_ERR_nonzero|]. memory_tac. }
  intros [] [] ? ? [= <- <-]. split; [|memory_tac]. intros _. cbn. by rewrite Z.eqb_refl.
Qed.

(** The cleanup frees nothing that the initialisation did not leave to be freed. *)
Lemma mychardev_memory v :
  always (mychardev_init v) (fun t o => forall v', o = Done (0, v') ->
    always (mychardev_cleanup v') (fun t' _ =>
      forall c, cdev_memory c (t ++ t') = if initialised c t then Leaked else Freed)).
Proof.
  eapply always_mono; [|apply mychardev_init_memory]. intros t o Ho v' Hv.
  destruct (Ho 0 v' Hv) as [_ Hm]. intros [] [] [] [] [] [] c.
  rewrite cdev_memory_app, Hm. cbn [foldl cdev_step].
  destruct (initialised c t); [|destruct (cdevice v' =? c)]; by rewrite ?andb_false_r.
Qed.

(** C19. A failed initialisation gives back every number, registration and reference
    that it took, and a successful one followed by the cleanup gives back all of
    them, whatever the kernel answers. What neither gives back is memory: once
    [cdev_init] has run on what [cdev_alloc] allocated, nothing frees it, neither the
    [cdev_del] of the failure path, if [cdev_add] or [device_create] fails, nor the one
    of the cleanup; every successful load leaks one [cdev], and nothing else is
    leaked that way. The one way the initialisation faults, as long as
    [class_create] never answers NULL, is that [cdev_alloc] answers NULL when it
    fails, which the test for an error pointer does not catch: then the module
    dereferences it. *)
Theorem mychardev_resources v :
  always (mychardev_init v) (fun t o =>
    (forall res v', o = Done (res, v') ->
      if res =? 0 then
        initialised (cdevice v') t = true /\
        always (mychardev_cleanup v') (fun t' o' =>
          o' = Done tt /\ (forall r, balanced r (t ++ t')) /\
          forall c, cdev_memory c (t ++ t') = if initialised c t then Leaked else Freed)
      else
        (forall r, balanced r t) /\
        forall c, cdev_memory c t = if initialised c t then Leaked else Freed) /\
    (existsb class_null t = false ->
      (o = Halted (Faulted NullDeref) <-> existsb cdev_null t = true) /\
      forall x, o = Halted x -> x = Faulted NullDeref)).
Proof.
  apply always_behaves. intros t o Hb. split.
  - intros res v' ->.
    pose proof (proj1 (always_behaves _ _) (mychardev_balanced v) t _ Hb res v' eq_refl) as Hr.
    destruct (proj1 (always_behaves _ _) (mychardev_init_memory v) t _ Hb res v' eq_refl) as [Hi Hm].
    destruct (Z.eqb_spec res 0) as [->|Hres]; [|by split]. split; [by apply Hi|].
    pose proof (proj1 (always_behaves _ _) (mychardev_memory v) t _ Hb v' eq_refl) as Hc.
    apply always_behaves. intros t' o' Hb'.
    destruct (proj1 (always_behaves _ _) Hr t' o' Hb') as [-> Hr'].
    split_and!; [done|exact Hr'|]. exact (proj1 (always_behaves _ _) Hc t' _ Hb').
  - exact (proj1 (always_behaves _ _) (cdev_alloc_null v) t o Hb).
Qed.

(** ** Witnesses *)

Definition demo_vars : vars := Vars 1 1 1 1 438 "mebeim" 6.

Lemma read_mebeim_delivers_witness :
  always (read_mebeim demo_vars 0x1000 8 4) (fun t r => r = Done (8, 12) /\
    puts t = [(0x1000, 105); (0x1001, 109); (0x1002, 109); (0x1003, 101); (0x1004, 98);
              (0x1005, 101); (0x1006, 105); (0x1007, 109)]) /\
  always (r ← read_mebeim demo_vars 0x1000 5 4 ; read_mebeim demo_vars 0x1005 3 r.2)
    (fun t r => always (read_mebeim demo_vars 0x1000 8 4) (fun t' r' =>
       puts t = puts t' /\ exists k off', r = Done (k, off') /\ r' = Done (8, off'))).
Proof.
  destruct read_mebeim_delivers as (H1 & H2 & _). split.
  - apply (H1 demo_vars 0x1000 8 4); [by split|lia..].
  - apply (H2 demo_vars 0x1000 5 3 4); [by split|lia..].
Defined.

