(* ===== verification/EnumPids.v ===== *)
(** src/modules/enum_pids.c: the tasks that have a given [struct pid] as their
PID, TGID, PGID or SID. *)
From S2P Require Import Prelude Effects Kernel.

(** [enum pid_type], in order, up to [PIDTYPE_MAX]. *)
Definition pid_types : list pid_type := [PIDTYPE_PID; PIDTYPE_TGID; PIDTYPE_PGID; PIDTYPE_SID].

Definition types (ty : pid_type) : string :=
  match ty with
  | PIDTYPE_PID => "PID"
  | PIDTYPE_TGID => "TGID"
  | PIDTYPE_PGID => "PGID"
  | PIDTYPE_SID => "SID"
  end.

(** The formats, without the level and the module's prefix. *)
Definition fmts (ty : pid_type) : string :=
  (match ty with
   | PIDTYPE_PID => " - [PID=%d] TGID=%d PGID=%d SID=%d "
   | PIDTYPE_TGID => " - PID=%d [TGID=%d] PGID=%d SID=%d "
   | PIDTYPE_PGID => " - PID=%d TGID=%d [PGID=%d] SID=%d "
   | PIDTYPE_SID => " - PID=%d TGID=%d PGID=%d [SID=%d] "
   end) +:+ dq +:+ "%s" +:+ dq +:+ nl.

Definition print_task (task : Z) (type : pid_type) : kprog unit :=
  kdo (GetTaskStruct task) ;;
  pid ← kdo (TaskPidNr task PIDTYPE_PID) ;
  tgid ← kdo (TaskPidNr task PIDTYPE_TGID) ;
  pgid ← kdo (TaskPidNr task PIDTYPE_PGID) ;
  sid ← kdo (TaskPidNr task PIDTYPE_SID) ;
  comm ← kdo (GetTaskComm task) ;
  kdo (Printk KERN_INFO (fmts type) [AZ pid; AZ tgid; AZ pgid; AZ sid; AS comm]) ;;
  kdo (PutTaskStruct task).

Definition print_all_threads (task : Z) (type : pid_type) : kprog unit :=
  kdo (GetTaskStruct task) ;;
  threads ← kdo (TaskThreads task) ;
  for_each threads (fun thread => print_task thread type) ;;
  kdo (PutTaskStruct task).

(** The body of the loop over the pid types. *)
Definition enum_type (pid user_pid : Z) (type : pid_type) : kprog unit :=
  pr_info ("Tasks with %s=%d:" +:+ nl) [AS (types type); AZ user_pid] ;;
  tasks ← kdo (PidTasks pid type) ;
  for_each tasks (fun task =>
    if decide (type = PIDTYPE_TGID) then print_all_threads task type
    else print_task task type) ;;
  when (bool_decide (tasks = [])) (pr_info ("  - none" +:+ nl) []).

Definition modinit (user_pid : Z) : kprog Z :=
  pid ← kdo (FindGetPid user_pid) ;
  if pid =? 0 then
    pr_err ("No such pid (%d)." +:+ nl) [AZ user_pid] ;;
    mret (- ESRCH)
  else
    pr_info ("Enumerating tasks having pid nr %d for each pid type" +:+ nl) [AZ user_pid] ;;
    kdo RcuReadLock ;;
    for_each pid_types (enum_type pid user_pid) ;;
    kdo RcuReadUnlock ;;
    kdo (PutPid pid) ;;
    mret (- ECANCELED).

(** ** Specification

A task's line has its four numbers by name, that of the type being listed in
brackets, and the name of the task. *)
Definition label (ty : pid_type) : string :=
  match ty with
  | PIDTYPE_PID => "PID"
  | PIDTYPE_TGID => "TGID"
  | PIDTYPE_PGID => "PGID"
  | PIDTYPE_SID => "SID"
  end.

Definition number (listed ty : pid_type) : string :=
  if decide (listed = ty) then "[" +:+ label ty +:+ "=%d]" else label ty +:+ "=%d".

Definition task_fmt (listed : pid_type) : string :=
  " - " +:+ number listed PIDTYPE_PID +:+ " " +:+ number listed PIDTYPE_TGID +:+ " " +:+
  number listed PIDTYPE_PGID +:+ " " +:+ number listed PIDTYPE_SID +:+ " " +:+
  dq +:+ "%s" +:+ dq +:+ nl.

Lemma fmts_task ty : fmts ty = task_fmt ty.
Proof. by destruct ty. Qed.

Lemma types_label ty : types ty = label ty.
Proof. by destruct ty. Qed.

Section report.
Context (says : forall c : kcall, kans c).

Definition task_report (type : pid_type) (task : Z) : logline :=
  Log KERN_INFO (task_fmt type)
    (((fun ty => AZ (says (TaskPidNr task ty))) <$> pid_types) ++
     [AS (says (GetTaskComm task))]).

(** The tasks listed under a type: those linked to the [struct pid]; for the
    thread group, where only the leader is linked, all threads of it. *)
Definition listed (pid : Z) (type : pid_type) : list Z :=
  let tasks : list Z := says (PidTasks pid type) in
  if decide (type = PIDTYPE_TGID) then concat ((fun t => says (TaskThreads t)) <$> tasks)
  else tasks.

Definition type_report (pid user_pid : Z) (type : pid_type) : list logline :=
  [Log KERN_INFO ("Tasks with %s=%d:" +:+ nl) [AS (label type); AZ user_pid]] ++
  (task_report type <$> listed pid type) ++
  (if bool_decide ((says (PidTasks pid type) : list Z) = []) then
     [Log KERN_INFO ("  - none" +:+ nl) []] else []).

Lemma print_task_logs type task : logs says (print_task task type) [task_report type task] tt.
Proof. eapply logs_unit. unfold print_task, task_report. rewrite <- fmts_task. logs_tac. Qed.

Lemma print_each_logs type tasks :
  logs says (for_each tasks (fun t => print_task t type)) (task_report type <$> tasks) tt.
Proof.
  apply logs_for_each_one. intros t _. apply print_task_logs.
Qed.

Lemma print_all_threads_logs type task :
  logs says (print_all_threads task type) (task_report type <$> says (TaskThreads task)) tt.
Proof.
  eapply logs_unit. unfold print_all_threads. logs_tac.
  rewrite <- (app_nil_r (_ <$> _)). eapply logs_bind; [apply print_each_logs|logs_tac].
Qed.

Lemma concat_fmap {A B C} (f : B -> C) (g : A -> list B) (l : list A) :
  concat ((fun x => f <$> g x) <$> l) = (f <$> concat (g <$> l)).
Proof. induction l as [|x l IH]; [done|]. cbn. by rewrite IH, fmap_app. Qed.

Lemma enum_type_logs pid user_pid type :
  logs says (enum_type pid user_pid type) (type_report pid user_pid type) tt.
Proof.
  unfold enum_type, type_report, listed. rewrite types_label. apply logs_printk_then, logs_call; [done|].
  cbn zeta. eapply logs_bind.
  - destruct (decide (type = PIDTYPE_TGID)) as [->|Hne].
    + rewrite <- concat_fmap. apply logs_for_each. intros t _.
      apply print_all_threads_logs.
    + apply print_each_logs.
  - unfold when. case_match; [apply logs_printk|apply logs_ret].
Qed.

End report.

(** ** References *)

Lemma print_task_counted task type r n :
  0 <= n -> counted r n (print_task task type) n.
Proof. intros Hn. unfold print_task. counted_tac. Qed.

Lemma print_all_threads_counted task type r n :
  0 <= n -> counted r n (print_all_threads task type) n.
Proof.
  intros Hn. unfold print_all_threads.
  assert (forall m threads, 0 <= m ->
    counted r m (for_each threads (fun thread => print_task thread type)) m) as Ht.
  { intros m threads Hm. apply counted_for_each. intros x. by apply print_task_counted. }
  counted_call; counted_call; (eapply counted_bind; [apply Ht; lia|intros []]); counted_tac.
Qed.

Lemma enum_type_counted pid user_pid type r n :
  0 <= n -> counted r n (enum_type pid user_pid type) n.
Proof.
  intros Hn. unfold enum_type. do 2 (apply counted_neutral; [neutral_tac|done|intros ?]).
  eapply counted_bind.
  - apply counted_for_each. intros x. case_decide;
      [by apply print_all_threads_counted|by apply print_task_counted].
  - intros []. unfold when, skip. counted_tac.
Qed.

(** References, and the result. *)
Lemma enum_pids_balanced user_pid r :
  always (modinit user_pid) (fun t o => balanced r t /\
    exists res, o = Done res /\ (res = - ESRCH \/ res = - ECANCELED)).
Proof.
  assert (forall n pid, 0 <= n -> counted r n (for_each pid_types (enum_type pid user_pid)) n)
    as Hloop.
  { intros n pid Hn. apply counted_for_each. intros type. by apply enum_type_counted. }
  apply (counted_returns (fun res => res = - ESRCH \/ res = - ECANCELED)).
  - unfold modinit. counted_with ltac:(apply Hloop; lia).
  - apply returns_call. intros pid. case_match.
    + apply returns_call. intros _. apply returns_ret. by left.
    + do 2 (apply returns_call; intros _).
      eapply returns_bind; [by apply (Hloop 0)|]. intros _.
      do 2 (apply returns_call; intros _). apply returns_ret. by right.
Qed.

Lemma enum_pids_logs (says : forall c : kcall, kans c) user_pid pid :
  says (FindGetPid user_pid) = pid -> pid <> 0 ->
  (run (fixed says) (modinit user_pid)).2 = Done (- ECANCELED) /\
  printed (run (fixed says) (modinit user_pid)).1 =
    Log KERN_INFO ("Enumerating tasks having pid nr %d for each pid type" +:+ nl)
      [AZ user_pid] ::
    concat (type_report says pid user_pid <$> pid_types).
Proof.
  intros Hs Hp. apply logs_run. unfold modinit. apply logs_call; [done|].
  rewrite Hs, (proj2 (Z.eqb_neq pid 0)) by done.
  apply logs_printk_then, logs_call; [done|].
  rewrite <- (app_nil_r (concat _)). eapply logs_bind; [|by logs_tac].
  apply logs_for_each. intros type _. apply enum_type_logs.
Qed.

(** C20. For a pid that exists the log lists, type by type and in the kernel's
    order, the tasks that have the pid as that type (every thread, for the thread
    group), each with its four numbers and its name, and says so when there is
    none. Every reference and lock taken is given back, on every path and whatever
    the kernel answers, and loading always fails: with [ESRCH] when there is no
    such pid. *)
Theorem enum_pids_report (says : forall c : kcall, kans c) user_pid pid :
  says (FindGetPid user_pid) = pid -> pid <> 0 ->
  (run (fixed says) (modinit user_pid)).2 = Done (- ECANCELED) /\
  printed (run (fixed says) (modinit user_pid)).1 =
    Log KERN_INFO ("Enumerating tasks having pid nr %d for each pid type" +:+ nl)
      [AZ user_pid] ::
    concat (type_report says pid user_pid <$> pid_types) /\
  forall r, always (modinit user_pid) (fun t o => balanced r t /\
    exists res, o = Done res /\ (res = - ESRCH \/ res = - ECANCELED)).
Proof.
  intros Hs Hp. destruct (enum_pids_logs says user_pid pid Hs Hp) as [Ho Hl].
  split_and!; [done|done|]. intros r. apply enum_pids_balanced.
Qed.

(** The pid 42 of a thread group with a second thread, 43. *)
Definition demo_says (c : kcall) : kans c :=
  match c return kans c with
  | PidTasks _ PIDTYPE_PGID | PidTasks _ PIDTYPE_SID => []
  | PidTasks _ _ => [42]
  | TaskThreads _ => [42; 43]
  | TaskPidNr t PIDTYPE_PID => t
  | TaskPidNr _ PIDTYPE_TGID => 42
  | c' => kdefault c'
  end.

Lemma enum_pids_report_witness :
  (run (fixed demo_says) (modinit 42)).2 = Done (- ECANCELED) /\
  printed (run (fixed demo_says) (modinit 42)).1 =
    [Log KERN_INFO ("Enumerating tasks having pid nr %d for each pid type" +:+ nl) [AZ 42];
     Log KERN_INFO ("Tasks with %s=%d:" +:+ nl) [AS "PID"; AZ 42];
     Log KERN_INFO (" - [PID=%d] TGID=%d PGID=%d SID=%d " +:+ dq +:+ "%s" +:+ dq +:+ nl)
       [AZ 42; AZ 42; AZ 1; AZ 1; AS "init"];
     Log KERN_INFO ("Tasks with %s=%d:" +:+ nl) [AS "TGID"; AZ 42];
     Log KERN_INFO (" - PID=%d [TGID=%d] PGID=%d SID=%d " +:+ dq +:+ "%s" +:+ dq +:+ nl)
       [AZ 42; AZ 42; AZ 1; AZ 1; AS "init"];
     Log KERN_INFO (" - PID=%d [TGID=%d] PGID=%d SID=%d " +:+ dq +:+ "%s" +:+ dq +:+ nl)
       [AZ 43; AZ 42; AZ 1; AZ 1; AS "init"];
     Log KERN_INFO ("Tasks with %s=%d:" +:+ nl) [AS "PGID"; AZ 42];
     Log KERN_INFO ("  - none" +:+ nl) [];
     Log KERN_INFO ("Tasks with %s=%d:" +:+ nl) [AS "SID"; AZ 42];
     Log KERN_INFO ("  - none" +:+ nl) []].
Proof.
  assert (1 <> 0) as Hp by lia.
  destruct (enum_pids_report demo_says 42 1 eq_refl Hp) as (Ho & Hl & _).
  split; [exact Ho|exact Hl].
Defined.
