(* ===== verification/TaskRss.v ===== *)
(** src/modules/task_rss.c: the resident set size of every process. *)
From S2P Require Import Prelude Effects Kernel.

Section module.
(** The configuration of the kernel. *)
Context (CONFIG_MMU : bool) (PAGE_SHIFT : Z).

(** The body of the loop over the processes. *)
Definition print_rss (tsk : Z) : kprog unit :=
  kdo (GetTaskStruct tsk) ;;
  comm ← kdo (GetTaskComm tsk) ;
  mm ← kdo (GetTaskMm tsk) ;
  (if negb (mm =? 0) then
     pages ← kdo (GetMmRss mm) ;
     let rss := shl64 pages PAGE_SHIFT in
     kdo (Mmput mm) ;;
     pid ← kdo (TaskPid tsk) ;
     pr_info ("PID %d (" +:+ dq +:+ "%s" +:+ dq +:+ ") VmRSS = %lu bytes" +:+ nl)
       [AZ pid; AS comm; AL rss]
   else
     pid ← kdo (TaskPid tsk) ;
     pr_info ("PID %d (" +:+ dq +:+ "%s" +:+ dq +:+ ") is an anonymous process" +:+ nl)
       [AZ pid; AS comm]) ;;
  kdo (PutTaskStruct tsk).

Definition modinit : kprog Z :=
  if negb CONFIG_MMU then
    pr_err ("No MMU, cannot calculate RSS." +:+ nl) [] ;;
    mret (- EINVAL)
  else
    tasks ← kdo Processes ;
    for_each tasks print_rss ;;
    mret (- ECANCELED).

(** ** Specification *)

Section report.
Context (says : forall c : kcall, kans c).

Definition rss_line (t : Z) : logline :=
  let mm : Z := says (GetTaskMm t) in
  if mm =? 0 then
    Log KERN_INFO ("PID %d (" +:+ dq +:+ "%s" +:+ dq +:+ ") is an anonymous process" +:+ nl)
      [AZ (says (TaskPid t)); AS (says (GetTaskComm t))]
  else
    Log KERN_INFO ("PID %d (" +:+ dq +:+ "%s" +:+ dq +:+ ") VmRSS = %lu bytes" +:+ nl)
      [AZ (says (TaskPid t)); AS (says (GetTaskComm t));
       AL ((says (GetMmRss mm) * 2 ^ PAGE_SHIFT) mod 2 ^ 64)].

Lemma print_rss_logs t : 0 <= PAGE_SHIFT -> logs says (print_rss t) [rss_line t] tt.
Proof.
  intros Hs. unfold print_rss, rss_line. do 3 (apply logs_call; [done|]).
  apply (logs_bind _ _ _ [_] [] tt); 
    [|exact (logs_unit says _ _ _ (logs_do says (PutTaskStruct t) eq_refl))].
  cbn zeta. destruct ((says (GetTaskMm t) : Z) =? 0); cbn [negb]; [logs_tac|].
  apply logs_call; [done|]. cbn zeta. unfold shl64, u64, wrap.
  rewrite Z.shiftl_mul_pow2 by done. logs_tac.
Qed.

End report.

Lemma print_rss_counted t r n : 0 <= n -> counted r n (print_rss t) n.
Proof. intros Hn. unfold print_rss. counted_tac. Qed.

(** C21. With an MMU the log has one line per process, in the kernel's order: the
    number of resident pages times the page size (modulo 2^64), or that it has
    no memory of its own. Loading always fails, and every reference taken is
    given back. *)
Theorem task_rss_report says :
  0 <= PAGE_SHIFT ->
  (run (fixed says) modinit).2 = Done (if CONFIG_MMU then - ECANCELED else - EINVAL) /\
  printed (run (fixed says) modinit).1 =
    (if CONFIG_MMU then rss_line says <$> says Processes
     else [Log KERN_ERR ("No MMU, cannot calculate RSS." +:+ nl) []]) /\
  forall r, balanced r (run (fixed says) modinit).1.
Proof.
  intros Hs.
  assert (logs says modinit
    (if CONFIG_MMU then rss_line says <$> says Processes
     else [Log KERN_ERR ("No MMU, cannot calculate RSS." +:+ nl) []])
    (if CONFIG_MMU then - ECANCELED else - EINVAL)) as Hl.
  { unfold modinit. destruct CONFIG_MMU; cbn [negb]; logs_tac.
    rewrite <- (app_nil_r (_ <$> _)). eapply logs_bind; [|apply logs_ret].
    apply logs_for_each_one. intros t _. by apply print_rss_logs. }
  apply logs_run in Hl as [Ho Hp]. split_and!; [done..|]. intros r.
  eapply (always_run modinit (fun t _ => balanced r t)), counted_balanced.
  unfold modinit. destruct CONFIG_MMU; cbn [negb]; [|counted_tac].
  apply counted_call. intros tasks. split; [unfold delta; cbn; lia|].
  unfold delta. cbn [effect_of]. rewrite Z.add_0_r.
  eapply counted_bind; [|intros []; apply counted_ret].
  apply counted_for_each. intros t. by apply print_rss_counted.
Qed.

End module.

(** ** Witness: two processes, one without memory. *)
Definition demo_says (c : kcall) : kans c :=
  match c return kans c with
  | Processes => [1; 2]
  | GetTaskMm t => if t =? 1 then 100 else 0
  | GetMmRss m => 300
  | c' => kdefault c'
  end.

Lemma task_rss_report_witness :
  (run (fixed demo_says) (modinit true 12)).2 = Done (- ECANCELED) /\
  printed (run (fixed demo_says) (modinit true 12)).1 =
    [Log KERN_INFO ("PID %d (" +:+ dq +:+ "%s" +:+ dq +:+ ") VmRSS = %lu bytes" +:+ nl)
       [AZ 1; AS "init"; AL 1228800];
     Log KERN_INFO ("PID %d (" +:+ dq +:+ "%s" +:+ dq +:+ ") is an anonymous process" +:+ nl)
       [AZ 1; AS "init"]] /\
  forall r, balanced r (run (fixed demo_says) (modinit true 12)).1.
Proof. apply (task_rss_report true 12 demo_says). lia. Defined.
