(* ===== verification/TaskRssFromPid.v ===== *)
(** src/modules/task_rss_from_pid.c: the resident set size of one process. *)
From S2P Require Import Prelude Effects Kernel.

Section module.
(** The configuration of the kernel. *)
Context (CONFIG_MMU : bool) (PAGE_SHIFT : Z).

Definition modinit (user_pid : Z) : kprog Z :=
  if negb CONFIG_MMU then
    pr_err ("No MMU, cannot calculate RSS." +:+ nl) [] ;;
    mret (- EINVAL)
  else
  p ← kdo (FindGetPid user_pid) ;
  tsk ← kdo (GetPidTask p PIDTYPE_PID) ;
  if tsk =? 0 then
    pr_err ("No process with user PID = %d." +:+ nl) [AZ user_pid] ;;
    mret (- ESRCH)
  else
  comm ← kdo (GetTaskComm tsk) ;
  mm ← kdo (GetTaskMm tsk) ;
  pid ← kdo (TaskPid tsk) ;
  pr_info ("Calculating VmRSS for " +:+ dq +:+ "%s" +:+ dq +:+ " (PID: %d)" +:+ nl)
    [AS comm; AZ pid] ;;
  (if negb (mm =? 0) then
     pages ← kdo (GetMmRss mm) ;
     let rss := shl64 pages PAGE_SHIFT in
     kdo (Mmput mm) ;;
     pr_info ("VmRSS = %lu byes" +:+ nl) [AL rss]
   else
     pr_info ("Task is an anonymous process." +:+ nl) []) ;;
  kdo (PutTaskStruct tsk) ;;
  mret (- ECANCELED).

(** ** Specification *)

Section report.
Context (says : forall c : kcall, kans c) (user_pid : Z).

(** The task with the number [user_pid]. *)
Definition found_task : Z := says (GetPidTask (says (FindGetPid user_pid)) PIDTYPE_PID).

Definition size_line : logline :=
  let mm : Z := says (GetTaskMm found_task) in
  if mm =? 0 then Log KERN_INFO ("Task is an anonymous process." +:+ nl) []
  else Log KERN_INFO ("VmRSS = %lu byes" +:+ nl)
    [AL ((says (GetMmRss mm) * 2 ^ PAGE_SHIFT) mod 2 ^ 64)].

Definition report : list logline * Z :=
  if negb CONFIG_MMU then
    ([Log KERN_ERR ("No MMU, cannot calculate RSS." +:+ nl) []], - EINVAL)
  else if found_task =? 0 then
    ([Log KERN_ERR ("No process with user PID = %d." +:+ nl) [AZ user_pid]], - ESRCH)
  else
    ([Log KERN_INFO ("Calculating VmRSS for " +:+ dq +:+ "%s" +:+ dq +:+ " (PID: %d)" +:+ nl)
        [AS (says (GetTaskComm found_task)); AZ (says (TaskPid found_task))];
      size_line], - ECANCELED).

Lemma modinit_logs : 0 <= PAGE_SHIFT -> logs says (modinit user_pid) report.1 report.2.
Proof.
  intros Hs. unfold modinit, report. destruct CONFIG_MMU; cbn [negb]; [|logs_tac].
  apply logs_call; [done|]. apply logs_call; [done|]. fold found_task.
  destruct (found_task =? 0); [logs_tac|]. do 3 (apply logs_call; [done|]).
  apply logs_printk_then. unfold size_line. cbn zeta.
  apply (logs_bind _ _ _ [_] [] tt).
  - destruct ((says (GetTaskMm found_task) : Z) =? 0); cbn [negb]; [logs_tac|].
    apply logs_call; [done|]. cbn zeta. unfold shl64, u64, wrap.
    rewrite Z.shiftl_mul_pow2 by done. logs_tac.
  - logs_tac.
Qed.

End report.

End module.

(** C22. The log names the task and gives its resident pages times the page size
    (modulo 2^64), or says why it cannot, and loading fails with the error of the
    case. The references to the task and to its memory are given back on every
    path, whatever the kernel answers; the reference to the [struct pid] never is:
    every execution for a pid that exists ends with one more than it began
    with. *)
Theorem rss_from_pid_references PAGE_SHIFT user_pid :
  (forall CONFIG_MMU says, 0 <= PAGE_SHIFT ->
    let '(t, o) := run (fixed says) (modinit CONFIG_MMU PAGE_SHIFT user_pid) in
    (printed t, o) = ((report CONFIG_MMU PAGE_SHIFT says user_pid).1,
                      Done (report CONFIG_MMU PAGE_SHIFT says user_pid).2)) /\
  (forall r, (forall p, r <> RPid p) ->
    always (modinit true PAGE_SHIFT user_pid) (fun t _ => balanced r t)) /\
  always (modinit true PAGE_SHIFT user_pid) (fun t o => exists p t',
    t = Obs (E := kernelE) (FindGetPid user_pid) p :: t' /\
    (p <> 0 -> held delta (RPid p) t = 1)).
Proof.
  split_and!.
  - intros MMU says Hs. destruct (logs_run says _ _ _ (modinit_logs MMU PAGE_SHIFT says user_pid Hs))
      as [Ho Hp]. destruct (run (fixed says) _) as [t o]. cbn [fst snd] in Ho, Hp. by rewrite Ho, Hp.
  - intros r Hr. apply counted_balanced. unfold modinit. cbn [negb].
    apply counted_call. intros p.
    assert (delta r (Obs (E := kernelE) (FindGetPid user_pid) p) = 0) as ->.
    { unfold delta. cbn [effect_of]. destruct (p =? 0); [done|].
      by rewrite decide_False. }
    split; [lia|]. rewrite Z.add_0_r. counted_tac.
  - unfold modinit. cbn [negb]. intros p. cbn [always].
    assert (forall A (f : kprog A), only (fun o => delta (RPid p) o = 0) f ->
      always f (fun t _ => exists p0 t', Obs (E := kernelE) (FindGetPid user_pid) p :: t =
        Obs (E := kernelE) (FindGetPid user_pid) p0 :: t' /\
        (p0 <> 0 -> held delta (RPid p0) (Obs (E := kernelE) (FindGetPid user_pid) p :: t) = 1)))
      as Hf.
    { intros A f. apply always_mono. intros t o Ht. exists p, t. split; [done|].
      intros Hp. cbn [held]. rewrite (held_zero _ _ _ Ht). unfold delta. cbn [effect_of].
      rewrite (proj2 (Z.eqb_neq p 0)) by done. by rewrite decide_True. }
    apply Hf.
    only_tac ltac:(intros ?; unfold delta; cbn; repeat case_match; congruence).
Qed.

(** ** Witness: a process with 300 resident pages. *)
Definition demo_says (c : kcall) : kans c :=
  match c return kans c with
  | GetMmRss _ => 300
  | c' => kdefault c'
  end.

Lemma rss_from_pid_references_witness :
  let '(t, o) := run (fixed demo_says) (modinit true 12 1) in
  (printed t, o) =
    ([Log KERN_INFO ("Calculating VmRSS for " +:+ dq +:+ "%s" +:+ dq +:+ " (PID: %d)" +:+ nl)
        [AS "init"; AZ 1];
      Log KERN_INFO ("VmRSS = %lu byes" +:+ nl) [AL 1228800]], Done (- ECANCELED)).
Proof.
  destruct (rss_from_pid_references 12 1) as (H & _). apply (H true demo_says). lia.
Defined.
