(* ===== verification/RootDev.v ===== *)
(** src/modules/find_root_dev.c: the device the root file system is on. *)
From S2P Require Import Prelude Effects Kernel.

(** The labels at the end, each falling into the next. *)
Definition fail (err : Z) : kprog Z := mret err.

Definition bdget_fail (root_path err : Z) : kprog Z :=
  kdo (PathPut root_path) ;;
  fail err.

Definition bdevname_fail (root_path root_device err : Z) : kprog Z :=
  kdo (Bdput root_device) ;;
  bdget_fail root_path err.

Definition findrootdev_init : kprog Z :=
  pr_info ("init" +:+ nl) [] ;;
  '(err, root_path) ← kdo (KernPath "/") ;
  if negb (err =? 0) then
    pr_err ("kern_path error %d" +:+ nl) [AZ err] ;;
    fail err
  else
  '(err, dev) ← kdo (VfsGetattr root_path) ;
  if negb (err =? 0) then
    pr_err ("vfs_getattr error %d" +:+ nl) [AZ err] ;;
    bdget_fail root_path err
  else
  pr_info ("root device number is 0x%08x; major = %d, minor = %d" +:+ nl)
    [AZ dev; AZ (MAJOR dev); AZ (MINOR dev)] ;;
  root_device ← kdo (Bdget dev) ;
  if root_device =? 0 then
    pr_err ("bdget failed" +:+ nl) [] ;;
    bdget_fail root_path (-1)
  else
  name ← kdo (Bdevname root_device) ;
  match name with
  | None =>
      pr_err ("bdevname failed" +:+ nl) [] ;;
      bdevname_fail root_path root_device (-1)
  | Some root_device_name =>
      pr_info ("root device name: %s, path: /dev/%s" +:+ nl)
        [AS root_device_name; AS root_device_name] ;;
      bdevname_fail root_path root_device err
  end.

Definition findrootdev_exit : kprog unit := pr_info ("exit" +:+ nl) [].

(** ** Specification *)

Section result.
Context (says : forall c : kcall, kans c).

(** The log and the result: up to the first thing that fails. *)
Definition root_report : list logline * Z :=
  let '(err, path) := says (KernPath "/") : Z * Z in
  if negb (err =? 0) then ([Log KERN_ERR ("kern_path error %d" +:+ nl) [AZ err]], err) else
  let '(err, dev) := says (VfsGetattr path) : Z * Z in
  if negb (err =? 0) then ([Log KERN_ERR ("vfs_getattr error %d" +:+ nl) [AZ err]], err) else
  let found := Log KERN_INFO ("root device number is 0x%08x; major = %d, minor = %d" +:+ nl)
    [AZ dev; AZ (dev / 2 ^ 20); AZ (dev mod 2 ^ 20)] in
  let bdev : Z := says (Bdget dev) in
  if bdev =? 0 then ([found; Log KERN_ERR ("bdget failed" +:+ nl) []], -1) else
  match says (Bdevname bdev) : option string with
  | None => ([found; Log KERN_ERR ("bdevname failed" +:+ nl) []], -1)
  | Some n =>
      ([found; Log KERN_INFO ("root device name: %s, path: /dev/%s" +:+ nl) [AS n; AS n]], 0)
  end.

Lemma MAJOR_div dev : MAJOR dev = dev / 2 ^ 20.
Proof. unfold MAJOR, MINORBITS. by apply Z.shiftr_div_pow2. Qed.

Lemma MINOR_mod dev : MINOR dev = dev mod 2 ^ 20.
Proof. unfold MINOR. change (2 ^ MINORBITS - 1) with (Z.ones 20). by apply Z.land_ones. Qed.

Lemma findrootdev_logs :
  logs says findrootdev_init
    (Log KERN_INFO ("init" +:+ nl) [] :: root_report.1) root_report.2.
Proof.
  unfold findrootdev_init, root_report, bdevname_fail, bdget_fail, fail.
  apply logs_printk_then, logs_call; [done|].
  destruct (says (KernPath "/")) as [err path]. destruct (err =? 0); cbn [negb]; [|logs_tac].
  apply logs_call; [done|].
  destruct (says (VfsGetattr path)) as [err' dev]. destruct (err' =? 0) eqn:He; cbn [negb];
    [|logs_tac].
  rewrite <- MAJOR_div, <- MINOR_mod.
  destruct ((says (Bdget dev) : Z) =? 0) eqn:Hb.
  { apply logs_printk_then, logs_call; [done|]. rewrite Hb. logs_tac. }
  destruct ((says (Bdevname (says (Bdget dev))) : option string)) as [n|] eqn:Hn;
    cbn [fst snd]; apply logs_printk_then, logs_call; try done; rewrite Hb;
    apply logs_call; try done; rewrite Hn; [|logs_tac].
  replace err' with 0 by lia. logs_tac.
Qed.

End result.

(** C23. The log shows the number of the device of the root file system, with its
    major and minor parts, and its name, or the first thing that failed, whose
    error is returned; the references to the path and to the device are given
    back on every path, whatever the kernel answers. *)
Theorem findrootdev_report (says : forall c : kcall, kans c) :
  (run (fixed says) findrootdev_init).2 = Done (root_report says).2 /\
  printed (run (fixed says) findrootdev_init).1 =
    Log KERN_INFO ("init" +:+ nl) [] :: (root_report says).1 /\
  forall r, always findrootdev_init (fun t _ => balanced r t).
Proof.
  destruct (logs_run says _ _ _ (findrootdev_logs says)) as [Ho Hp].
  split_and!; [done..|]. intros r. apply counted_balanced.
  unfold findrootdev_init, bdevname_fail, bdget_fail, fail. counted_tac.
Qed.
