(* ===== verification/Kallsyms.v ===== *)
(** src/modules/kallsyms.c: listing and searching the kernel's symbols. *)
From S2P Require Import Prelude Effects Kernel.

(** Whether [strstr(s, sub)] finds [sub] in [s]. *)
Fixpoint strstr (s sub : string) : bool :=
  String.prefix sub s ||
  match s with
  | EmptyString => false
  | String _ s' => strstr s' sub
  end.

Definition print_ksym (sym : ksym) : kprog Z :=
  match ksym_module sym with
  | Some (String _ _ as m) =>
      pr_info ("0x%px %s [%s]" +:+ nl) [AP (ksym_addr sym); AS (ksym_name sym); AS m] ;;
      mret 0
  | _ =>
      pr_info ("0x%px %s" +:+ nl) [AP (ksym_addr sym); AS (ksym_name sym)] ;;
      mret 0
  end.

(** [find] is the module parameter. *)
Definition grep_ksym (find : string) (sym : ksym) : kprog Z :=
  if strstr (ksym_name sym) find then print_ksym sym else mret 0.

(** [kallsyms_on_each_symbol(fn, NULL)]: the kernel calls [fn] for one symbol
    after the other, until it answers something else than 0. *)
Fixpoint each_symbol (fn : ksym -> kprog Z) (syms : list ksym) : kprog Z :=
  match syms with
  | [] => mret 0
  | sym :: syms' =>
      ret ← fn sym ;
      if ret =? 0 then each_symbol fn syms' else mret ret
  end.

Definition kallsyms_on_each_symbol (fn : ksym -> kprog Z) : kprog Z :=
  syms ← kdo OnEachSymbol ;
  each_symbol fn syms.

Section module.
(** Whether the kernel is 5.7 or newer. *)
Context (KALLSYMS_NOT_EXPORTED : bool).

(** The callback given to the kernel. *)
Definition callback (find : option string) : ksym -> kprog Z :=
  match find with
  | Some f => grep_ksym f
  | None => print_ksym
  end.

Definition modinit (find : option string) : kprog Z :=
  if KALLSYMS_NOT_EXPORTED then
    '(err, addr) ← kdo (RegisterKprobe "kallsyms_on_each_symbol") ;
    if negb (err =? 0) then
      pr_err ("register_kprobe() failed: %d" +:+ nl) [AZ err] ;;
      mret err
    else
      kdo (UnregisterKprobe "kallsyms_on_each_symbol") ;;
      kallsyms_on_each_symbol (callback find) ;;
      mret (- ECANCELED)
  else
    kallsyms_on_each_symbol (callback find) ;;
    mret (- ECANCELED).

(** ** Specification *)

(** The string [sub] occurs in [s]. *)
Definition occurs (sub s : string) : Prop := exists pre post, s = pre +:+ sub +:+ post.

Definition ksym_line (sym : ksym) : logline :=
  match ksym_module sym with
  | None | Some EmptyString =>
      Log KERN_INFO ("0x%px %s" +:+ nl) [AP (ksym_addr sym); AS (ksym_name sym)]
  | Some m =>
      Log KERN_INFO ("0x%px %s [%s]" +:+ nl) [AP (ksym_addr sym); AS (ksym_name sym); AS m]
  end.

Lemma prefix_spec sub s : String.prefix sub s = true <-> exists post, s = sub +:+ post.
Proof.
  revert s. induction sub as [|a sub IH]; intros s.
  - split; [|by destruct s]. intros _. by exists s.
  - destruct s as [|b s]; [split; [done|by intros [post ?]]|]. cbn [String.prefix].
    destruct (Ascii.ascii_dec a b) as [<-|Hab].
    + rewrite IH. split; intros [post Hp]; exists post; [by rewrite Hp|by injection Hp].
    + split; [done|]. intros [post Hp]. by injection Hp.
Qed.

Lemma strstr_spec s sub : strstr s sub = true <-> occurs sub s.
Proof.
  unfold occurs. induction s as [|a s IH]; cbn [strstr].
  - rewrite orb_false_r, prefix_spec. split.
    + intros [post Hp]. by exists EmptyString, post.
    + intros (pre & post & Hp). destruct pre; [by exists post|done].
  - rewrite orb_true_iff, prefix_spec, IH. split.
    + intros [[post Hp]|(pre & post & Hp)]; [by exists EmptyString, post|].
      exists (String a pre), post. by rewrite Hp.
    + intros (pre & post & Hp). destruct pre as [|b pre]; [left; by exists post|right].
      injection Hp as _ Hp. by exists pre, post.
Qed.

#[export] Instance occurs_dec sub s : Decision (occurs sub s).
Proof.
  destruct (strstr s sub) eqn:H; [left; by apply strstr_spec|right].
  intros Ho%strstr_spec. congruence.
Defined.

(** The symbols that match the parameter. *)
Definition matching (find : option string) (syms : list ksym) : list ksym :=
  match find with
  | Some f => filter (fun sym => occurs f (ksym_name sym)) syms
  | None => syms
  end.

Section report.
Context (says : forall c : kcall, kans c).

Lemma print_ksym_logs sym : logs says (print_ksym sym) [ksym_line sym] 0.
Proof.
  unfold print_ksym, ksym_line. destruct (ksym_module sym) as [[|a m]|]; logs_tac.
Qed.

Lemma each_symbol_logs find syms :
  logs says (each_symbol (callback find) syms) (ksym_line <$> matching find syms) 0.
Proof.
  induction syms as [|sym syms IH]; [by destruct find; apply logs_ret|]. cbn [each_symbol].
  destruct find as [f|]; cbn [matching callback] in *.
  - rewrite filter_cons. change (grep_ksym f sym)
      with (if strstr (ksym_name sym) f then print_ksym sym else mret 0).
    destruct (decide (occurs f (ksym_name sym))) as [Ho|Ho].
    + rewrite (proj2 (strstr_spec _ _) Ho).
      apply (logs_bind says _ _ [_] _ 0); [apply print_ksym_logs|exact IH].
    + destruct (strstr (ksym_name sym) f) eqn:Hs; [by apply strstr_spec in Hs|].
      apply (logs_bind says _ _ [] _ 0); [apply logs_ret|exact IH].
  - apply (logs_bind says _ _ [_] _ 0); [apply print_ksym_logs|exact IH].
Qed.

End report.

Lemma each_symbol_neutral find syms : neutral (each_symbol (callback find) syms).
Proof.
  assert (forall sym, neutral (print_ksym sym)) as Hp.
  { intros sym. unfold print_ksym. neutral_tac. }
  induction syms as [|sym syms IH]; [apply neutral_ret|]. cbn [each_symbol].
  apply neutral_bind; [|intros ret; case_match; [done|apply neutral_ret]].
  destruct find as [f|]; [|apply Hp]. unfold callback, grep_ksym.
  case_match; [apply Hp|apply neutral_ret].
Qed.

#[local] Hint Resolve each_symbol_neutral : cneutral.

Lemma on_each_logs says find :
  logs says (kallsyms_on_each_symbol (callback find) ;; mret (- ECANCELED))
    (ksym_line <$> matching find (says OnEachSymbol)) (- ECANCELED).
Proof.
  rewrite <- (app_nil_r (_ <$> _)).
  apply (logs_bind says _ _ _ _ 0); [|apply logs_ret].
  apply logs_call; [done|]. apply each_symbol_logs.
Qed.

(** C24. The log has one line per symbol whose name contains [find] (per symbol,
    when the parameter is not given), in the kernel's order; no probe stays
    registered; loading always fails, with the error of [register_kprobe] if
    that is what failed. *)
Theorem kallsyms_report (says : forall c : kcall, kans c) find :
  let err := if KALLSYMS_NOT_EXPORTED
    then (says (RegisterKprobe "kallsyms_on_each_symbol") : Z * Z).1 else 0 in
  (run (fixed says) (modinit find)).2 = Done (if err =? 0 then - ECANCELED else err) /\
  printed (run (fixed says) (modinit find)).1 =
    (if err =? 0 then ksym_line <$> matching find (says OnEachSymbol)
     else [Log KERN_ERR ("register_kprobe() failed: %d" +:+ nl) [AZ err]]) /\
  forall r, balanced r (run (fixed says) (modinit find)).1.
Proof.
  cbn zeta.
  assert (forall err, (if KALLSYMS_NOT_EXPORTED
      then (says (RegisterKprobe "kallsyms_on_each_symbol") : Z * Z).1 else 0) = err ->
    logs says (modinit find)
      (if err =? 0 then ksym_line <$> matching find (says OnEachSymbol)
       else [Log KERN_ERR ("register_kprobe() failed: %d" +:+ nl) [AZ err]])
      (if err =? 0 then - ECANCELED else err)) as Hl.
  { intros err Herr. unfold modinit. destruct KALLSYMS_NOT_EXPORTED.
    - apply logs_call; [done|].
      destruct (says (RegisterKprobe "kallsyms_on_each_symbol")) as [e addr].
      cbn in Herr. subst e. destruct (err =? 0); cbn [negb]; [|logs_tac].
      apply logs_call; [done|]. apply on_each_logs.
    - subst err. apply on_each_logs. }
  specialize (Hl _ eq_refl). apply logs_run in Hl as [Ho Hp]. split_and!; [done..|].
  intros r. apply (always_run (modinit find) (fun t _ => balanced r t)), counted_balanced.
  unfold modinit, kallsyms_on_each_symbol. destruct KALLSYMS_NOT_EXPORTED; counted_tac.
Qed.

End module.

(** ** Witness-like example: what [find] selects. *)
Example matching_demo :
  matching (Some "exec"%string)
    [Ksym "setup_new_exec" 1 None; Ksym "printk" 2 None; Ksym "execve" 3 (Some "m"%string)] =
    [Ksym "setup_new_exec" 1 None; Ksym "execve" 3 (Some "m"%string)].
Proof. reflexivity. Qed.
