(* ===== verification/ReadImpliesExec.v ===== *)
(** src/modules/read_implies_exec.c: two kprobes that bring back the old
read-implies-exec behaviour of the kernel. *)
From S2P Require Import Prelude Effects Kernel.

Definition READ_IMPLIES_EXEC : Z := 0x0400000.

Definition EXSTACK_ENABLE_X : Z := 2.

(** What the handlers do to the personality of the current task and to the
    register that holds the third argument; both answer 0. *)
Definition kp_setup_new_exec_pre (personality : Z) : Z * Z :=
  (Z.lor personality READ_IMPLIES_EXEC, 0).

Definition kp_setup_arg_pages_pre (dx : Z) : Z * Z := (EXSTACK_ENABLE_X, 0).

(** The functions probed. *)
Definition kps : list string := ["setup_arg_pages"; "setup_new_exec"]%string.

(** The loop of [modinit] over the probes. *)
Fixpoint register_all (probes : list string) : kprog Z :=
  match probes with
  | [] =>
      pr_warn ("Your system now runs with old read-implies-exec semantics!" +:+ nl) [] ;;
      mret 0
  | symbol :: probes' =>
      '(ret, addr) ← kdo (RegisterKprobe symbol) ;
      if ret <? 0 then
        pr_err ("Failed to register kprobe for %s: %d" +:+ nl) [AS symbol; AZ ret] ;;
        mret (-1)
      else
        pr_info ("Registered kprobe for %s" +:+ nl) [AS symbol] ;;
        register_all probes'
  end.

Definition modinit : kprog Z := register_all kps.

Definition modexit : kprog unit :=
  for_each kps (fun symbol =>
    kdo (UnregisterKprobe symbol) ;;
    pr_info ("Unregistered kprobe for %s" +:+ nl) [AS symbol]).

(** C25. A failure is not undone: when the first probe is registered and the
    second one is not, loading fails with -1 while the first probe, whose handler
    is in the module that is then removed, stays registered. When both are
    registered the module loads, and [modexit] gives both back; when the first
    one fails nothing is left. *)
Theorem modinit_probes (says : forall c : kcall, kans c) :
  let e1 := (says (RegisterKprobe "setup_arg_pages") : Z * Z).1 in
  let e2 := (says (RegisterKprobe "setup_new_exec") : Z * Z).1 in
  let '(t, o) := run (fixed says) modinit in
  (e1 < 0 -> o = Done (-1) /\ forall r, balanced r t) /\
  (e1 = 0 -> e2 < 0 -> o = Done (-1) /\ held delta (RKprobe "setup_arg_pages") t = 1) /\
  (e1 = 0 -> e2 = 0 -> o = Done 0 /\
    always modexit (fun t' o' => o' = Done tt /\ forall r, balanced r (t ++ t'))).
Proof.
  cbn zeta. unfold run, modinit, kps. cbn [register_all]. unfold env_handler, fixed.
  cbn. destruct (says (RegisterKprobe "setup_arg_pages")) as [e1 a1] eqn:H1. cbn.
  destruct (e1 <? 0) eqn:He1; cbn.
  { split_and!; [|lia..]. intros _. split; [done|]. intros r.
    unfold balanced, delta. cbn. rewrite (proj2 (Z.eqb_neq e1 0)) by lia. done. }
  destruct (says (RegisterKprobe "setup_new_exec")) as [e2 a2] eqn:H2. cbn.
  destruct (e2 <? 0) eqn:He2; cbn; (split_and!; [lia|..]).
  - intros -> _. split; [done|]. unfold delta. cbn.
    rewrite decide_True, (proj2 (Z.eqb_neq e2 0)) by (done || lia). done.
  - lia.
  - lia.
  - intros -> ->. split; [done|]. intros [] [] [] []. split; [done|]. intros r.
    unfold balanced, delta. cbn. repeat case_decide; simplify_eq; split_and!; done || lia.
Qed.
