(* ===== verification/CpuFreq.v ===== *)
(** src/modules/cpufreq.c: the frequency of each online CPU. *)
From S2P Require Import Prelude Effects Kernel.

Definition freq_fmt : string := "CPU: %u, freq: %u kHz" +:+ nl.

(** One iteration of the loop of [modinit], with the next value of [cpu]. *)
Definition show_freq (cpu : Z) : kprog Z :=
  freq ← kdo (CpufreqGet cpu) ;
  pr_info freq_fmt [AZ cpu; AZ freq] ;;
  kdo (CpumaskNext cpu).

Definition freq_step (cpu : Z) : kprog (Z + Z) :=
  nr_cpu_ids ← kdo NrCpuIds ;
  if cpu <? nr_cpu_ids then
    cpu' ← show_freq cpu ;
    mret (inl cpu')
  else mret (inr 0).

Definition modinit (fuel : nat) : kprog Z :=
  cpu ← kdo CpumaskFirst ;
  loop fuel freq_step cpu.

Definition modexit : kprog unit := skip.

(** ** The online CPUs *)

(** [m] is the first CPU of the mask after [n], or any number from [nr] on when
    there is none. *)
Definition next_in (online : Z -> bool) (nr n m : Z) : Prop :=
  n < m /\ (forall k, n < k < Z.min m nr -> online k = false) /\ (m < nr -> online m = true).

(** The CPUs of the mask from [n] on, in order. *)
Definition online_from (online : Z -> bool) (nr n : Z) : list Z :=
  filter (fun k => online k = true) (seqZ n (nr - n)).

Lemma filter_none (online : Z -> bool) l :
  (forall k, k ∈ l -> online k = false) -> filter (fun k => online k = true) l = [].
Proof.
  induction l as [|k l IH]; intros Hl; [done|].
  rewrite filter_cons_False by (rewrite Hl by left; done).
  apply IH. intros j Hj. apply Hl. by right.
Qed.

Lemma online_from_done online nr n : nr <= n -> online_from online nr n = [].
Proof. intros Hn. unfold online_from. by rewrite seqZ_nil by lia. Qed.

Lemma online_from_skip online nr n m :
  n <= m -> m <= nr -> (forall k, n <= k < m -> online k = false) ->
  online_from online nr n = online_from online nr m.
Proof.
  intros Hn Hm Hk. unfold online_from.
  replace (nr - n) with ((m - n) + (nr - m)) by lia.
  rewrite seqZ_app, filter_app by lia. replace (n + (m - n)) with m by lia.
  rewrite (filter_none _ (seqZ n (m - n))); [done|].
  intros k Hin%elem_of_seqZ. apply Hk. lia.
Qed.

Lemma online_from_next online nr n m :
  next_in online nr n m ->
  online_from online nr (n + 1) =
    if m <? nr then m :: online_from online nr (m + 1) else [].
Proof.
  intros (Hlt & Hoff & Hon). destruct (Z.ltb_spec m nr) as [Hm|Hm].
  - rewrite (online_from_skip _ _ (n + 1) m) by (lia || (intros; apply Hoff; lia)).
    unfold online_from at 1. rewrite seqZ_cons by lia.
    rewrite filter_cons_True by auto. unfold online_from, Z.succ. do 3 f_equal; lia.
  - destruct (Z.le_gt_cases nr (n + 1)); [by apply online_from_done|].
    rewrite (online_from_skip _ _ (n + 1) nr) by (lia || (intros; apply Hoff; lia)).
    apply online_from_done. lia.
Qed.

Section result.
Context (says : forall c : kcall, kans c).

Definition freq_line (cpu : Z) : logline :=
  Log KERN_INFO freq_fmt [AZ cpu; AZ (says (CpufreqGet cpu))].

Context (online : Z -> bool) (nr : Z) (Hnr : says NrCpuIds = nr).
Context (Hnext : forall n, next_in online nr n (says (CpumaskNext n))).

Lemma freq_step_logs cpu :
  logs says (freq_step cpu) (if cpu <? nr then [freq_line cpu] else [])
    (if cpu <? nr then inl (says (CpumaskNext cpu)) else inr 0).
Proof.
  apply (logs_call says NrCpuIds); [done|]. rewrite Hnr.
  destruct (cpu <? nr); [|apply logs_ret].
  eapply (logs_bind says _ _ [_] []); [|apply logs_ret].
  apply (logs_call says (CpufreqGet cpu)); [done|]. apply logs_printk_then, logs_do. done.
Qed.

(** From a CPU that the mask gave after [n]. *)
Lemma loop_logs fuel n cpu :
  next_in online nr n cpu -> nr - cpu < Z.of_nat fuel -> (0 < fuel)%nat ->
  logs says (loop fuel freq_step cpu) (freq_line <$> online_from online nr (n + 1)) 0.
Proof.
  revert n cpu. induction fuel as [|fuel IH]; intros n cpu Hn Hf Hpos; [lia|]. cbn [loop].
  pose proof (freq_step_logs cpu) as Hs. rewrite (online_from_next _ _ _ _ Hn).
  destruct (Z.ltb_spec cpu nr) as [Hlt|Hge];
    [|eapply (logs_bind says _ _ [] []); [exact Hs|apply logs_ret]].
  eapply (logs_bind says _ _ [freq_line cpu]); [exact Hs|]. cbn beta iota.
  pose proof (Hnext cpu) as [Hc _]. apply IH; [done|lia..].
Qed.

End result.

(** What the loop needs of the mask to end, whatever CPUs come and go. *)
Definition moves_on (nr : Z) (o : obs kernelE) : Prop :=
  match o with
  | Obs c a =>
      match c return kans c -> Prop with
      | NrCpuIds => fun n => n = nr
      | CpumaskNext n => fun m => n < m
      | CpumaskFirst => fun m => 0 <= m
      | _ => fun _ => True
      end a
  end.

Lemma loop_ends nr fuel cpu :
  nr - cpu < Z.of_nat fuel -> (0 < fuel)%nat ->
  always (loop fuel freq_step cpu) (fun t o => Forall (moves_on nr) t -> o = Done 0).
Proof.
  revert cpu. induction fuel as [|fuel IH]; intros cpu Hf Hpos; [lia|]. cbn.
  intros n. destruct (Z.ltb_spec cpu n) as [Hlt|Hge]; cbn; [|done].
  intros f [] cpu'. destruct (Z.lt_ge_cases cpu nr) as [Hnr|Hnr].
  - destruct (Z.lt_ge_cases cpu cpu') as [Hc|Hc].
    + eapply always_mono; [|apply (IH cpu'); lia]. cbn.
      intros t o Ho Ht. apply Ho. rewrite !Forall_cons in Ht. by destruct Ht as (_ & _ & _ & _ & Ht).
    + apply always_true. intros t o Ht. rewrite !Forall_cons in Ht. cbn in Ht. lia.
  - apply always_true. intros t o Ht. rewrite !Forall_cons in Ht. cbn in Ht. lia.
Qed.

(** C35. The frequency of each online CPU is logged once, in increasing order of
    their numbers, and no other CPU is asked for its own: [cpumask_first] and
    [cpumask_next] step through the mask, as documented. With more iterations than
    there are CPU numbers the loop ends and the module loads, also when the mask
    changes while it runs. *)
Theorem modinit_each_online (says : forall c : kcall, kans c) online nr fuel :
  says NrCpuIds = nr -> 0 <= nr < Z.of_nat fuel ->
  next_in online nr (-1) (says CpumaskFirst) ->
  (forall n, next_in online nr n (says (CpumaskNext n))) ->
  let '(t, o) := run (fixed says) (modinit fuel) in
  o = Done 0 /\
  printed t = freq_line says <$> online_from online nr 0 /\
  always (modinit fuel) (fun t o => Forall (moves_on nr) t -> o = Done 0).
Proof.
  intros Hnr Hf Hfirst Hnext.
  assert (logs says (modinit fuel) (freq_line says <$> online_from online nr 0) 0) as Hl.
  { unfold modinit. apply (logs_call says CpumaskFirst); [done|].
    pose proof Hfirst as (Hlt & _ & _).
    by apply (loop_logs says online nr Hnr Hnext fuel (-1)); [|lia|lia]. }
  apply logs_run in Hl as [Ho Hp]. destruct (run (fixed says) (modinit fuel)) as [t o].
  split_and!; [done|done|]. intros cpu. destruct (Z.lt_ge_cases cpu 0) as [Hc|Hc].
  - apply always_true. intros t' o' Ht. rewrite Forall_cons in Ht. cbn in Ht. lia.
  - eapply always_mono; [|apply (loop_ends nr fuel cpu); lia].
    intros t' o' Ho' Ht. apply Ho'. rewrite Forall_cons in Ht. by destruct Ht.
Qed.

(** Four CPUs, of which the third one is off line. *)
Definition demo_online (k : Z) : bool := negb (k =? 2) && (0 <=? k) && (k <? 4).

Definition demo_next (n : Z) : Z :=
  if n <? 0 then 0 else if n =? 1 then 3 else if n <? 3 then n + 1 else n + 2.

Definition demo_cpus (c : kcall) : kans c :=
  match c return kans c with
  | NrCpuIds => 4
  | CpumaskFirst => 0
  | CpumaskNext n => demo_next n
  | CpufreqGet cpu => 800000 + cpu
  | c' => kdefault c'
  end.

Lemma demo_next_in n : next_in demo_online 4 n (demo_next n).
Proof.
  unfold next_in, demo_next, demo_online.
  repeat case_match; split_and!; intros; lia.
Qed.

Lemma modinit_each_online_witness :
  let '(t, o) := run (fixed demo_cpus) (modinit 5) in
  o = Done 0 /\
  printed t = freq_line demo_cpus <$> [0; 1; 3] /\
  always (modinit 5) (fun t o => Forall (moves_on 4) t -> o = Done 0).
Proof.
  apply (modinit_each_online demo_cpus demo_online 4 5);
    [done|lia|exact (demo_next_in (-1))|exact demo_next_in].
Defined.
