(* ===== verification/CpuInfo.v ===== *)
(** src/modules/cpuinfo.c: the core of the current CPU. *)
From S2P Require Import Prelude Effects Kernel.

Definition modinit : kprog Z :=
  cpu ← kdo GetCpu ;
  cpu_core_id ← kdo (CpuCoreId cpu) ;
  pr_info ("CPU: %u, core: %d" +:+ nl) [AZ cpu; AZ cpu_core_id] ;;
  kdo PutCpu ;;
  mret 0.

Definition modexit : kprog unit := skip.

(** The call speaks of the current CPU, which stays the same only as long as
    preemption is disabled. *)
Definition on_this_cpu (o : obs kernelE) : Prop :=
  match obs_call o with
  | CpuCoreId _ | Printk _ _ _ => True
  | _ => False
  end.

(** [t] makes such calls only while preemption is disabled, [n] deep at first. *)
Fixpoint pinned (n : Z) (t : trace kernelE) : Prop :=
  match t with
  | [] => True
  | o :: t' => (on_this_cpu o -> 1 <= n) /\ pinned (n + delta RPreempt o) t'
  end.

(** Whatever the kernel answers, one line is logged: the current CPU and the
    core of that CPU; they are read and shown while preemption is disabled, so
    that the CPU is still the current one, and preemption is enabled again as
    often as it was disabled before the module has loaded. *)
Theorem modinit_pinned :
  always modinit (fun t o => o = Done 0 /\ pinned 0 t /\ (forall r, balanced r t) /\
    exists cpu core, t !! 0%nat = Some (Obs (E := kernelE) GetCpu cpu) /\
      t !! 1%nat = Some (Obs (E := kernelE) (CpuCoreId cpu) core) /\
      printed t = [Log KERN_INFO ("CPU: %u, core: %d" +:+ nl) [AZ cpu; AZ core]]).
Proof.
  intros cpu core [] []. split; [done|]. split; [|split].
  - cbn. unfold delta. cbn. rewrite decide_True by done. cbn. split_and!; lia || tauto.
  - intros r. unfold balanced, delta. cbn. by destruct (decide (r = RPreempt)).
  - by exists cpu, core.
Qed.
