(* ===== verification/DateTime.v ===== *)
(** src/modules/datetime.c: the date and time in the kernel's time zone. *)
From Stdlib Require Import Ascii.
From S2P Require Import Prelude Effects Kernel CStrings Format.

Definition date_fmt : string := "Date and time: %0ld-%02d-%02d %02d:%02d:%02d" +:+ nl.

(** [-sys_tz.tz_minuteswest * 60], an [int]. *)
Definition tz_offset (minuteswest : Z) : Z := s32 (s32 (- minuteswest) * 60).

Definition datetime_init : kprog Z :=
  tz_minuteswest ← kdo SysTzMinuteswest ;
  pr_info ("sys_tz.tz_minuteswest = %d" +:+ nl) [AZ tz_minuteswest] ;;
  tz_dsttime ← kdo SysTzDsttime ;
  pr_info ("sys_tz.tz_dsttime = %d" +:+ nl) [AZ tz_dsttime] ;;
  now ← kdo KtimeGetRealSeconds ;
  minuteswest ← kdo SysTzMinuteswest ;
  t ← kdo (Time64ToTm now (tz_offset minuteswest)) ;
  pr_info date_fmt
    [AL (s64 (tm_year t + 1900)); AZ (s32 (tm_mon t + 1)); AZ (tm_mday t); AZ (tm_hour t);
     AZ (tm_min t); AZ (tm_sec t)] ;;
  mret 0.

Definition datetime_exit : kprog unit := skip.

(** ** The calendar

The proleptic Gregorian calendar, as a count of days. *)
Record civil := Civil {
  year : Z; month : Z; day : Z; hour : Z; minute : Z; second : Z;
}.

Definition leap (y : Z) : bool :=
  (y mod 4 =? 0) && negb (y mod 100 =? 0) || (y mod 400 =? 0).

Definition year_length (y : Z) : Z := if leap y then 366 else 365.

Definition month_length (y m : Z) : Z :=
  if m =? 2 then if leap y then 29 else 28
  else if (m =? 4) || (m =? 6) || (m =? 9) || (m =? 11) then 30
  else 31.

(** Days from the first day of year 1 to the first day of [y]. *)
Definition year_start (y : Z) : Z :=
  365 * (y - 1) + (y - 1) / 4 - (y - 1) / 100 + (y - 1) / 400.

(** Days of [y] before month [m]. *)
Definition month_start (y m : Z) : Z :=
  foldr (fun k acc => month_length y k + acc) 0 (seqZ 1 (m - 1)).

(** Days since 1970-01-01. *)
Definition days (c : civil) : Z :=
  year_start (year c) + month_start (year c) (month c) + day c - 1 - 719162.

(** Seconds since 1970-01-01 00:00:00. *)
Definition seconds (c : civil) : Z :=
  ((days c * 24 + hour c) * 60 + minute c) * 60 + second c.

Definition valid (c : civil) : Prop :=
  1 <= month c <= 12 /\ 1 <= day c <= month_length (year c) (month c) /\
  0 <= hour c < 24 /\ 0 <= minute c < 60 /\ 0 <= second c < 60.

(** The date of a [struct tm]. *)
Definition civil_of_tm (t : tm) : civil :=
  Civil (tm_year t + 1900) (tm_mon t + 1) (tm_mday t) (tm_hour t) (tm_min t) (tm_sec t).

(** What time64_to_tm() promises: the broken-down time [offset] seconds east of
    Greenwich. *)
Definition broken_down (totalsecs offset : Z) (t : tm) : Prop :=
  valid (civil_of_tm t) /\ seconds (civil_of_tm t) = totalsecs + offset.

(** ** The calendar names each second once *)

(** Consecutive blocks of the lengths [len k] from [start k] on do not overlap. *)
Section blocks.
Context (start len : Z -> Z) (lo hi : Z).
Context (Hnext : forall k, lo <= k < hi -> start (k + 1) = start k + len k).
Context (Hlen : forall k, lo <= k < hi -> 0 <= len k).

Lemma blocks_order j k : lo <= j -> j <= k -> k <= hi -> start j <= start k.
Proof.
  intros Hj. revert k. apply (Zlt_lower_bound_ind (fun k => k <= hi -> start j <= start k) j).
  intros k IH Hk Hhi. destruct (Z.eq_dec k j) as [->|]; [done|].
  pose proof (Hnext (k - 1)) as Hn. pose proof (Hlen (k - 1)). replace (k - 1 + 1) with k in Hn by lia.
  rewrite Hn by lia. pose proof (IH (k - 1)). lia.
Qed.

Lemma blocks_inj j k d e :
  lo <= j < hi -> lo <= k < hi -> 1 <= d <= len j -> 1 <= e <= len k ->
  start j + d = start k + e -> j = k /\ d = e.
Proof.
  intros Hj Hk Hd He Heq. assert (j = k) as <-; [|lia].
  destruct (Z.lt_trichotomy j k) as [H|[H|H]]; [|done|].
  - pose proof (blocks_order (j + 1) k). rewrite Hnext in * by lia. lia.
  - pose proof (blocks_order (k + 1) j). rewrite Hnext in * by lia. lia.
Qed.

End blocks.

Lemma div_pred y n : 1 < n -> y / n = (y - 1) / n + (if y mod n =? 0 then 1 else 0).
Proof.
  intros Hn. pose proof (Z.div_mod y n). pose proof (Z.mod_pos_bound y n).
  destruct (Z.eqb_spec (y mod n) 0) as [Hy|Hy].
  - rewrite <- (Z.div_unique (y - 1) n (y / n - 1) (n - 1)); lia.
  - rewrite <- (Z.div_unique (y - 1) n (y / n) (y mod n - 1)); lia.
Qed.

Lemma mod_coarser y n k : 0 < n -> 0 < k -> y mod (n * k) = 0 -> y mod n = 0.
Proof.
  intros Hn Hk H. rewrite (Z.div_mod y (n * k)) by lia.
  rewrite H, Z.add_0_r, <- Z.mul_assoc, Z.mul_comm. apply Z.mod_mul. lia.
Qed.

Lemma year_start_next y : year_start (y + 1) = year_start y + year_length y.
Proof.
  unfold year_start, year_length, leap. replace (y + 1 - 1) with y by lia.
  rewrite (div_pred y 4), (div_pred y 100), (div_pred y 400) by lia.
  pose proof (mod_coarser y 4 25 eq_refl eq_refl : y mod 100 = 0 -> y mod 4 = 0).
  pose proof (mod_coarser y 100 4 eq_refl eq_refl : y mod 400 = 0 -> y mod 100 = 0).
  generalize ((y - 1) / 4) ((y - 1) / 100) ((y - 1) / 400). intros a b c.
  destruct (Z.eqb_spec (y mod 4) 0), (Z.eqb_spec (y mod 100) 0), (Z.eqb_spec (y mod 400) 0);
    cbn; lia.
Qed.

Lemma month_start_next y m : 1 <= m -> month_start y (m + 1) = month_start y m + month_length y m.
Proof.
  intros Hm. unfold month_start. replace (m + 1 - 1) with (m - 1 + 1) by lia.
  rewrite seqZ_app, foldr_app by lia. replace (1 + (m - 1)) with m by lia.
  rewrite seqZ_cons by lia. cbn [foldr Z.pred]. rewrite seqZ_nil by lia. cbn [foldr].
  induction (seqZ 1 (m - 1)) as [|k l IH]; cbn [foldr]; lia.
Qed.

Lemma month_length_pos y m : 0 <= month_length y m.
Proof. unfold month_length. repeat case_match; lia. Qed.

Lemma year_length_months y : month_start y 13 = year_length y.
Proof. unfold month_start, year_length, month_length. cbn. by destruct (leap y). Qed.

(** The day of the year. *)
Lemma year_day y m d :
  1 <= m <= 12 -> 1 <= d <= month_length y m -> 1 <= month_start y m + d <= year_length y.
Proof.
  intros Hm Hd.
  pose proof (blocks_order (month_start y) (month_length y) 1 13) as Ho.
  assert (forall k, 1 <= k < 13 -> month_start y (k + 1) = month_start y k + month_length y k)
    as Hn by (intros; apply month_start_next; lia).
  specialize (Ho Hn (fun k _ => month_length_pos y k)).
  pose proof (Ho 1 m) as H1. pose proof (Ho (m + 1) 13) as H2.
  rewrite year_length_months, Hn in H2 by lia. change (month_start y 1) with 0 in H1. lia.
Qed.

Lemma days_inj c c' :
  valid c -> valid c' -> days c = days c' ->
  year c = year c' /\ month c = month c' /\ day c = day c'.
Proof.
  intros (Hm & Hd & _) (Hm' & Hd' & _) H. unfold days in H.
  pose proof (year_day _ _ _ Hm Hd). pose proof (year_day _ _ _ Hm' Hd').
  assert (forall y, 0 <= year_length y) as Hy by (intros y; unfold year_length; by destruct (leap y)).
  destruct (blocks_inj year_start year_length (Z.min (year c) (year c')) (Z.max (year c) (year c') + 1)
    (fun k _ => year_start_next k) (fun k _ => Hy k) (year c) (year c')
    (month_start (year c) (month c) + day c) (month_start (year c') (month c') + day c'))
    as [Hyear Hday]; [lia..|]. split; [done|]. rewrite <- Hyear in *.
  apply (blocks_inj (month_start (year c)) (month_length (year c)) 1 13);
    [|intros; apply month_length_pos|lia..].
  intros. apply month_start_next. lia.
Qed.

Lemma seconds_inj c c' : valid c -> valid c' -> seconds c = seconds c' -> c = c'.
Proof.
  intros Hc Hc' H. pose proof Hc as (_ & _ & ? & ? & ?). pose proof Hc' as (_ & _ & ? & ? & ?).
  unfold seconds in H. assert (days c = days c') as Hd by lia.
  destruct (days_inj _ _ Hc Hc' Hd) as (? & ? & ?). destruct c, c'; cbn in *.
  f_equal; lia || done.
Qed.

(** A date of the years that a clock of seconds can show. *)
Lemma civil_year c :
  valid c -> -10 ^ 10 < seconds c < 10 ^ 10 -> 1600 < year c < 2400.
Proof.
  intros Hc Hs. pose proof Hc as (Hm & Hd & ? & ? & ?).
  pose proof (year_day _ _ _ Hm Hd) as Hy.
  assert (year_length (year c) <= 366) by (unfold year_length; destruct (leap (year c)); lia).
  assert (-120000 < days c < 120000) as Hdays by (unfold seconds in Hs; lia).
  unfold days, year_start in Hdays. Z.to_euclidean_division_equations; lia.
Qed.

(** The date that a text shows. *)
Definition read_date (text : string) : option civil :=
  s ← after "Date and time: " text ;
  '(y, s) ← field "-" s ;
  '(mo, s) ← field "-" s ;
  '(d, s) ← field " " s ;
  '(h, s) ← field ":" s ;
  '(mi, s) ← field ":" s ;
  '(sec, s) ← field "010" s ;
  if String.eqb s EmptyString then Some (Civil y mo d h mi sec) else None.

(** The date and time in the text of the last line of the log. *)
Definition shown_date (l : list logline) : option civil :=
  line ← last l ;
  text ← render (log_fmt line) (log_args line) ;
  read_date text.

Definition date_args (c : civil) : list arg :=
  [AL (year c); AZ (month c); AZ (day c); AZ (hour c); AZ (minute c); AZ (second c)].

(** [%02d] *)
Definition two (n : Z) : string := (if n <? 10 then "0"%string else EmptyString) +:+ dec n.

Definition date_text (c : civil) : string :=
  "Date and time: " +:+ dec (year c) +:+ String "-" (two (month c) +:+ String "-" (
  two (day c) +:+ String " " (two (hour c) +:+ String ":" (two (minute c) +:+ String ":" (
  two (second c) +:+ String "010" EmptyString))))).

Lemma render_date c : valid c -> 0 <= year c < 2 ^ 63 ->
  render date_fmt (date_args c) = Some (date_text c).
Proof.
  intros (Hm & Hd & Hh & Hmi & Hs) Hy.
  assert (month_length (year c) (month c) < 100)
    by (unfold month_length; repeat case_match; lia).
  unfold render.
  let i := eval vm_compute in (items None date_fmt) in change (items None date_fmt) with i.
  unfold date_args. cbn [fill]. rewrite show_ld, !show_02d by lia. done.
Qed.

Lemma read_date_text c : valid c -> 0 <= year c < 2 ^ 63 -> read_date (date_text c) = Some c.
Proof.
  intros (Hm & Hd & Hh & Hmi & Hs) Hy.
  assert (month_length (year c) (month c) < 100)
    by (unfold month_length; repeat case_match; lia).
  unfold read_date, date_text, two. rewrite after_app. cbn [mbind option_bind].
  rewrite field_dec by (done || unfold in_u64; lia).
  cbn [mbind option_bind]. do 5 (rewrite field_02d by (done || lia); cbn [mbind option_bind]).
  by destruct c.
Qed.

(** C36. The module logs the time zone and the local date and time: the date in the text of the last line
    is a date of the calendar, it is the UTC time of the clock less 60 seconds for
    each minute west of Greenwich, and no other date is. No number
    overflows, for a clock below [2 ^ 33] seconds (the year 2242) and a time zone of
    less than a million minutes. *)
Theorem datetime_shows_local_time (says : forall c : kcall, kans c) now west dst :
  says SysTzMinuteswest = west -> says SysTzDsttime = dst ->
  says KtimeGetRealSeconds = now ->
  0 <= now < 2 ^ 33 -> -10 ^ 6 < west < 10 ^ 6 ->
  broken_down now (tz_offset west) (says (Time64ToTm now (tz_offset west))) ->
  let '(t, o) := run (fixed says) datetime_init in
  o = Done 0 /\
  take 2 (printed t) =
    [Log KERN_INFO ("sys_tz.tz_minuteswest = %d" +:+ nl) [AZ west];
     Log KERN_INFO ("sys_tz.tz_dsttime = %d" +:+ nl) [AZ dst]] /\
  length (printed t) = 3%nat /\
  exists c, shown_date (printed t) = Some c /\ valid c /\ seconds c = now - west * 60 /\
    forall c', valid c' -> seconds c' = now - west * 60 -> c' = c.
Proof.
  intros Hw Hd Hn Hnow Hwest [Hv Hs].
  assert (tz_offset west = - west * 60) as Hoff.
  { unfold tz_offset. rewrite (s32_id (- west)), s32_id; lia. }
  rewrite Hoff in Hv, Hs. set (tm := says (Time64ToTm now (- west * 60)) : tm) in *.
  set (c := civil_of_tm tm) in *.
  assert (logs says datetime_init
    [Log KERN_INFO ("sys_tz.tz_minuteswest = %d" +:+ nl) [AZ west];
     Log KERN_INFO ("sys_tz.tz_dsttime = %d" +:+ nl) [AZ dst];
     Log KERN_INFO date_fmt (date_args c)] 0) as Hl.
  { unfold datetime_init. pose proof (civil_year c Hv) as Hy. pose proof Hv as (Hm & _).
    apply (logs_call says SysTzMinuteswest); [done|]. rewrite Hw. apply logs_printk_then.
    apply (logs_call says SysTzDsttime); [done|]. rewrite Hd. apply logs_printk_then.
    apply (logs_call says KtimeGetRealSeconds); [done|]. rewrite Hn.
    apply (logs_call says SysTzMinuteswest); [done|]. rewrite Hw, Hoff.
    apply (logs_call says (Time64ToTm now (- west * 60))); [done|]. fold tm.
    rewrite s64_id, s32_id by (subst c; cbn in *; lia).
    apply logs_printk_then, logs_ret. }
  apply logs_run in Hl as [Ho Hp]. destruct (run (fixed says) datetime_init) as [t o].
  cbn [fst snd] in Ho, Hp. rewrite Hp. split_and!; [done|done|done|]. exists c.
  assert (seconds c = now - west * 60) as Hsec by lia.
  pose proof (civil_year c Hv ltac:(lia)).
  assert (0 <= year c < 2 ^ 63) as Hy by lia.
  split_and!; [|done|done|].
  { cbn [shown_date last mbind option_bind log_fmt log_args]. rewrite render_date by done.
    by apply read_date_text. }
  intros c' Hv' Hs'. apply seconds_inj; [done|done|lia].
Qed.

(** Rome in winter, 2023-11-14 23:13:20. *)
Definition demo_clock (c : kcall) : kans c :=
  match c return kans c with
  | SysTzMinuteswest => -60
  | SysTzDsttime => 0
  | KtimeGetRealSeconds => 1700000000
  | Time64ToTm _ _ => Tm 20 13 23 14 10 123
  | c' => kdefault c'
  end.

Lemma datetime_shows_local_time_witness :
  let '(t, o) := run (fixed demo_clock) datetime_init in
  o = Done 0 /\
  take 2 (printed t) =
    [Log KERN_INFO ("sys_tz.tz_minuteswest = %d" +:+ nl) [AZ (-60)];
     Log KERN_INFO ("sys_tz.tz_dsttime = %d" +:+ nl) [AZ 0]] /\
  length (printed t) = 3%nat /\
  exists c, shown_date (printed t) = Some c /\ valid c /\ seconds c = 1700003600 /\
    forall c', valid c' -> seconds c' = 1700003600 -> c' = c.
Proof.
  apply (datetime_shows_local_time demo_clock 1700000000 (-60) 0);
    [done|done|done|lia|lia|]. split; [|vm_compute; done].
  repeat split; vm_compute; discriminate.
Defined.
