(* ===== verification/Init.v ===== *)
(** src/myinit/init.c: a minimal init process. It mounts the pseudo file systems,
runs a shell and powers the machine off. *)
From S2P Require Import Prelude Effects Libc.

Definition LOG_PREFIX : string := "[init] ".

Definition log (msg : string) : uprog unit := fprintf Stderr (LOG_PREFIX +:+ msg) [].

Definition logf (fmt : string) (args : list arg) : uprog unit :=
  fprintf Stderr (LOG_PREFIX +:+ fmt) args.

Definition log_perror (msg : string) : uprog unit := udo (Perror (LOG_PREFIX +:+ msg)).

Record mount := MkMount {
  src : string;
  target : string;
  fs_type : string;
  flags : Z;
  data : Z
}.

Definition mounts : list mount :=
  [MkMount "nodev" "/proc" "proc" 0 0; MkMount "nodev" "/sys" "sysfs" 0 0;
   MkMount "nodev" "/sys/kernel/debug" "debugfs" 0 0].

Definition EEXIST : Z := 17.

(** The loop of [do_mounts] over the table. *)
Fixpoint do_mounts_from (ms : list mount) : uprog unit :=
  match ms with
  | [] => skip
  | m :: ms' =>
      res ← udo (Mkdir (target m) 365) ;     (* 0555 *)
      errno ← (if negb (res =? 0) then udo GetErrno else mret 0) ;
      if negb (res =? 0) && negb (errno =? EEXIST) then
        err ← udo (Strerror errno) ;
        logf ("Failed to create %s: %s" +:+ nl) [AS (target m); AS err]
      else
        res ← udo (Mount (src m) (target m) (fs_type m) (flags m) (data m)) ;
        (if negb (res =? 0) then
           errno ← udo GetErrno ;
           err ← udo (Strerror errno) ;
           logf ("Failed to mount %s at %s: %s" +:+ nl)
             [AS (fs_type m); AS (target m); AS err]
         else skip) ;;
        do_mounts_from ms'
  end.

Definition do_mounts : uprog unit := do_mounts_from mounts.

Definition open_console : uprog unit :=
  fp ← udo (Freopen "/dev/console" "r") ;
  when (fp =? 0) (log_perror "Failed to open /dev/console as stdin").

(** The status macros of <sys/wait.h>. *)
Definition WTERMSIG (s : Z) : Z := Z.land s 0x7f.

Definition WIFEXITED (s : Z) : bool := WTERMSIG s =? 0.

Definition WEXITSTATUS (s : Z) : Z := Z.shiftr (Z.land s 0xff00) 8.

Definition WIFSIGNALED (s : Z) : bool := 0 <? Z.shiftr (swrap 8 (WTERMSIG s + 1)) 1.

(** [vfork] returns in both processes: the answer 0 is the child's execution.
    [execl] only returns when it fails, as [reboot] does below. *)
Definition fork_into_shell_and_wait : uprog unit :=
  child ← udo Vfork ;
  if child =? -1 then log_perror "vfork failed" else
  if child =? 0 then
    res ← udo (Execl "/linuxrc" ["sh"; "+m"]%string) ;
    if negb (res =? -1) then Halt Replaced else
    log_perror "Child shell execl failed" ;;
    _exit 69
  else
  '(pid, wstatus) ← udo Wait ;
  if pid =? -1 then log_perror "Child shell wait failed" else
  if WIFEXITED wstatus then
    logf ("Child exited with status %d." +:+ nl) [AZ (WEXITSTATUS wstatus)]
  else if WIFSIGNALED wstatus then
    logf ("Child terminated by signal %d." +:+ nl) [AZ (WTERMSIG wstatus)]
  else log ("WTF?" +:+ nl).

Definition LINUX_REBOOT_CMD_POWER_OFF : Z := 0x4321fedc.

Definition shutdown : uprog unit :=
  udo Sync ;;
  res ← udo (Reboot LINUX_REBOOT_CMD_POWER_OFF) ;
  if negb (res =? -1) then Halt PoweredOff else
  log_perror "reboot failed" ;;
  _exit 1.

Definition main : uprog Z :=
  log ("Yo wassup!" +:+ nl) ;;
  do_mounts ;;
  open_console ;;
  fork_into_shell_and_wait ;;
  shutdown ;;
  mret 1.

(** ** Powering off *)

(** The execution is the child's. *)
Definition in_child (o : obs userE) : bool :=
  match o with
  | Obs c a =>
      match c return uans c -> bool with
      | Vfork => fun pid => pid =? 0
      | _ => fun _ => false
      end a
  end.

(** A call that ends the machine's work. *)
Definition halting (o : obs userE) : bool :=
  match obs_call o with
  | Sync | Reboot _ => true
  | _ => false
  end.

(** [p] returns, and does not fork, sync or reboot. *)
Definition calm {A} (p : uprog A) : Prop :=
  always p (fun t o => (exists a, o = Done a) /\
                       existsb in_child t = false /\ existsb halting t = false).

Lemma calm_ret {A} (a : A) : calm (mret a).
Proof. by repeat split; [eexists|..]. Qed.

Lemma calm_bind {A B} (p : uprog A) (f : A -> uprog B) :
  calm p -> (forall a, calm (f a)) -> calm (p ≫= f).
Proof.
  intros Hp Hf. apply always_bind. eapply always_mono; [|exact Hp].
  intros t o ([a ->] & Hc & Hh). eapply always_mono; [|exact (Hf a)].
  intros t' o' (Ho & Hc' & Hh'). by rewrite !existsb_app, Hc, Hh, Hc', Hh'.
Qed.

Lemma calm_do c :
  (forall a, in_child (Obs (E := userE) c a) = false) ->
  halting (Obs (E := userE) c (udefault c)) = false -> calm (udo c).
Proof.
  intros Hc Hh a. cbn [always existsb]. rewrite Hc. split; [by eexists|].
  split; [done|]. by rewrite orb_false_r.
Qed.

Ltac calm_tac :=
  repeat first
    [ apply calm_ret
    | apply calm_do; done
    | apply calm_bind; [|intros ?]
    | assumption
    | match goal with |- calm (if ?b then _ else _) => destruct b end ].

Lemma do_mounts_calm ms : calm (do_mounts_from ms).
Proof.
  induction ms as [|m ms IH]; [apply calm_ret|].
  cbn [do_mounts_from]. unfold logf, fprintf, skip. calm_tac.
Qed.

Lemma open_console_calm : calm open_console.
Proof. unfold open_console, log_perror, when, skip. calm_tac. Qed.

(** What the fork leaves: the parent goes on, the child never does. *)
Lemma fork_always :
  always fork_into_shell_and_wait (fun t o => existsb halting t = false /\
    if existsb in_child t then o = Halted (ExitedNow 69) \/ o = Halted Replaced
    else o = Done tt).
Proof.
  unfold fork_into_shell_and_wait. intros child. cbn.
  destruct (child =? -1) eqn:H1; cbn.
  { intros []. by replace (child =? 0) with false by lia. }
  destruct (child =? 0) eqn:H0; cbn.
  { intros res. destruct (res =? -1); cbn; [intros []|]; auto. }
  intros [pid wstatus]. destruct (pid =? -1); [by intros []|].
  destruct (WIFEXITED wstatus); [by intros []|].
  destruct (WIFSIGNALED wstatus); by intros [].
Qed.

(** The child ends as the shell or with status 69; the parent syncs, then asks for
    the power to be turned off, and ends there. *)
Definition powers_off (t : trace userE) (o : outcome Z) : Prop :=
  if existsb in_child t then
    (o = Halted (ExitedNow 69) \/ o = Halted Replaced) /\ existsb halting t = false
  else exists t' res rest,
    t = t' ++ [Obs (E := userE) Sync tt;
               Obs (E := userE) (Reboot LINUX_REBOOT_CMD_POWER_OFF) res] ++ rest /\
    existsb halting t' = false /\ existsb halting rest = false /\
    o = Halted (if res =? -1 then ExitedNow 1 else PoweredOff).

Lemma calm_then {A} (p : uprog A) (f : A -> uprog Z) :
  calm p -> (forall a, always (f a) powers_off) -> always (p ≫= f) powers_off.
Proof.
  intros Hp Hf. apply always_bind. eapply always_mono; [|exact Hp].
  intros t o ([a ->] & Hc & Hh). eapply always_mono; [|exact (Hf a)].
  intros t' o'. unfold powers_off. rewrite !existsb_app, Hc, Hh. cbn [orb].
  destruct (existsb in_child t'); [done|]. intros (t1 & res & rest & -> & H1 & H2 & ->).
  exists (t ++ t1), res, rest. rewrite <- app_assoc. split; [done|].
  by rewrite existsb_app, Hh, H1.
Qed.

(** C26. Whatever fails on the way (mounts, console, fork, wait), the init process
    syncs and asks for the machine to be powered off, as its last actions, and
    never returns from [main]; if powering off fails it exits with status 1. The
    child that [vfork] creates becomes the shell or exits with status 69: it
    never syncs or reboots. *)
Theorem init_powers_off :
  always main powers_off.
Proof.
  unfold main. apply calm_then; [apply calm_do; done|intros []].
  apply calm_then; [apply do_mounts_calm|intros []].
  apply calm_then; [apply open_console_calm|intros []].
  apply always_bind. eapply always_mono; [|exact fork_always].
  intros t o [Ht Ho]. destruct (existsb in_child t) eqn:Hc.
  { destruct Ho as [-> | ->]; unfold powers_off; rewrite Hc; auto. }
  subst o. intros [] res. cbn.
  destruct (res =? -1) eqn:Hr; cbn; [intros []|]; unfold powers_off; rewrite existsb_app, Hc; cbn.
  - eexists t, res, [_]. by rewrite Hr.
  - exists t, res, []. by rewrite Hr.
Qed.
