(* ===== verification/FtraceHelper.v ===== *)
(** src/userspace/ftrace_helper.c: a template that runs some code under the
function tracer of the kernel and prints the trace. *)
From S2P Require Import Prelude Effects CStrings Libc.

Definition TRACEFS_PATH : string := "/sys/kernel/tracing".

(** [errf_exit]: the message, without the result of [errno] being kept. *)
Definition errf_exit {A} (fmt : string) (args : list arg) : uprog A :=
  fprintf Stderr fmt args ;;
  errno ← udo GetErrno ;
  err ← udo (Strerror errno) ;
  fprintf Stderr (": errno %d %s" +:+ nl) [AZ errno; AS err] ;;
  exit EXIT_FAILURE.

Definition open_write_close (path data : string) : uprog unit :=
  let sz := Z.of_nat (String.length data) in
  fd ← udo (Open path O_WRONLY) ;
  if fd =? -1 then
    errf_exit ("open " +:+ dq +:+ "%s" +:+ dq +:+ " failed") [AS path]
  else
  res ← udo (Write fd data) ;
  if negb (res =? sz) then
    errf_exit ("write to " +:+ dq +:+ "%s" +:+ dq +:+ " failed") [AS path]
  else
  udo (Close fd) ;;
  mret tt.

Definition set_tracer (name : string) : uprog unit :=
  open_write_close (TRACEFS_PATH +:+ "/current_tracer") name.

Definition set_filter (name : string) : uprog unit :=
  open_write_close (TRACEFS_PATH +:+ "/set_ftrace_filter") name.

(** [sprintf] of "%d": it does not fail, and an [int] fits in 32 bytes. *)
Definition sprintf_d (n : Z) : string :=
  if n <? 0 then "-" +:+ dec (- n) else dec n.

Definition set_pid (pid : Z) : uprog unit :=
  open_write_close (TRACEFS_PATH +:+ "/set_ftrace_pid") (sprintf_d pid).

(** [start_tracing] and [stop_tracing]: one byte to [tracing_on_fd]. *)
Definition write_tracing_on (tracing_on_fd : Z) (data : string) : uprog unit :=
  res ← udo (Write tracing_on_fd data) ;
  if negb (res =? 1) then
    errf_exit ("write to " +:+ dq +:+ TRACEFS_PATH +:+ "/tracing_on" +:+ dq +:+ " failed") []
  else mret tt.

Definition start_tracing (tracing_on_fd : Z) : uprog unit := write_tracing_on tracing_on_fd "1".

Definition stop_tracing (tracing_on_fd : Z) : uprog unit := write_tracing_on tracing_on_fd "0".

Definition clear_trace : uprog unit := open_write_close (TRACEFS_PATH +:+ "/trace") nl.

(** One iteration of the loop of [dump_trace]. *)
Definition dump_step (fp : Z) (_ : unit) : uprog (unit + unit) :=
  buf ← udo (Fread fp 0x100) ;
  if (String.length buf =? 0)%nat then mret (inr tt) else
  udo (Fwrite Stdout buf) ;;
  mret (inl tt).

Definition dump_trace (fuel : nat) : uprog unit :=
  fp ← udo (Fopen (TRACEFS_PATH +:+ "/trace") "r") ;
  if fp =? 0 then
    errf_exit ("fopen " +:+ dq +:+ TRACEFS_PATH +:+ "/trace" +:+ dq +:+ " failed") []
  else
  loop fuel (dump_step fp) tt ;;
  udo (Fclose fp).

(** The code to trace, which the file is edited to hold, is empty. *)
Definition main (fuel : nat) : uprog Z :=
  tracing_on_fd ← udo (Open (TRACEFS_PATH +:+ "/tracing_on") O_WRONLY) ;
  if tracing_on_fd =? -1 then
    errf_exit ("open " +:+ dq +:+ TRACEFS_PATH +:+ "/tracing_on" +:+ dq +:+ " failed") []
  else
  stop_tracing tracing_on_fd ;;
  clear_trace ;;
  set_tracer "function" ;;
  pid ← udo Getpid ;
  set_pid pid ;;
  set_filter nl ;;
  start_tracing tracing_on_fd ;;
  stop_tracing tracing_on_fd ;;
  dump_trace fuel ;;
  mret 0.

(** ** Trace files

Descriptors of the files of tracefs, the writes that were done, and what is
left to read of the trace; each call that can fail does so when the next of
[faults] says so. *)
Record tracefs := Tracefs {
  fds : gmap Z string;
  next_fd : Z;
  written_to : list (string * string);
  unread : string;
  out : string;
  faults : list bool;
}.

Section machine.
(** What the kernel shows in the trace when it is read, and the process. *)
Context (content : string) (pid : Z).

Definition failing (s : tracefs) : bool := default false (head (faults s)).

Definition after_fault (s : tracefs) : tracefs :=
  Tracefs (fds s) (next_fd s) (written_to s) (unread s) (out s) (tail (faults s)).

Definition hd_tracefs : handler userE tracefs := fun s c =>
  match c return option (uans c * tracefs) with
  | Open path _ =>
      if failing s then Some (-1, after_fault s) else
      Some (next_fd s, Tracefs (<[next_fd s := path]> (fds s)) (next_fd s + 1) (written_to s)
        (unread s) (out s) (tail (faults s)))
  | Write fd data =>
      match fds s !! fd with
      | None => Some (-1, s)
      | Some path =>
          if failing s then Some (-1, after_fault s) else
          Some (Z.of_nat (String.length data), Tracefs (fds s) (next_fd s)
            (written_to s ++ [(path, data)]) (unread s) (out s) (tail (faults s)))
      end
  | Close fd =>
      Some (0, Tracefs (delete fd (fds s)) (next_fd s) (written_to s) (unread s) (out s)
        (faults s))
  | Fopen _ _ =>
      if failing s then Some (0, after_fault s) else
      Some (1, Tracefs (fds s) (next_fd s) (written_to s) content (out s) (tail (faults s)))
  | Fread _ n =>
      Some (String.substring 0 (Z.to_nat n) (unread s), Tracefs (fds s) (next_fd s) (written_to s)
        (String.substring (Z.to_nat n) (String.length (unread s)) (unread s)) (out s) (faults s))
  | Fwrite Stdout data =>
      Some (tt, Tracefs (fds s) (next_fd s) (written_to s) (unread s) (out s +:+ data) (faults s))
  | Getpid => Some (pid, s)
  | c' => Some (udefault c', s)
  end.

Definition initial (fs : list bool) : tracefs := Tracefs empty 3 [] EmptyString EmptyString fs.

(** What the program means to write, in order. *)
Definition plan : list (string * string) :=
  [(TRACEFS_PATH +:+ "/tracing_on", "0"%string);
   (TRACEFS_PATH +:+ "/trace", nl);
   (TRACEFS_PATH +:+ "/current_tracer", "function"%string);
   (TRACEFS_PATH +:+ "/set_ftrace_pid", sprintf_d pid);
   (TRACEFS_PATH +:+ "/set_ftrace_filter", nl);
   (TRACEFS_PATH +:+ "/tracing_on", "1"%string);
   (TRACEFS_PATH +:+ "/tracing_on", "0"%string)].

(** ** Doing part of a plan *)

Definition faultless (s : tracefs) : Prop := Forall (.= false) (faults s).

(** The state goes from [s] to [s'] by the writes [l]. *)
Record advanced (s s' : tracefs) (l : list (string * string)) : Prop := {
  adv_written : written_to s' = written_to s ++ l;
  adv_fds : fds s' = fds s;
  adv_next : next_fd s <= next_fd s';
  adv_out : out s' = out s;
  adv_faultless : faultless s -> faultless s';
}.

Lemma advanced_trans s s' s'' l l' :
  advanced s s' l -> advanced s' s'' l' -> advanced s s'' (l ++ l').
Proof using.
  intros [] []. split; [|congruence|lia|congruence|auto].
  rewrite app_assoc. congruence.
Qed.

(** [p] returns in a state that satisfies [Q], or exits with a failure after some
    of the writes [l]; without faults it returns. *)
Definition does {A} (s : tracefs) (p : uprog A) (l : list (string * string))
    (Q : tracefs -> A -> Prop) : Prop :=
  (exists s' a, exec hd_tracefs s p = (s', Done a) /\ Q s' a) \/
  (exists s' k, exec hd_tracefs s p = (s', Halted (Exited EXIT_FAILURE)) /\
    written_to s' = written_to s ++ take k l /\ out s' = out s /\ ~ faultless s).

(** [p] does the writes [l]. *)
Definition performs (s : tracefs) (p : uprog unit) (l : list (string * string)) : Prop :=
  does s p l (fun s' _ => advanced s s' l).

Lemma does_bind {A} s p (f : unit -> uprog A) l l' Q :
  performs s p l -> (forall s', advanced s s' l -> does s' (f tt) l' Q) ->
  does s (p ≫= f) (l ++ l') Q.
Proof.
  unfold does. rewrite exec_bind.
  intros [(s1 & [] & -> & Ha)|(s1 & k & -> & Hw & Ho & Hf)] Hrest.
  - destruct (Hrest s1 Ha) as [Hok|(s2 & k & He2 & Hw & Ho & Hf)]; [by left|].
    right. exists s2, (length l + k)%nat. destruct Ha as [Haw _ _ Hao Haf].
    split_and!; [done| |congruence|tauto].
    rewrite take_app_add, app_assoc. congruence.
  - right. exists s1, (k `min` length l)%nat.
    split_and!; [done| |done|done].
    rewrite take_app_le by lia. rewrite Hw. f_equal.
    destruct (Nat.min_spec k (length l)) as [[? ->]|[? ->]]; [done|].
    by rewrite !take_ge by lia.
Qed.

Lemma exec_errf_exit {A} s fmt args :
  exec hd_tracefs s (errf_exit (A := A) fmt args) = (s, Halted (Exited EXIT_FAILURE)).
Proof. done. Qed.

Lemma failing_faults s : failing s = true -> ~ faultless s.
Proof.
  unfold failing, faultless. destruct (faults s) as [|b bs]; [done|]. cbn. intros ->.
  by inversion 1.
Qed.

Lemma faultless_tail s : faultless s -> Forall (.= false) (tail (faults s)).
Proof. unfold faultless. by destruct 1. Qed.

(** [tracing_on] is open, as descriptor 3, and nothing else. *)
Definition ready (s : tracefs) : Prop :=
  fds s = {[3 := TRACEFS_PATH +:+ "/tracing_on"]} /\ 4 <= next_fd s.

Lemma advanced_ready s s' l : ready s -> advanced s s' l -> ready s'.
Proof. intros [Hf Hn] []. split; [congruence|lia]. Qed.

Lemma failed {A} s s' (p : uprog A) l Q :
  exec hd_tracefs s p = (s', Halted (Exited EXIT_FAILURE)) ->
  written_to s' = written_to s -> out s' = out s -> ~ faultless s -> does s p l Q.
Proof. intros He Hw Ho Hf. right. exists s', 0%nat. by rewrite app_nil_r. Qed.

Lemma open_write_close_performs s path data :
  ready s -> performs s (open_write_close path data) [(path, data)].
Proof.
  intros [Hf Hn]. destruct (failing s) eqn:H1.
  { apply (failed s (after_fault s)); [|done..|by apply failing_faults].
    cbn. rewrite H1. reflexivity. }
  set (s1 := Tracefs (<[next_fd s := path]> (fds s)) (next_fd s + 1) (written_to s)
    (unread s) (out s) (tail (faults s))).
  assert (faultless s -> faultless s1) as Hs1 by apply faultless_tail.
  assert ((next_fd s =? -1) = false) as Hne by lia.
  destruct (failing s1) eqn:H2.
  { apply (failed s (after_fault s1)); [|done..|].
    - cbn -[Z.eqb Z.of_nat]. rewrite H1. cbn -[Z.eqb Z.of_nat]. rewrite Hne.
      cbn -[Z.eqb Z.of_nat]. rewrite lookup_insert_eq.
      fold s1. rewrite H2. cbn -[Z.eqb Z.of_nat]. rewrite (proj2 (Z.eqb_neq _ _)); [done|lia].
    - intros Hl. by eapply (failing_faults s1); [|apply Hs1]. }
  left. eexists _, tt. split.
  - cbn -[Z.eqb Z.of_nat]. rewrite H1. cbn -[Z.eqb Z.of_nat]. rewrite Hne.
      cbn -[Z.eqb Z.of_nat]. rewrite lookup_insert_eq.
    fold s1. rewrite H2. cbn -[Z.eqb Z.of_nat]. rewrite Z.eqb_refl. reflexivity.
  - split; cbn; [done| |lia|done|].
    + apply delete_insert_id. rewrite Hf. by rewrite lookup_singleton_ne by lia.
    + intros Hl. by apply (faultless_tail s1), Hs1.
Qed.

Lemma write_tracing_on_performs s d :
  ready s -> String.length d = 1%nat ->
  performs s (write_tracing_on 3 d) [(TRACEFS_PATH +:+ "/tracing_on", d)].
Proof.
  intros [Hf Hn] Hd. destruct (failing s) eqn:H1.
  { apply (failed s (after_fault s)); [|done..|by apply failing_faults].
    cbn. rewrite Hf, lookup_singleton_eq, H1. reflexivity. }
  left. eexists _, tt. split.
  - cbn. rewrite Hf, lookup_singleton_eq, H1, Hd. reflexivity.
  - split; cbn; [done|by rewrite Hf|lia|done|apply faultless_tail].
Qed.

(** ** Printing the trace *)

Lemma substring_split n m u :
  (String.length u <= m)%nat -> String.substring 0 n u +:+ String.substring n m u = u.
Proof using.
  revert n m. induction u as [|c u IH]; intros [|n] m Hm; cbn in Hm |- *; [by destruct m|by destruct m|..].
  - destruct m as [|m]; [lia|]. specialize (IH 0%nat m).
    replace (String.substring 0 0 u) with EmptyString in IH by by destruct u.
    change (String c (String.substring 0 m u) = String c u). f_equal. apply IH. lia.
  - change (String c (String.substring 0 n u +:+ String.substring n m u) = String c u).
    f_equal. apply IH. lia.
Qed.

Lemma substring_nonempty n u :
  (0 < n)%nat -> (0 < String.length u)%nat -> (0 < String.length (String.substring 0 n u))%nat.
Proof using. destruct n, u; cbn; lia. Qed.

(** The loop copies what is left of the trace to the output. *)
Lemma dump_loop fuel s fp :
  (String.length (unread s) < fuel)%nat ->
  exists s', exec hd_tracefs s (loop fuel (dump_step fp) tt) = (s', Done tt) /\
    out s' = out s +:+ unread s /\ written_to s' = written_to s.
Proof.
  revert s. induction fuel as [|fuel IH]; intros s Hl; [lia|]. cbn [loop].
  set (buf := String.substring 0 (Z.to_nat 0x100) (unread s)).
  set (rest := String.substring (Z.to_nat 0x100) (String.length (unread s)) (unread s)).
  assert (buf +:+ rest = unread s) as Hsplit by by apply substring_split.
  rewrite exec_bind. unfold dump_step at 1. cbn -[String.substring Z.to_nat].
  fold buf rest. destruct (String.length buf =? 0)%nat eqn:Hb.
  - cbn. eexists. split; [done|]. cbn. split; [|done].
    apply Nat.eqb_eq in Hb. destruct (unread s) as [|c u] eqn:Hu; [by rewrite append_nil|].
    pose proof (substring_nonempty (Z.to_nat 0x100) (String c u)).
    unfold buf in Hb. cbn [String.length] in *. lia.
  - apply Nat.eqb_neq in Hb. cbn -[String.substring Z.to_nat].
    destruct (IH (Tracefs (fds s) (next_fd s) (written_to s) rest (out s +:+ buf) (faults s)))
      as (s' & He & Ho & Hw).
    { cbn. apply (f_equal String.length) in Hsplit. rewrite length_append in Hsplit. lia. }
    exists s'. split; [exact He|]. split; [|exact Hw]. rewrite Ho. cbn.
    by rewrite append_assoc, Hsplit.
Qed.

Lemma dump_trace_does s fuel Q :
  (String.length content < fuel)%nat ->
  (forall s', out s' = out s +:+ content -> written_to s' = written_to s -> Q s' 0) ->
  does s (dump_trace fuel ;; mret 0) [] Q.
Proof.
  intros Hfuel HQ. destruct (failing s) eqn:Hf.
  { apply (failed s (after_fault s)); [|done..|by apply failing_faults].
    cbn. rewrite Hf. reflexivity. }
  left. destruct (dump_loop fuel (Tracefs (fds s) (next_fd s) (written_to s) content (out s)
    (tail (faults s))) 1) as (s' & He & Ho & Hw); [done|].
  exists s', 0. split; [|by apply HQ].
  rewrite exec_bind. unfold dump_trace. rewrite exec_bind. cbn -[loop]. rewrite Hf.
  cbn -[loop]. rewrite exec_bind, He. reflexivity.
Qed.

Lemma does_getpid {A} s (f : Z -> uprog A) l Q :
  does s (f pid) l Q -> does s (udo Getpid ≫= f) l Q.
Proof. done. Qed.

(** The next write of the plan, from a state reached by the writes before it. *)
Ltac next_write H lem :=
  match type of H with
  | advanced ?s0 ?s ?l /\ _ =>
      apply (does_bind _ _ _ [_]);
      [apply lem; first [apply H | done]|];
      let s' := fresh "s" in let Ha := fresh "Ha" in
      intros s' Ha;
      assert (advanced s0 s' (l ++ [_]) /\ ready s')
        as H' by (split; [eapply advanced_trans; [apply H|exact Ha]|
                          eapply advanced_ready; [apply H|exact Ha]]);
      clear H; rename H' into H; clear Ha
  end.

(** Replaces the execution in the goal by its result. *)
Ltac by_result He :=
  match type of He with
  | _ = ?r => match goal with |- context [exec hd_tracefs ?s ?p] =>
      replace (exec hd_tracefs s p) with r by (symmetry; exact He) end
  end.

(** C32. The program writes to the files of tracefs exactly what it means to, in
    order: tracing is switched on only once the old trace is cleared and the
    tracer, the process and the filter are set, and it is off again before the
    trace is printed, completely and as the only output. If a call fails it
    exits with a failure at once, having done a part of the plan and printed
    nothing; if none does it succeeds. *)
Theorem main_follows_plan fs fuel :
  (String.length content < fuel)%nat ->
  let '(s, o) := exec hd_tracefs (initial fs) (main fuel) in
  (o = Done 0 /\ written_to s = plan /\ out s = content) \/
  (o = Halted (Exited EXIT_FAILURE) /\ (exists k, written_to s = take k plan) /\
   out s = EmptyString /\ ~ Forall (.= false) fs).
Proof.
  intros Hfuel. unfold main. rewrite exec_bind. cbn -[open_write_close stop_tracing clear_trace
    set_tracer set_pid set_filter start_tracing dump_trace].
  destruct (failing (initial fs)) eqn:Hf.
  { cbn. right. split_and!; [done|by exists 0%nat|done|by apply (failing_faults _ Hf)]. }
  set (s0 := Tracefs _ _ _ _ _ _). cbn [Z.eqb].
  assert (ready s0) as H0 by by split.
  match goal with |- context [exec hd_tracefs s0 ?p] =>
    assert (does s0 p plan (fun s a => a = 0 /\ written_to s = plan /\ out s = content)) as Hd end.
  { assert (advanced s0 s0 [] /\ ready s0) as H.
    { split; [split; [by rewrite app_nil_r|done|lia|done|done]|done]. }
    unfold plan. next_write H write_tracing_on_performs.
    next_write H open_write_close_performs. next_write H open_write_close_performs.
    apply does_getpid. next_write H open_write_close_performs.
    next_write H open_write_close_performs. next_write H write_tracing_on_performs.
    next_write H write_tracing_on_performs.
    apply dump_trace_does; [done|]. intros s' Ho Hw. destruct H as [[Hws _ _ Hos _] _].
    rewrite Ho, Hw, Hws, Hos. done. }
  destruct Hd as [(s' & a & He & -> & Hw & Ho)|(s' & k & He & Hw & Ho & Hn)].
  - by_result He. by left.
  - by_result He. right. split_and!; [done|by exists k|done|].
    intros Hall. apply Hn, (faultless_tail (initial fs)), Hall.
Qed.

End machine.

(** ** Witness: the trace of process 42, read in one piece; and a tracer that is
    refused, the sixth call that can fail. *)
Lemma main_follows_plan_witness :
  (exec (hd_tracefs "main <- read" 42) (initial []) (main 20)).2 = Done 0 /\
  (exec (hd_tracefs "main <- read" 42) (initial []) (main 20)).1.(out) = "main <- read"%string /\
  (exec (hd_tracefs "main <- read" 42)
    (initial [false; false; false; false; false; true]) (main 20)).1.(written_to) =
    take 2 (plan 42).
Proof.
  pose proof (main_follows_plan "main <- read" 42 [] 20 ltac:(cbn; lia)) as H.
  destruct (exec _ (initial []) _) as [s o].
  destruct H as [(Ho & _ & Hc)|(_ & _ & _ & Hn)].
  - split; [exact Ho|]. split; [exact Hc|]. reflexivity.
  - destruct Hn. constructor.
Defined.
