(* ===== verification/InheritCapability.v ===== *)
(** src/userspace/inherit_capability.c: keeping one capability while dropping the
privileges of root. *)
From S2P Require Import Prelude Effects Libc.

(** Values of <linux/capability.h>, <sys/capability.h> and <linux/prctl.h>. *)
Definition CAP_DAC_OVERRIDE : Z := 1.
Definition CAP_SETGID : Z := 6.
Definition CAP_SETUID : Z := 7.
Definition CAP_SETPCAP : Z := 8.
Definition CAP_LAST_CAP : Z := 40.
Definition CAP_EFFECTIVE : Z := 0.
Definition CAP_PERMITTED : Z := 1.
Definition CAP_INHERITABLE : Z := 2.
Definition CAP_CLEAR : Z := 0.
Definition CAP_SET : Z := 1.
Definition PR_SET_KEEPCAPS : Z := 8.

(** The loop of [get_effective_caps] from [i] on. *)
Fixpoint caps_from (caps : Z) (l : list Z) (v : Z) : uprog Z :=
  match l with
  | [] =>
      udo (CapFree caps) ;;
      mret v
  | i :: l' =>
      '(err, value) ← udo (CapGetFlag caps i CAP_EFFECTIVE) ;
      if truthy err then
        udo (Perror "show_effective_caps: cap_get_flag() failed") ;;
        mret (u64 (-1))
      else caps_from caps l' (Z.lor v (shl64 (if value =? CAP_SET then 1 else 0) i))
  end.

Definition get_effective_caps : uprog Z :=
  caps ← udo CapGetProc ;
  if caps =? 0 then
    udo (Perror "show_effective_caps: cap_get_proc() failed") ;;
    mret (u64 (-1))
  else caps_from caps (seqZ 0 (CAP_LAST_CAP + 1)) 0.

Definition cap_list : list Z := [CAP_DAC_OVERRIDE; CAP_SETUID; CAP_SETGID; CAP_SETPCAP].

(** [if (call) { perror(msg); return 1; } rest] *)
Definition or_fail (c : uprog Z) (msg : string) (rest : uprog Z) : uprog Z :=
  res ← c ;
  if truthy res then
    udo (Perror msg) ;;
    mret 1
  else rest.

Definition cap_set_flag (caps flag n : Z) (l : list Z) (value : Z) : uprog Z :=
  udo (CapSetFlag caps flag (take (Z.to_nat n) l) value).

Definition main : uprog Z :=
  v ← get_effective_caps ;
  printf ("Initial CapEff: %016lx" +:+ nl) [AL v] ;;
  supported ← udo (CapIsSupported CAP_DAC_OVERRIDE) ;
  if negb (truthy supported) then
    fputs ("CAP_DAC_OVERRIDE not supported!" +:+ nl) Stderr ;;
    mret 1
  else
  caps ← udo CapGetProc ;
  if caps =? 0 then
    udo (Perror "cap_get_proc() failed") ;;
    mret 1
  else
  or_fail (udo (CapClear caps)) "cap_clear() failed" (
  or_fail (cap_set_flag caps CAP_EFFECTIVE 4 cap_list CAP_SET) "cap_set_flag() failed" (
  or_fail (cap_set_flag caps CAP_INHERITABLE 1 cap_list CAP_SET) "cap_set_flag() failed" (
  or_fail (cap_set_flag caps CAP_PERMITTED 4 cap_list CAP_SET) "cap_set_flag() failed" (
  or_fail (udo (CapSetProc caps)) "cap_set_proc() failed" (
  v ← get_effective_caps ;
  printf ("After set, CapEff: %016lx" +:+ nl) [AL v] ;;
  or_fail (udo (Prctl PR_SET_KEEPCAPS 1)) "prctl() failed" (
  or_fail (udo (Setresgid 1000 1000 1000)) "setresgid() failed" (
  or_fail (udo (Setresuid 1000 1000 1000)) "setresuid() failed" (
  v ← get_effective_caps ;
  printf ("After dropping privs, CapEff: %016lx" +:+ nl) [AL v] ;;
  or_fail (udo (CapClear caps)) "cap_clear() failed" (
  or_fail (cap_set_flag caps CAP_EFFECTIVE 1 cap_list CAP_SET) "cap_set_flag() failed" (
  or_fail (cap_set_flag caps CAP_PERMITTED 1 cap_list CAP_SET) "cap_set_flag() failed" (
  or_fail (cap_set_flag caps CAP_EFFECTIVE 3 (drop 1 cap_list) CAP_CLEAR)
    "cap_set_flag() failed" (
  or_fail (cap_set_flag caps CAP_PERMITTED 3 (drop 1 cap_list) CAP_CLEAR)
    "cap_set_flag() failed" (
  or_fail (udo (CapSetProc caps)) "cap_set_proc() failed" (
  puts "-------------------------" ;;
  euid ← udo Geteuid ;
  egid ← udo Getegid ;
  uid ← udo Getuid ;
  gid ← udo Getgid ;
  printf ("euid=%d, egid=%d, uid=%d, gid=%d" +:+ nl) [AZ euid; AZ egid; AZ uid; AZ gid] ;;
  v ← get_effective_caps ;
  printf ("After re-setting only CAP_DAC_OVERRIDE, CapEff: %016lx" +:+ nl) [AL v] ;;
  udo (CapFree caps) ;;
  puts "Trying to open secret file..." ;;
  fp ← udo (Fopen "secret" "r") ;
  if fp =? 0 then
    udo (Perror "fopen() failed") ;;
    mret 1
  else
  puts "SUCCESS!" ;;
  mret 0)))))))))))))).

(** ** Credentials

What capabilities(7), capset(2), setresuid(2) and prctl(2) say about a process
outside of user namespaces; the sets are bit masks. The bounding set is full, as at
a login, so that it does not limit what can be made inheritable, and no securebits
are set. [secret] is readable by root and by who has CAP_DAC_OVERRIDE. *)
Record capset := Capset { effective : Z; permitted : Z; inheritable : Z }.

Record process := Process {
  caps : capset;
  uid : Z;
  gid : Z;
  keepcaps : bool;
  handles : gmap Z capset;
  next_handle : Z;
  lines : list piece;
}.

Definition subset (a b : Z) : bool := Z.land a b =? a.

Definition mask_of (l : list Z) : Z := foldr (fun i m => Z.lor (2 ^ i) m) 0 l.

Definition get_flag (c : capset) (flag : Z) : Z :=
  if flag =? CAP_EFFECTIVE then effective c
  else if flag =? CAP_PERMITTED then permitted c else inheritable c.

Definition set_flag (c : capset) (flag v : Z) : capset :=
  if flag =? CAP_EFFECTIVE then Capset v (permitted c) (inheritable c)
  else if flag =? CAP_PERMITTED then Capset (effective c) v (inheritable c)
  else Capset (effective c) (permitted c) v.

Definition with_caps (s : process) (c : capset) : process :=
  Process c (uid s) (gid s) (keepcaps s) (handles s) (next_handle s) (lines s).

Definition with_handle (s : process) (h : Z) (c : capset) : process :=
  Process (caps s) (uid s) (gid s) (keepcaps s) (<[h := c]> (handles s)) (next_handle s)
    (lines s).

(** [capset]: what may be given up, and what may be made inheritable. *)
Definition may_set (old new : capset) : bool :=
  subset (permitted new) (permitted old) && subset (effective new) (permitted new) &&
  (Z.testbit (effective old) CAP_SETPCAP ||
   subset (inheritable new) (Z.lor (inheritable old) (permitted old))).

Definition privileged (s : process) (cap : Z) : bool := Z.testbit (effective (caps s)) cap.

Definition hd_caps : handler userE process := fun s c =>
  match c return option (uans c * process) with
  | CapGetProc =>
      Some (next_handle s, Process (caps s) (uid s) (gid s) (keepcaps s)
        (<[next_handle s := caps s]> (handles s)) (next_handle s + 1) (lines s))
  | CapGetFlag h cap flag =>
      match handles s !! h with
      | Some c => Some ((0, if Z.testbit (get_flag c flag) cap then CAP_SET else CAP_CLEAR), s)
      | None => None
      end
  | CapSetFlag h flag l value =>
      match handles s !! h with
      | Some c =>
          Some (0, with_handle s h (set_flag c flag
            (if value =? CAP_SET then Z.lor (get_flag c flag) (mask_of l)
             else Z.ldiff (get_flag c flag) (mask_of l))))
      | None => None
      end
  | CapClear h =>
      match handles s !! h with
      | Some _ => Some (0, with_handle s h (Capset 0 0 0))
      | None => None
      end
  | CapSetProc h =>
      match handles s !! h with
      | Some c => if may_set (caps s) c then Some (0, with_caps s c) else Some (-1, s)
      | None => None
      end
  | CapFree h =>
      match handles s !! h with
      | Some _ => Some (0, Process (caps s) (uid s) (gid s) (keepcaps s)
          (delete h (handles s)) (next_handle s) (lines s))
      | None => None
      end
  | CapIsSupported _ => Some (1, s)
  | Prctl _ arg2 =>
      Some (0, Process (caps s) (uid s) (gid s) (arg2 =? 1) (handles s) (next_handle s) (lines s))
  | Setresgid r _ _ =>
      if privileged s CAP_SETGID || (r =? gid s) then
        Some (0, Process (caps s) (uid s) r (keepcaps s) (handles s) (next_handle s) (lines s))
      else Some (-1, s)
  | Setresuid r _ _ =>
      if privileged s CAP_SETUID || (r =? uid s) then
        let c := caps s in
        let c := if (uid s =? 0) && negb (r =? 0) then
            Capset 0 (if keepcaps s then permitted c else 0) (inheritable c) else c in
        Some (0, Process c r (gid s) (keepcaps s) (handles s) (next_handle s) (lines s))
      else Some (-1, s)
  | Geteuid | Getuid => Some (uid s, s)
  | Getegid | Getgid => Some (gid s, s)
  | Fopen _ _ => Some (if (uid s =? 0) || privileged s CAP_DAC_OVERRIDE then 1 else 0, s)
  | Fprintf Stdout fmt args =>
      Some (tt, Process (caps s) (uid s) (gid s) (keepcaps s) (handles s) (next_handle s)
        (lines s ++ [Fmt fmt args]))
  | Fputs Stdout text =>
      Some (tt, Process (caps s) (uid s) (gid s) (keepcaps s) (handles s) (next_handle s)
        (lines s ++ [Text text]))
  | c' => Some (udefault c', s)
  end.

(** ** [get_effective_caps] reads the effective set *)

Abbreviation on := (exec hd_caps).

Definition free_handle (s : process) (h : Z) : process :=
  Process (caps s) (uid s) (gid s) (keepcaps s) (delete h (handles s)) (next_handle s) (lines s).

Definition collect (e : Z) (l : list Z) (v : Z) : Z :=
  foldl (fun v i => Z.lor v (shl64 (if Z.testbit e i then 1 else 0) i)) v l.

Lemma caps_from_exec s h c l v :
  handles s !! h = Some c ->
  on s (caps_from h l v) = (free_handle s h, Done (collect (effective c) l v)).
Proof.
  intros Hh. revert v. induction l as [|i l IH]; intros v.
  - cbn. by rewrite Hh.
  - cbn -[shl64]. rewrite Hh. cbn -[shl64]. rewrite IH.
    by destruct (Z.testbit (effective c) i).
Qed.

Lemma collect_testbit e l v j :
  0 <= j -> Forall (fun i => 0 <= i < 64) l ->
  Z.testbit (collect e l v) j = Z.testbit v j || (bool_decide (j ∈ l) && Z.testbit e j).
Proof.
  intros Hj Hl. revert v. induction Hl as [|i l Hi _ IH]; intros v; cbn [collect foldl].
  - by rewrite bool_decide_false, orb_false_r by set_solver.
  - fold (collect e l). change (foldl _ ?v l) with (collect e l v). rewrite IH, Z.lor_spec.
    rewrite testbit_shl64 by lia.
    destruct (decide (j = i)) as [->|Hne].
    + rewrite (bool_decide_true (i ∈ i :: l)) by set_solver.
      rewrite (proj2 (Z.ltb_lt i 64)), Z.sub_diag by lia.
      destruct (Z.testbit e i); cbn [Z.testbit Z.odd]; [btauto|].
      rewrite !andb_false_r. btauto.
    + replace (Z.testbit (if Z.testbit e i then 1 else 0) (j - i)) with false.
      * rewrite andb_false_r, orb_false_r. do 3 f_equal.
        apply bool_decide_ext. rewrite elem_of_cons. naive_solver.
      * destruct (Z.testbit e i); [|by rewrite Z.bits_0].
        symmetry. destruct (Z.lt_ge_cases (j - i) 0); [by apply Z.testbit_neg_r|].
        change 1 with (2 ^ 0). rewrite testbit_pow2 by lia. lia.
Qed.

Lemma collect_all e : 0 <= e < 2 ^ 41 -> collect e (seqZ 0 41) 0 = e.
Proof.
  intros He. apply Z.bits_inj'. intros j Hj. rewrite collect_testbit; [|done|].
  - rewrite Z.bits_0. cbn [orb]. case_bool_decide as Hin; [done|].
    rewrite elem_of_seqZ in Hin. symmetry.
    rewrite <- (Z.mod_small e (2 ^ 41)) by lia. apply Z.mod_pow2_bits_high. lia.
  - apply Forall_forall. intros i. rewrite elem_of_seqZ. lia.
Qed.

(** The process has no handle it has not freed from [next_handle] on. *)
Definition fresh (s : process) : Prop :=
  next_handle s <> 0 /\ handles s !! next_handle s = None.

Definition one_handle_later (s : process) : process :=
  Process (caps s) (uid s) (gid s) (keepcaps s) (handles s) (next_handle s + 1) (lines s).

Lemma get_effective_caps_exec s :
  fresh s -> 0 <= effective (caps s) < 2 ^ 41 ->
  on s get_effective_caps = (one_handle_later s, Done (effective (caps s))).
Proof.
  intros [Hn Hf] He. unfold get_effective_caps. rewrite exec_bind. cbn -[seqZ caps_from].
  rewrite (proj2 (Z.eqb_neq _ _)) by done.
  rewrite (caps_from_exec _ _ (caps s)) by apply lookup_insert_eq.
  change (seqZ 0 (CAP_LAST_CAP + 1)) with (seqZ 0 41). rewrite collect_all by done.
  unfold free_handle, one_handle_later. cbn. by rewrite delete_insert_id.
Qed.

(** A process of root, just started. *)
Definition root_process (c : capset) (g : Z) : process := Process c 0 g false empty 1 [].

Definition needed : Z := mask_of cap_list.

Lemma subset_bit a b i : subset a b = true -> Z.testbit a i = true -> Z.testbit b i = true.
Proof.
  unfold subset. intros Hs%Z.eqb_eq Ha. rewrite <- Hs, Z.land_spec in Ha.
  by apply andb_true_iff in Ha as [_ ?].
Qed.

Lemma subset_dac c :
  subset needed (permitted c) = true ->
  subset (2 ^ CAP_DAC_OVERRIDE) (Z.lor (inheritable c) (permitted c)) = true.
Proof.
  intros Hs. pose proof (subset_bit _ _ 1 Hs eq_refl) as Hb. unfold subset.
  apply Z.eqb_eq, Z.bits_inj'. intros i Hi. rewrite Z.land_spec, Z.lor_spec.
  unfold CAP_DAC_OVERRIDE. rewrite testbit_pow2 by lia.
  destruct (Z.eqb_spec i 1) as [->|]; [rewrite Hb; btauto|btauto].
Qed.

Definition ceff_line (stage : string) (v : Z) : piece :=
  Fmt (stage +:+ ": %016lx" +:+ nl) [AL v].

Lemma may_set_needed c :
  subset needed (permitted c) = true -> may_set c (Capset 450 450 2) = true.
Proof.
  intros Hs. unfold may_set. cbn [permitted effective inheritable].
  change 450 with needed. rewrite Hs. change (subset needed needed) with true.
  change 2 with (2 ^ CAP_DAC_OVERRIDE). rewrite subset_dac by done. apply orb_true_r.
Qed.

(** ** Steps of the program *)

Definition say (s : process) (l : piece) : process :=
  Process (caps s) (uid s) (gid s) (keepcaps s) (handles s) (next_handle s) (lines s ++ [l]).

Lemma or_fail_ok s s' p msg rest :
  on s p = (s', Done 0) -> on s (or_fail p msg rest) = on s' rest.
Proof. intros Hp. unfold or_fail. by rewrite exec_bind, Hp. Qed.

Lemma say_printf {A} s fmt args (f : unit -> uprog A) :
  on s (printf fmt args ≫= f) = on (say s (Fmt fmt args)) (f tt).
Proof. done. Qed.

Lemma say_puts {A} s text (f : unit -> uprog A) :
  on s (puts text ≫= f) = on (say s (Text (text +:+ nl))) (f tt).
Proof. done. Qed.

Lemma say_caps {A} s (f : Z -> uprog A) :
  fresh s -> 0 <= effective (caps s) < 2 ^ 41 ->
  on s (get_effective_caps ≫= f) = on (one_handle_later s) (f (effective (caps s))).
Proof. intros Hf He. by rewrite exec_bind, get_effective_caps_exec. Qed.

Lemma ask_supported {A} s cap (f : Z -> uprog A) :
  on s (udo (CapIsSupported cap) ≫= f) = on s (f 1).
Proof. done. Qed.

Lemma ask_ids {A} s (f : Z -> uprog A) :
  on s (udo Geteuid ≫= f) = on s (f (uid s)) /\ on s (udo Getegid ≫= f) = on s (f (gid s)) /\
  on s (udo Getuid ≫= f) = on s (f (uid s)) /\ on s (udo Getgid ≫= f) = on s (f (gid s)).
Proof. done. Qed.

(** The program's process once it holds the handle 2, with the sets [h] in it. *)
Definition holding (c : capset) (u g : Z) (k : bool) (h : capset) (n : Z) (ls : list piece) :
    process :=
  Process c u g k (<[2 := h]> empty) n ls.

Lemma holding_fresh c u g k h n ls : 2 < n -> fresh (holding c u g k h n ls).
Proof. intros Hn. split; cbn; [lia|]. by rewrite lookup_insert_ne by lia. Qed.

Lemma set_proc_ok c u g k h n ls :
  may_set c h = true ->
  on (holding c u g k h n ls) (udo (CapSetProc 2)) = (holding h u g k h n ls, Done 0).
Proof.
  intros Hm. cbn [exec udo do hd_caps]. unfold holding at 1. cbn [handles].
  rewrite lookup_insert_eq. cbn [caps holding]. by rewrite Hm.
Qed.

(** The state of the execution in the goal, written differently. *)
Ltac at_state s' :=
  match goal with |- context [exec hd_caps ?s ?p] =>
    change (exec hd_caps s p) with (exec hd_caps s' p) end.

(** A step that succeeds and leads to the state [s']. *)
Ltac step_to s' := rewrite (or_fail_ok _ s') by reflexivity.

(** ** Whatever the calls answer

[dropped_first g u t]: no file is opened in [t] before the group ([g]) and the user
([u]) have been changed successfully. *)
Fixpoint dropped_first (g u : bool) (t : trace userE) : Prop :=
  match t with
  | [] => True
  | Obs c a :: t' =>
      match c return uans c -> Prop with
      | Setresgid _ _ _ => fun r => dropped_first (g || (r =? 0)) u t'
      | Setresuid _ _ _ => fun r => dropped_first g (u || (r =? 0)) t'
      | Fopen _ _ => fun _ => g = true /\ u = true /\ dropped_first g u t'
      | _ => fun _ => dropped_first g u t'
      end a
  end.

(** A call that neither opens a file nor changes user or group. *)
Definition other_call (o : obs userE) : Prop :=
  match obs_call o with
  | Setresgid _ _ _ | Setresuid _ _ _ | Fopen _ _ => False
  | _ => True
  end.

Definition careful (g u : bool) (p : uprog Z) : Prop :=
  always p (fun t o => (o = Done 0 \/ o = Done 1) /\ dropped_first g u t).

Lemma dropped_first_other g u t t' :
  Forall other_call t -> dropped_first g u t' -> dropped_first g u (t ++ t').
Proof. induction 1 as [|[c a] t Hc _ IH]; [done|]. intros Ht. cbn. destruct c; auto; done. Qed.

Lemma careful_call g u c (f : uans c -> uprog Z) :
  (forall r, other_call (Obs (E := userE) c r)) -> (forall r, careful g u (f r)) ->
  careful g u (udo c ≫= f).
Proof.
  intros Hc Hf r. eapply always_mono; [|apply (Hf r)]. intros t o [Ho Ht]. split; [done|].
  by apply (dropped_first_other g u [_] t); [constructor|].
Qed.

Lemma careful_end g u r : r = 0 \/ r = 1 -> careful g u (mret r).
Proof. intros Hr. split; [|done]. destruct Hr as [-> | ->]; auto. Qed.

(** A part that returns and makes other calls only. *)
Definition harmless {A} (p : uprog A) : Prop :=
  always p (fun t o => (exists a, o = Done a) /\ Forall other_call t).

Lemma harmless_do c : (forall r, other_call (Obs (E := userE) c r)) -> harmless (udo c).
Proof. intros Hc r. split; [by eexists|by constructor]. Qed.

Lemma careful_bind {A} g u (p : uprog A) f :
  harmless p -> (forall a, careful g u (f a)) -> careful g u (p ≫= f).
Proof.
  intros Hp Hf. apply always_bind. eapply always_mono; [|exact Hp].
  intros t o [[a ->] Ht]. eapply always_mono; [|apply (Hf a)].
  intros t' o' [Ho Ht']. split; [done|]. by apply dropped_first_other.
Qed.

Lemma careful_or_fail g u c msg p :
  harmless c -> careful g u p -> careful g u (or_fail c msg p).
Proof.
  intros Hc Hp. apply careful_bind; [done|]. intros r. destruct (truthy r); [|done].
  apply careful_call; [done|]. intros _. apply careful_end. by right.
Qed.

Lemma careful_setresgid g u a b c msg p :
  careful true u p -> careful g u (or_fail (udo (Setresgid a b c)) msg p).
Proof.
  intros Hp r. cbn. destruct (truthy r) eqn:Hr.
  - intros []. split; [by right|done].
  - eapply always_mono; [|exact Hp]. intros t o [Ho Ht]. split; [done|]. cbn.
    unfold truthy in Hr. replace (r =? 0) with true by lia. by rewrite orb_true_r.
Qed.

Lemma careful_setresuid g u a b c msg p :
  careful g true p -> careful g u (or_fail (udo (Setresuid a b c)) msg p).
Proof.
  intros Hp r. cbn. destruct (truthy r) eqn:Hr.
  - intros []. split; [by right|done].
  - eapply always_mono; [|exact Hp]. intros t o [Ho Ht]. split; [done|]. cbn.
    unfold truthy in Hr. replace (r =? 0) with true by lia. by rewrite orb_true_r.
Qed.

Lemma careful_fopen path mode (f : Z -> uprog Z) :
  (forall r, careful true true (f r)) -> careful true true (udo (Fopen path mode) ≫= f).
Proof.
  intros Hf r. eapply always_mono; [|apply (Hf r)]. intros t o [Ho Ht]. split; [done|].
  by split_and!.
Qed.

Lemma caps_from_harmless caps l v : harmless (caps_from caps l v).
Proof.
  revert v. induction l as [|i l IH]; intros v.
  - intros r. split; [by eexists|by repeat constructor].
  - intros [err value]. cbn. destruct (truthy err).
    + intros []. split; [by eexists|by repeat constructor].
    + eapply always_mono; [|apply IH]. intros t o [Ho Ht]. split; [done|by constructor].
Qed.

Lemma get_effective_caps_harmless : harmless get_effective_caps.
Proof.
  intros caps. cbn -[seqZ]. destruct (caps =? 0).
  - intros []. split; [by eexists|by repeat constructor].
  - eapply always_mono; [|apply caps_from_harmless]. intros t o [Ho Ht].
    split; [done|by constructor].
Qed.

(** Follows [main]. *)
Ltac careful_tac :=
  repeat first
    [ apply careful_end; by auto
    | apply careful_setresgid
    | apply careful_setresuid
    | apply careful_or_fail; [apply harmless_do; done|]
    | apply careful_bind; [apply get_effective_caps_harmless|intros ?]
    | apply careful_call; [done|intros ?]
    | apply careful_fopen; intros ?
    | progress case_match ].

Lemma main_careful : careful false false main.
Proof. unfold main, cap_set_flag, printf, puts, fputs. careful_tac. Qed.

(** The run of a root process with the capabilities in [needed]. *)
Lemma main_as_root c g :
  subset needed (permitted c) = true -> 0 <= effective c < 2 ^ 41 ->
  exists s, on (root_process c g) main = (s, Done 0) /\
    caps s = Capset (2 ^ CAP_DAC_OVERRIDE) (2 ^ CAP_DAC_OVERRIDE) 0 /\
    uid s = 1000 /\ gid s = 1000 /\ handles s = empty /\
    lines s =
      [ceff_line "Initial CapEff" (effective c);
       ceff_line "After set, CapEff" needed;
       ceff_line "After dropping privs, CapEff" 0;
       Text ("-------------------------" +:+ nl);
       Fmt ("euid=%d, egid=%d, uid=%d, gid=%d" +:+ nl) [AZ 1000; AZ 1000; AZ 1000; AZ 1000];
       ceff_line "After re-setting only CAP_DAC_OVERRIDE, CapEff" (2 ^ CAP_DAC_OVERRIDE);
       Text ("Trying to open secret file..." +:+ nl); Text ("SUCCESS!" +:+ nl)].
Proof.
  intros Hp He. unfold main.
  rewrite say_caps by done. rewrite say_printf, ask_supported.
  change (negb (truthy 1)) with false. cbv iota.
  set (l1 := [ceff_line "Initial CapEff" (effective c)]).
  rewrite exec_bind.
  match goal with |- context [exec hd_caps ?s (udo CapGetProc)] =>
    change (exec hd_caps s (udo CapGetProc)) with (holding c 0 g false c 3 l1, Done 2) end.
  cbv iota beta. change (2 =? 0) with false. cbv iota.
  step_to (holding c 0 g false (Capset 0 0 0) 3 l1).
  step_to (holding c 0 g false (Capset 450 0 0) 3 l1).
  step_to (holding c 0 g false (Capset 450 0 2) 3 l1).
  step_to (holding c 0 g false (Capset 450 450 2) 3 l1).
  rewrite (or_fail_ok _ _ _ _ _ (set_proc_ok c _ _ _ _ _ _ (may_set_needed c Hp))).
  rewrite say_caps, say_printf by (by apply holding_fresh || done).
  set (l2 := l1 ++ [ceff_line "After set, CapEff" needed]).
  at_state (holding (Capset 450 450 2) 0 g false (Capset 450 450 2) 4 l2).
  step_to (holding (Capset 450 450 2) 0 g true (Capset 450 450 2) 4 l2).
  step_to (holding (Capset 450 450 2) 0 1000 true (Capset 450 450 2) 4 l2).
  step_to (holding (Capset 0 450 2) 1000 1000 true (Capset 450 450 2) 4 l2).
  rewrite say_caps, say_printf by (by apply holding_fresh || done).
  set (l3 := l2 ++ [ceff_line "After dropping privs, CapEff" 0]).
  at_state (holding (Capset 0 450 2) 1000 1000 true (Capset 450 450 2) 5 l3).
  step_to (holding (Capset 0 450 2) 1000 1000 true (Capset 0 0 0) 5 l3).
  step_to (holding (Capset 0 450 2) 1000 1000 true (Capset 2 0 0) 5 l3).
  do 3 step_to (holding (Capset 0 450 2) 1000 1000 true (Capset 2 2 0) 5 l3).
  rewrite (or_fail_ok _ _ _ _ _ (set_proc_ok (Capset 0 450 2) 1000 1000 true
    (Capset 2 2 0) 5 l3 eq_refl)).
  rewrite say_puts, (proj1 (ask_ids _ _)), (proj1 (proj2 (ask_ids _ _))),
    (proj1 (proj2 (proj2 (ask_ids _ _)))), (proj2 (proj2 (proj2 (ask_ids _ _)))), say_printf.
  set (l4 := l3 ++ [Text ("-------------------------" +:+ nl);
    Fmt ("euid=%d, egid=%d, uid=%d, gid=%d" +:+ nl) [AZ 1000; AZ 1000; AZ 1000; AZ 1000]]).
  at_state (holding (Capset 2 2 0) 1000 1000 true (Capset 2 2 0) 5 l4).
  rewrite say_caps, say_printf by (by apply holding_fresh || done).
  eexists. split; [reflexivity|]. by split_and!.
Qed.

(** C33. Started by root with the capabilities it needs, the program ends with
    status 0 as user and group 1000, with CAP_DAC_OVERRIDE and nothing else in
    its permitted and effective sets (and an empty inheritable set), and the
    secret file opened with it. The values it prints are the effective sets of
    the four stages: what it started with, the four capabilities, none after the
    change of user, and CAP_DAC_OVERRIDE. Whatever any call answers the status is 0
    or 1, and the secret file is not opened before both the group and the user have
    been changed successfully. *)
Theorem main_drops_privileges :
  (forall c g, subset needed (permitted c) = true -> 0 <= effective c < 2 ^ 41 ->
    exists s, on (root_process c g) main = (s, Done 0) /\
      caps s = Capset (2 ^ CAP_DAC_OVERRIDE) (2 ^ CAP_DAC_OVERRIDE) 0 /\
      uid s = 1000 /\ gid s = 1000 /\ handles s = empty /\
      lines s =
        [ceff_line "Initial CapEff" (effective c);
         ceff_line "After set, CapEff" needed;
         ceff_line "After dropping privs, CapEff" 0;
         Text ("-------------------------" +:+ nl);
         Fmt ("euid=%d, egid=%d, uid=%d, gid=%d" +:+ nl) [AZ 1000; AZ 1000; AZ 1000; AZ 1000];
         ceff_line "After re-setting only CAP_DAC_OVERRIDE, CapEff" (2 ^ CAP_DAC_OVERRIDE);
         Text ("Trying to open secret file..." +:+ nl); Text ("SUCCESS!" +:+ nl)]) /\
  always main (fun t o => (o = Done 0 \/ o = Done 1) /\ dropped_first false false t).
Proof. split; [apply main_as_root|apply main_careful]. Qed.

Lemma main_drops_privileges_witness :
  exists s, on (root_process (Capset (2 ^ 41 - 1) (2 ^ 41 - 1) 0) 0) main = (s, Done 0) /\
    caps s = Capset 2 2 0 /\ uid s = 1000.
Proof.
  destruct (proj1 main_drops_privileges (Capset (2 ^ 41 - 1) (2 ^ 41 - 1) 0) 0)
    as (s & Hs & Hc & Hu & _); [reflexivity|split; [discriminate|reflexivity]|].
  exists s. split; [exact Hs|]. split; [exact Hc|exact Hu].
Defined.
