(* ===== verification/AliasPage.v ===== *)
(** src/userspace/alias_existing_page.c: mapping the physical page behind a virtual
one a second time, through /proc/self/pagemap and /dev/mem. *)
From S2P Require Import Prelude Effects Libc.

(** The value written to the page. *)
Definition dummy : Z := 0x1122334455667788.

(** The part of [main] that maps the page at [physaddr], with the flags given to
    [mmap], and reads from it. *)
Definition read_alias (flags physaddr : Z) : uprog Z :=
  fd ← udo (Open "/dev/mem" O_RDONLY) ;
  if fd =? -1 then
    udo (Perror ("open(" +:+ dq +:+ "/dev/mem" +:+ dq +:+ ") failed")) ;;
    mret 1
  else
  mem ← udo (Mmap 0x1000 PROT_READ flags fd physaddr) ;
  if mem =? MAP_FAILED then
    udo (Perror ("mmapping " +:+ dq +:+ "/dev/mem" +:+ dq +:+ " failed")) ;;
    mret 1
  else
  val ← udo (LoadUlong mem) ;
  printf ("Read 8 bytes at physaddr 0x%016lx: %016lx" +:+ nl) [AL physaddr; AL val] ;;
  mret 0.

Definition main_with (flags : Z) : uprog Z :=
  orig_mem ← udo (Mmap 0x1000 (Z.lor PROT_READ PROT_WRITE)
    (Z.lor MAP_ANONYMOUS MAP_PRIVATE) (-1) 0) ;
  if orig_mem =? MAP_FAILED then
    udo (Perror "mmap orig_mem failed") ;;
    mret 1
  else
  udo (StoreUlong orig_mem dummy) ;;
  res ← udo (Mlock orig_mem 0x1000) ;
  if truthy res then
    udo (Perror "mlock orig_mem failed") ;;
    mret 1
  else
  fp ← udo (Fopen "/proc/self/pagemap" "rb") ;
  if fp =? 0 then
    udo (Perror ("Failed to open " +:+ dq +:+ "/proc/self/pagemap" +:+ dq)) ;;
    mret 1
  else
  let addr := orig_mem in
  let off := s64 (u64 (addr / 0x1000 * 8)) in
  res ← udo (Fseek fp off) ;
  if truthy res then
    udo (Perror "fseek failed") ;;
    mret 1
  else
  '(n, info) ← udo (FreadUlong fp) ;
  if negb (n =? 1) then
    udo (Perror "fread failed") ;;
    mret 1
  else
  let physaddr := shl64 (Z.land info (shl64 1 55 - 1)) 12 in
  printf ("Value: %016lx" +:+ nl) [AL info] ;;
  printf ("Physical address: 0x%016lx" +:+ nl) [AL physaddr] ;;
  if negb (has info (shl64 1 63)) then
    fputs ("Page is not in RAM? Strange! Aborting." +:+ nl) Stderr ;;
    mret 1
  else read_alias flags physaddr.

(** The program: [main_with] the flags of the source. With other flags [main_with] is
    another program, which differs from it in this argument only. *)
Definition main : uprog Z := main_with (Z.lor MAP_PRIVATE MAP_ANONYMOUS).

(** ** A process and its memory

Words of physical memory by address (0 where nothing was written), the frame of
each mapped page, and mmap(2): an anonymous mapping is a new frame of zeros,
whatever the descriptor and the offset; a mapping of /dev/mem is of the frame
at the offset. The process has CAP_SYS_ADMIN, so that the page map shows it frames,
and the kernel lets it map RAM through /dev/mem (with CONFIG_STRICT_DEVMEM, of which
the program's comment warns, it would not). [faults] tells which of the next calls
that can fail do. *)
Record vm := Vm {
  phys : gmap Z Z;
  pages : gmap Z Z;
  next_page : Z;
  next_frame : Z;
  seek : Z;
  faults : list bool;
  lines : list piece;
}.

Definition word (s : vm) (p : Z) : Z := default 0 (phys s !! p).

(** The physical address of a virtual one. *)
Definition translate (s : vm) (p : Z) : option Z :=
  (fun frame => frame + p mod 0x1000) <$> pages s !! (p / 0x1000 * 0x1000).

Definition map_page (s : vm) (frame nframe : Z) : vm :=
  Vm (phys s) (<[next_page s := frame]> (pages s)) (next_page s + 0x1000) nframe (seek s)
    (faults s) (lines s).

(** The next call fails, or does [k]. *)
Definition fallible {A} (s : vm) (bad : A) (k : vm -> option (A * vm)) : option (A * vm) :=
  let s' := Vm (phys s) (pages s) (next_page s) (next_frame s) (seek s) (tail (faults s))
    (lines s) in
  if default false (head (faults s)) then Some (bad, s') else k s'.

Definition hd_vm : handler userE vm := fun s c =>
  match c return option (uans c * vm) with
  | Mmap _ _ flags _ off => fallible s MAP_FAILED (fun s =>
      if has flags MAP_ANONYMOUS then
        Some (next_page s, map_page s (next_frame s) (next_frame s + 0x1000))
      else Some (next_page s, map_page s off (next_frame s)))
  | StoreUlong p v =>
      (fun a => (tt, Vm (<[a := v]> (phys s)) (pages s) (next_page s) (next_frame s) (seek s)
        (faults s) (lines s))) <$> translate s p
  | LoadUlong p => (fun a => (word s a, s)) <$> translate s p
  | Mlock _ _ => fallible s (-1) (fun s => Some (0, s))
  | Fopen _ _ => fallible s 0 (fun s => Some (1, s))
  | Open _ _ => fallible s (-1) (fun s => Some (3, s))
  | Fseek _ off => fallible s (-1) (fun s =>
      Some (0, Vm (phys s) (pages s) (next_page s) (next_frame s) off (faults s) (lines s)))
  | FreadUlong _ => fallible s (0, 0) (fun s =>
      Some ((1, match pages s !! (seek s / 8 * 0x1000) with
                | Some frame => 2 ^ 63 + frame / 0x1000
                | None => 0
                end), s))
  | Fprintf Stdout fmt args =>
      Some (tt, Vm (phys s) (pages s) (next_page s) (next_frame s) (seek s) (faults s)
        (lines s ++ [Fmt fmt args]))
  | c' => Some (udefault c', s)
  end.

(** ** What is read through the second mapping *)

(** A process with no mappings: the next page and the next frame are free. *)
Definition initial (page frame : Z) (fs : list bool) : vm :=
  Vm empty empty page frame 0 fs [].

(** Page aligned, and in the range of x86_64's user addresses and frames. *)
Definition user_page (page : Z) : Prop := page mod 0x1000 = 0 /\ 0 <= page < 2 ^ 47.

Definition ram_frame (frame : Z) : Prop := frame mod 0x1000 = 0 /\ 0 <= frame < 2 ^ 52.

Lemma aligned p : p mod 0x1000 = 0 -> p / 0x1000 * 0x1000 = p.
Proof. intros Hp. pose proof (Z.div_mod p 0x1000). lia. Qed.

Lemma next_aligned p : p mod 0x1000 = 0 -> (p + 0x1000) mod 0x1000 = 0.
Proof. intros Hp. by rewrite <- Hp, <- (Z.mod_add p 1 0x1000) at 1 by lia. Qed.

Lemma pagemap_offset page :
  user_page page -> s64 (u64 (page / 0x1000 * 8)) / 8 * 0x1000 = page.
Proof.
  intros [Ha Hr]. pose proof (Z.div_lt_upper_bound page 0x1000 (2 ^ 47)).
  pose proof (Z.div_pos page 0x1000).
  rewrite u64_id by (unfold in_u64; lia). rewrite s64_id by lia.
  rewrite Z.div_mul by lia. by apply aligned.
Qed.

Lemma entry_in_ram f : 0 <= f < 2 ^ 40 -> has (2 ^ 63 + f) (shl64 1 63) = true.
Proof.
  intros Hf. change (shl64 1 63) with (2 ^ 63). rewrite has_pow2 by lia.
  rewrite Z.add_comm. rewrite <- (Z.mul_1_l (2 ^ 63)).
  rewrite Z.testbit_true, Z.div_add, (Z.div_small f) by lia. done.
Qed.

Lemma entry_frame frame :
  ram_frame frame ->
  shl64 (Z.land (2 ^ 63 + frame / 0x1000) (shl64 1 55 - 1)) 12 = frame.
Proof.
  intros [Ha Hr]. change (shl64 1 55 - 1) with (Z.ones 55). rewrite Z.land_ones by lia.
  pose proof (Z.div_pos frame 0x1000). pose proof (Z.div_lt_upper_bound frame 0x1000 (2 ^ 40)).
  replace (2 ^ 63 + frame / 0x1000) with (frame / 0x1000 + 256 * 2 ^ 55) by lia.
  rewrite Z.mod_add, Z.mod_small by lia.
  unfold shl64. rewrite Z.shiftl_mul_pow2 by lia. change (2 ^ 12) with 0x1000.
  rewrite aligned by done. apply u64_id. unfold in_u64. lia.
Qed.

Definition read_fmt : string := "Read 8 bytes at physaddr 0x%016lx: %016lx" +:+ nl.

(** A line that shows a word read through the second mapping. *)
Definition shows_read (l : piece) : bool :=
  match l with Fmt fmt _ => String.eqb fmt read_fmt | Text _ => false end.

(** The pages and frames used are not the error value. *)
Lemma not_failed p : 0 <= p < 2 ^ 48 -> (p =? MAP_FAILED) = false.
Proof. intros Hp. apply Z.eqb_neq. intros ->. by destruct Hp. Qed.

Lemma fault_head fs : default false (head fs) = true -> ~ Forall (.= false) fs.
Proof. destruct fs as [|b fs]; [done|]. cbn. intros ->. by inversion 1. Qed.

Lemma fault_tail fs : ~ Forall (.= false) (tail fs) -> ~ Forall (.= false) fs.
Proof. intros Hn Hf. apply Hn. by destruct Hf. Qed.

(** ** The execution *)

Abbreviation vmrun := (exec hd_vm).

(** The program ends with status 1 and has not read through a second mapping, after
    a call failed; or with status 0 in a state that satisfies [Q]. *)
Definition ends (s : vm) (p : uprog Z) (Q : vm -> Prop) : Prop :=
  let '(s', o) := vmrun s p in
  (o = Done 1 /\ existsb shows_read (lines s') = false /\ ~ Forall (.= false) (faults s)) \/
  (o = Done 0 /\ Q s').

(** After a fault. *)
Definition popped (s : vm) : vm :=
  Vm (phys s) (pages s) (next_page s) (next_frame s) (seek s) (tail (faults s)) (lines s).

Lemma ends_fallible c bad (k : vm -> option (uans c * vm)) s s' a (f : uans c -> uprog Z) Q :
  hd_vm s c = fallible s bad k -> k (popped s) = Some (a, s') -> faults s' = tail (faults s) ->
  vmrun (popped s) (f bad) = (popped s, Done 1) -> existsb shows_read (lines s) = false ->
  ends s' (f a) Q -> ends s (udo c ≫= f) Q.
Proof.
  intros Hc Hk Hf Hbad Hl Hok. unfold ends.
  assert (vmrun s (udo c ≫= f) =
    if default false (head (faults s)) then (popped s, Done 1) else vmrun s' (f a)) as ->.
  { transitivity (match hd_vm s c with
                  | Some (r, s1) => vmrun s1 (f r)
                  | None => (s, Halted (Faulted BadAccess))
                  end); [done|].
    rewrite Hc. unfold fallible. fold (popped s).
    destruct (default false (head (faults s))); [done|by rewrite Hk]. }
  destruct (default false (head (faults s))) eqn:H.
  - left. split_and!; [done|done|by apply fault_head].
  - unfold ends in Hok. destruct (vmrun s' (f a)) as [s2 o].
    destruct Hok as [(? & ? & Hn)|?]; [left|by right].
    split_and!; [done..|]. apply fault_tail. by rewrite <- Hf.
Qed.

(** A call that cannot. *)
Lemma ends_calls c s s' a (f : uans c -> uprog Z) Q :
  hd_vm s c = Some (a, s') -> faults s' = faults s ->
  ends s' (f a) Q -> ends s (udo c ≫= f) Q.
Proof.
  intros Hc Hf. unfold ends.
  assert (vmrun s (udo c ≫= f) = vmrun s' (f a)) as ->.
  { transitivity (match hd_vm s c with
                  | Some (r, s1) => vmrun s1 (f r)
                  | None => (s, Halted (Faulted BadAccess))
                  end); [done|by rewrite Hc]. }
  by rewrite Hf.
Qed.

(** The read through the second mapping. *)
Lemma read_alias_ends flags s frame (Q : vm -> Prop) :
  0 <= next_page s < 2 ^ 48 -> next_page s mod 0x1000 = 0 ->
  existsb shows_read (lines s) = false ->
  (forall s', phys s' = phys s -> lines s' = lines s ++ [Fmt read_fmt
     [AL frame; AL (word s (if has flags MAP_ANONYMOUS then next_frame s else frame))]] -> Q s') ->
  ends s (read_alias flags frame) Q.
Proof.
  intros Hn Ha Hl HQ. unfold read_alias.
  eapply ends_fallible; [reflexivity|reflexivity|done|reflexivity|done|]. cbv beta.
  change (3 =? -1) with false. cbv iota.
  set (target := if has flags MAP_ANONYMOUS then next_frame s else frame).
  set (s1 := popped s).
  set (s2 := map_page (popped s1) target
    (if has flags MAP_ANONYMOUS then next_frame s + 0x1000 else next_frame s)).
  eapply (ends_fallible (Mmap 0x1000 PROT_READ flags 3 frame) _ _ s1 s2 (next_page s));
    [reflexivity|unfold s2, target; by destruct (has flags MAP_ANONYMOUS)|done|done|done|].
  cbv beta. rewrite not_failed by done.
  assert (translate s2 (next_page s) = Some target) as Ht.
  { unfold translate. cbn [s2 map_page pages]. rewrite aligned, Ha by done.
    change (next_page (popped s1)) with (next_page s). rewrite lookup_insert_eq. cbn.
    by rewrite Z.add_0_r. }
  unfold ends. cbn. rewrite Ht. cbn. right. split; [done|]. by apply HQ.
Qed.

(** Where the program is once it has read the physical address. *)
Definition located (page frame : Z) (fs : list bool) : vm :=
  Vm (<[frame := dummy]> empty) (<[page := frame]> empty) (page + 0x1000) (frame + 0x1000)
    (s64 (u64 (page / 0x1000 * 8))) fs
    [Fmt ("Value: %016lx" +:+ nl) [AL (2 ^ 63 + frame / 0x1000)];
     Fmt ("Physical address: 0x%016lx" +:+ nl) [AL frame]].

Lemma main_with_ends flags page frame fs Q :
  user_page page -> ram_frame frame ->
  (forall fs', ends (located page frame fs') (read_alias flags frame) Q) ->
  ends (initial page frame fs) (main_with flags) Q.
Proof.
  intros Hp Hf HQ. pose proof Hp as [Ha Hr]. pose proof Hf as [Hfa Hfr]. unfold main_with.
  set (s1 := Vm empty (<[page := frame]> empty) (page + 0x1000) (frame + 0x1000) 0 (tail fs) []).
  eapply (ends_fallible (Mmap _ _ _ _ _) _ _ _ s1 page);
    [reflexivity|reflexivity|done|reflexivity|done|].
  cbv beta. rewrite not_failed by lia.
  set (s2 := Vm (<[frame := dummy]> empty) (pages s1) (next_page s1) (next_frame s1) 0 (tail fs) []).
  apply (ends_calls (StoreUlong page dummy) s1 s2 tt); [|done|].
  { cbn. unfold translate. cbn. rewrite aligned, Ha, lookup_insert_eq by done. cbn.
    by rewrite Z.add_0_r. }
  eapply ends_fallible; [reflexivity|reflexivity|done|reflexivity|done|].
  cbv beta. change (truthy 0) with false. cbv iota.
  eapply ends_fallible; [reflexivity|reflexivity|done|reflexivity|done|].
  cbv beta. change (1 =? 0) with false. cbv iota zeta.
  eapply ends_fallible; [reflexivity|reflexivity|done|reflexivity|done|].
  cbv beta. change (truthy 0) with false. cbv iota.
  set (s3 := Vm _ _ _ _ _ _ _).
  eapply (ends_fallible (FreadUlong 1) _ _ s3 (popped s3) (1, 2 ^ 63 + frame / 0x1000));
    [reflexivity| |done|reflexivity|done|].
  { unfold s3, s2, s1. cbn [pages popped seek phys next_page next_frame faults lines].
    rewrite pagemap_offset by done. by rewrite lookup_insert_eq. }
  cbv beta iota. change (negb (1 =? 1)) with false. cbv iota zeta. rewrite entry_frame by done.
  eapply (ends_calls (Fprintf _ _ _)); [reflexivity|done|].
  eapply (ends_calls (Fprintf _ _ _)); [reflexivity|done|].
  rewrite entry_in_ram by (split; [apply Z.div_pos; lia|apply Z.div_lt_upper_bound; lia]).
  apply HQ.
Qed.

(** C34. The second mapping is not of the page: with [MAP_ANONYMOUS] among the flags
    the kernel ignores /dev/mem and maps a new page of zeros. If nothing fails
    the program reports the physical address of the page, where the value it
    wrote is, and reads 0 there; without the flag the same program reads the
    value. If a call fails the program ends with status 1, having read nothing. *)
Theorem main_reads_zero page frame fs :
  user_page page -> ram_frame frame ->
  ends (initial page frame fs) main (fun s => word s frame = dummy /\
    last (lines s) = Some (Fmt read_fmt [AL frame; AL 0])) /\
  ends (initial page frame fs) (main_with MAP_PRIVATE) (fun s => word s frame = dummy /\
    last (lines s) = Some (Fmt read_fmt [AL frame; AL dummy])).
Proof.
  intros Hp Hf. assert (forall fs', word (located page frame fs') frame = dummy) as Hw.
  { intros fs'. unfold word. cbn. by rewrite lookup_insert_eq. }
  assert (word (located page frame []) (frame + 0x1000) = 0) as H0.
  { unfold word. cbn. by rewrite lookup_insert_ne by lia. }
  pose proof Hp as [Ha Hr].
  split; (apply main_with_ends; [done..|]); intros fs';
    (apply read_alias_ends; [cbn; lia|by apply next_aligned|done|]);
    intros s' Hph Hl; rewrite Hl, last_snoc; unfold word in *; rewrite Hph; (split; [apply Hw|]).
  - exact (f_equal (fun v => Some (Fmt read_fmt [AL frame; AL v])) H0).
  - exact (f_equal (fun v => Some (Fmt read_fmt [AL frame; AL v])) (Hw fs')).
Qed.

Lemma main_reads_zero_witness :
  ends (initial 0x7f0000000000 0x12345000 []) main (fun s => word s 0x12345000 = dummy /\
    last (lines s) = Some (Fmt read_fmt [AL 0x12345000; AL 0])).
Proof.
  assert (user_page 0x7f0000000000) as Hp by (split; [reflexivity|lia]).
  assert (ram_frame 0x12345000) as Hf by (split; [reflexivity|lia]).
  exact (proj1 (main_reads_zero 0x7f0000000000 0x12345000 [] Hp Hf)).
Defined.
