(* ===== verification/X86Rtm.v ===== *)
(** src/userspace/x86_rtm_page_fault.c: page faults seen through transactions. *)
From S2P Require Import Prelude Effects Libc.

(** The status of <immintrin.h>. *)
Definition XBEGIN_STARTED : Z := u32 (-1).

Definition page_dirty (p : Z) : uprog Z :=
  status ← udo Xbegin ;
  if status =? XBEGIN_STARTED then
    udo (StoreByte p 0) ;;
    udo Xend ;;
    mret 1
  else mret 0.

(** [fprintf(stderr, label, page_dirty(addr))] *)
Definition show_dirty (label : string) (addr : Z) : uprog unit :=
  d ← page_dirty addr ;
  fprintf Stderr (label +:+ "%d" +:+ nl) [AZ d].

Definition main : uprog Z :=
  addr ← udo (Mmap 0x1000 (Z.lor PROT_READ PROT_WRITE) (Z.lor MAP_PRIVATE MAP_ANONYMOUS) (-1) 0) ;
  if addr =? MAP_FAILED then
    udo (Perror "parent: mmap failed") ;;
    mret 1
  else
  udo (StoreByte addr 123) ;;
  show_dirty "Initial state : " addr ;;
  fputs ("----- fork -----" +:+ nl) Stderr ;;
  pid ← udo Fork ;
  (if truthy pid then
     show_dirty "Parent before : " addr ;;
     udo (LoadByte addr) ;;
     show_dirty "Parent after R: " addr ;;
     udo (StoreByte addr 123) ;;
     show_dirty "Parent after W: " addr
   else
     show_dirty "Child before  : " addr ;;
     udo (LoadByte addr) ;;
     show_dirty "Child after R : " addr ;;
     udo (StoreByte addr 123) ;;
     show_dirty "Child after W : " addr) ;;
  mret 0.

(** ** A process with one page, and transactions

The page is absent, present but write-protected (shared copy-on-write, or the
zero page), or writable. Outside a transaction a write to a page that is not
writable faults and the kernel makes it so; inside one any fault aborts the
transaction: its effects are undone and [_xbegin] returns again, with another
status. A transaction may also abort for reasons of its own: [aborts] says for
each one whether it does, as soon as it begins. fork() gives both processes
the page write-protected, or fails. *)
Inductive mapping := Absent | Protected | Writable.

#[export] Instance mapping_eq_dec : EqDecision mapping.
Proof. solve_decision. Defined.

Record process := Process {
  page : mapping;
  byte : Z;
  aborts : list bool;
  err : list piece;       (** what it wrote to [stderr] *)
}.

(** How the processes of a run ended: the child, if there is one, and its parent. *)
Definition ends : Type := list (process * outcome Z).

Section machine.
(** Where mmap() puts the page, or [MAP_FAILED]; the status of an aborted
    transaction; what fork() tells the parent, negative when it fails; and the
    transactions of the child. *)
Context (addr abort_status child : Z) (child_aborts : list bool).

Definition next_abort (s : process) : bool := default false (head (aborts s)).

Definition began (s : process) : process := Process (page s) (byte s) (tail (aborts s)) (err s).

Definition wrote (s : process) (b : Z) : process := Process Writable b (aborts s) (err s).

Definition loaded (s : process) : process :=
  Process (if decide (page s = Absent) then Protected else page s) (byte s) (aborts s) (err s).

Definition says (s : process) (l : piece) : process :=
  Process (page s) (byte s) (aborts s) (err s ++ [l]).

(** After fork(): the page of both, and the child. *)
Definition shared (s : process) : mapping :=
  if decide (page s = Absent) then Absent else Protected.

Definition parent_of (s : process) : process := Process (shared s) (byte s) (aborts s) (err s).

Definition child_of (s : process) : process := Process (shared s) (byte s) child_aborts [].

(** [undo]: how the run ends if the current transaction aborts. A call of the
    system aborts it as well. *)
Fixpoint exec_tx (undo : option ends) (s : process) (p : uprog Z) : ends :=
  match p with
  | Ret a => [(s, Done a)]
  | Halt x => [(s, Halted x)]
  | Call c k =>
      let bad := [(s, Halted (Faulted BadAccess))] in
      match c return (uans c -> uprog Z) -> ends with
      | Xbegin => fun k =>
          let undone := exec_tx None (began s) (k abort_status) in
          if next_abort s then undone else exec_tx (Some undone) (began s) (k XBEGIN_STARTED)
      | Xend => fun k => match undo with Some _ => exec_tx None s (k tt) | None => bad end
      | StoreByte p v => fun k =>
          if negb (p =? addr) then bad else
          match undo with
          | Some undone =>
              if decide (page s = Writable) then exec_tx undo (wrote s v) (k tt) else undone
          | None => exec_tx None (wrote s v) (k tt)
          end
      | LoadByte p => fun k =>
          if negb (p =? addr) then bad else
          match undo with
          | Some undone =>
              if decide (page s = Absent) then undone else exec_tx undo s (k (byte s))
          | None => exec_tx None (loaded s) (k (byte s))
          end
      | Mmap _ _ _ _ _ => fun k => default (exec_tx None s (k addr)) undo
      | Fork => fun k =>
          default
            (if child <? 0 then exec_tx None s (k child)
             else exec_tx None (child_of s) (k 0) ++ exec_tx None (parent_of s) (k child)) undo
      | Fprintf Stderr fmt args => fun k => default (exec_tx None (says s (Fmt fmt args)) (k tt)) undo
      | Fputs Stderr l => fun k => default (exec_tx None (says s (Text l)) (k tt)) undo
      | Perror l => fun k => default (exec_tx None (says s (Text l)) (k tt)) undo
      | c' => fun k => default (exec_tx None s (k (udefault c'))) undo
      end k
  end.

Lemma exec_tx_assoc {A B} (p : uprog A) (f : A -> uprog B) (g : B -> uprog Z) undo s :
  exec_tx undo s ((p ≫= f) ≫= g) = exec_tx undo s (p ≫= (fun x => f x ≫= g)).
Proof.
  revert undo s. induction p as [a|x|c k IH]; intros undo s; [done..|].
  destruct c; cbn; rewrite ?IH; try done; repeat case_match; rewrite ?IH; done.
Qed.

Context (Hstatus : abort_status <> XBEGIN_STARTED) (Haddr : addr <> MAP_FAILED).

(** The test, in front of anything. *)
Lemma page_dirty_exec s (f : Z -> uprog Z) :
  exec_tx None s (page_dirty addr ≫= f) =
    if decide (page s = Writable /\ next_abort s = false)
    then exec_tx None (wrote (began s) 0) (f 1)
    else exec_tx None (began s) (f 0).
Proof.
  unfold page_dirty. cbn.
  rewrite (proj2 (Z.eqb_neq _ _) Hstatus). cbn.
  destruct (next_abort s) eqn:Ha.
  { rewrite decide_False; [done|by intros []]. }
  rewrite ?Z.eqb_refl. cbn. destruct (decide (page s = Writable)) as [Hw|Hw];
    rewrite Z.eqb_refl; cbn.
  - by rewrite decide_True by done.
  - by rewrite decide_False by (by intros []).
Qed.

Definition verdict (label : string) (d : Z) : piece := Fmt (label +:+ "%d" +:+ nl) [AZ d].

(** 1 unless the page is write-protected or the transaction aborts. *)
Definition dirty (s : process) : Z :=
  if decide (page s = Writable /\ next_abort s = false) then 1 else 0.

Definition tested (s : process) : process :=
  if decide (page s = Writable /\ next_abort s = false) then wrote (began s) 0 else began s.

Lemma show_dirty_exec label s (p : uprog Z) :
  exec_tx None s (show_dirty label addr ;; p) =
    exec_tx None (says (tested s) (verdict label (dirty s))) p.
Proof.
  unfold show_dirty. rewrite exec_tx_assoc, page_dirty_exec. unfold tested, dirty. by case_decide.
Qed.

(** A verdict depends on the page and on the next transaction only, and leaves the
    page as it is. *)
Definition verdict_of (m : mapping) (aborted : bool) : Z :=
  if decide (m = Writable) then if aborted then 0 else 1 else 0.

Lemma dirty_verdict s : dirty s = verdict_of (page s) (next_abort s).
Proof.
  unfold dirty, verdict_of. destruct (decide (page s = Writable)) as [Hw|Hw].
  - destruct (next_abort s); [by rewrite decide_False by (by intros [])|].
    by rewrite decide_True by done.
  - by rewrite decide_False by (by intros []).
Qed.

Lemma page_tested s : page (tested s) = page s.
Proof. unfold tested. case_decide as H; [|done]. by destruct H as [-> _]. Qed.

Lemma err_tested s : err (tested s) = err s.
Proof. unfold tested. by case_decide. Qed.

Lemma aborts_tested s : aborts (tested s) = tail (aborts s).
Proof. unfold tested. by case_decide. Qed.

(** The state, as far as the verdicts go. *)
Lemma next_abort_eq s fs : aborts s = fs -> next_abort s = default false (fs !! 0%nat).
Proof. intros <-. unfold next_abort. by destruct (aborts s). Qed.

End machine.

(** The lines of three tests around a read and a write of the page. *)
Definition three_lines (before after_r after_w : string) (m : mapping) (fs : list bool) : list piece :=
  let a i := default false (fs !! i) in
  [verdict before (verdict_of m (a 0%nat)); verdict after_r (verdict_of m (a 1%nat));
   verdict after_w (verdict_of Writable (a 2%nat))].

Lemma tx_load addr st child cas s (p : uprog Z) :
  exec_tx addr st child cas None s (udo (LoadByte addr) ;; p) =
    exec_tx addr st child cas None (loaded s) p.
Proof. cbn. by rewrite Z.eqb_refl. Qed.

Lemma tx_store addr st child cas s v (p : uprog Z) :
  exec_tx addr st child cas None s (udo (StoreByte addr v) ;; p) =
    exec_tx addr st child cas None (wrote s v) p.
Proof. cbn. by rewrite Z.eqb_refl. Qed.

Lemma tx_fputs addr st child cas s l (p : uprog Z) :
  exec_tx addr st child cas None s (fputs l Stderr ;; p) =
    exec_tx addr st child cas None (says s (Text l)) p.
Proof. done. Qed.

Lemma tx_fork addr st child cas s (f : Z -> uprog Z) :
  exec_tx addr st child cas None s (udo Fork ≫= f) =
    if child <? 0 then exec_tx addr st child cas None s (f child)
    else exec_tx addr st child cas None (child_of cas s) (f 0) ++
         exec_tx addr st child cas None (parent_of s) (f child).
Proof. done. Qed.

(** What each process does after the fork. *)
Definition tests (addr : Z) (before after_r after_w : string) : uprog unit :=
  show_dirty before addr ;;
  udo (LoadByte addr) ;;
  show_dirty after_r addr ;;
  udo (StoreByte addr 123) ;;
  show_dirty after_w addr.

Lemma three_tests addr st child cas s before after_r after_w :
  st <> XBEGIN_STARTED -> page s <> Absent ->
  (fun '(s', o) => (err s', o)) <$> exec_tx addr st child cas None s
    (tests addr before after_r after_w ;; mret 0) =
  [(err s ++ three_lines before after_r after_w (page s) (aborts s), Done 0)].
Proof.
  intros Hs Hp. unfold tests.
  rewrite exec_tx_assoc, show_dirty_exec, exec_tx_assoc, tx_load, exec_tx_assoc,
    show_dirty_exec, exec_tx_assoc, tx_store, show_dirty_exec by done.
  cbn. rewrite !dirty_verdict, err_tested. cbn. rewrite err_tested. cbn. rewrite err_tested.
  cbn. rewrite !page_tested, decide_False by done.
  unfold three_lines. rewrite <- !app_assoc. cbn.
  unfold next_abort. repeat (rewrite ?aborts_tested; cbn).
  by destruct (aborts s) as [|? [|? [|? ?]]].
Qed.

(** The process before [main]. *)
Definition initial (fs : list bool) : process := Process Absent 0 fs [].

(** What each process should write and return. *)
Definition report (addr child : Z) (fs cas : list bool) : list (list piece * outcome Z) :=
  if addr =? MAP_FAILED then [([Text "parent: mmap failed"], Done 1)] else
  let start := [verdict "Initial state : " (verdict_of Writable (default false (fs !! 0%nat)));
                Text ("----- fork -----" +:+ nl)] in
  let parent m := start ++
    three_lines "Parent before : " "Parent after R: " "Parent after W: " m (tail fs) in
  if child <? 0 then [(parent Writable, Done 0)] else
  [(three_lines "Child before  : " "Child after R : " "Child after W : " Protected cas, Done 0);
   (parent Protected, Done 0)].

(** C38. What the two processes report, whatever transactions abort for reasons of
    their own: right after a write, and after a fork() that failed, a test says 1
    unless its transaction aborts; after fork() the page is shared and every test
    says 0, in both processes, until the process has written to the page, and the
    read makes no difference. Both return 0; if mmap() fails nothing is tested. *)
Theorem main_report addr st child fs cas :
  st <> XBEGIN_STARTED -> child <> 0 ->
  ((fun '(s, o) => (err s, o)) <$> exec_tx addr st child cas None (initial fs) main) =
    report addr child fs cas.
Proof.
  intros Hs Hc. unfold main, report.
  transitivity ((fun '(s, o) => (err s, o)) <$> exec_tx addr st child cas None (initial fs)
    (if addr =? MAP_FAILED then udo (Perror "parent: mmap failed") ;; mret 1 else
     udo (StoreByte addr 123) ;;
     show_dirty "Initial state : " addr ;;
     fputs ("----- fork -----" +:+ nl) Stderr ;;
     pid ← udo Fork ;
     (if truthy pid then tests addr "Parent before : " "Parent after R: " "Parent after W: "
      else tests addr "Child before  : " "Child after R : " "Child after W : ") ;;
     mret 0)); [done|].
  destruct (addr =? MAP_FAILED); [done|].
  rewrite tx_store, show_dirty_exec, tx_fputs, tx_fork by done.
  set (s1 := says _ (Text _)).
  assert (page s1 = Writable) as Hp by apply page_tested.
  assert (aborts s1 = tail fs) as Ha by apply aborts_tested.
  assert (err s1 = [verdict "Initial state : " (verdict_of Writable (default false (fs !! 0%nat)));
                    Text ("----- fork -----" +:+ nl)]) as He.
  { unfold s1. cbn. rewrite err_tested, dirty_verdict. by destruct fs. }
  replace (truthy child) with true by (unfold truthy; by rewrite (proj2 (Z.eqb_neq child 0))).
  cbn [truthy Z.eqb negb]. destruct (child <? 0).
  - rewrite three_tests, He, Ha, Hp by (done || congruence). done.
  - assert (shared s1 = Protected) as Hsh by (unfold shared; by rewrite Hp).
    rewrite fmap_app, !three_tests by (done || (cbn [page child_of parent_of]; by rewrite Hsh)).
    unfold parent_of, child_of. cbn [err page aborts]. by rewrite Hsh, He, Ha.
Qed.

(** The run without spurious aborts. *)
Lemma main_report_witness :
  ((fun '(s, o) => (err s, o)) <$> exec_tx 0x7f0000000000 0 4242 [] None (initial []) main) =
    [([verdict "Child before  : " 0; verdict "Child after R : " 0; verdict "Child after W : " 1],
      Done 0);
     ([verdict "Initial state : " 1; Text ("----- fork -----" +:+ nl);
       verdict "Parent before : " 0; verdict "Parent after R: " 0; verdict "Parent after W: " 1],
      Done 0)].
Proof. apply (main_report 0x7f0000000000 0 4242 [] []); discriminate. Defined.
