(* ===== verification/Governor.v ===== *)
(** src/userspace/test_scaling_governor.c: timing the same work with and without
sleeping in between. *)
From S2P Require Import Prelude Effects CStrings Libc.

(** ** Floating point

[double] is IEEE binary64 and [long double] the 80-bit format of x86; operations
round to nearest, ties to even. *)
Abbreviation double := spec_float (only parsing).

Definition fadd : double -> double -> double := SFadd 53 1024.
Definition fdiv : double -> double -> double := SFdiv 53 1024.

(** [x < y] *)
Definition flt (x y : double) : bool := SFltb x y.

(** Conversion from an integer. *)
Definition of_int (z : Z) : double := binary_normalize 53 1024 z 0 false.

Definition ladd : spec_float -> spec_float -> spec_float := SFadd 64 16384.
Definition lmul : spec_float -> spec_float -> spec_float := SFmul 64 16384.
Definition ldiv : spec_float -> spec_float -> spec_float := SFdiv 64 16384.
Definition long_of_int (z : Z) : spec_float := binary_normalize 64 16384 z 0 false.

(** Conversion of a [long double] to [double]. *)
Definition to_double (x : spec_float) : double :=
  match x with
  | S754_finite s m e => binary_normalize 53 1024 (cond_Zopp s (Zpos m)) e s
  | _ => x
  end.

(** The literals: 0.001 and 0.5 are the doubles nearest to the quotients. *)
Definition f0 : double := S754_zero false.
Definition f1 : double := of_int 1.
Definition f0_001 : double := fdiv (of_int 1) (of_int 1000).
Definition f0_5 : double := fdiv (of_int 1) (of_int 2).
Definition l1000 : spec_float := long_of_int 1000.
Definition INFINITY : double := S754_infinity false.

Definition DEFAULT_RUNS : Z := 1000.
Definition DEFAULT_CYCLES : Z := 1000 * 1000.
Definition DEFAULT_DELAY : Z := 100 * 1000.

(** ** The program *)

(** The loop counts its [unsigned] counter up to [n]. *)
Definition func (n : Z) : uprog unit :=
  loop (S (Z.to_nat n)) (fun '(i, sum) =>
    if i <? n then mret (inl (u32 (i + 1), fadd sum f0_001)) else mret (inr tt)) (0, f1).

Definition warmup (runs cycles : Z) : uprog unit :=
  loop (S (Z.to_nat runs)) (fun n =>
    if n <=? runs then func cycles ;; mret (inl (u32 (n + 1))) else mret (inr tt)) 1.

Definition CLOCK_PROCESS_CPUTIME_ID : Z := 2.

(** The milliseconds between two readings of the clock. *)
Definition milliseconds (t0 t1 : Z * Z) : double :=
  to_double
    (ladd (lmul (long_of_int (s64 (t1.1 - t0.1))) l1000)
       (ldiv (ldiv (long_of_int (s64 (t1.2 - t0.2))) l1000) l1000)).

Definition bench (n : Z) : uprog double :=
  t0 ← udo (ClockGettime CLOCK_PROCESS_CPUTIME_ID) ;
  func n ;;
  t1 ← udo (ClockGettime CLOCK_PROCESS_CPUTIME_ID) ;
  mret (milliseconds t0 t1).

Definition setup_affinity : uprog unit :=
  uid ← udo Geteuid ;
  if uid =? 0 then
    r ← udo (SchedSetaffinity 0 [0]) ;
    if r =? 0 then puts "Affinity set to CPU #0."
    else udo (Perror "sched_setaffinity")
  else puts "Running as normal user, run as root to set CPU affinity.".

(** [sscanf(s, "%u", &v)] of the GNU C library: [None] when it does not return 1. *)
Definition sscanf_u (s : string) : option Z :=
  let c := strtoul s 10 in
  match endp c with
  | Some _ => Some (u32 (value c))
  | None => None
  end.

(** The [i]-th argument, or its default. *)
Definition parse_arg (args : list string) (i : nat) (d : Z) : Z :=
  match args !! i with
  | Some s =>
      match sscanf_u s with
      | Some v => if v <? 1 then d else v
      | None => d
      end
  | None => d
  end.

(** The variables of the two loops. *)
Record stats := Stats { tot : double; avg : double; min : double; max : double }.

Definition no_stats (avg : double) : stats := Stats f0 avg INFINITY (SFopp INFINITY).

Definition add_run (n : Z) (st : stats) (cur : double) : stats :=
  let t := fadd (tot st) cur in
  Stats t (fdiv t (of_int n))
    (if flt cur (min st) then cur else min st)
    (if flt (max st) cur then cur else max st).

Definition stats_args (st : stats) : list arg :=
  [AF (tot st); AF (avg st); AF (min st); AF (max st)].

(** One iteration of either loop; [before] is what comes before the work. *)
Definition test_step (before : uprog unit) (fmt : string) (runs cycles : Z) :
    Z * stats -> uprog ((Z * stats) + stats) :=
  fun '(n, st) =>
    if n <=? runs then
      before ;;
      cur ← bench cycles ;
      let st' := add_run n st cur in
      printf fmt (stats_args st') ;;
      udo (Fflush Stdout) ;;
      mret (inl (u32 (n + 1), st'))
    else mret (inr st).

Definition test_fmt (test : string) : string :=
  cr +:+ "Test #" +:+ test +:+ ": tot %-9.3f  avg %-7.3f  min %-7.3f  max %-7.3f [ms]".

Definition sleeping (delay : Z) : uprog unit :=
  udo (Usleep delay) ;; mret tt.

(** The end of [main]: which test took longer. *)
Definition compare_tests (st1 st2 : stats) : uprog Z :=
  (if flt (tot st1) (tot st2) then
     printf ("Test #2 ran ~%.3fx slower than Test #1." +:+ nl) [AF (fdiv (tot st2) (tot st1))]
   else if flt (tot st2) (tot st1) then
     printf ("Test #1 ran ~%.3fx slower than Test #2." +:+ nl) [AF (fdiv (tot st1) (tot st2))]
   else puts ("Reality is a simulation." +:+ nl)) ;;
  when (flt (avg st2) f0_5)
    (puts ("Such low average times are not a good indicator. " +:+
           "You should re-run the rest with different parameters.")) ;;
  mret 0.

(** The two tests, and what follows. *)
Definition run_tests (fuel : nat) (runs cycles delay : Z) : uprog Z :=
  st1 ← loop fuel (test_step skip (test_fmt "1") runs cycles) (1, no_stats f0) ;
  fputs nl Stdout ;;
  st2 ← loop fuel (test_step (sleeping delay) (test_fmt "2") runs cycles)
    (1, no_stats (avg st1)) ;
  puts (nl +:+ "---") ;;
  compare_tests st1 st2.

(** [argv] without the name of the program. *)
Definition main (fuel : nat) (args : list string) : uprog Z :=
  let runs := parse_arg args 0 DEFAULT_RUNS in
  let cycles := parse_arg args 1 DEFAULT_CYCLES in
  let delay := parse_arg args 2 DEFAULT_DELAY in
  setup_affinity ;;
  printf ("Benchmarking %u runs of %u cycles each." +:+ nl) [AZ runs; AZ cycles] ;;
  printf ("Test #1 will proceed normally." +:+ nl +:+
    "Test #2 will usleep(%u) before each run." +:+ nl) [AZ delay] ;;
  fputs "Warming up... " Stdout ;;
  udo (Fflush Stdout) ;;
  warmup 10 cycles ;;
  puts ("done." +:+ nl +:+ "---") ;;
  run_tests fuel runs cycles delay.

(** ** What happens, in order *)

Inductive event :=
| Tick (t : Z * Z)        (** a reading of the clock *)
| Slept (usec : Z)
| Wrote (p : piece).      (** to [stdout] *)

Definition event_of (o : obs userE) : option event :=
  match o with
  | Obs c a =>
      match c return uans c -> option event with
      | ClockGettime _ => fun t => Some (Tick t)
      | Usleep u => fun _ => Some (Slept u)
      | Fprintf Stdout fmt args => fun _ => Some (Wrote (Fmt fmt args))
      | Fputs Stdout s => fun _ => Some (Wrote (Text s))
      | _ => fun _ => None
      end a
  end.

Definition events (t : trace userE) : list event := omap event_of t.

Lemma events_app t t' : events (t ++ t') = events t ++ events t'.
Proof. apply omap_app. Qed.

(** The runs of a test that took the times between the readings [ps]. *)
Fixpoint test_events (before : list event) (fmt : string) (n : Z) (st : stats)
    (ps : list ((Z * Z) * (Z * Z))) : list event :=
  match ps with
  | [] => []
  | (a, b) :: ps' =>
      let st' := add_run n st (milliseconds a b) in
      before ++ [Tick a; Tick b; Wrote (Fmt fmt (stats_args st'))] ++
      test_events before fmt (n + 1) st' ps'
  end.

Fixpoint test_stats (n : Z) (st : stats) (ps : list ((Z * Z) * (Z * Z))) : stats :=
  match ps with
  | [] => st
  | (a, b) :: ps' => test_stats (n + 1) (add_run n st (milliseconds a b)) ps'
  end.

(** [p] makes the events [es] and returns [a], whatever the calls answer. *)
Definition makes {A} (p : uprog A) (es : list event) (a : A) : Prop :=
  always p (fun t o => o = Done a /\ events t = es).

Lemma events_cons o t :
  events (o :: t) = match event_of o with Some e => e :: events t | None => events t end.
Proof. done. Qed.

Lemma makes_ret {A} (a : A) : makes (mret a) [] a.
Proof. done. Qed.

Lemma makes_then {A B} (p : uprog A) (f : A -> uprog B) es a Q :
  makes p es a ->
  always (f a) (fun t o => Q (es ++ events t) o) ->
  always (p ≫= f) (fun t o => Q (events t) o).
Proof.
  intros Hp Hf. apply always_bind. eapply always_mono; [|exact Hp].
  intros t o [-> <-]. eapply always_mono; [|exact Hf]. intros t' o'. by rewrite events_app.
Qed.

(** The work has no effect but the time it takes, and it ends. *)
Lemma func_returns n : 0 <= n < 2 ^ 32 -> func n = mret tt.
Proof.
  intros Hn. unfold func.
  assert (forall fuel i sum, 0 <= i <= n -> n - i < Z.of_nat fuel ->
    loop fuel (fun '(i, sum) => if i <? n then mret (inl (u32 (i + 1), fadd sum f0_001))
      else mret (inr tt)) (i, sum) = (mret tt : uprog unit)) as Hl.
  { induction fuel as [|fuel IH]; intros i sum Hi Hf; [lia|]. cbn.
    destruct (Z.ltb_spec i n); cbn; [|done].
    unfold u32, wrap. rewrite Z.mod_small by lia. apply IH; lia. }
  apply Hl; lia.
Qed.

Lemma warmup_returns runs cycles :
  0 < runs < 2 ^ 32 - 1 -> 0 <= cycles < 2 ^ 32 -> warmup runs cycles = mret tt.
Proof.
  intros Hr Hc. unfold warmup. rewrite func_returns by done.
  assert (forall fuel n, 0 <= n <= runs + 1 -> runs + 1 - n < Z.of_nat fuel ->
    loop fuel (fun n => if n <=? runs then mret tt ;; mret (inl (u32 (n + 1)))
      else mret (inr tt)) n = (mret tt : uprog unit)) as Hl.
  { induction fuel as [|fuel IH]; intros n Hn Hf; [lia|]. cbn.
    destruct (Z.leb_spec n runs); cbn; [|done].
    unfold u32, wrap. rewrite Z.mod_small by lia. apply IH; lia. }
  apply Hl; lia.
Qed.

Lemma bench_then {B} n (f : double -> uprog B) (Q : list event -> outcome B -> Prop) :
  0 <= n < 2 ^ 32 ->
  (forall a b, always (f (milliseconds a b)) (fun t o => Q (Tick a :: Tick b :: events t) o)) ->
  always (bench n ≫= f) (fun t o => Q (events t) o).
Proof.
  intros Hn Hf. unfold bench. intros a. change (udo ?c) with (do (E := userE) c).
  cbn [mbind prog_bind do]. rewrite func_returns by done. intros b. apply Hf.
Qed.

Section test.
Context (before : uprog unit) (bes : list event) (Hbefore : makes before bes tt).
Context (fmt : string) (runs cycles : Z) (Hcycles : 0 <= cycles < 2 ^ 32).

Lemma test_step_makes {B} n st (f : _ -> uprog B) (Q : list event -> outcome B -> Prop) :
  n <= runs ->
  (forall a b, let st' := add_run n st (milliseconds a b) in
    always (f (inl (u32 (n + 1), st'))) (fun t o =>
      Q (bes ++ [Tick a; Tick b; Wrote (Fmt fmt (stats_args st'))] ++ events t) o)) ->
  always (test_step before fmt runs cycles (n, st) ≫= f) (fun t o => Q (events t) o).
Proof.
  intros Hn Hf. unfold test_step. rewrite (proj2 (Z.leb_le _ _)) by done.
  apply always_assoc. eapply makes_then; [exact Hbefore|].
  apply always_assoc. apply (bench_then cycles _ (fun es o => Q (bes ++ es) o)); [done|].
  intros a b [] []. apply (Hf a b).
Qed.

(** A test that can count its runs. *)
Lemma test_makes fuel n st :
  0 <= n <= runs + 1 -> runs < 2 ^ 32 - 1 -> runs + 1 - n < Z.of_nat fuel ->
  always (loop fuel (test_step before fmt runs cycles) (n, st)) (fun t o => exists ps,
    Z.of_nat (length ps) = runs + 1 - n /\ o = Done (test_stats n st ps) /\
    events t = test_events bes fmt n st ps).
Proof.
  revert n st. induction fuel as [|fuel IH]; intros n st Hn Hr Hf; [lia|]. cbn [loop].
  destruct (Z.le_gt_cases n runs) as [Hle|Hgt].
  - apply (test_step_makes n st _ (fun es o => exists ps, Z.of_nat (length ps) = runs + 1 - n /\
      o = Done (test_stats n st ps) /\ es = test_events bes fmt n st ps)); [done|].
    intros a b st'. unfold u32, wrap. rewrite Z.mod_small by lia.
    eapply always_mono; [|apply IH; lia]. intros t o (ps & Hl & -> & ->).
    exists ((a, b) :: ps). cbn [length]. split_and!; [lia|done|done].
  - unfold test_step. rewrite (proj2 (Z.leb_gt _ _)) by done. exists []. cbn. split_and!; [lia|done|done].
Qed.

(** A test of [2 ^ 32 - 1] runs: the counter starts again, and the loop never ends. *)
Lemma test_endless fuel n st :
  0 <= n < 2 ^ 32 -> runs = 2 ^ 32 - 1 ->
  always (loop fuel (test_step before fmt runs cycles) (n, st))
    (fun _ o => o = Halted (Faulted OutOfFuel)).
Proof.
  revert n st. induction fuel as [|fuel IH]; intros n st Hn Hr; [done|]. cbn [loop].
  apply (test_step_makes n st _ (fun _ o => o = Halted (Faulted OutOfFuel))); [lia|].
  intros a b st'. apply IH; [|done]. unfold u32, wrap. apply Z.mod_pos_bound. lia.
Qed.

End test.

(** ** The order of floating point numbers *)

(** A key in which the order is lexicographic. *)
Definition rank (x : double) : Z * Z * Z :=
  match x with
  | S754_zero _ | S754_nan => (0, 0, 0)
  | S754_infinity s => (if s then -2 else 2, 0, 0)
  | S754_finite false m e => (1, e, Zpos m)
  | S754_finite true m e => (-1, - e, Zneg m)
  end.

Definition rank_lt (a b : Z * Z * Z) : Prop :=
  let '(a1, a2, a3) := a in let '(b1, b2, b3) := b in
  a1 < b1 \/ a1 = b1 /\ (a2 < b2 \/ a2 = b2 /\ a3 < b3).

Lemma flt_nan x y : flt x y = true -> x <> S754_nan /\ y <> S754_nan.
Proof. unfold flt, SFltb. by destruct x, y. Qed.

Lemma flt_rank x y :
  x <> S754_nan -> y <> S754_nan -> flt x y = true <-> rank_lt (rank x) (rank y).
Proof.
  intros Hx Hy. unfold flt, SFltb.
  destruct x as [[]|[]| |[] m e], y as [[]|[]| |[] m' e']; try done; cbn;
    try (split; [done || lia|intros; done || lia]).
  - change (Pos.compare_cont Eq m m') with (m ?= m')%positive.
    destruct (Z.compare_spec e e'), (Pos.compare_spec m m'); cbn;
      split; intros; done || lia.
  - change (Pos.compare_cont Eq m m') with (m ?= m')%positive.
    destruct (Z.compare_spec e e'), (Pos.compare_spec m m'); cbn;
      split; intros; done || lia.
Qed.

Lemma not_flt_rank x y :
  x <> S754_nan -> y <> S754_nan -> flt x y = false <-> ~ rank_lt (rank x) (rank y).
Proof. intros Hx Hy. rewrite <- flt_rank by done. by destruct (flt x y). Qed.

(** [if (cur < min) min = cur], for either order. *)
Section best.
Context (better : double -> double -> bool).
Context (Hnan : forall x y, better x y = true -> x <> S754_nan /\ y <> S754_nan).
Context (Hasym : forall x y, better x y = true -> better y x = false).
Context (Htrans : forall x y z, x <> S754_nan -> y <> S754_nan -> z <> S754_nan ->
  better x y = false -> better y z = false -> better x z = false).

Definition pick (m c : double) : double := if better c m then c else m.

Lemma better_irrefl x : better x x = false.
Proof. destruct (better x x) eqn:Hb; [|done]. by rewrite (Hasym _ _ Hb) in Hb. Qed.

Lemma pick_two m c :
  m <> S754_nan ->
  pick m c <> S754_nan /\ better m (pick m c) = false /\
  (c <> S754_nan -> better c (pick m c) = false) /\ (pick m c = m \/ pick m c = c).
Proof.
  intros Hm. unfold pick. destruct (better c m) eqn:Hb.
  - split_and!; [by apply (Hnan c m)|by apply Hasym|intros _; apply better_irrefl|by right].
  - split_and!; [done|apply better_irrefl|done|by left].
Qed.

Lemma foldl_pick l m0 :
  m0 <> S754_nan ->
  let m := foldl pick m0 l in
  m <> S754_nan /\ better m0 m = false /\
  (forall c, c ∈ l -> c <> S754_nan -> better c m = false) /\ (m = m0 \/ m ∈ l).
Proof.
  revert m0. induction l as [|c l IH]; intros m0 Hm0; cbn.
  { split_and!; [done|apply better_irrefl|by intros ? ?%elem_of_nil|by left]. }
  destruct (pick_two m0 c Hm0) as (Hp & Hle & Hc & Hin).
  destruct (IH _ Hp) as (Hm & Hle' & Hall & Hin'). split_and!; [done| | |].
  - by apply (Htrans m0 (pick m0 c)).
  - intros d [->|Hd]%elem_of_cons Hdn; [|by apply Hall].
    apply (Htrans c (pick m0 c)); auto.
  - rewrite elem_of_cons. destruct Hin' as [->|]; [destruct Hin as [->| ->]|]; auto.
Qed.

End best.

(** The times of the runs. *)
Definition times (ps : list ((Z * Z) * (Z * Z))) : list double :=
  (fun '(a, b) => milliseconds a b) <$> ps.

Lemma test_stats_folds n st ps :
  let r := test_stats n st ps in
  tot r = foldl fadd (tot st) (times ps) /\
  min r = foldl (pick flt) (min st) (times ps) /\
  max r = foldl (pick (flip flt)) (max st) (times ps).
Proof.
  revert n st. induction ps as [|[a b] ps IH]; intros n st; [done|].
  cbn [test_stats times fmap list_fmap foldl]. apply IH.
Qed.

Lemma test_stats_avg n st ps :
  ps <> [] -> avg (test_stats n st ps) =
    fdiv (tot (test_stats n st ps)) (of_int (n + Z.of_nat (length ps) - 1)).
Proof.
  revert n st. induction ps as [|[a b] [|p ps] IH]; intros n st Hps; [done| |].
  - cbn [test_stats length avg tot add_run]. do 2 f_equal. lia.
  - cbn [test_stats] in *. destruct p. rewrite IH by done. cbn [length].
    do 2 f_equal. lia.
Qed.

Lemma flt_asym x y : flt x y = true -> flt y x = false.
Proof.
  intros Hxy. destruct (flt_nan _ _ Hxy) as [Hx Hy].
  apply flt_rank in Hxy; [|done..]. apply not_flt_rank; [done..|].
  destruct (rank x) as [[]], (rank y) as [[]]. cbn in *. lia.
Qed.

Lemma not_flt_trans x y z :
  x <> S754_nan -> y <> S754_nan -> z <> S754_nan ->
  flt x y = false -> flt y z = false -> flt x z = false.
Proof.
  intros Hx Hy Hz. rewrite !not_flt_rank by done.
  destruct (rank x) as [[]], (rank y) as [[]], (rank z) as [[]]. cbn. lia.
Qed.

(** C40. The numbers a test reports at its end, from the times of its runs: the total
    is their sum from the left, the average is the total divided by their number,
    no time is less than the minimum or greater than the maximum (times that are
    not numbers aside), and both are times of runs unless every time is infinite or
    not a number. *)
Theorem test_stats_correct a ps :
  ps <> [] ->
  let r := test_stats 1 (no_stats a) ps in
  tot r = foldl fadd f0 (times ps) /\
  avg r = fdiv (tot r) (of_int (Z.of_nat (length ps))) /\
  (forall c, c ∈ times ps -> c <> S754_nan -> flt c (min r) = false /\ flt (max r) c = false) /\
  (min r = INFINITY \/ min r ∈ times ps) /\
  (max r = SFopp INFINITY \/ max r ∈ times ps).
Proof.
  intros Hps r. destruct (test_stats_folds 1 (no_stats a) ps) as (Ht & Hmin & Hmax).
  fold r in Ht, Hmin, Hmax. cbn [tot min max no_stats] in Ht, Hmin, Hmax.
  destruct (foldl_pick flt flt_nan flt_asym not_flt_trans (times ps) INFINITY)
    as (_ & _ & Hlo & Hinlo); [done|].
  destruct (foldl_pick (flip flt) (fun x y H => proj1 (and_comm _ _) (flt_nan y x H))
    (fun x y H => flt_asym y x H)
    (fun x y z Hx Hy Hz Hxy Hyz => not_flt_trans z y x Hz Hy Hx Hyz Hxy) (times ps)
    (SFopp INFINITY)) as (_ & _ & Hhi & Hinhi); [done|].
  rewrite <- Hmin in Hlo, Hinlo. rewrite <- Hmax in Hhi, Hinhi. split_and!; [done| | |done..].
  - unfold r. rewrite test_stats_avg by done. do 2 f_equal. lia.
  - intros c Hc Hn. split; [by apply Hlo|by apply Hhi].
Qed.

(** ** The whole program *)

Definition affinity_lines (uid r : Z) : list event :=
  if uid =? 0 then if r =? 0 then [Wrote (Text ("Affinity set to CPU #0." +:+ nl))] else []
  else [Wrote (Text ("Running as normal user, run as root to set CPU affinity." +:+ nl))].

Definition start_lines (runs cycles delay : Z) : list event :=
  [Wrote (Fmt ("Benchmarking %u runs of %u cycles each." +:+ nl) [AZ runs; AZ cycles]);
   Wrote (Fmt ("Test #1 will proceed normally." +:+ nl +:+
    "Test #2 will usleep(%u) before each run." +:+ nl) [AZ delay]);
   Wrote (Text "Warming up... "); Wrote (Text ("done." +:+ nl +:+ "---" +:+ nl))].

(** The conclusion drawn from the two tests. *)
Definition conclusion (s1 s2 : stats) : list event :=
  [if flt (tot s1) (tot s2) then
     Wrote (Fmt ("Test #2 ran ~%.3fx slower than Test #1." +:+ nl) [AF (fdiv (tot s2) (tot s1))])
   else if flt (tot s2) (tot s1) then
     Wrote (Fmt ("Test #1 ran ~%.3fx slower than Test #2." +:+ nl) [AF (fdiv (tot s1) (tot s2))])
   else Wrote (Text ("Reality is a simulation." +:+ nl +:+ nl))] ++
  if flt (avg s2) f0_5 then
    [Wrote (Text ("Such low average times are not a good indicator. " +:+
       "You should re-run the rest with different parameters." +:+ nl))]
  else [].

(** Everything a run does, from the readings of the clock. *)
Definition session (runs cycles delay uid r : Z) (ps1 ps2 : list ((Z * Z) * (Z * Z))) : list event :=
  let s1 := test_stats 1 (no_stats f0) ps1 in
  let s2 := test_stats 1 (no_stats (avg s1)) ps2 in
  affinity_lines uid r ++ start_lines runs cycles delay ++
  test_events [] (test_fmt "1") 1 (no_stats f0) ps1 ++
  [Wrote (Text nl)] ++
  test_events [Slept delay] (test_fmt "2") 1 (no_stats (avg s1)) ps2 ++
  [Wrote (Text (nl +:+ "---" +:+ nl))] ++ conclusion s1 s2.

Lemma parse_arg_bounds args i d : 1 <= d < 2 ^ 32 -> 1 <= parse_arg args i d < 2 ^ 32.
Proof.
  intros Hd. unfold parse_arg, sscanf_u. destruct (args !! i) as [s|]; [|done].
  destruct (endp _); [|done].
  pose proof (Z.mod_pos_bound (value (strtoul s 10)) (2 ^ 32)). unfold u32, wrap.
  destruct (Z.ltb_spec (value (strtoul s 10) mod 2 ^ 32) 1); lia.
Qed.

Lemma setup_affinity_then {B} (f : unit -> uprog B) (Q : list event -> outcome B -> Prop) :
  (forall uid r, always (f tt) (fun t o => Q (affinity_lines uid r ++ events t) o)) ->
  always (setup_affinity ≫= f) (fun t o => Q (events t) o).
Proof.
  intros Hf uid. unfold affinity_lines in Hf. specialize (Hf uid).
  destruct (uid =? 0) eqn:Hu; cbn; rewrite Hu; cbn.
  - intros r. specialize (Hf r). destruct (r =? 0) eqn:Hr; cbn; intros []; exact Hf.
  - intros []. exact (Hf 0).
Qed.

(** The part of [main] before the tests. *)
Lemma main_start fuel args (Q : list event -> outcome Z -> Prop) :
  let runs := parse_arg args 0 DEFAULT_RUNS in
  let cycles := parse_arg args 1 DEFAULT_CYCLES in
  let delay := parse_arg args 2 DEFAULT_DELAY in
  (forall uid r, always (run_tests fuel runs cycles delay)
    (fun t o => Q (affinity_lines uid r ++ start_lines runs cycles delay ++ events t) o)) ->
  always (main fuel args) (fun t o => Q (events t) o).
Proof.
  intros runs cycles delay Hrest.
  assert (1 <= cycles < 2 ^ 32) as Hc by (apply parse_arg_bounds; cbv; done).
  unfold main. fold runs cycles delay. rewrite warmup_returns by lia.
  apply setup_affinity_then. intros uid r [] [] [] [] []. apply (Hrest uid r).
Qed.

Lemma conclusion_makes s1 s2 : makes (compare_tests s1 s2) (conclusion s1 s2) 0.
Proof.
  unfold compare_tests, conclusion. generalize (flt (avg s2) f0_5) (flt (tot s1) (tot s2)) (flt (tot s2) (tot s1)).
  intros [] [] []; repeat intros []; done.
Qed.

(** C39. The run counts of the program are in range whatever its arguments are, with
    the defaults for arguments that are missing, not numbers or 0. Whatever the
    clock and the other calls answer, it times exactly [runs] runs in each of the
    two tests, sleeps for [delay] before each run of the second test and never in
    the first one, shows the figures so far after each run and the conclusion at
    the end, in this order, and returns 0; but if [runs] is [UINT_MAX] (for the
    argument -1, for one) the first test never ends, its counter wraps around. *)
Theorem main_session fuel args :
  let runs := parse_arg args 0 DEFAULT_RUNS in
  let cycles := parse_arg args 1 DEFAULT_CYCLES in
  let delay := parse_arg args 2 DEFAULT_DELAY in
  (1 <= runs < 2 ^ 32 /\ 1 <= cycles < 2 ^ 32 /\ 1 <= delay < 2 ^ 32) /\
  (runs < 2 ^ 32 - 1 -> runs < Z.of_nat fuel ->
    always (main fuel args) (fun t o => o = Done 0 /\ exists uid r ps1 ps2,
      Z.of_nat (length ps1) = runs /\ Z.of_nat (length ps2) = runs /\
      events t = session runs cycles delay uid r ps1 ps2)) /\
  (runs = 2 ^ 32 - 1 ->
    always (main fuel args) (fun _ o => o = Halted (Faulted OutOfFuel))).
Proof.
  intros runs cycles delay.
  assert (1 <= runs < 2 ^ 32) as Hruns by (apply parse_arg_bounds; cbv; done).
  assert (1 <= cycles < 2 ^ 32) as Hcyc by (apply parse_arg_bounds; cbv; done).
  assert (1 <= delay < 2 ^ 32) as Hdel by (apply parse_arg_bounds; cbv; done).
  split; [done|]. split.
  - intros Hr Hf. apply (main_start fuel args (fun es o => o = Done 0 /\ exists uid r ps1 ps2,
      Z.of_nat (length ps1) = runs /\ Z.of_nat (length ps2) = runs /\
      es = session runs cycles delay uid r ps1 ps2)). fold runs cycles delay. intros uid r.
    apply always_bind. eapply always_mono;
      [|apply (test_makes skip [] (makes_ret tt) (test_fmt "1") runs cycles); lia].
    intros t1 o1 (ps1 & Hl1 & -> & Ht1) []. apply always_bind. eapply always_mono;
      [|apply (test_makes (sleeping delay) [Slept delay] ltac:(by intros ?) (test_fmt "2") runs cycles); lia].
    intros t2 o2 (ps2 & Hl2 & -> & Ht2) []. eapply always_mono; [|apply conclusion_makes].
    intros t3 o3 [-> Ht3]. split; [done|]. exists uid, r, ps1, ps2. split_and!; [lia|lia|].
    unfold session. by rewrite !events_app, Ht1, events_cons, events_app, Ht2, events_cons, Ht3.
  - intros Hr. apply (main_start fuel args (fun _ o => o = Halted (Faulted OutOfFuel))).
    fold runs cycles delay. intros uid r. apply always_bind. eapply always_mono;
      [|apply (test_endless skip [] (makes_ret tt) (test_fmt "1") runs cycles); lia].
    by intros t o ->.
Qed.

(** Two runs, of 1.5 and 2 milliseconds. *)
Definition demo_runs : list ((Z * Z) * (Z * Z)) :=
  [((0, 0), (0, 1500000)); ((7, 999000000), (8, 1000000))].

Example demo_times : times demo_runs = [fdiv (of_int 3) (of_int 2); of_int 2].
Proof. vm_compute. reflexivity. Qed.

Example demo_stats : test_stats 1 (no_stats f0) demo_runs =
  Stats (fdiv (of_int 7) (of_int 2)) (fdiv (of_int 7) (of_int 4)) (fdiv (of_int 3) (of_int 2))
    (of_int 2).
Proof. vm_compute. reflexivity. Qed.

Lemma test_stats_correct_witness :
  let r := test_stats 1 (no_stats f0) demo_runs in
  tot r = foldl fadd f0 (times demo_runs) /\ avg r = fdiv (tot r) (of_int 2).
Proof.
  assert (demo_runs <> []) as Hd by discriminate.
  destruct (test_stats_correct f0 demo_runs Hd) as (Ht & Ha & _). split; [exact Ht|exact Ha].
Defined.

Lemma main_session_witness :
  always (main 3 ["2"; "0"; "70"]) (fun t o => o = Done 0 /\ exists uid r ps1 ps2,
    Z.of_nat (length ps1) = 2 /\ Z.of_nat (length ps2) = 2 /\
    events t = session 2 1000000 70 uid r ps1 ps2) /\
  always (main 100 ["-1"]) (fun _ o => o = Halted (Faulted OutOfFuel)).
Proof.
  split.
  - destruct (main_session 3 ["2"; "0"; "70"]%string) as (_ & H & _).
    apply H; vm_compute; reflexivity.
  - destruct (main_session 100 ["-1"]%string) as (_ & _ & H). apply H. vm_compute. reflexivity.
Defined.
