(* ===== verification/HashTable.v ===== *)
(** src/modules/test_hashtable.c: two elements through the kernel's hash table.

The table is the interface [HashTable], which states what <linux/hashtable.h>
documents; the theorem about the module is proved against the interface.
[chained] is an implementation of it by chains of nodes. *)
From Stdlib Require Import Ascii.
From S2P Require Import Prelude Effects Kernel.

(** [struct mystruct], without its node. *)
Record mystruct := MkMystruct { data : Z; name : string }.

(** The nodes of [a] and [b], and the structures they are embedded in. *)
Inductive node := NodeA | NodeB.

#[export] Instance node_eq_dec : EqDecision node.
Proof. solve_decision. Defined.

Definition container (n : node) : mystruct :=
  match n with
  | NodeA => MkMystruct 3 "foo"
  | NodeB => MkMystruct 7 "oof"
  end.

(** ** The table *)
Class HashTable (T : Type) := {
  hash_init : T -> T;
  hash_add : T -> node -> Z -> T;
  hash_del : T -> node -> T;
  hash_for_each : T -> list node;                 (** the nodes visited, in order *)
  hash_for_each_possible : T -> Z -> list node;
  table_ok : T -> Prop;

  init_ok t : table_ok (hash_init t);
  add_ok t n key : table_ok t -> n ∉ hash_for_each t -> table_ok (hash_add t n key);
  each_init t : hash_for_each (hash_init t) = [];
  each_add t n key :
    table_ok t -> n ∉ hash_for_each t ->
    hash_for_each (hash_add t n key) ≡ₚ n :: hash_for_each t;
  del_ok t n : table_ok t -> table_ok (hash_del t n);
  each_del t n :
    table_ok t -> n ∈ hash_for_each t ->
    n :: hash_for_each (hash_del t n) ≡ₚ hash_for_each t;
  possible_add t n key :
    table_ok t -> n ∉ hash_for_each t -> n ∈ hash_for_each_possible (hash_add t n key) key;
  possible_keep t n m key key' :
    table_ok t -> n ∉ hash_for_each t -> m ∈ hash_for_each_possible t key ->
    m ∈ hash_for_each_possible (hash_add t n key') key;
  possible_each t key : hash_for_each_possible t key ⊆+ hash_for_each t;
}.

(** ** The module *)
Section module.
Context `{HashTable T}.
(** The configuration, the signedness of [char], and the kernel's [xxhash]. *)
Context (CONFIG_XXHASH char_signed : bool) (xxhash : string -> Z -> Z -> Z).

Definition char_value (c : ascii) : Z :=
  let n := Z.of_nat (nat_of_ascii c) in if char_signed then swrap 8 n else n.

(** The loop of [mystupidhash]. *)
Fixpoint sum_chars (key : Z) (s : string) : Z :=
  match s with
  | EmptyString => key
  | String c s' => sum_chars (u32 (key + char_value c)) s'
  end.

Definition mystupidhash (s : string) : Z := sum_chars 0 s.

Definition key_of (s : string) : Z :=
  if CONFIG_XXHASH then u32 (xxhash s (Z.of_nat (String.length s)) 0x1337c0febabe1337)
  else mystupidhash s.

(** The loop that looks for [foo]. *)
Fixpoint find_foo (key_a : Z) (curs : list node) : kprog unit :=
  match curs with
  | [] => skip
  | cur :: curs' =>
      pr_info ("match for key %u: data = %d, name = %s" +:+ nl)
        [AZ key_a; AZ (data (container cur)); AS (name (container cur))] ;;
      if String.eqb (name (container cur)) "foo" then
        pr_info ("element named " +:+ dq +:+ "foo" +:+ dq +:+ " found!" +:+ nl) []
      else find_foo key_a curs'
  end.

(** The result, and the table after. *)
Definition myhashtable_init (tbl : T) : kprog (Z * T) :=
  pr_info ("module loaded" +:+ nl) [] ;;
  let key_a := key_of (name (container NodeA)) in
  let key_b := key_of (name (container NodeB)) in
  pr_info ("key_a = %u, key_b = %u" +:+ nl) [AZ key_a; AZ key_b] ;;
  let tbl := hash_init tbl in
  let tbl := hash_add tbl NodeA key_a in
  let tbl := hash_add tbl NodeB key_b in
  for_each (hash_for_each tbl) (fun cur =>
    pr_info ("element: data = %d, name = %s" +:+ nl)
      [AZ (data (container cur)); AS (name (container cur))]) ;;
  find_foo key_a (hash_for_each_possible tbl key_a) ;;
  let tbl := hash_del tbl NodeA in
  let tbl := hash_del tbl NodeB in
  mret (0, tbl).

Definition myhashtable_exit : kprog unit := pr_info ("module unloaded" +:+ nl) [].

(** ** Lookup *)

Definition element_line (n : node) : logline :=
  Log KERN_INFO ("element: data = %d, name = %s" +:+ nl)
    [AZ (data (container n)); AS (name (container n))].

Definition match_line (key : Z) (n : node) : logline :=
  Log KERN_INFO ("match for key %u: data = %d, name = %s" +:+ nl)
    [AZ key; AZ (data (container n)); AS (name (container n))].

Definition found_line : logline :=
  Log KERN_INFO ("element named " +:+ dq +:+ "foo" +:+ dq +:+ " found!" +:+ nl) [].

Lemma find_foo_prints key pre post :
  NodeA ∉ pre ->
  prints (find_foo key (pre ++ NodeA :: post))
    ((match_line key <$> pre) ++ [match_line key NodeA; found_line]) tt.
Proof.
  intros Hpre. induction pre as [|n pre IH]; cbn [app find_foo].
  - eapply (prints_bind _ _ [_] [_]); apply prints_printk.
  - apply not_elem_of_cons in Hpre as [Hn Hpre]. destruct n; [done|].
    eapply (prints_bind _ _ [_]); [apply prints_printk|by apply IH].
Qed.

Lemma elements_print l :
  prints (for_each l (fun cur => pr_info ("element: data = %d, name = %s" +:+ nl)
      [AZ (data (container cur)); AS (name (container cur))]))
    (element_line <$> l) tt.
Proof.
  induction l as [|n l IH]; [apply prints_skip|].
  eapply (prints_bind _ _ [_]); [apply prints_printk|exact IH].
Qed.

(** The table after both insertions. *)
Lemma filled tbl ka kb :
  let t := hash_add (hash_add (hash_init tbl) NodeA ka) NodeB kb in
  hash_for_each t ≡ₚ [NodeB; NodeA] /\ NodeA ∈ hash_for_each_possible t ka /\
  hash_for_each (hash_del (hash_del t NodeA) NodeB) = [].
Proof.
  cbn zeta. set (t0 := hash_init tbl). set (t1 := hash_add t0 NodeA ka).
  set (t := hash_add t1 NodeB kb).
  assert (table_ok t0) as H0 by apply init_ok.
  assert (NodeA ∉ hash_for_each t0) as Hn0 by (unfold t0; rewrite each_init; set_solver).
  assert (table_ok t1) as H1 by by apply add_ok.
  assert (hash_for_each t1 ≡ₚ [NodeA]) as He1.
  { unfold t1. rewrite each_add by done. unfold t0. by rewrite each_init. }
  assert (NodeB ∉ hash_for_each t1) as Hn1 by (rewrite He1; set_solver).
  assert (table_ok t) as H2 by by apply add_ok.
  assert (hash_for_each t ≡ₚ [NodeB; NodeA]) as Ht.
  { unfold t. by rewrite each_add, He1. }
  split_and!; [done|by apply possible_keep, possible_add|].
  assert (hash_for_each (hash_del t NodeA) ≡ₚ [NodeB]) as Hd.
  { apply (Permutation_cons_inv (a := NodeA)).
    rewrite each_del by (done || (rewrite Ht; set_solver)). rewrite Ht. apply perm_swap. }
  apply Permutation_nil_r, symmetry, (Permutation_cons_inv (a := NodeB)).
  rewrite each_del by (by apply del_ok || (rewrite Hd; set_solver)). done.
Qed.

(** What can come before [foo] in its bucket. *)
Lemma bucket_split l :
  NodeA ∈ l -> l ⊆+ [NodeB; NodeA] ->
  exists pre post, l = pre ++ NodeA :: post /\ (pre = [] \/ pre = [NodeB]).
Proof.
  intros Ha Hl.
  assert (NoDup [NodeB; NodeA]) as Hn.
  { repeat (constructor; [set_solver|]); constructor. }
  apply submseteq_Permutation in Hl as [k Hk]. rewrite Hk in Hn.
  apply NoDup_app in Hn as (Hn & _ & _).
  destruct l as [|[] l]; [set_solver|by exists [], l; auto|].
  destruct l as [|[] l]; [set_solver|by exists [NodeB], l; auto|].
  apply NoDup_cons in Hn as [Hn _]. set_solver.
Qed.

End module.

(** ** The table of <linux/hashtable.h>

Chains of nodes, of which [hash_add] extends the one that [hash_min] chooses at
its head. *)
Section chained.
Context (hash_min : Z -> nat) (size : nat) (hash_min_lt : forall key, (hash_min key < size)%nat).

Lemma concat_alter (n : node) i (t : list (list node)) :
  (i < length t)%nat -> concat (alter (cons n) i t) ≡ₚ n :: concat t.
Proof using.
  revert i. induction t as [|c t IH]; intros i Hi; [cbn in Hi; lia|].
  destruct i as [|i]; [done|]. cbn in *. rewrite IH by lia. symmetry. apply Permutation_middle.
Qed.

Lemma concat_filter (P : node -> Prop) `{forall n, Decision (P n)} (t : list (list node)) :
  concat (filter P <$> t) = filter P (concat t).
Proof using. induction t as [|c t IH]; [done|]. cbn. by rewrite filter_app, IH. Qed.

Lemma filter_ne_perm (n : node) l : NoDup l -> n ∈ l -> n :: filter (.≠ n) l ≡ₚ l.
Proof using.
  intros Hl Hn. apply NoDup_Permutation; [|done|].
  - constructor; [rewrite list_elem_of_filter; by intros []|by apply NoDup_filter].
  - intros m. rewrite elem_of_cons, list_elem_of_filter.
    destruct (decide (m = n)) as [->|]; naive_solver.
Qed.

Lemma concat_empty n : concat (replicate n ([] : list node)) = [].
Proof using. induction n as [|n IH]; [done|exact IH]. Qed.

#[refine] Instance chained : HashTable (list (list node)) := {
  hash_init _ := replicate size [];
  hash_add t n key := alter (cons n) (hash_min key) t;
  hash_del t n := filter (.≠ n) <$> t;
  hash_for_each t := concat t;
  hash_for_each_possible t key := default [] (t !! hash_min key);
  table_ok t := length t = size /\ NoDup (concat t);
}.
Proof.
  - intros t. rewrite length_replicate. split; [done|].
    rewrite concat_empty. constructor.
  - intros t n key [Ht Hd] Hn. rewrite length_alter. split; [done|].
    rewrite concat_alter by (by rewrite Ht). by constructor.
  - intros t. apply concat_empty.
  - intros t n key [Ht _] _. apply concat_alter. by rewrite Ht.
  - intros t n [Ht Hd]. rewrite length_fmap, concat_filter. split; [done|by apply NoDup_filter].
  - intros t n [_ Hd] Hn. rewrite concat_filter. by apply filter_ne_perm.
  - intros t n key [Ht _] _. rewrite list_lookup_alter, decide_True by done.
    destruct (lookup_lt_is_Some_2 t (hash_min key)) as [c ->]; [by rewrite Ht|].
    set_solver.
  - intros t n m key key' _ _ Hm. rewrite list_lookup_alter.
    case_decide as Hk; [|done]. rewrite Hk. destruct (t !! hash_min key); cbn; set_solver.
  - intros t key. destruct (t !! hash_min key) as [c|] eqn:Hc; [|apply submseteq_nil_l].
    cbn. apply list_elem_of_split_length in Hc as (l1 & l2 & -> & _).
    rewrite concat_app. cbn. apply submseteq_inserts_l, submseteq_inserts_r. done.
Defined.

End chained.

(** C27. Whatever the hash function and wherever it puts the two elements, loading
    the module lists each of them once, finds the one named [foo], by passing at
    most over the other one, and leaves the table empty. Without [xxhash] the
    two keys are equal: the collision always happens, and only the comparison of
    the names tells the elements apart. *)
Theorem myhashtable_report `{HashTable T} CONFIG_XXHASH char_signed xxhash (tbl : T) :
  let key := key_of CONFIG_XXHASH char_signed xxhash in
  (exists order passed tbl',
    prints (myhashtable_init CONFIG_XXHASH char_signed xxhash tbl)
      ([Log KERN_INFO ("module loaded" +:+ nl) [];
        Log KERN_INFO ("key_a = %u, key_b = %u" +:+ nl) [AZ (key "foo"%string); AZ (key "oof"%string)]] ++
       (element_line <$> order) ++ (match_line (key "foo"%string) <$> passed) ++
       [match_line (key "foo"%string) NodeA; found_line]) (0, tbl') /\
    order ≡ₚ [NodeB; NodeA] /\ (passed = [] \/ passed = [NodeB]) /\
    hash_for_each tbl' = []) /\
  (CONFIG_XXHASH = false -> key "foo"%string = 324 /\ key "oof"%string = 324).
Proof.
  cbn zeta. set (key := key_of CONFIG_XXHASH char_signed xxhash). split.
  - pose proof (filled tbl (key "foo"%string) (key "oof"%string)) as Hf. cbn zeta in Hf.
    destruct Hf as (He & Ha & Hd).
    set (t := hash_add _ _ _) in *.
    destruct (bucket_split (hash_for_each_possible t (key "foo"%string)))
      as (pre & post & Hp & Hpre); [done|by rewrite <- He; apply possible_each|].
    exists (hash_for_each t), pre, (hash_del (hash_del t NodeA) NodeB).
    split_and!; [|done..]. unfold myhashtable_init.
    eapply (prints_bind _ _ [_]); [apply prints_printk|].
    eapply (prints_bind _ _ [_]); [apply prints_printk|].
    eapply prints_bind; [apply elements_print|].
    rewrite <- (app_nil_r (_ ++ [_; _])).
    eapply prints_bind; [|apply prints_ret].
    change (hash_for_each_possible _ _) with (hash_for_each_possible t (key "foo"%string)).
    rewrite Hp. apply find_foo_prints. destruct Hpre as [-> | ->]; set_solver.
  - intros ->. unfold key, key_of. destruct char_signed; by vm_compute.
Qed.

(** With eight chains and a bucket chosen by the low bits of the key, [oof], added
    last, comes first in the bucket of [foo]. *)
Lemma low_bits_lt key : (Z.to_nat (key mod 8) < 8)%nat.
Proof. pose proof (Z.mod_pos_bound key 8 eq_refl). lia. Qed.

Example demo_log :
  printed (run (fixed kdefault) (myhashtable_init (H := chained _ 8 low_bits_lt)
    false true (fun _ _ _ => 0) [])).1 =
  [Log KERN_INFO ("module loaded" +:+ nl) [];
   Log KERN_INFO ("key_a = %u, key_b = %u" +:+ nl) [AZ 324; AZ 324]] ++
  (element_line <$> [NodeB; NodeA]) ++ (match_line 324 <$> [NodeB; NodeA]) ++ [found_line].
Proof. reflexivity. Qed.

Lemma myhashtable_report_witness :
  exists ls tbl', prints (myhashtable_init (H := chained _ 8 low_bits_lt)
    false true (fun _ _ _ => 0) []) ls (0, tbl') /\ concat tbl' = [].
Proof.
  destruct (myhashtable_report (H := chained _ 8 low_bits_lt) false true (fun _ _ _ => 0) [])
    as [(order & passed & tbl' & Hp & _ & _ & He) _].
  eexists _, tbl'. split; [exact Hp|exact He].
Defined.
