(* ===== verification/SyscallHijack.v ===== *)
(** src/modules/arm64/syscall_hijack.c: replacing the entry of [read] in the system
call table of an arm64 kernel.

[ARM64] is what the module uses of the architecture's headers and [ARM64Laws]
what it relies on. The module runs on [machine]: words of memory, page table
entries among them, behind a TLB that keeps an entry it has used until it is
flushed; a store to a page that is not writable faults. *)
From S2P Require Import Prelude Effects Kernel.

Class ARM64 := {
  PAGE_SHIFT : Z;
  __NR_read : Z;
  PTE_WRITE : Z;
  PTE_RDONLY : Z;
  clear_pte_bit : Z -> Z -> Z;
  set_pte_bit : Z -> Z -> Z;
  pte_writable : Z -> bool;   (** whether the hardware lets a store through *)
}.

Section module.
Context `{ARM64}.
(** The address of [myread] in the module. *)
Context (myread_addr : Z).

Definition PAGE_SIZE : Z := shl64 1 PAGE_SHIFT.

Definition PAGE_MASK : Z := not64 (PAGE_SIZE - 1).

(** The static variables. *)
Record statics := Statics {
  init_mm_ptr : Z;
  syscall_table : Z;
  original_read : Z;
}.

Record page_change_data := PageChangeData { set_mask : Z; clear_mask : Z }.

Definition change_page_range (cdata : page_change_data) (ptep : Z) : kprog Z :=
  pte ← kdo (Load ptep) ;
  let pte := clear_pte_bit pte (clear_mask cdata) in
  let pte := set_pte_bit pte (set_mask cdata) in
  kdo (SetPte ptep pte) ;;
  mret 0.

(** [apply_to_page_range(mm, start, size, fn, data)]: the kernel calls [fn] for one
    entry after the other, until it answers an error. *)
Fixpoint apply_each (fn : Z -> kprog Z) (pteps : list Z) (err : Z) : kprog Z :=
  match pteps with
  | [] => mret err
  | ptep :: pteps' =>
      ret ← fn ptep ;
      if ret =? 0 then apply_each fn pteps' err else mret ret
  end.

Definition apply_to_page_range (mm start size : Z) (fn : Z -> kprog Z) : kprog Z :=
  '(pteps, err) ← kdo (ApplyToPageRange mm start size) ;
  apply_each fn pteps err.

Definition __change_memory_common (v : statics) (start size set_mask clear_mask : Z) : kprog Z :=
  let data := PageChangeData set_mask clear_mask in
  ret ← apply_to_page_range (init_mm_ptr v) start size (change_page_range data) ;
  kdo (FlushTlbKernelRange start (u64 (start + size))) ;;
  mret ret.

Definition set_page_rw (v : statics) (addr : Z) : kprog Z :=
  kdo VmUnmapAliases ;;
  __change_memory_common v addr PAGE_SIZE PTE_WRITE PTE_RDONLY.

Definition set_page_ro (v : statics) (addr : Z) : kprog Z :=
  kdo VmUnmapAliases ;;
  __change_memory_common v addr PAGE_SIZE PTE_RDONLY PTE_WRITE.

Definition myread (v : statics) (regs : Z) : kprog Z :=
  pr_info ("read() called" +:+ nl) [] ;;
  kdo (CallSyscall (original_read v) regs).

(** [&syscall_table[__NR_read]], and the page the module makes writable. *)
Definition read_entry (v : statics) : Z := u64 (syscall_table v + 8 * __NR_read).

Definition read_page (v : statics) : Z := Z.land (u64 (syscall_table v + __NR_read)) PAGE_MASK.

(** The result, and the static variables after. *)
Definition modinit (v : statics) : kprog (Z * statics) :=
  pr_info ("init" +:+ nl) [] ;;
  mm ← kdo (KallsymsLookupName "init_mm") ;
  table ← kdo (KallsymsLookupName "sys_call_table") ;
  let v := Statics mm table (original_read v) in
  read ← kdo (Load (read_entry v)) ;
  let v := Statics mm table read in
  pr_info ("init_mm        @ 0x%px" +:+ nl) [AP (init_mm_ptr v)] ;;
  pr_info ("sys_call_table @ 0x%px" +:+ nl) [AP (syscall_table v)] ;;
  pr_info ("original_read  @ 0x%px" +:+ nl) [AP (original_read v)] ;;
  res ← set_page_rw v (read_page v) ;
  if negb (res =? 0) then
    pr_err ("set_page_rw() failed: %d" +:+ nl) [AZ res] ;;
    mret (res, v)
  else
  kdo (Store (read_entry v) myread_addr) ;;
  res ← set_page_ro v (read_page v) ;
  if negb (res =? 0) then
    pr_err ("set_page_ro() failed: %d" +:+ nl) [AZ res] ;;
    mret (res, v)
  else
  pr_info ("init done" +:+ nl) [] ;;
  mret (0, v).

Definition modexit (v : statics) : kprog unit :=
  pr_info ("exit" +:+ nl) [] ;;
  res ← set_page_rw v (read_page v) ;
  if negb (res =? 0) then
    pr_err ("set_page_rw() failed: %d" +:+ nl) [AZ res]
  else
  kdo (Store (read_entry v) (original_read v)) ;;
  res ← set_page_ro v (read_page v) ;
  when (negb (res =? 0)) (pr_err ("set_page_ro() failed: %d" +:+ nl) [AZ res]) ;;
  pr_info ("goodbye" +:+ nl) [].

(** ** The machine *)

Record machine := Machine {
  mem : gmap Z Z;       (** words by address *)
  tlb : gmap Z Z;       (** entries in use, by page *)
  errs : list Z;        (** the next answers of [apply_to_page_range] *)
}.

Context (symbol : string -> Z).   (** the addresses of the kernel's symbols *)
Context (pte_addr : Z -> Z).      (** where the entry of a page is in memory *)

Definition page_of (p : Z) : Z := Z.land p PAGE_MASK.

(** The entry that decides about an access to a page. *)
Definition effective_pte (s : machine) (page : Z) : option Z :=
  match tlb s !! page with
  | Some pte => Some pte
  | None => mem s !! pte_addr page
  end.

(** A store by the processor. *)
Definition store (s : machine) (p v : Z) : option machine :=
  pte ← effective_pte s (page_of p);
  if pte_writable pte && bool_decide (is_Some (mem s !! p)) then
    Some (Machine (<[p := v]> (mem s)) (<[page_of p := pte]> (tlb s)) (errs s))
  else None.

Definition hd_arm : handler kernelE machine := fun s c =>
  match c return option (kans c * machine) with
  | Load p => v ← mem s !! p; Some (v, s)
  | Store p v => s' ← store s p v; Some (tt, s')
  | SetPte p v => Some (tt, Machine (<[p := v]> (mem s)) (tlb s) (errs s))
  | ApplyToPageRange _ start size =>
      let err := default 0 (head (errs s)) in
      Some ((if err =? 0 then
               (fun i => pte_addr (start + i * PAGE_SIZE)) <$> seqZ 0 (size / PAGE_SIZE)
             else [], err), Machine (mem s) (tlb s) (tail (errs s)))
  | FlushTlbKernelRange lo hi =>
      Some (tt, Machine (mem s) (filter (fun '(page, _) => ~ lo <= page < hi) (tlb s)) (errs s))
  | KallsymsLookupName name => Some (symbol name, s)
  | c' => Some (kdefault c', s)
  end.

(** ** Changing the attributes of a page *)

Definition make_rw (pte : Z) : Z := set_pte_bit (clear_pte_bit pte PTE_RDONLY) PTE_WRITE.

Definition make_ro (pte : Z) : Z := set_pte_bit (clear_pte_bit pte PTE_WRITE) PTE_RDONLY.

Class ARM64Laws := {
  page_shift_range : 0 < PAGE_SHIFT < 63;
  rw_writable pte : pte_writable (make_rw pte) = true;
  ro_protected pte : pte_writable (make_ro pte) = false;
  ro_rw pte : make_ro (make_rw pte) = make_ro pte;
  ro_ro pte : make_ro (make_ro pte) = make_ro pte;
}.

Context `{Hlaws : !ARM64Laws}.

Abbreviation arm := (exec hd_arm).

Lemma exec_call {A} (s : machine) c (f : kans c -> kprog A) :
  arm s (kdo c ≫= f) =
  match hd_arm s c with
  | Some (r, s') => arm s' (f r)
  | None => (s, Halted (Faulted BadAccess))
  end.
Proof. done. Qed.

Lemma exec_printk {A} (s : machine) l fmt args (f : unit -> kprog A) :
  arm s (kdo (Printk l fmt args) ≫= f) = arm s (f tt).
Proof. done. Qed.

(** The next call on the machine. *)
Ltac arm_call := etransitivity; [apply exec_call|]; cbn [hd_arm].

Lemma PAGE_SIZE_pos : 0 < PAGE_SIZE.
Proof.
  pose proof page_shift_range. unfold PAGE_SIZE, shl64, u64, wrap.
  rewrite Z.shiftl_1_l, Z.mod_small by (split; [lia|by apply Z.pow_lt_mono_r; lia]). lia.
Qed.

(** The TLB without a page. *)
Definition flushed (page : Z) (t : gmap Z Z) : gmap Z Z :=
  filter (fun '(p, _) => ~ page <= p < u64 (page + PAGE_SIZE)) t.

(** A page that is not the last one of the address space. *)
Definition inner (page : Z) : Prop := 0 <= page /\ page + PAGE_SIZE < 2 ^ 64.

Lemma flushed_page page t : inner page -> flushed page t !! page = None.
Proof.
  intros [Hlo Hhi]. pose proof PAGE_SIZE_pos. apply map_lookup_filter_None. right.
  intros pte _ Hr. apply Hr. rewrite u64_id by (split; lia). lia.
Qed.

(** One call of [__change_memory_common] on a page. *)
Lemma change_exec v page (s : machine) pte sm cm :
  mem s !! pte_addr page = Some pte -> default 0 (head (errs s)) = 0 ->
  arm s (__change_memory_common v page PAGE_SIZE sm cm) =
  (Machine (<[pte_addr page := set_pte_bit (clear_pte_bit pte cm) sm]> (mem s))
     (flushed page (tlb s)) (tail (errs s)), Done 0).
Proof.
  intros Hp He. pose proof PAGE_SIZE_pos. unfold __change_memory_common, apply_to_page_range.
  rewrite exec_bind. cbn. rewrite He, Z.eqb_refl, Z.div_same by lia.
  replace ((fun i => pte_addr (page + i * PAGE_SIZE)) <$> seqZ 0 1) with [pte_addr page]
    by (change (seqZ 0 1) with [0]; cbn [fmap list_fmap]; by rewrite Z.mul_0_l, Z.add_0_r).
  cbn. rewrite Hp. done.
Qed.

Lemma change_fails v page (s : machine) sm cm e :
  head (errs s) = Some e -> e <> 0 ->
  arm s (__change_memory_common v page PAGE_SIZE sm cm) =
  (Machine (mem s) (flushed page (tlb s)) (tail (errs s)), Done e).
Proof.
  intros He Hn. unfold __change_memory_common, apply_to_page_range.
  rewrite exec_bind. cbn. rewrite He. cbn.
  rewrite (proj2 (Z.eqb_neq e 0)) by done. done.
Qed.

Lemma store_through (s : machine) p v x pte :
  tlb s !! page_of p = None -> mem s !! pte_addr (page_of p) = Some pte ->
  pte_writable pte = true -> mem s !! p = Some x ->
  store s p v = Some (Machine (<[p := v]> (mem s)) (<[page_of p := pte]> (tlb s)) (errs s)).
Proof.
  intros Ht Hpte Hw Hx. unfold store, effective_pte. rewrite Ht, Hpte. cbn.
  by rewrite Hw, Hx.
Qed.

Lemma store_refused (s : machine) p v pte :
  tlb s !! page_of p = None -> mem s !! pte_addr (page_of p) = Some pte ->
  pte_writable pte = false -> store s p v = None.
Proof.
  intros Ht Hpte Hw. unfold store, effective_pte. rewrite Ht, Hpte. cbn. by rewrite Hw.
Qed.

(** ** Replacing the entry

The entry of [read] is at [entry], in [page], whose attributes are [pte]. *)
Record mapped (s : machine) (entry page read pte : Z) : Prop := {
  mapped_page : page_of entry = page;
  mapped_inner : inner page;
  mapped_apart : pte_addr page <> entry;
  mapped_read : mem s !! entry = Some read;
  mapped_pte : mem s !! pte_addr page = Some pte;
}.

Definition writable (s : machine) (page : Z) (pte : Z) : machine :=
  Machine (<[pte_addr page := make_rw pte]> (mem s)) (flushed page (tlb s)) (tail (errs s)).

Definition stored (s : machine) (entry page pte v : Z) : machine :=
  Machine (<[entry := v]> (mem (writable s page pte)))
    (<[page := make_rw pte]> (tlb (writable s page pte))) (errs (writable s page pte)).

Definition patched (s : machine) (entry page pte v : Z) : machine :=
  Machine (<[entry := v]> (<[pte_addr page := make_ro pte]> (mem s)))
    (flushed page (tlb (stored s entry page pte v))) (tail (tail (errs s))).

Section patch.
Context (v : statics) (s : machine) (entry page read pte : Z).
Context (Hm : mapped s entry page read pte).

Lemma rw_exec :
  default 0 (head (errs s)) = 0 -> arm s (set_page_rw v page) = (writable s page pte, Done 0).
Proof using Hm Hlaws.
  intros He. unfold set_page_rw. arm_call.
  change (arm s (__change_memory_common v page PAGE_SIZE PTE_WRITE PTE_RDONLY) =
    (writable s page pte, Done 0)).
  by rewrite (change_exec _ _ _ pte) by (done || apply Hm).
Qed.

Lemma store_exec val :
  store (writable s page pte) entry val = Some (stored s entry page pte val).
Proof using Hm Hlaws.
  destruct Hm as [Hpage Hi Ha Hr Hp]. subst page.
  rewrite (store_through _ _ _ read (make_rw pte)); [done| | |apply rw_writable|].
  - by apply flushed_page.
  - apply lookup_insert_eq.
  - cbn. by rewrite lookup_insert_ne.
Qed.

Lemma ro_exec val :
  default 0 (head (tail (errs s))) = 0 ->
  arm (stored s entry page pte val) (set_page_ro v page) = (patched s entry page pte val, Done 0).
Proof using Hm Hlaws.
  intros He. unfold set_page_ro. arm_call.
  change (arm (stored s entry page pte val)
    (__change_memory_common v page PAGE_SIZE PTE_RDONLY PTE_WRITE) =
    (patched s entry page pte val, Done 0)).
  destruct Hm as [Hpage Hi Ha Hr Hp].
  assert (mem (stored s entry page pte val) !! pte_addr page = Some (make_rw pte)) as Hrw.
  { cbn. rewrite lookup_insert_ne by done. apply lookup_insert_eq. }
  rewrite (change_exec _ _ _ _ _ _ Hrw He). unfold patched. f_equal. f_equal.
  change (set_pte_bit (clear_pte_bit (make_rw pte) PTE_WRITE) PTE_RDONLY)
    with (make_ro (make_rw pte)).
  rewrite ro_rw. cbn. rewrite insert_insert_ne by done. by rewrite insert_insert_eq.
Qed.

(** Afterwards no store to the page goes through. *)
Lemma patched_protected val p x :
  page_of p = page -> store (patched s entry page pte val) p x = None.
Proof using Hm Hlaws.
  destruct Hm as [Hpage Hi Ha Hr Hp]. intros Hpp.
  apply (store_refused _ _ _ (make_ro pte)); [| |apply ro_protected]; rewrite Hpp.
  - by apply flushed_page.
  - cbn. rewrite lookup_insert_ne by done. apply lookup_insert_eq.
Qed.

(** The entry can be replaced again. *)
Lemma patched_mapped val :
  mapped (patched s entry page pte val) entry page val (make_ro pte).
Proof using Hm.
  destruct Hm as [Hpage Hi Ha Hr Hp]. constructor; [done..| |]; cbn; [apply lookup_insert_eq|].
  rewrite lookup_insert_ne by done. apply lookup_insert_eq.
Qed.

Lemma patched_errs val :
  Forall (.= 0) (errs s) -> Forall (.= 0) (errs (patched s entry page pte val)).
Proof using. unfold patched. cbn [errs]. by destruct 1 as [|??? []]. Qed.

End patch.

(** The static variables once the module has looked around. *)
Definition found (read : Z) : statics :=
  Statics (symbol "init_mm") (symbol "sys_call_table") read.

(** Two addresses in the same page. *)
Lemma page_of_same q a b :
  0 <= a < PAGE_SIZE -> 0 <= b < PAGE_SIZE -> 0 <= q ->
  (q + 1) * PAGE_SIZE <= 2 ^ 64 ->
  page_of (u64 (q * PAGE_SIZE + a)) = page_of (u64 (q * PAGE_SIZE + b)).
Proof.
  intros Ha Hb Hq Hhi. pose proof page_shift_range as Hs.
  assert (PAGE_SIZE = 2 ^ PAGE_SHIFT) as Hps.
  { unfold PAGE_SIZE, shl64, u64, wrap. rewrite Z.shiftl_1_l, Z.mod_small; [done|].
    split; [lia|by apply Z.pow_lt_mono_r; lia]. }
  assert (forall x, 0 <= x < PAGE_SIZE ->
    page_of (u64 (q * PAGE_SIZE + x)) = Z.land (Z.shiftl q PAGE_SHIFT) (u64 (-1))) as Hx.
  { intros x Hx. rewrite u64_id by (split; nia). unfold page_of, PAGE_MASK.
    rewrite Hps in *. change (2 ^ PAGE_SHIFT - 1) with (Z.pred (2 ^ PAGE_SHIFT)).
    rewrite <- Z.ones_equiv. bits.
    rewrite testbit_ones, Z.shiftl_spec, Z.bits_m1 by lia. rewrite andb_true_r.
    destruct (Z.ltb_spec i PAGE_SHIFT).
    - rewrite (Z.testbit_neg_r q) by lia. by rewrite andb_false_r, andb_false_r.
    - cbn [negb]. rewrite andb_true_r.
      replace (Z.testbit (q * 2 ^ PAGE_SHIFT + x) i) with (Z.testbit q (i - PAGE_SHIFT)); [btauto|].
      replace i with (i - PAGE_SHIFT + PAGE_SHIFT) at 2 by lia.
      rewrite <- Z.div_pow2_bits by lia. f_equal.
      rewrite Z.div_add_l, Z.div_small by lia. lia. }
  by rewrite (Hx a), (Hx b).
Qed.

(** The kernel aligns the table to a page: then the entry is in the page changed. *)
Lemma aligned_table q :
  symbol "sys_call_table" = q * PAGE_SIZE -> 0 <= q -> (q + 1) * PAGE_SIZE <= 2 ^ 64 ->
  0 <= 8 * __NR_read < PAGE_SIZE ->
  page_of (read_entry (found 0)) = read_page (found 0).
Proof.
  intros Hq Hq0 Hhi Hnr. unfold read_entry, read_page. cbn [syscall_table found]. rewrite Hq.
  rewrite (page_of_same q _ __NR_read) by lia. done.
Qed.

(** ** Loading and unloading *)

Abbreviation entry := (read_entry (found 0)).
Abbreviation page := (read_page (found 0)).

(** The change of the table, which is what is left of [modinit] after that. *)
Definition hook (v : statics) : kprog (Z * statics) :=
  res ← set_page_rw v (read_page v) ;
  if negb (res =? 0) then
    pr_err ("set_page_rw() failed: %d" +:+ nl) [AZ res] ;;
    mret (res, v)
  else
  kdo (Store (read_entry v) myread_addr) ;;
  res ← set_page_ro v (read_page v) ;
  if negb (res =? 0) then
    pr_err ("set_page_ro() failed: %d" +:+ nl) [AZ res] ;;
    mret (res, v)
  else
  pr_info ("init done" +:+ nl) [] ;;
  mret (0, v).

Lemma modinit_exec v (s : machine) read :
  mem s !! entry = Some read -> arm s (modinit v) = arm s (hook (found read)).
Proof.
  intros Hr. unfold modinit. do 3 arm_call.
  etransitivity; [apply exec_call|]. cbn [hd_arm].
  change (mem s !! read_entry _) with (mem s !! entry). rewrite Hr. done.
Qed.

Lemma exec_bind_done {A B} (s s' : machine) (p : kprog A) (f : A -> kprog B) a :
  arm s p = (s', Done a) -> arm s (p ≫= f) = arm s' (f a).
Proof. intros Hp. by rewrite exec_bind, Hp. Qed.

Lemma exec_store {A} (s : machine) p v (f : unit -> kprog A) :
  arm s (kdo (Store p v) ≫= f) =
  match store s p v with
  | Some s' => arm s' (f tt)
  | None => (s, Halted (Faulted BadAccess))
  end.
Proof. etransitivity; [apply exec_call|]. cbn [hd_arm]. by destruct (store s p v). Qed.

(** The next two changes of attributes succeed. *)
Definition succeed2 (s : machine) : Prop :=
  default 0 (head (errs s)) = 0 /\ default 0 (head (tail (errs s))) = 0.

Lemma succeed2_all (s : machine) : Forall (.= 0) (errs s) -> succeed2 s.
Proof using. unfold succeed2. by destruct 1 as [|??? []]. Qed.

Lemma hook_exec (s : machine) read pte :
  mapped s entry page read pte -> succeed2 s ->
  arm s (hook (found read)) = (patched s entry page pte myread_addr, Done (0, found read)).
Proof.
  intros Hm [He He']. unfold hook.
  erewrite exec_bind_done by by apply (rw_exec _ _ _ _ _ _ Hm).
  cbn [negb Z.eqb]. rewrite exec_store.
  change (read_entry (found read)) with entry. erewrite store_exec by exact Hm.
  erewrite exec_bind_done by by apply (ro_exec _ _ _ _ _ _ Hm).
  done.
Qed.

Lemma unhook_exec (s : machine) read cur pte :
  mapped s entry page cur pte -> succeed2 s ->
  arm s (modexit (found read)) = (patched s entry page pte read, Done tt).
Proof.
  intros Hm [He He']. unfold modexit. arm_call.
  erewrite exec_bind_done by by apply (rw_exec _ _ _ _ _ _ Hm).
  cbn [negb Z.eqb]. rewrite exec_store.
  change (read_entry (found read)) with entry. erewrite store_exec by exact Hm.
  erewrite exec_bind_done by by apply (ro_exec _ _ _ _ _ _ Hm).
  done.
Qed.

(** C28. When the entry of [read] lies in the page the module makes writable and
    no change of attributes fails, loading replaces the entry, and nothing else
    but the attributes of its page, which ends up protected: no store to it goes
    through, not even by a stale TLB entry. From then on [read] logs a line and
    answers what the original function answers. Unloading puts the original
    entry back; a page that was read-only in the first place is as it was. *)
Theorem hijack_roundtrip v0 (s : machine) read pte :
  mapped s entry page read pte -> Forall (.= 0) (errs s) ->
  (exists s1 s2,
    arm s (modinit v0) = (s1, Done (0, found read)) /\
    mem s1 = <[entry := myread_addr]> (<[pte_addr page := make_ro pte]> (mem s)) /\
    arm s1 (modexit (found read)) = (s2, Done tt) /\
    mem s2 = <[pte_addr page := make_ro pte]> (mem s) /\
    (make_ro pte = pte -> mem s2 = mem s) /\
    forall p x, page_of p = page -> store s1 p x = None /\ store s2 p x = None) /\
  forall regs, always (myread (found read) regs) (fun t o => exists res,
    t = [Obs (E := kernelE) (Printk KERN_INFO ("read() called" +:+ nl) []) tt;
         Obs (E := kernelE) (CallSyscall read regs) res] /\ o = Done res).
Proof.
  intros Hm He. pose proof Hm as [Hpage Hi Ha Hr Hp].
  split; [|by intros regs [] res; exists res].
  set (s1 := patched s entry page pte myread_addr).
  assert (mapped s1 entry page myread_addr (make_ro pte)) as Hm1
    by by apply (patched_mapped _ _ _ read).
  assert (Forall (.= 0) (errs s1)) as He1 by by apply patched_errs.
  exists s1, (patched s1 entry page (make_ro pte) read).
  rewrite modinit_exec with (read := read) by done.
  assert (mem (patched s1 entry page (make_ro pte) read) =
    <[pte_addr page := make_ro pte]> (mem s)) as Hmem.
  { cbn. rewrite ro_ro, (insert_insert_ne _ entry (pte_addr page)) by done.
    rewrite insert_insert_eq, (insert_id _ entry), insert_insert_eq; [done|].
    by rewrite lookup_insert_ne. }
  split_and!; [by apply hook_exec, succeed2_all|done| |done| |].
  - by apply (unhook_exec _ _ myread_addr), succeed2_all.
  - intros Hpte. by rewrite Hmem, Hpte, insert_id.
  - intros p x Hpp. split; [by apply (patched_protected s entry page read pte)|].
    by apply (patched_protected s1 entry page myread_addr (make_ro pte)).
Qed.

(** What a failure of [__change_memory_common] leaves. *)
Lemma hook_fails_first (s : machine) read e :
  head (errs s) = Some e -> e <> 0 ->
  arm s (hook (found read)) =
  (Machine (mem s) (flushed page (tlb s)) (tail (errs s)), Done (e, found read)).
Proof.
  intros He Hn. unfold hook, set_page_rw.
  erewrite exec_bind_done; [|arm_call; by apply change_fails].
  by rewrite (proj2 (Z.eqb_neq e 0)).
Qed.

Lemma hook_fails_second (s : machine) read pte e :
  mapped s entry page read pte -> errs s = [0; e] -> e <> 0 ->
  arm s (hook (found read)) =
  (Machine (mem (stored s entry page pte myread_addr))
     (flushed page (tlb (stored s entry page pte myread_addr))) [], Done (e, found read)).
Proof.
  intros Hm He Hn. unfold hook.
  erewrite exec_bind_done by (apply (rw_exec _ _ _ _ _ _ Hm); by rewrite He).
  cbn [negb Z.eqb]. rewrite exec_store.
  change (read_entry (found read)) with entry. erewrite store_exec by exact Hm.
  unfold set_page_ro.
  erewrite exec_bind_done; [|arm_call; apply change_fails; [|exact Hn]; cbn; by rewrite He].
  rewrite (proj2 (Z.eqb_neq e 0)) by done. cbn. by rewrite He.
Qed.

Lemma unhook_fails (s : machine) read e :
  head (errs s) = Some e -> e <> 0 ->
  arm s (modexit (found read)) =
  (Machine (mem s) (flushed page (tlb s)) (tail (errs s)), Done tt).
Proof.
  intros He Hn. unfold modexit, set_page_rw. arm_call.
  erewrite exec_bind_done; [|arm_call; by apply change_fails].
  by rewrite (proj2 (Z.eqb_neq e 0)).
Qed.

(** C29. What goes wrong. If the page cannot be made writable, loading fails with
    the kernel's error and the memory is as before. If it cannot be protected
    again, loading fails with the error, so the module is discarded, but the
    table still leads to [myread], in a page that is still writable. If it is
    unloading that cannot make the page writable, the module goes all the same
    and the table leads to where it was. And the page made writable is the one
    [__NR_read] bytes, not entries, into the table: if the entry is in another
    one, which is read-only, loading faults, having changed the attributes of
    the wrong page. *)
Theorem hijack_failures v0 (s : machine) read pte e :
  mem s !! entry = Some read -> mem s !! pte_addr page = Some pte ->
  pte_addr page <> entry -> inner page -> e <> 0 ->
  (errs s = [e] -> exists s1,
    arm s (modinit v0) = (s1, Done (e, found read)) /\ mem s1 = mem s) /\
  (page_of entry = page -> errs s = [0; e] -> exists s1,
    arm s (modinit v0) = (s1, Done (e, found read)) /\
    mem s1 !! entry = Some myread_addr /\ forall x, is_Some (store s1 entry x)) /\
  (page_of entry = page -> errs s = [0; 0; e] -> exists s1 s2,
    arm s (modinit v0) = (s1, Done (0, found read)) /\
    arm s1 (modexit (found read)) = (s2, Done tt) /\ mem s2 !! entry = Some myread_addr) /\
  (forall pte', errs s = [] -> tlb s = empty ->
    mem s !! pte_addr (page_of entry) = Some pte' -> pte_writable pte' = false ->
    pte_addr (page_of entry) <> pte_addr page -> exists s1,
    arm s (modinit v0) = (s1, Halted (Faulted BadAccess)) /\
    mem s1 = <[pte_addr page := make_rw pte]> (mem s)).
Proof.
  intros Hr Hp Ha Hi Hn. rewrite (modinit_exec _ _ read) by done. split_and!.
  - intros He. eexists. split; [apply hook_fails_first; [by rewrite He|done]|done].
  - intros Hpage He. assert (mapped s entry page read pte) as Hm by done.
    eexists. split; [by eapply hook_fails_second|]. cbn.
    split; [apply lookup_insert_eq|]. intros x.
    rewrite (store_through _ _ _ myread_addr (make_rw pte)); [by eexists| |..]; rewrite ?Hpage.
    + by apply flushed_page.
    + cbn. rewrite lookup_insert_ne by done. apply lookup_insert_eq.
    + apply rw_writable.
    + apply lookup_insert_eq.
  - intros Hpage He. assert (mapped s entry page read pte) as Hm by done.
    eexists _, _. split; [apply hook_exec; [done|unfold succeed2; by rewrite He]|].
    split; [apply (unhook_fails _ _ e); [cbn; by rewrite He|done]|]. apply lookup_insert_eq.
  - intros pte' He Ht Hp' Hw Hne. unfold hook, set_page_rw.
    erewrite exec_bind_done; [|arm_call; apply (change_exec _ _ _ pte); [done|by rewrite He]].
    cbn [negb Z.eqb]. rewrite exec_store.
    rewrite (store_refused _ _ _ pte'); [by eexists| | |done].
    + change (read_entry (found read)) with entry. unfold flushed. cbn. by rewrite Ht, map_filter_empty.
    + change (read_entry (found read)) with entry. cbn. by rewrite lookup_insert_ne.
Qed.

End module.

(** ** An arm64 kernel with pages of 4 KiB *)
#[refine] Instance arm64_4k : ARM64 := {
  PAGE_SHIFT := 12;
  __NR_read := 63;
  PTE_WRITE := 2 ^ 51;
  PTE_RDONLY := 2 ^ 7;
  clear_pte_bit pte prot := Z.land pte (not64 prot);
  set_pte_bit pte prot := Z.lor pte prot;
  pte_writable pte := negb (Z.testbit pte 7) || Z.testbit pte 51;
}.
Proof. Defined.

#[export] Instance arm64_4k_laws : ARM64Laws.
Proof.
  split; [done|..]; intros pte; unfold make_rw, make_ro; cbn [pte_writable set_pte_bit
    clear_pte_bit PTE_WRITE PTE_RDONLY arm64_4k].
  - repeat (progress bits_rw). rewrite !testbit_pow2 by lia. cbn. btauto.
  - repeat (progress bits_rw). rewrite !testbit_pow2 by lia. cbn. btauto.
  - bits.
  - bits.
Qed.

(** The table at 0xa00000, the entry of [read] at 0xa001f8; the page table entries
    at 0x1000 and above. *)
Definition demo_symbol (name : string) : Z :=
  if String.eqb name "init_mm" then 0x500000 else 0xa00000.

Definition demo_pte_addr (page : Z) : Z := 0x1000 + 8 * Z.shiftr page 12.

(** The entry of [read] is 0x42; its page is mapped read-only. *)
Definition demo_machine (es : list Z) : machine :=
  Machine (<[0xa001f8 := 0x42]> (<[0x1000 + 8 * 0xa00 := 2 ^ 7 + 3]> empty)) empty es.

Abbreviation demo_arm := (exec (hd_arm demo_symbol demo_pte_addr)).

Lemma hijack_roundtrip_witness :
  exists s1 s2,
    demo_arm (demo_machine []) (modinit 0x7777 (Statics 0 0 0)) =
      (s1, Done (0, Statics 0x500000 0xa00000 0x42)) /\
    mem s1 !! 0xa001f8 = Some 0x7777 /\
    demo_arm s1 (modexit (Statics 0x500000 0xa00000 0x42)) = (s2, Done tt) /\
    mem s2 = mem (demo_machine []).
Proof.
  destruct (hijack_roundtrip 0x7777 demo_symbol demo_pte_addr (Statics 0 0 0)
    (demo_machine []) 0x42 (2 ^ 7 + 3)) as [(s1 & s2 & H1 & Hm1 & H2 & _ & Hm2 & _) _].
  - split; [reflexivity|split; [vm_compute; discriminate|reflexivity]|discriminate|..];
      reflexivity.
  - constructor.
  - exists s1, s2. split; [exact H1|]. split; [rewrite Hm1; reflexivity|].
    split; [exact H2|]. apply Hm2. reflexivity.
Defined.

Lemma hijack_failures_witness :
  exists s1,
    demo_arm (demo_machine [0; -22]) (modinit 0x7777 (Statics 0 0 0)) =
      (s1, Done (-22, Statics 0x500000 0xa00000 0x42)) /\
    mem s1 !! 0xa001f8 = Some 0x7777.
Proof.
  destruct (hijack_failures 0x7777 demo_symbol demo_pte_addr (Statics 0 0 0)
    (demo_machine [0; -22]) 0x42 (2 ^ 7 + 3) (-22)) as (_ & H2 & _);
    [reflexivity|reflexivity|discriminate|split; [vm_compute; discriminate|reflexivity]|lia|].
  destruct (H2 eq_refl eq_refl) as (s1 & H & Hm & _). exists s1. split; [exact H|exact Hm].
Defined.
