(* ===== verification/SyscallCalls.v ===== *)
(** Calls of [read] while src/modules/arm64/syscall_hijack.c is loaded and unloaded.

SyscallHijack.v has the module's functions on the machine; here they are run
among the tasks of the system, which enter [read] through the table at any time
and go on one call at a time. A task that finds [myread] in the table runs
[myread]. The module takes no reference for it, so the kernel may unload the
module meanwhile: then the task is in code that is gone.

[modinit] and [modexit] are one step each: all that a call sees of them is the
store to the entry. A task comes back from the original function through
[myread], as the C text has it; where the compiler makes that call a jump, a task
is only in the module until then. *)
From S2P Require Import Prelude Effects Kernel Transitions SyscallHijack.

(** What is left of a program after a trace of calls. *)
Inductive residual {E A} : prog E A -> trace E -> prog E A -> Prop :=
| residual_nil p : residual p [] p
| residual_call c k r t q : residual (k r) t q -> residual (Call c k) (Obs c r :: t) q.

Lemma residual_snoc {E A} (p : prog E A) t c k r :
  residual p t (Call c k) -> residual p (t ++ [Obs c r]) (k r).
Proof.
  intros Hp. remember (Call c k) as q eqn:Hq.
  induction Hp as [p|c' k' r' t q _ IH]; subst; cbn; constructor; [constructor|by apply IH].
Qed.

Lemma residual_behaves {E A} (p : prog E A) t q t' o :
  residual p t q -> behaves q t' o -> behaves p (t ++ t') o.
Proof. induction 1; [done|]. intros Hq. constructor. auto. Qed.

Section calls.
Context `{ARM64} (myread_addr : Z) (symbol : string -> Z) (pte_addr : Z -> Z).

(** The module: its code and static variables go when the kernel frees it. *)
Inductive module_state :=
| Absent
| Live (v : statics)
| Exiting (v : statics)   (** after [modexit] *)
| Gone.

Definition loaded (m : module_state) : option statics :=
  match m with Live v | Exiting v => Some v | Absent | Gone => None end.

(** A task that has called [read]: whether it went through [myread], its registers,
    and what is left to do or the result. *)
Inductive task :=
| Running (hooked : bool) (regs : Z) (p : kprog Z)
| Returned (hooked : bool) (regs res : Z).

Definition hooked (t : task) : bool :=
  match t with Running b _ _ | Returned b _ _ => b end.

Record system := System {
  hw : machine;
  mstate : module_state;
  tasks : list task;
}.

(** Who moves next. *)
Inductive actor :=
| Init                      (** [module_init(modinit)] *)
| Exit                      (** [module_exit(modexit)] *)
| Free                      (** the kernel frees the module after [modexit] *)
| Enter (regs : Z)          (** a task calls [read] *)
| Go (i : nat) (ans : Z).   (** the [i]-th task goes on; what a system call answers *)

(** The events: the calls that tasks make. *)
Abbreviation event := (nat * obs kernelE)%type.

Abbreviation arm := (exec (hd_arm symbol pte_addr)).
Abbreviation entry := (read_entry (found symbol 0)).
Abbreviation page := (read_page (found symbol 0)).

(** A module whose initialisation fails is discarded. *)
Definition load (s : system) : result system event :=
  match arm (hw s) (modinit myread_addr (Statics 0 0 0)) with
  | (m, Done (res, v)) => Next (System m (if res =? 0 then Live v else Gone) (tasks s)) []
  | (_, Halted _) => Crash
  end.

Definition unload (s : system) (v : statics) : result system event :=
  match arm (hw s) (modexit v) with
  | (m, Done _) => Next (System m (Exiting v) (tasks s)) []
  | (_, Halted _) => Crash
  end.

Definition add (s : system) (t : task) : system := System (hw s) (mstate s) (tasks s ++ [t]).

Definition set (s : system) (i : nat) (t : task) : system :=
  System (hw s) (mstate s) (<[i := t]> (tasks s)).

(** The kernel calls what the table has for [read]. *)
Definition enter (s : system) (regs : Z) : result system event :=
  match mem (hw s) !! entry with
  | None => Stuck
  | Some fn =>
      if fn =? myread_addr then
        match loaded (mstate s) with
        | Some v => Next (add s (Running true regs (myread v regs))) []
        | None => Crash
        end
      else Next (add s (Running false regs (kdo (CallSyscall fn regs)))) []
  end.

Definition answer (c : kcall) (ans : Z) : kans c :=
  match c return kans c -> kans c with
  | CallSyscall _ _ => fun _ => ans
  | _ => fun d => d
  end (kdefault c).

Definition go (s : system) (i : nat) (ans : Z) : result system event :=
  match tasks s !! i with
  | Some (Running b regs p) =>
      if b && negb (bool_decide (is_Some (loaded (mstate s)))) then Crash else
      match p with
      | Call c k =>
          Next (set s i (Running b regs (k (answer c ans)))) [(i, Obs (E := kernelE) c (answer c ans))]
      | Ret res => Next (set s i (Returned b regs res)) []
      | Halt _ => Crash
      end
  | _ => Stuck
  end.

Definition step (s : system) (a : actor) : result system event :=
  match a with
  | Init => match mstate s with Absent => load s | _ => Stuck end
  | Exit => match mstate s with Live v => unload s v | _ => Stuck end
  | Free =>
      match mstate s with
      | Exiting _ => Next (System (hw s) Gone (tasks s)) []
      | _ => Stuck
      end
  | Enter regs => enter s regs
  | Go i ans => go s i ans
  end.

(** The calls of one task. *)
Definition of_task (i : nat) (log : list event) : trace kernelE :=
  omap (fun '(j, o) => if decide (j = i) then Some o else None) log.

(** Before the module is loaded, and nobody is in [read]. *)
Definition start (m : machine) : system := System m Absent [].

Definition read_line : obs kernelE := Obs (E := kernelE) (Printk KERN_INFO ("read() called" +:+ nl) []) tt.

(** ** The invariant *)

Context `{Hlaws : !ARM64Laws} (read : Z) (Hne : read <> myread_addr).

Definition called (b : bool) (regs : Z) : kprog Z :=
  if b then myread (found symbol read) regs else kdo (CallSyscall read regs).

(** Where the table leads. *)
Definition leads_to (m : module_state) : Z :=
  match m with Live _ => myread_addr | _ => read end.

(** How far a task is after its calls [t]. *)
Definition traced (t : trace kernelE) (x : task) : Prop :=
  match x with
  | Running b regs p => residual (called b regs) t p
  | Returned b regs res => residual (called b regs) t (Ret res)
  end.

Record inv (log : list event) (s : system) : Prop := {
  inv_table : exists pte, mapped pte_addr (hw s) entry page (leads_to (mstate s)) pte;
  inv_errs : Forall (.= 0) (errs (hw s));
  inv_statics v : loaded (mstate s) = Some v -> v = found symbol read;
  inv_tasks i x : tasks s !! i = Some x -> traced (of_task i log) x;
  inv_absent i x : tasks s !! i = Some x -> hooked x = true -> mstate s <> Absent;
  inv_fresh i : tasks s !! i = None -> of_task i log = [];
}.

Lemma of_task_app i log log' : of_task i (log ++ log') = of_task i log ++ of_task i log'.
Proof using. apply omap_app. Qed.

Lemma calls_start m pte :
  mapped pte_addr m entry page read pte -> Forall (.= 0) (errs m) -> inv [] (start m).
Proof using. intros Hm He. split; [by exists pte|done|done|done|done|done]. Qed.

(** A new task. *)
Lemma inv_add log s b regs :
  inv log s -> (b = true -> mstate s <> Absent) ->
  inv log (add s (Running b regs (called b regs))).
Proof using.
  intros [Ht He Hs Htr Ha Hf] Hb.
  assert (forall i x, (tasks s ++ [Running b regs (called b regs)]) !! i = Some x ->
    tasks s !! i = Some x \/ tasks s !! i = None /\ x = Running b regs (called b regs)) as Hx.
  { intros i x [Hi|[Hi Hx]]%lookup_app_Some; [by left|right].
    apply list_lookup_singleton_Some in Hx as [_ <-]. by rewrite lookup_ge_None. }
  split; [done|done|done|..]; cbn [tasks mstate add].
  - intros i x Hi. apply Hx in Hi as [Hi|[Hi ->]]; [auto|]. rewrite (Hf i Hi). constructor.
  - intros i x Hi. apply Hx in Hi as [Hi|[Hi ->]]; [by apply (Ha i)|auto].
  - intros i Hi. apply Hf, lookup_ge_None. apply lookup_ge_None in Hi.
    rewrite length_app in Hi. cbn in Hi. lia.
Qed.

(** A task that goes on. *)
Lemma inv_set log s i x y out :
  inv log s -> tasks s !! i = Some x -> hooked y = hooked x ->
  (forall j, j <> i -> of_task j out = []) ->
  traced (of_task i log ++ of_task i out) y -> inv (log ++ out) (set s i y).
Proof using.
  intros [Ht He Hs Htr Ha Hf] Hx Hh Hout Hy.
  split; [done|done|done|..]; cbn [tasks mstate set].
  - intros j z Hz. rewrite of_task_app. destruct (decide (j = i)) as [->|Hj].
    + rewrite list_lookup_insert_eq in Hz by by eapply lookup_lt_Some. by injection Hz as <-.
    + rewrite list_lookup_insert_ne in Hz by done. rewrite Hout, app_nil_r by done. auto.
  - intros j z Hz. destruct (decide (j = i)) as [->|Hj].
    + rewrite list_lookup_insert_eq in Hz by by eapply lookup_lt_Some. injection Hz as <-.
      rewrite Hh. by apply (Ha i).
    + rewrite list_lookup_insert_ne in Hz by done. by apply (Ha j).
  - intros j Hj. destruct (decide (j = i)) as [->|Hji].
    + rewrite list_lookup_insert_eq in Hj by by eapply lookup_lt_Some. done.
    + rewrite list_lookup_insert_ne in Hj by done. rewrite of_task_app, Hout by done.
      by rewrite Hf.
Qed.

Definition live (m : module_state) : bool :=
  match m with Live _ => true | _ => false end.

(** Where a new call goes. *)
Lemma enter_next log s regs :
  inv log s ->
  enter s regs =
  Next (add s (Running (live (mstate s)) regs (called (live (mstate s)) regs))) [].
Proof using Hne.
  intros [[pte Hm] _ Hs _ _ _]. unfold enter. rewrite (mapped_read _ _ _ _ _ _ Hm).
  unfold leads_to. destruct (mstate s) as [|v|v|]; cbn [live called];
    rewrite ?Z.eqb_refl, ?(proj2 (Z.eqb_neq read myread_addr)) by done; try done.
  by rewrite (Hs v).
Qed.

Lemma load_next log s :
  inv log s -> mstate s = Absent -> exists m, arm (hw s) (modinit myread_addr (Statics 0 0 0)) =
    (m, Done (0, found symbol read)) /\ inv log (System m (Live (found symbol read)) (tasks s)).
Proof using Hlaws.
  intros [[pte Hm] He _ Htr Ha Hf] Hms. rewrite Hms in Hm, Ha. cbn [leads_to] in Hm.
  eexists. split.
  - rewrite modinit_exec with (read := read) by apply Hm.
    eapply hook_exec; [exact Hlaws|exact Hm|by apply succeed2_all].
  - split; cbn [hw mstate tasks loaded leads_to]; [|by apply patched_errs|by intros v [= <-]|done| |done].
    + eexists. by eapply patched_mapped.
    + intros i x Hx Hh. by destruct (Ha i x Hx Hh).
Qed.

Lemma unload_next log s v :
  inv log s -> mstate s = Live v ->
  exists m, arm (hw s) (modexit v) = (m, Done tt) /\ inv log (System m (Exiting v) (tasks s)).
Proof using Hlaws.
  intros [[pte Hm] He Hs Htr Ha Hf] Hms. rewrite Hms in *. cbn [leads_to loaded] in *.
  rewrite (Hs v eq_refl). eexists. split.
  - eapply unhook_exec; [exact Hlaws|exact Hm|by apply succeed2_all].
  - split; cbn [hw mstate tasks loaded leads_to]; [|by apply patched_errs|by intros w [= <-]|done| |done].
    + eexists. by eapply patched_mapped.
    + done.
Qed.

Lemma inv_free log s v :
  inv log s -> mstate s = Exiting v -> inv log (System (hw s) Gone (tasks s)).
Proof using.
  intros [Ht He Hs Htr Ha Hf] Hms. rewrite Hms in *. by split.
Qed.

(** A function that is called answers, after the calls it should make. *)
Lemma called_always b regs :
  always (called b regs) (fun t o => exists res, o = Done res /\
    t = (if b then [read_line] else []) ++ [Obs (E := kernelE) (CallSyscall read regs) res]).
Proof using. destruct b; [intros [] res|intros res]; by exists res. Qed.

Lemma traced_returned t b regs res :
  traced t (Returned b regs res) ->
  t = (if b then [read_line] else []) ++ [Obs (E := kernelE) (CallSyscall read regs) res].
Proof using.
  intros Ht. pose proof (residual_behaves _ _ _ _ _ Ht (behaves_ret res)) as Hb.
  rewrite app_nil_r in Hb.
  destruct (proj1 (always_behaves _ _) (called_always b regs) _ _ Hb) as (res' & [= <-] & Hres).
  exact Hres.
Qed.

Lemma called_no_halt b regs t x : ~ residual (called b regs) t (Halt x).
Proof using.
  intros Ht. pose proof (residual_behaves _ _ _ _ _ Ht (behaves_halt x)) as Hb.
  by destruct (proj1 (always_behaves _ _) (called_always b regs) _ _ Hb) as (res' & ? & _).
Qed.

Lemma of_task_one i j o : of_task i [(j, o)] = if decide (j = i) then [o] else [].
Proof using. unfold of_task. cbn. by case_decide. Qed.

(** A task that may go on does. *)
Lemma go_next log s i b regs p ans :
  inv log s -> tasks s !! i = Some (Running b regs p) -> (b = true -> mstate s <> Gone) ->
  exists y out, go s i ans = Next (set s i y) out /\ inv (log ++ out) (set s i y) /\
    y = match p with
        | Call c k => Running b regs (k (answer c ans))
        | Ret res => Returned b regs res
        | Halt _ => y
        end.
Proof using.
  intros Hi Hx Hb. pose proof (inv_tasks _ _ Hi i _ Hx) as Hp. cbn in Hp.
  assert (b && negb (bool_decide (is_Some (loaded (mstate s)))) = false) as Hl.
  { destruct b; [|done]. pose proof (inv_absent _ _ Hi i _ Hx eq_refl) as Ha.
    specialize (Hb eq_refl). by destruct (mstate s). }
  unfold go. rewrite Hx, Hl. destruct p as [res|x|c k].
  - eexists _, []. split; [done|]. split; [|done].
    apply (inv_set _ _ _ (Running b regs (Ret res))); [done..|]. by rewrite app_nil_r.
  - by destruct (called_no_halt _ _ _ _ Hp).
  - eexists _, [(i, _)]. split; [done|]. split; [|done].
    apply (inv_set _ _ _ (Running b regs (Call c k))); [done..| |].
    + intros j Hj. rewrite of_task_one. by rewrite decide_False.
    + rewrite of_task_one, decide_True by done. by apply residual_snoc.
Qed.

(** A task in [myread] when the module is gone. *)
Definition doomed (s : system) (i : nat) : Prop :=
  mstate s = Gone /\ exists regs p, tasks s !! i = Some (Running true regs p).

Lemma doomed_crash s i ans : doomed s i -> go s i ans = Crash.
Proof using. intros [Hs (regs & p & Hx)]. unfold go. by rewrite Hx, Hs. Qed.

(** Any other step is defined, and keeps the invariant. *)
Lemma step_cases log s a :
  inv log s ->
  match step s a with
  | Next s' out => inv (log ++ out) s'
  | Crash => exists i ans, a = Go i ans /\ doomed s i
  | Stuck => True
  end.
Proof using Hlaws Hne.
  intros Hi. destruct a as [| | |regs|i ans]; cbn [step].
  - destruct (mstate s) eqn:Hm; try done. destruct (load_next log s Hi Hm) as (m & Hl & Hi').
    unfold load. rewrite Hl. cbn. by rewrite app_nil_r.
  - destruct (mstate s) as [|v|v|] eqn:Hm; try done.
    destruct (unload_next log s v Hi Hm) as (m & Hl & Hi').
    unfold unload. rewrite Hl. by rewrite app_nil_r.
  - destruct (mstate s) as [|v|v|] eqn:Hm; try done. rewrite app_nil_r. by eapply inv_free.
  - rewrite (enter_next log s regs Hi), app_nil_r. apply inv_add; [done|].
    by destruct (mstate s).
  - destruct (tasks s !! i) as [[b regs p|b regs res]|] eqn:Hx.
    + assert (b = true /\ mstate s = Gone \/ (b = true -> mstate s <> Gone)) as [[-> Hg]|Hb].
      { destruct b; [|by right]. destruct (mstate s); [by right..|by left]. }
      * assert (doomed s i) as Hd by (split; [done|by exists regs, p]).
        rewrite (doomed_crash s i ans Hd). by exists i, ans.
      * destruct (go_next log s i b regs p ans Hi Hx) as (y & out & -> & Hi' & _); done.
    + unfold go. by rewrite Hx.
    + unfold go. by rewrite Hx.
Qed.

Lemma exec_inv m pte sched s log :
  mapped pte_addr m entry page read pte -> Forall (.= 0) (errs m) ->
  exec_from step (start m) sched = Some (s, log) -> inv log s.
Proof using Hlaws Hne.
  intros Hm He Hs.
  apply (exec_invariant step inv (start m) sched s log []); [|by eapply calls_start|done].
  intros log0 s0 a s' out Hi Ha. pose proof (step_cases log0 s0 a Hi) as Hc. by rewrite Ha in Hc.
Qed.

(** The end of a call, whatever system calls answer. *)
Lemma task_returns log s i b regs p ans :
  inv log s -> tasks s !! i = Some (Running b regs p) -> (b = true -> mstate s <> Gone) ->
  exists n s' log' res, exec_from step s (replicate n (Go i ans)) = Some (s', log') /\
    tasks s' !! i = Some (Returned b regs res).
Proof using Hlaws Hne.
  revert log s. induction p as [res|x|c k IH]; intros log s Hi Hx Hb;
    destruct (go_next log s i b regs _ ans Hi Hx Hb) as (y & out & Hg & Hi' & Hy).
  - exists 1%nat. cbn. rewrite Hg, Hy. cbn. eexists _, _, res. split; [done|].
    cbn. apply list_lookup_insert_eq. by eapply lookup_lt_Some.
  - destruct (called_no_halt b regs (of_task i log) x). exact (inv_tasks _ _ Hi i _ Hx).
  - destruct (IH (answer c ans) (log ++ out) (set s i y)) as (n & s' & log' & res & He & Hr);
      [done| |done|].
    { cbn. rewrite Hy. apply list_lookup_insert_eq. by eapply lookup_lt_Some. }
    exists (S n). cbn. rewrite Hg. cbn. rewrite He. by eexists _, _, res.
Qed.

(** Nothing holds the module back. *)
Lemma unload_dooms log s i v regs p :
  inv log s -> mstate s = Live v -> tasks s !! i = Some (Running true regs p) ->
  exists s', exec_from step s [Exit; Free] = Some (s', []) /\ doomed s' i.
Proof using Hlaws.
  intros Hi Hm Hx. destruct (unload_next log s v Hi Hm) as (m & Hl & _).
  cbn. rewrite Hm. unfold unload. rewrite Hl. cbn. eexists. split; [done|].
  split; [done|]. by exists regs, p.
Qed.

(** ** Failures *)

Lemma enter_dangling s regs :
  mem (hw s) !! entry = Some myread_addr -> loaded (mstate s) = None ->
  step s (Enter regs) = Crash.
Proof using. intros He Hl. cbn. unfold enter. by rewrite He, Z.eqb_refl, Hl. Qed.

(** The module is discarded, or unloaded, with the table leading to [myread]. *)
Lemma dangling m pte e :
  mapped pte_addr m entry page read pte -> e <> 0 ->
  errs m = [0; e] \/ errs m = [0; 0; e] ->
  exists sched s, exec_from step (start m) sched = Some (s, []) /\ mstate s = Gone /\
    mem (hw s) !! entry = Some myread_addr.
Proof using Hlaws.
  intros Hm Hn He. pose proof (mapped_read _ _ _ _ _ _ Hm) as Hr.
  destruct He as [He|He].
  - exists [Init]. cbn. unfold load. cbn [hw start].
    rewrite (modinit_exec _ _ _ _ _ read) by done. erewrite hook_fails_second by done.
    rewrite (proj2 (Z.eqb_neq e 0)) by done. eexists. split; [done|]. split; [done|].
    apply lookup_insert_eq.
  - exists [Init; Exit; Free]. cbn. unfold load, unload. cbn [hw start].
    rewrite (modinit_exec _ _ _ _ _ read) by done.
    erewrite hook_exec by (done || unfold succeed2; by rewrite He). cbn [Z.eqb mstate hw tasks].
    erewrite (unhook_fails _ _ _ _ e) by (done || cbn; by rewrite He).
    eexists. split; [done|]. split; [done|]. apply lookup_insert_eq.
Qed.

(** C18. Calls of [read] while the module is loaded, used and unloaded, in any order.
    When no change of attributes fails: a call that comes back made exactly one
    call of the original function, with its own registers, and has its answer,
    whether it entered before, while or after the module was there, and it logged
    one line first if it went through [myread]; a new call goes through [myread]
    as long as the module is live and to the original function otherwise; every
    call can come back, other than one caught in [myread] by the end of the
    module. Such a call crashes the kernel as soon as it goes on, nothing else
    ever does, and nothing protects against it: with any task in [myread] the
    module can be unloaded and freed. When the page cannot be protected after the
    store, or not be made writable again by [modexit], the module goes with the
    table still leading to it, and there the next call of [read] crashes. *)
Theorem calls_while_hijacked m pte :
  mapped pte_addr m entry page read pte ->
  (Forall (.= 0) (errs m) -> forall sched s log,
    exec_from step (start m) sched = Some (s, log) ->
    (forall i b regs res, tasks s !! i = Some (Returned b regs res) ->
      of_task i log =
        (if b then [read_line] else []) ++ [Obs (E := kernelE) (CallSyscall read regs) res]) /\
    (forall regs, step s (Enter regs) =
      Next (add s (Running (live (mstate s)) regs (called (live (mstate s)) regs))) []) /\
    (forall i b regs p ans, tasks s !! i = Some (Running b regs p) -> ~ doomed s i ->
      exists n s' log' res, exec_from step s (replicate n (Go i ans)) = Some (s', log') /\
        tasks s' !! i = Some (Returned b regs res)) /\
    (forall a, step s a = Crash <-> exists i ans, a = Go i ans /\ doomed s i) /\
    (forall v i regs p, mstate s = Live v -> tasks s !! i = Some (Running true regs p) ->
      exists s', exec_from step s [Exit; Free] = Some (s', []) /\ doomed s' i)) /\
  (forall e, e <> 0 -> errs m = [0; e] \/ errs m = [0; 0; e] ->
    exists sched s, exec_from step (start m) sched = Some (s, []) /\ mstate s = Gone /\
      forall regs, step s (Enter regs) = Crash).
Proof using Hlaws Hne.
  intros Hm. split.
  - intros He sched s log Hs. pose proof (exec_inv m pte sched s log Hm He Hs) as Hi. split_and!.
    + intros i b regs res Hx. by apply traced_returned, (inv_tasks _ _ Hi i).
    + intros regs. by apply (enter_next log).
    + intros i b regs p ans Hx Hd. apply (task_returns log s i b regs p ans Hi Hx).
      intros -> Hg. apply Hd. split; [done|]. by exists regs, p.
    + intros a. split; [|by intros (i & ans & -> & Hd); apply doomed_crash].
      intros Ha. pose proof (step_cases log s a Hi) as Hc. by rewrite Ha in Hc.
    + intros v i regs p. by apply (unload_dooms log).
  - intros e Hn He. destruct (dangling m pte e Hm Hn He) as (sched & s & Hs & Hg & Hr).
    exists sched, s. split_and!; [done..|]. intros regs. apply enter_dangling; [done|]. by rewrite Hg.
Qed.

End calls.

(** ** Two calls, one of which is in [myread] when the module goes *)
Abbreviation demo_step := (step 0x7777 demo_symbol demo_pte_addr).

Definition demo_sched : list actor :=
  [Init; Enter 7; Enter 8; Go 0 0; Go 0 100; Go 0 0; Go 1 0].

Lemma calls_while_hijacked_witness :
  exists s log s', exec_from demo_step (start (demo_machine [])) demo_sched = Some (s, log) /\
    of_task 0 log = [read_line; Obs (E := kernelE) (CallSyscall 0x42 7) 100] /\
    exec_from demo_step s [Exit; Free] = Some (s', []) /\ demo_step s' (Go 1 0) = Crash.
Proof.
  destruct (calls_while_hijacked 0x7777 demo_symbol demo_pte_addr 0x42) with
    (m := demo_machine []) (pte := 2 ^ 7 + 3) as [H _].
  - discriminate.
  - split; [reflexivity|split; [vm_compute; discriminate|reflexivity]|discriminate|..];
      reflexivity.
  - destruct (H ltac:(constructor) demo_sched _ _ eq_refl) as (Hret & _ & _ & _ & Hdoom).
    destruct (Hdoom _ 1%nat _ _ eq_refl eq_refl) as (s' & Hs' & Hd).
    eexists _, _, s'. split; [reflexivity|]. split; [exact (Hret 0%nat true 7 100 eq_refl)|].
    split; [exact Hs'|]. apply doomed_crash. exact Hd.
Defined.
