(* ===== verification/UndefInstr.v ===== *)
(** src/modules/arm64/undef_instr.c: a hook for undefined instructions. *)
From S2P Require Import Prelude Effects Kernel.

(** [struct undef_hook]; [fn] gets the program counter of [regs] and the
    instruction, and gives its result and the new program counter. *)
Record undef_hook := Hook {
  instr_mask : Z;
  instr_val : Z;
  pstate_mask : Z;
  pstate_val : Z;
  fn : Z -> Z -> kprog (Z * Z);
}.

Definition undef_instr_handler (pc instr : Z) : kprog (Z * Z) :=
  pr_info ("*gotcha*" +:+ nl) [] ;;
  mret (0, u64 (pc + 4)).

Definition uh : undef_hook := Hook 0x0 0x0 0x0 0x0 undef_instr_handler.

Definition whoops : kprog unit := kdo (UndefInstr 0xf7f0a000).

(** The static variables. *)
Record statics := Statics {
  register_undef_hook_ptr : Z;
  unregister_undef_hook_ptr : Z;
}.

Definition modinit : kprog (Z * statics) :=
  reg ← kdo (KallsymsLookupName "register_undef_hook") ;
  unreg ← kdo (KallsymsLookupName "unregister_undef_hook") ;
  let st := Statics reg unreg in
  if register_undef_hook_ptr st =? 0 then
    mret (- EFAULT, st)
  else
  kdo (CallRegisterHook (register_undef_hook_ptr st)) ;;
  pr_info ("Jumping off a cliff..." +:+ nl) [] ;;
  whoops ;;
  pr_info ("Woah, I survived!" +:+ nl) [] ;;
  mret (0, st).

Definition modexit (st : statics) : kprog unit :=
  when (truthy (unregister_undef_hook_ptr st))
    (kdo (CallUnregisterHook (unregister_undef_hook_ptr st))).

(** ** The kernel's hooks

The kernel keeps a list of hooks and gives an undefined instruction to one that
matches it and the processor state; it resumes at the program counter the hook
leaves if the hook returns 0, and otherwise the kernel dies ([None]). Which
hook is taken when several match is [dispatch]'s choice. *)
Definition matches (instr pstate : Z) (h : undef_hook) : bool :=
  (Z.land instr (instr_mask h) =? instr_val h) &&
  (Z.land pstate (pstate_mask h) =? pstate_val h).

Class Dispatch := {
  dispatch : list undef_hook -> Z -> Z -> option undef_hook;
  dispatch_some hs instr pstate h :
    dispatch hs instr pstate = Some h -> h ∈ hs /\ matches instr pstate h = true;
  dispatch_none hs instr pstate :
    dispatch hs instr pstate = None -> Forall (fun h => matches instr pstate h = false) hs;
}.

(** The hooks of others, whether [uh] is in the list, and the log. *)
Record machine := Machine {
  others : list undef_hook;
  hooked : bool;
  klog : list logline;
}.

Definition hooks (s : machine) : list undef_hook :=
  if hooked s then uh :: others s else others s.

(** Adding [uh] twice, or removing it when it is not there, breaks the list. *)
Definition set_hooked (s : machine) (b : bool) : option (unit * machine) :=
  if eqb (hooked s) b then None else Some (tt, Machine (others s) b (klog s)).

Definition log_more (s : machine) (ls : list logline) : machine :=
  Machine (others s) (hooked s) (klog s ++ ls).

Section machine.
Context `{Dispatch}.

(** The symbols of the kernel, the address of the instruction in [whoops], and the
    processor state there. *)
Context (syms : string -> Z) (at_ pstate0 : Z).

(** An undefined instruction: where execution resumes. *)
Definition trap (s : machine) (pc instr pstate : Z) : option (Z * machine) :=
  match dispatch (hooks s) instr pstate with
  | Some h =>
      let '(t, o) := run (fixed kdefault) (fn h pc instr) in
      match o with
      | Done (0, pc') => Some (pc', log_more s (printed t))
      | _ => None
      end
  | None => None
  end.

(** The functions called through a pointer must be the kernel's. *)
Definition hd : handler kernelE machine := fun s c =>
  match c return option (kans c * machine) with
  | KallsymsLookupName n => Some (syms n, s)
  | Printk l f a => Some (tt, log_more s [Log l f a])
  | CallRegisterHook p =>
      if p =? syms "register_undef_hook"%string then set_hooked s true else None
  | CallUnregisterHook p =>
      if p =? syms "unregister_undef_hook"%string then set_hooked s false else None
  | UndefInstr i =>
      match trap s at_ i pstate0 with
      | Some (pc', s') => if pc' =? at_ + 4 then Some (tt, s') else None
      | None => None
      end
  | c' => Some (kdefault c', s)
  end.

Lemma uh_matches instr pstate : matches instr pstate uh = true.
Proof. unfold matches. cbn. by rewrite !Z.land_0_r. Qed.

Definition gotcha : logline := Log KERN_INFO ("*gotcha*" +:+ nl) [].

(** With the hook in place, and no other one for the instruction. *)
Lemma trap_skips s pc instr pstate :
  hooked s = true -> 0 <= pc < 2 ^ 64 - 4 ->
  Forall (fun h => matches instr pstate h = false) (others s) ->
  trap s pc instr pstate = Some (pc + 4, log_more s [gotcha]).
Proof.
  intros Hs Hpc Hhs. unfold trap, hooks. rewrite Hs.
  destruct (dispatch (uh :: others s) instr pstate) as [h|] eqn:Hd.
  - apply dispatch_some in Hd as [[->|Hin]%elem_of_cons Hm].
    + cbn. rewrite u64_id by (unfold in_u64; lia). done.
    + rewrite Forall_forall in Hhs. by rewrite Hhs in Hm.
  - apply dispatch_none in Hd. apply Forall_cons in Hd as [Hd _]. by rewrite uh_matches in Hd.
Qed.

(** Without it. *)
Lemma trap_dies s pc instr pstate :
  hooked s = false -> Forall (fun h => matches instr pstate h = false) (others s) ->
  trap s pc instr pstate = None.
Proof.
  intros Hs Hhs. unfold trap, hooks. rewrite Hs.
  destruct (dispatch (others s) instr pstate) as [h|] eqn:Hd; [|done].
  apply dispatch_some in Hd as [Hin Hm]. rewrite Forall_forall in Hhs. by rewrite Hhs in Hm.
Qed.

End machine.

Definition reg_sym : string := "register_undef_hook".
Definition unreg_sym : string := "unregister_undef_hook".

Lemma modinit_survives `{Dispatch} syms at_ pstate os l :
  0 <= at_ < 2 ^ 64 - 4 ->
  Forall (fun h => matches 0xf7f0a000 pstate h = false) os ->
  let st := Statics (syms reg_sym) (syms unreg_sym) in
  exec (hd syms at_ pstate) (Machine os false l) modinit =
    if syms reg_sym =? 0 then (Machine os false l, Done (- EFAULT, st))
    else (Machine os true (l ++ [Log KERN_INFO ("Jumping off a cliff..." +:+ nl) []; gotcha;
            Log KERN_INFO ("Woah, I survived!" +:+ nl) []]), Done (0, st)).
Proof.
  intros Hat Hos. unfold modinit, reg_sym, unreg_sym. cbn.
  destruct (syms "register_undef_hook"%string =? 0); [done|]. cbn.
  rewrite Z.eqb_refl. cbn.
  rewrite trap_skips by done. rewrite Z.eqb_refl. cbn. unfold log_more. cbn.
  by rewrite <- !app_assoc.
Qed.

Lemma hook_catches_all `{Dispatch} syms at_ pstate0 os l reg :
  syms reg_sym <> 0 ->
  let loaded := Machine os true l in
  let st := Statics reg (syms unreg_sym) in
  let '(s', o) := exec (hd syms at_ pstate0) loaded (modexit st) in
  o = Done tt /\ others s' = os /\ hooked s' = (syms unreg_sym =? 0) /\
  forall pc instr pstate, 0 <= pc < 2 ^ 64 - 4 ->
    Forall (fun h => matches instr pstate h = false) os ->
    (fst <$> trap loaded pc instr pstate) = Some (pc + 4) /\
  (fst <$> trap s' pc instr pstate) = if syms unreg_sym =? 0 then Some (pc + 4) else None.
Proof.
  intros Hreg loaded st. unfold modexit, st. cbn [unregister_undef_hook_ptr].
  unfold truthy, unreg_sym. destruct (syms "unregister_undef_hook"%string =? 0) eqn:Hz; cbn.
  - split_and!; [done..|]. intros. by rewrite trap_skips.
  - rewrite Z.eqb_refl. cbn. split_and!; [done..|]. intros.
    rewrite trap_skips by done. by rewrite trap_dies.
Qed.

(** C37. If the kernel has the function that registers hooks, the module survives
    the undefined instruction it executes: the log shows the jump, the hook's line
    and the survival, in this order, and the module loads; if not, it fails with
    EFAULT and changes nothing. While it is loaded the hook takes every undefined
    instruction of the machine that no other hook is for, not only the one of the
    module: it is skipped, where without the hook it is fatal. Unloading takes the
    hook away only if the kernel has the function for that; otherwise it stays in
    the list when the module is gone. *)
Theorem hook_lifecycle `{Dispatch} syms at_ pstate0 os l :
  0 <= at_ < 2 ^ 64 - 4 ->
  Forall (fun h => matches 0xf7f0a000 pstate0 h = false) os ->
  let st := Statics (syms reg_sym) (syms unreg_sym) in
  let '(s, o) := exec (hd syms at_ pstate0) (Machine os false l) modinit in
  if syms reg_sym =? 0 then s = Machine os false l /\ o = Done (- EFAULT, st) else
  o = Done (0, st) /\
  klog s = l ++ [Log KERN_INFO ("Jumping off a cliff..." +:+ nl) []; gotcha;
                 Log KERN_INFO ("Woah, I survived!" +:+ nl) []] /\
  let '(s', o') := exec (hd syms at_ pstate0) s (modexit st) in
  o' = Done tt /\ others s' = os /\ hooked s' = (syms unreg_sym =? 0) /\
  forall pc instr pstate, 0 <= pc < 2 ^ 64 - 4 ->
    Forall (fun h => matches instr pstate h = false) os ->
    (fst <$> trap s pc instr pstate) = Some (pc + 4) /\
    (fst <$> trap s' pc instr pstate) = if syms unreg_sym =? 0 then Some (pc + 4) else None.
Proof.
  intros Hat Hos st. rewrite modinit_survives by done. fold st.
  destruct (Z.eqb_spec (syms reg_sym) 0) as [|Hreg]; [done|]. split_and!; [done..|].
  apply (hook_catches_all syms at_ pstate0 os _ (syms reg_sym) Hreg).
Qed.

(** The first hook that matches. *)
#[refine] Instance first_hook : Dispatch := {
  dispatch hs instr pstate := head (List.filter (matches instr pstate) hs);
}.
Proof.
  - intros hs instr pstate h Hh. 
    assert (h ∈ List.filter (matches instr pstate) hs) as Hin
      by (destruct (List.filter _ hs); [done|]; injection Hh as ->; by left).
    by apply list_elem_of_In, List.filter_In in Hin as [?%list_elem_of_In ?].
  - intros hs instr pstate Hh. apply Forall_forall. intros h Hin.
    destruct (matches instr pstate h) eqn:Hm; [|done].
    assert (In h (List.filter (matches instr pstate) hs)) as Hf
      by (apply List.filter_In; split; [by apply list_elem_of_In|done]).
    destruct (List.filter _ hs); [by destruct Hf|done].
Defined.

(** A hook of the kernel's own, for one instruction, and two functions. *)
Definition demo_others : list undef_hook :=
  [Hook 0xffffffff 0xd4200000 0 0 (fun pc _ => mret (1, pc))].

Definition demo_syms (s : string) : Z :=
  if String.eqb s reg_sym then 0xffff800010001000
  else if String.eqb s unreg_sym then 0xffff800010002000 else 0.

Lemma hook_lifecycle_witness :
  let run A := exec (A := A) (hd demo_syms 0xffff800008000010 0) in
  let '(s, o) := run _ (Machine demo_others false []) modinit in
  o = Done (0, Statics 0xffff800010001000 0xffff800010002000) /\
  klog s = [Log KERN_INFO ("Jumping off a cliff..." +:+ nl) []; gotcha;
            Log KERN_INFO ("Woah, I survived!" +:+ nl) []] /\
  let '(s', o') := run _ s (modexit (Statics 0xffff800010001000 0xffff800010002000)) in
  o' = Done tt /\ others s' = demo_others /\ hooked s' = false /\
  forall pc instr pstate, 0 <= pc < 2 ^ 64 - 4 ->
    Forall (fun h => matches instr pstate h = false) demo_others ->
    (fst <$> trap s pc instr pstate) = Some (pc + 4) /\
    (fst <$> trap s' pc instr pstate) = None.
Proof.
  apply (hook_lifecycle demo_syms 0xffff800008000010 0 demo_others []); [lia|].
  by repeat constructor.
Defined.
