(* ===== verification/RebootNotifier.v ===== *)
(** src/modules/reboot_notifier.c: a reboot notifier that waits for a critical job.

The job runs in a kernel thread, the notifier in the tasks that reboot, and the
module can be unloaded meanwhile: [step] interleaves them, one access to the
shared completion at a time. What the kernel's completions, notifier chains and
module unloading do is as they are documented: [complete] lets one waiter
through, [completion_done] tells whether one can pass without waiting,
[unregister_reboot_notifier] waits until no notifier is running. *)
From S2P Require Import Prelude Effects Kernel Transitions.

(** ** Completions, as <linux/completion.h> documents them *)

(** [struct completion]: how many waiters may pass. *)
Record completion := Completion { done : nat }.

Definition completion_done (c : completion) : bool := negb (done c =? 0)%nat.

Definition complete (c : completion) : completion := Completion (S (done c)).

(** [None] while the caller has to wait. *)
Definition wait_for_completion (c : completion) : option completion :=
  match done c with
  | O => None
  | S n => Some (Completion n)
  end.

(** Where a task that calls [my_notifier] is. *)
Inductive caller :=
| Entered               (** before [completion_done] *)
| Waiting               (** in [wait_for_completion] *)
| Returned (ret : Z) (waited : bool).

(** The thread of [waste_time]. *)
Inductive worker :=
| NotStarted            (** not created yet, or not at all *)
| Sleeping              (** in [msleep] *)
| Finished (ret : Z).

(** The module: its code and [done_wasting_time] go when it is unloaded. *)
Inductive module_state :=
| Unborn
| Loading               (** between the two calls of [modinit] *)
| Live
| Exiting               (** after [modexit] *)
| Unloaded.

#[export] Instance caller_eq_dec : EqDecision caller.
Proof. solve_decision. Defined.

#[export] Instance worker_eq_dec : EqDecision worker.
Proof. solve_decision. Defined.

#[export] Instance module_state_eq_dec : EqDecision module_state.
Proof. solve_decision. Defined.

Record state := State {
  done_wasting_time : completion;
  callers : list caller;
  thread : worker;
  mstate : module_state;
}.

Definition NOTIFY_OK : Z := 1.

(** One step of [my_notifier], with the line it logs. *)
Definition my_notifier (cmp : completion) (c : caller) : option (completion * caller * list logline) :=
  match c with
  | Entered =>
      if negb (completion_done cmp) then
        Some (cmp, Waiting,
          [Log KERN_INFO ("Wait! I have some critical job to finish..." +:+ nl) []])
      else Some (cmp, Returned NOTIFY_OK false, [])
  | Waiting =>
      cmp' ← wait_for_completion cmp;
      Some (cmp', Returned NOTIFY_OK true, [Log KERN_INFO ("Done!" +:+ nl) []])
  | Returned _ _ => None
  end.

(** What [waste_time] does once it has slept. *)
Definition waste_time (cmp : completion) : completion * Z := (complete cmp, 0).

(** A task is in the notifier. *)
Definition running (c : caller) : bool :=
  match c with Returned _ _ => false | _ => true end.

(** Who moves next. *)
Inductive actor :=
| Init                   (** [modinit]: [register_reboot_notifier] *)
| Spawn (ok : bool)      (** [modinit]: [kthread_run], which may fail, and the return *)
| Reboot                 (** a task calls the notifier chain *)
| Notifier (i : nat)     (** the [i]-th caller goes on *)
| Worker                 (** the thread wakes up and completes *)
| Exit                   (** [modexit] *)
| Free.                  (** the kernel frees the module after [modexit] *)

(** The notifier chain leads to the module. *)
Definition registered (s : state) : bool :=
  match mstate s with Loading | Live => true | _ => false end.

Definition modinit_register (s : state) : state :=
  State (done_wasting_time s) (callers s) (thread s) Loading.

(** The answer of [kthread_run] is not looked at: [modinit] returns 0. *)
Definition modinit_run (s : state) (ok : bool) : state :=
  State (done_wasting_time s) (callers s) (if ok then Sleeping else NotStarted) Live.

Definition modexit (s : state) : state :=
  State (done_wasting_time s) (callers s) (thread s) Exiting.

Definition step (s : state) (a : actor) : result state logline :=
  match a with
  | Init => if decide (mstate s = Unborn) then Next (modinit_register s) [] else Stuck
  | Spawn ok => if decide (mstate s = Loading) then Next (modinit_run s ok) [] else Stuck
  | Reboot =>
      if registered s then
        Next (State (done_wasting_time s) (callers s ++ [Entered]) (thread s) (mstate s)) []
      else Stuck
  | Notifier i =>
      match callers s !! i with
      | None => Stuck
      | Some c =>
          match my_notifier (done_wasting_time s) c with
          | None => Stuck
          | Some (cmp, c', lines) =>
              Next (State cmp (<[i := c']> (callers s)) (thread s) (mstate s)) lines
          end
      end
  | Worker =>
      if decide (thread s = Sleeping) then
        if decide (mstate s = Unloaded) then Crash else
        let '(cmp, ret) := waste_time (done_wasting_time s) in
        Next (State cmp (callers s) (Finished ret) (mstate s)) []
      else Stuck
  | Exit =>
      if decide (mstate s = Live) then
        if existsb running (callers s) then Stuck else Next (modexit s) []
      else Stuck
  | Free =>
      if decide (mstate s = Exiting) then
        Next (State (done_wasting_time s) (callers s) (thread s) Unloaded) []
      else Stuck
  end.

(** Before the module is loaded. *)
Definition start : state := State (Completion 0) [] NotStarted Unborn.

(** The executions of the module, whose events are the lines of the log, and the
    states they reach. *)
Abbreviation exec_from := (Transitions.exec_from step).

Abbreviation reachable := (Transitions.reachable step start).

(** ** The invariant *)

Definition waited (c : caller) : bool :=
  match c with Returned _ w => w | _ => false end.

(** How many callers waited and got through. *)
Definition tally (c : caller) : nat := if waited c then 1 else 0.

Definition passed (s : state) : nat := sum_list (tally <$> callers s).

Definition finished (s : state) : bool :=
  match thread s with Finished _ => true | _ => false end.

(** The thread completes once; every caller that waited used that up. *)
Record inv (s : state) : Prop := {
  inv_count : (done (done_wasting_time s) + passed s = if finished s then 1 else 0)%nat;
  inv_returned ret w : Returned ret w ∈ callers s -> ret = NOTIFY_OK /\ finished s = true;
  inv_early : mstate s = Unborn \/ mstate s = Loading -> thread s = NotStarted;
  inv_running : existsb running (callers s) = true -> registered s = true;
}.

(** [passed] after a caller moved. *)
Lemma passed_insert (l : list caller) i c c' :
  l !! i = Some c -> waited c = false ->
  sum_list (tally <$> <[i := c']> l) = (tally c' + sum_list (tally <$> l))%nat.
Proof.
  revert i. induction l as [|x l IH]; intros [|i] Hl Hc; try done; cbn in *.
  - injection Hl as ->. replace (tally c) with 0%nat by (unfold tally; by rewrite Hc). lia.
  - pose proof (IH i Hl Hc) as H. change (_ = _) with
      (tally x + sum_list (tally <$> <[i := c']> l) = tally c' + (tally x + sum_list (tally <$> l)))%nat.
    lia.
Qed.

(** One step of the notifier. *)
Lemma notifier_step cmp c cmp' c' ls :
  my_notifier cmp c = Some (cmp', c', ls) ->
  waited c = false /\ running c = true /\ (done cmp' + tally c' = done cmp)%nat /\
  forall ret w, c' = Returned ret w -> ret = NOTIFY_OK /\ (0 < done cmp)%nat.
Proof.
  destruct c as [| |ret w]; cbn; [| |done].
  - unfold completion_done. destruct (Nat.eqb_spec (done cmp) 0); cbn; intros [= <- <- <-].
    + split_and!; cbn; [done|done|lia|done].
    + split_and!; cbn; [done|done|lia|intros ? ? [= <- <-]; split; [done|lia]].
  - unfold wait_for_completion. destruct (done cmp) as [|n]; cbn; [done|].
    intros [= <- <- <-]. split_and!; cbn; [done|done|lia|intros ? ? [= <- <-]; split; [done|lia]].
Qed.

Lemma running_insert (l : list caller) i c c' :
  l !! i = Some c -> running c = true ->
  existsb running (<[i := c']> l) = true -> existsb running l = true.
Proof.
  intros Hi Hc _. apply existsb_exists. exists c. split; [|done].
  by eapply list_elem_of_In, list_elem_of_lookup_2.
Qed.

Lemma inv_start : inv start.
Proof. split; [done|by intros ? ? ?%elem_of_nil|done|done]. Qed.

Ltac inv_split :=
  split; unfold finished, passed, registered; cbn [thread callers mstate done_wasting_time
    modinit_register modinit_run modexit].

Lemma inv_step s a s' lines : inv s -> step s a = Next s' lines -> inv s'.
Proof.
  intros [Hc Hr He Hg] Hs. unfold finished, passed in Hc, Hr.
  destruct a as [|ok| |i| | |]; cbn [step] in Hs.
  - case_decide; [|done]. injection Hs as <- <-. inv_split; auto.
  - case_decide as Hm; [|done]. injection Hs as <- <-.
    rewrite He in Hc, Hr by auto.
    inv_split; [by destruct ok|by destruct ok; auto|by intros [|]|done].
  - destruct (registered s) eqn:Hreg; [|done]. injection Hs as <- <-.
    inv_split; [|..|auto|done].
    + rewrite fmap_app, sum_list_with_app. cbn [fmap list_fmap sum_list_with tally waited].
      rewrite <- Hc. cbn. lia.
    + intros ret w [Hin|Hin]%elem_of_app; [eauto|].
      by apply list_elem_of_singleton in Hin.
  - destruct (callers s !! i) as [c|] eqn:Hi; [|done].
    destruct (my_notifier _ c) as [[[cmp c'] ls]|] eqn:Hn; [|done]. injection Hs as <- <-.
    destruct (notifier_step _ _ _ _ _ Hn) as (Hw & Hrun & Hcnt & Hret).
    inv_split; [..|exact He|].
    + rewrite (passed_insert _ _ c) by done. lia.
    + intros ret w Hin. apply elem_of_insert in Hin as [->|Hin]; [|by apply (Hr ret w)].
      destruct (Hret _ _ eq_refl) as [-> Hd]. split; [done|].
      destruct (thread s); [lia|lia|done].
    + intros Hx. apply Hg. by eapply running_insert.
  - case_decide as Ht; [|done]. case_decide as Hm; [done|]. injection Hs as <- <-.
    rewrite Ht in *. inv_split; [unfold complete; cbn [done]; lia| | |done].
    + intros ret w Hin. by destruct (Hr ret w Hin).
    + intros Hu. by apply He in Hu.
  - case_decide; [|done]. destruct (existsb running _) eqn:Hx; [done|]. injection Hs as <- <-.
    inv_split; [done|done|by intros [|]|by rewrite Hx].
  - case_decide as Hm; [|done]. injection Hs as <- <-.
    inv_split; [done|done|by intros [|]|]. intros Hx. apply Hg in Hx.
    unfold registered in Hx. by rewrite Hm in Hx.
Qed.

Lemma reachable_inv s : reachable s -> inv s.
Proof. induction 1; [apply inv_start|by eapply inv_step]. Qed.

(** [waste_time] answers 0. *)
Lemma thread_result s r : reachable s -> thread s = Finished r -> r = 0.
Proof.
  intros Hs. revert r. induction Hs as [|s a s' lines _ IH Hs]; [done|].
  intros r Hr. destruct a as [|ok| |i| | |]; cbn [step] in Hs.
  - case_decide; [|done]. injection Hs as <- <-. by apply IH.
  - case_decide; [|done]. injection Hs as <- <-. by destruct ok.
  - destruct (registered s); [|done]. injection Hs as <- <-. by apply IH.
  - destruct (callers s !! i); [|done].
    destruct (my_notifier _ _) as [[[cmp d'] ls]|]; [|done]. injection Hs as <- <-. by apply IH.
  - case_decide; [|done]. case_decide; [done|]. injection Hs as <- <-. by injection Hr.
  - case_decide; [|done]. destruct (existsb running _); [done|]. injection Hs as <- <-. by apply IH.
  - case_decide; [|done]. injection Hs as <- <-. by apply IH.
Qed.

(** ** After the completion is used up *)

(** The caller [i] is in the notifier, and nobody can get through any more. *)
Definition hung (i : nat) (s : state) : Prop :=
  passed s = 1%nat /\ exists c, callers s !! i = Some c /\ running c = true.

Lemma hung_step i s a s' lines :
  reachable s -> hung i s -> step s a = Next s' lines -> hung i s'.
Proof.
  intros Hreach [Hp (c & Hc & Hr)] Hs.
  pose proof (reachable_inv _ (reach_step _ _ _ _ Hreach Hs)) as [Hc' _ _ _].
  pose proof (reachable_inv _ Hreach) as [Hc0 _ _ _].
  assert (done (done_wasting_time s) = 0%nat /\ finished s = true) as [Hd Hf]
    by (destruct (finished s); split; lia || done).
  destruct a as [|ok| |j| | |]; cbn [step] in Hs.
  - case_decide; [|done]. injection Hs as <- <-. split; [done|by exists c].
  - case_decide; [|done]. injection Hs as <- <-. split; [done|by exists c].
  - destruct (registered s); [|done]. injection Hs as <- <-. split.
    + unfold passed in *. cbn [callers]. rewrite fmap_app, sum_list_with_app, Hp. done.
    + exists c. split; [|done]. cbn [callers]. by apply lookup_app_l_Some.
  - destruct (callers s !! j) as [d|] eqn:Hj; [|done].
    destruct (my_notifier _ d) as [[[cmp d'] ls]|] eqn:Hn; [|done]. injection Hs as <- <-.
    destruct (notifier_step _ _ _ _ _ Hn) as (Hw & _ & Hcnt & Hret).
    assert (running d' = true) as Hd' by (destruct d'; [done..|destruct (Hret _ _ eq_refl); lia]).
    split.
    + unfold passed in *. cbn [callers]. rewrite (passed_insert _ _ d) by done. lia.
    + cbn [callers]. destruct (decide (i = j)) as [<-|Hij].
      * exists d'. split; [|done]. apply list_lookup_insert_eq. by eapply lookup_lt_Some.
      * exists c. by rewrite list_lookup_insert_ne.
  - case_decide as Ht; [|done]. unfold finished in Hf. by rewrite Ht in Hf.
  - case_decide; [|done]. destruct (existsb running _); [done|]. injection Hs as <- <-.
    split; [done|by exists c].
  - case_decide; [|done]. injection Hs as <- <-. split; [done|by exists c].
Qed.

Lemma hung_exec i s sched s' log :
  reachable s -> hung i s -> exec_from s sched = Some (s', log) -> hung i s'.
Proof. apply (exec_preserves step (hung i)), hung_step. Qed.

(** A caller that waits either still does or has waited. *)
Definition in_line (i : nat) (s : state) : Prop :=
  callers s !! i = Some Waiting \/ exists ret, callers s !! i = Some (Returned ret true).

Lemma in_line_step i s a s' lines : in_line i s -> step s a = Next s' lines -> in_line i s'.
Proof.
  intros Hi Hs. destruct a as [|ok| |j| | |]; cbn [step] in Hs.
  - case_decide; [|done]. by injection Hs as <- <-.
  - case_decide; [|done]. by injection Hs as <- <-.
  - destruct (registered s); [|done]. injection Hs as <- <-.
    destruct Hi as [Hi|[ret Hi]]; [left|right; exists ret]; by apply lookup_app_l_Some.
  - destruct (callers s !! j) as [d|] eqn:Hj; [|done].
    destruct (my_notifier _ d) as [[[cmp d'] ls]|] eqn:Hn; [|done]. injection Hs as <- <-.
    unfold in_line in *. cbn [callers].
    destruct (decide (i = j)) as [<-|Hij]; [|by rewrite list_lookup_insert_ne by done].
    right. destruct Hi as [Hi|[ret Hi]]; rewrite Hi in Hj; injection Hj as <-; [|done].
    exists NOTIFY_OK. cbn in Hn. destruct (wait_for_completion _); [|done].
    injection Hn as <- <- <-. apply list_lookup_insert_eq. by eapply lookup_lt_Some.
  - case_decide; [|done]. case_decide; [done|]. by injection Hs as <- <-.
  - case_decide; [|done]. destruct (existsb running _); [done|]. by injection Hs as <- <-.
  - case_decide; [|done]. by injection Hs as <- <-.
Qed.

Lemma in_line_exec i s sched s' log :
  reachable s -> in_line i s -> exec_from s sched = Some (s', log) -> in_line i s'.
Proof. apply (exec_preserves step (in_line i)). intros ? ? ? ? _. apply in_line_step. Qed.

(** Two callers that waited make a count of two. *)
Lemma passed_two (l : list caller) i j r r' :
  i <> j -> l !! i = Some (Returned r true) -> l !! j = Some (Returned r' true) ->
  (2 <= sum_list (tally <$> l))%nat.
Proof.
  intros Hij Hi Hj.
  pose proof (passed_insert (<[i := Entered]> (<[j := Entered]> l)) i Entered (Returned r true))
    as H1.
  rewrite list_insert_insert_eq, list_lookup_insert_eq in H1
    by (rewrite length_insert; by eapply lookup_lt_Some).
  specialize (H1 eq_refl eq_refl).
  pose proof (passed_insert (<[j := Entered]> l) j Entered (Returned r' true)) as H2.
  rewrite list_insert_insert_eq, list_lookup_insert_eq, (list_insert_id l j) in H2
    by (done || by eapply lookup_lt_Some).
  specialize (H2 eq_refl eq_refl).
  assert (sum_list (tally <$> <[i := Returned r true]> (<[j := Entered]> l)) =
    sum_list (tally <$> <[j := Entered]> l)) as H3.
  { rewrite list_insert_id; [done|]. by rewrite list_lookup_insert_ne. }
  rewrite H3 in H1. cbn in H1, H2. lia.
Qed.

(** ** What the notifier guarantees *)

(** The way a caller takes when the job is or will be done. *)
Definition way_out (s : state) (i : nat) (c : caller) : list actor :=
  (if finished s then [] else [Worker]) ++ [Notifier i].

Lemma way_out_returns s i c :
  reachable s -> callers s !! i = Some c -> running c = true -> passed s = 0%nat ->
  thread s <> NotStarted ->
  exists s' log w, exec_from s (way_out s i c) = Some (s', log) /\
    callers s' !! i = Some (Returned NOTIFY_OK w).
Proof.
  intros Hreach Hi Hc Hp Ht. pose proof (reachable_inv _ Hreach) as [Hcount _ _ Hrun].
  assert (registered s = true) as Hreg.
  { apply Hrun, existsb_exists. exists c. split; [|done].
    by eapply list_elem_of_In, list_elem_of_lookup_2. }
  assert (mstate s <> Unloaded) as Hm by (intros Hm; unfold registered in Hreg; by rewrite Hm in Hreg).
  assert (i < length (callers s))%nat as Hlen by by eapply lookup_lt_Some.
  rewrite Hp, Nat.add_0_r in Hcount. unfold way_out, finished in *.
  destruct (thread s) as [| |r] eqn:Hth; [done| |]; cbn [app exec_from step] in *.
  - rewrite decide_True, decide_False by done. cbn. rewrite Hi.
    destruct c as [| |]; [| |done]; cbn; eexists _, _, _;
      (split; [reflexivity|]); by apply list_lookup_insert_eq.
  - rewrite Hi. destruct c as [| |]; [| |done]; cbn [my_notifier];
      unfold completion_done, wait_for_completion; rewrite Hcount; cbn; eexists _, _, _;
      (split; [reflexivity|]); by apply list_lookup_insert_eq.
Qed.

(** C30. A task that calls the notifier only gets through, and with [NOTIFY_OK],
    once the critical job is finished; and while nobody has waited and got
    through yet every task in the notifier can get through: as soon as the job
    is done, if the thread was created. The module is not unloaded under a task
    that is in the notifier. *)
Theorem notifier_waits s :
  reachable s ->
  (forall i ret w, callers s !! i = Some (Returned ret w) ->
    ret = NOTIFY_OK /\ thread s = Finished 0) /\
  (forall i c, callers s !! i = Some c -> running c = true ->
    (mstate s = Loading \/ mstate s = Live) /\
    (passed s = 0%nat -> thread s <> NotStarted -> exists s' log w,
      exec_from s (way_out s i c) = Some (s', log) /\
      callers s' !! i = Some (Returned NOTIFY_OK w))).
Proof.
  intros Hreach. pose proof (reachable_inv _ Hreach) as [Hcount Hret _ Hrun]. split.
  - intros i ret w Hi.
    destruct (Hret ret w) as [Hok Hf]; [by eapply list_elem_of_lookup_2|].
    split; [done|]. unfold finished in Hf. destruct (thread s) as [| |r] eqn:Ht; [done..|].
    f_equal. by eapply thread_result.
  - intros i c Hi Hc. split; [|by apply way_out_returns].
    assert (registered s = true) as Hreg.
    { apply Hrun, existsb_exists. exists c. split; [|done].
      by eapply list_elem_of_In, list_elem_of_lookup_2. }
    unfold registered in Hreg. destruct (mstate s); auto; done.
Qed.

(** C31. The completion lets one waiter through, and no more. Once a task has waited
    and got through, any task that is in the notifier stays in it whatever
    happens, so a second reboot hangs, and the module cannot be unloaded; of two
    tasks that wait at the same time at most one ever returns. And nothing stops
    the thread when the module is unloaded before the job is finished: such a
    state can be reached, and there the thread's next step crashes. *)
Theorem completion_used_up :
  (forall s i c sched s' log, reachable s -> passed s = 1%nat ->
    callers s !! i = Some c -> running c = true -> exec_from s sched = Some (s', log) ->
    (exists c', callers s' !! i = Some c' /\ running c' = true) /\ step s' Exit = Stuck) /\
  (forall s i j sched s' log r r' w w', reachable s -> i <> j ->
    callers s !! i = Some Waiting -> callers s !! j = Some Waiting ->
    exec_from s sched = Some (s', log) ->
    ~ (callers s' !! i = Some (Returned r w) /\ callers s' !! j = Some (Returned r' w'))) /\
  (exists s, reachable s /\ mstate s = Unloaded /\ step s Worker = Crash).
Proof.
  split_and!.
  - intros s i c sched s' log Hreach Hp Hi Hc He.
    destruct (hung_exec i s sched s' log) as [_ (c' & Hi' & Hc')];
      [done|split; [done|by exists c]|done|].
    split; [by exists c'|]. cbn. case_decide; [|done].
    rewrite (proj2 (existsb_exists _ _)); [done|].
    exists c'. split; [by eapply list_elem_of_In, list_elem_of_lookup_2|done].
  - intros s i j sched s' log r r' w w' Hreach Hij Hi Hj He [Hi' Hj'].
    pose proof (reachable_inv _ (exec_reachable _ _ _ _ Hreach He)) as [Hcount _ _ _].
    destruct (in_line_exec i s sched s' log) as [Hx|[ri Hx]]; [done|by left|done|congruence|].
    destruct (in_line_exec j s sched s' log) as [Hy|[rj Hy]]; [done|by left|done|congruence|].
    pose proof (passed_two _ _ _ _ _ Hij Hx Hy) as H2. unfold passed in Hcount.
    destruct (finished s'); lia.
  - destruct (exec_from start [Init; Spawn true; Exit; Free]) as [[s log]|] eqn:He;
      [|discriminate He].
    exists s. split; [by eapply exec_reachable; [apply reach_start|]|].
    vm_compute in He. by injection He as <- <-.
Qed.

(** ** A reboot while the job runs, and another one after it *)
Definition demo_sched : list actor :=
  [Init; Spawn true; Reboot; Notifier 0; Worker; Notifier 0; Reboot; Notifier 1].

Definition demo_state : state :=
  State (Completion 0) [Returned NOTIFY_OK true; Waiting] (Finished 0) Live.

Lemma demo_reachable : reachable demo_state.
Proof.
  apply (exec_reachable start demo_sched _
    [Log KERN_INFO ("Wait! I have some critical job to finish..." +:+ nl) [];
     Log KERN_INFO ("Done!" +:+ nl) [];
     Log KERN_INFO ("Wait! I have some critical job to finish..." +:+ nl) []]);
    [apply reach_start|reflexivity].
Defined.

Lemma notifier_waits_witness : 1 = NOTIFY_OK /\ thread demo_state = Finished 0.
Proof.
  destruct (notifier_waits demo_state) as [H _]; [exact demo_reachable|].
  apply (H 0%nat 1 true). reflexivity.
Defined.

Lemma completion_used_up_witness :
  (exists c, callers demo_state !! 1%nat = Some c /\ running c = true) /\
  step demo_state Exit = Stuck.
Proof.
  destruct completion_used_up as [H _].
  exact (H demo_state 1%nat Waiting [] demo_state [] demo_reachable eq_refl eq_refl eq_refl
    eq_refl).
Defined.
