(* ===== verification/Formats.v ===== *)
(** What all the programs print is well formed: every format they give to
printk() and printf() fits its arguments, so every line has a text (Format.v).

[formatted] and [uformatted] are the requirement on a call of the kernel and of
the C library; [follow] walks through a program, with the lemmas of [cformats]
for the loops over what others answer. *)
From S2P Require Import Prelude Effects Kernel CStrings Format Libc.
From S2P Require Import PageTable TaskTree PageInfo CharDev EnumPids TaskRss TaskRssFromPid.
From S2P Require Import RootDev Kallsyms ReadImpliesExec CpuFreq CpuInfo DateTime Init.
From S2P Require Import FtraceHelper InheritCapability AliasPage X86Rtm Governor HashTable.
From S2P Require Import SyscallHijack UndefInstr Transitions RebootNotifier.

Definition formatted (o : obs kernelE) : Prop :=
  match obs_call o with
  | Printk _ fmt args => fits fmt args = true
  | _ => True
  end.

Definition uformatted (o : obs userE) : Prop :=
  match obs_call o with
  | Fprintf _ fmt args => fits fmt args = true
  | _ => True
  end.

(** ** The text of a log *)

Definition lines_text (ls : list logline) : option string :=
  concat_texts ((fun l => render (log_fmt l) (log_args l)) <$> ls).

Definition log_text (t : trace kernelE) : option string := lines_text (printed t).

(** The text is that of the lines one after the other. *)
Lemma lines_text_some ls :
  Forall (fun l => fits (log_fmt l) (log_args l) = true) ls -> is_Some (lines_text ls).
Proof.
  intros H. apply concat_texts_some, Forall_fmap. eapply Forall_impl; [exact H|].
  intros l. apply render_fits.
Qed.

Lemma formatted_text t : Forall formatted t -> is_Some (log_text t).
Proof.
  intros H. apply lines_text_some.
  induction H as [|[c a] t Hc _ IH]; [constructor|].
  unfold printed. cbn [omap list_omap]. unfold printed_of at 1. cbn [obs_call].
  destruct c; try exact IH. by constructor.
Qed.

Lemma uformatted_text f t : Forall uformatted t -> is_Some (output_text f t).
Proof.
  intros H. apply concat_texts_some, Forall_fmap.
  induction H as [|[c a] t Hc _ IH]; [constructor|].
  unfold written. cbn [omap list_omap]. unfold written_of at 1. cbn [obs_call].
  destruct c; try exact IH; case_decide; try exact IH; (constructor; [|exact IH]);
    by (apply render_fits || eexists).
Qed.

(** ** Following a program *)

Create HintDb cformats.

Lemma only_when {E} P (b : bool) (p : prog E unit) : only P p -> only P (when b p).
Proof. destruct b; [done|intros _; apply only_ret]. Qed.

Lemma only_halt {E A} (P : obs E -> Prop) x : only P (Halt (A := A) x).
Proof. constructor. Qed.

Ltac head_of p := lazymatch p with ?f _ => head_of f | _ => p end.

(** Follows a program, with [side] for each call. *)
Ltac follow side :=
  lazymatch goal with
  | |- only _ (mret _) => apply only_ret
  | |- only _ (Ret _) => apply only_ret
  | |- only _ (Halt _) => apply only_halt
  | |- only _ (when _ _) => apply only_when; follow side
  | |- only _ (do _) => apply only_do; side
  | |- only _ (_ ≫= _) => apply only_bind; [follow side|intros ?; follow side]
  | |- only _ (for_each _ _) => apply only_for_each; intros ?; follow side
  | |- only _ (loop _ _ _) => apply only_loop; intros ?; follow side
  | |- only _ (let _ := _ in _) => cbv zeta; follow side
  | |- only _ (if ?b then _ else _) => destruct b; follow side
  | |- only _ (match ?x with _ => _ end) => destruct x; follow side
  | |- only _ ?p =>
      first [ solve [eauto with cformats nocore]
            | let h := head_of p in unfold h; cbv beta iota; follow side ]
  end.

(** What a call prints, and what it prints it with. *)
Ltac fits_tac :=
  intros ?; unfold formatted, uformatted; cbn [obs_call]; repeat case_match;
  first [exact I | reflexivity].

Ltac formats := follow fits_tac.

(** ** The modules *)

Lemma page_table_walk_formatted `{X86} user_pid vaddr dump :
  only formatted (page_table_walk_init user_pid vaddr dump).
Proof. formats. Qed.

Lemma add_children_formatted bfs children q tail :
  only formatted (add_children bfs children q tail).
Proof.
  revert q tail. induction children as [|child children IH]; intros q tail; cbn [add_children];
    formats.
Qed.

#[export] Hint Resolve add_children_formatted : cformats.

(** The format of a task's line and the type of its state go together. *)
Lemma dump_thread_formatted new_state thread : only formatted (dump_thread new_state thread).
Proof.
  destruct new_state; intros [] [] parent ppid [] comm state pid [] [];
    repeat (constructor; [exact I || reflexivity|]); constructor.
Qed.

#[export] Hint Resolve dump_thread_formatted : cformats.

Lemma dump_task_formatted threads new_state task :
  only formatted (dump_task threads new_state task).
Proof.
  assert (only formatted (when threads (dump_task_threads new_state task))) as H by formats.
  destruct new_state; intros [] parent ppid [] comm state pid []; cbn [always];
    (eapply always_mono; [|exact H]); intros tr o Htr;
    repeat (constructor; [exact I || reflexivity|]); exact Htr.
Qed.

#[export] Hint Resolve dump_task_formatted : cformats.

Lemma task_tree_formatted bfs threads new_state fuel pid :
  only formatted (TaskTree.modinit bfs threads new_state fuel pid).
Proof. destruct new_state; formats. Qed.

Lemma chardev_formatted v :
  only formatted (mychardev_init v) /\ only formatted (mychardev_cleanup v) /\
  (forall buf n off, only formatted (read_mebeim v buf n off)).
Proof. split_and!; intros; formats. Qed.

Lemma print_task_formatted task type : only formatted (print_task task type).
Proof. destruct type; formats. Qed.

#[export] Hint Resolve print_task_formatted : cformats.

Lemma enum_pids_formatted pid : only formatted (EnumPids.modinit pid).
Proof. formats. Qed.

Lemma task_rss_formatted mmu shift pid :
  only formatted (TaskRss.modinit mmu shift) /\ only formatted (TaskRssFromPid.modinit mmu shift pid).
Proof. split; formats. Qed.

Lemma findrootdev_formatted : only formatted findrootdev_init /\ only formatted findrootdev_exit.
Proof. split; formats. Qed.

Lemma each_symbol_formatted fn syms :
  (forall sym, only formatted (fn sym)) -> only formatted (each_symbol fn syms).
Proof. intros Hfn. induction syms; cbn [each_symbol]; formats. Qed.

Lemma kallsyms_formatted old find : only formatted (Kallsyms.modinit old find).
Proof.
  assert (forall syms, only formatted (each_symbol (callback find) syms)) as Hs.
  { intros. apply each_symbol_formatted. intros. destruct find; formats. }
  formats.
Qed.

Lemma register_all_formatted probes : only formatted (register_all probes).
Proof. induction probes; cbn [register_all]; formats. Qed.

#[export] Hint Resolve register_all_formatted : cformats.

Lemma read_implies_exec_formatted :
  only formatted ReadImpliesExec.modinit /\ only formatted ReadImpliesExec.modexit.
Proof. split; formats. Qed.

Lemma cpu_formatted fuel : only formatted (CpuFreq.modinit fuel) /\ only formatted CpuInfo.modinit.
Proof. split; formats. Qed.

Lemma datetime_formatted : only formatted datetime_init.
Proof. formats. Qed.

(** The lines of the notifier, however its callers, the thread and the unloading of the
    module are interleaved. *)
Lemma reboot_notifier_formatted sched s log :
  Transitions.exec_from RebootNotifier.step RebootNotifier.start sched = Some (s, log) ->
  Forall (fun l => fits (log_fmt l) (log_args l) = true) log.
Proof.
  apply (exec_invariant RebootNotifier.step (fun log _ =>
    Forall (fun l => fits (log_fmt l) (log_args l) = true) log) _ _ _ _ []); [|constructor].
  intros log0 s0 a s' out H0 Hs. apply Forall_app. split; [exact H0|]. clear H0.
  unfold RebootNotifier.step in Hs. repeat (case_match; try done); simplify_eq; try constructor.
  unfold my_notifier in *. repeat (case_match; simplify_option_eq; try done);
    repeat constructor.
Qed.

Lemma reboot_notifier_text sched :
  match Transitions.exec_from RebootNotifier.step RebootNotifier.start sched with
  | Some (_, log) => is_Some (lines_text log)
  | None => True
  end.
Proof.
  destruct (Transitions.exec_from _ _ _) as [[s log]|] eqn:He; [|done].
  eapply lines_text_some, reboot_notifier_formatted, He.
Qed.

Lemma find_foo_formatted key curs : only formatted (find_foo key curs).
Proof. induction curs; cbn [find_foo]; formats. Qed.

#[export] Hint Resolve find_foo_formatted : cformats.

Lemma myhashtable_formatted `{HashTable T} xx signed xxhash tbl :
  only formatted (myhashtable_init xx signed xxhash tbl) /\ only formatted myhashtable_exit.
Proof. split; formats. Qed.

Lemma apply_each_formatted fn pteps err :
  (forall ptep, only formatted (fn ptep)) -> only formatted (apply_each fn pteps err).
Proof. intros Hfn. induction pteps; cbn [apply_each]; formats. Qed.

Lemma hijack_formatted `{ARM64} addr v regs :
  only formatted (SyscallHijack.modinit addr v) /\ only formatted (SyscallHijack.modexit v) /\
  only formatted (myread v regs).
Proof.
  assert (forall cdata pteps err, only formatted (apply_each (change_page_range cdata) pteps err)).
  { intros. apply apply_each_formatted. intros. formats. }
  split_and!; formats.
Qed.

Lemma undef_instr_formatted st pc instr :
  only formatted UndefInstr.modinit /\ only formatted (UndefInstr.modexit st) /\
  only formatted (undef_instr_handler pc instr).
Proof. split_and!; formats. Qed.

(** ** The programs *)

Lemma pageinfo_formatted argv : only uformatted (PageInfo.main argv).
Proof. formats. Qed.

Lemma do_mounts_formatted ms : only uformatted (do_mounts_from ms).
Proof. induction ms; cbn [do_mounts_from]; formats. Qed.

#[export] Hint Resolve do_mounts_formatted : cformats.

Lemma init_formatted : only uformatted Init.main.
Proof. formats. Qed.

Lemma ftrace_helper_formatted fuel : only uformatted (FtraceHelper.main fuel).
Proof. formats. Qed.

Lemma caps_from_formatted caps l v : only uformatted (caps_from caps l v).
Proof. revert v. induction l; intros; cbn [caps_from]; formats. Qed.

#[export] Hint Resolve caps_from_formatted : cformats.

Lemma inherit_capability_formatted : only uformatted InheritCapability.main.
Proof. formats. Qed.

Lemma alias_page_formatted : only uformatted AliasPage.main.
Proof. formats. Qed.

Lemma x86_rtm_formatted : only uformatted X86Rtm.main.
Proof. formats. Qed.

Lemma governor_formatted fuel args : only uformatted (Governor.main fuel args).
Proof. formats. Qed.

(** ** All of them *)

(** Every execution logs, or writes to [f], lines that have a text. *)
Definition log_has_text {A} (p : kprog A) : Prop :=
  always p (fun t _ => is_Some (log_text t)).

Definition output_has_text {A} (p : uprog A) : Prop :=
  always p (fun t _ => forall f, is_Some (output_text f t)).

Lemma formatted_log {A} (p : kprog A) : only formatted p -> log_has_text p.
Proof. apply always_mono. intros t _. apply formatted_text. Qed.

Lemma formatted_output {A} (p : uprog A) : only uformatted p -> output_has_text p.
Proof. apply always_mono. intros t _ Ht f. by apply uformatted_text. Qed.

(** C11. Every line that any of the modules logs, and all that any of the programs
    writes, is well formed, whatever is answered to them and, for reboot_notifier,
    however its functions are interleaved: each conversion has an argument of its
    type ([int] or [long], pointer, string, [double]) and no argument is left over, so
    that the format is defined behaviour and has a text. *)
Theorem all_output_has_text :
  (forall (X : X86) user_pid vaddr dump, log_has_text (page_table_walk_init user_pid vaddr dump)) /\
  (forall bfs threads new_state fuel pid,
    log_has_text (TaskTree.modinit bfs threads new_state fuel pid)) /\
  (forall v buf n off, log_has_text (mychardev_init v) /\ log_has_text (mychardev_cleanup v) /\
    log_has_text (read_mebeim v buf n off)) /\
  (forall pid, log_has_text (EnumPids.modinit pid)) /\
  (forall mmu shift pid, log_has_text (TaskRss.modinit mmu shift) /\
    log_has_text (TaskRssFromPid.modinit mmu shift pid)) /\
  (log_has_text findrootdev_init /\ log_has_text findrootdev_exit) /\
  (forall old find, log_has_text (Kallsyms.modinit old find)) /\
  (log_has_text ReadImpliesExec.modinit /\ log_has_text ReadImpliesExec.modexit) /\
  (forall fuel, log_has_text (CpuFreq.modinit fuel) /\ log_has_text CpuInfo.modinit) /\
  log_has_text datetime_init /\
  (forall T (M : HashTable T) xx signed xxhash tbl,
    log_has_text (myhashtable_init xx signed xxhash tbl) /\ log_has_text myhashtable_exit) /\
  (forall (M : ARM64) addr v regs, log_has_text (SyscallHijack.modinit addr v) /\
    log_has_text (SyscallHijack.modexit v) /\ log_has_text (myread v regs)) /\
  (forall st pc instr, log_has_text UndefInstr.modinit /\ log_has_text (UndefInstr.modexit st) /\
    log_has_text (undef_instr_handler pc instr)) /\
  (forall sched,
    match Transitions.exec_from RebootNotifier.step RebootNotifier.start sched with
    | Some (_, log) => is_Some (lines_text log)
    | None => True
    end) /\
  (forall argv, output_has_text (PageInfo.main argv)) /\ output_has_text Init.main /\
  (forall fuel, output_has_text (FtraceHelper.main fuel)) /\
  output_has_text InheritCapability.main /\ output_has_text AliasPage.main /\
  output_has_text X86Rtm.main /\ (forall fuel args, output_has_text (Governor.main fuel args)).
Proof.
  split_and!; intros; split_and?; try (apply formatted_log || apply formatted_output);
    eauto using page_table_walk_formatted, task_tree_formatted, enum_pids_formatted,
      kallsyms_formatted, datetime_formatted, pageinfo_formatted, init_formatted,
      ftrace_helper_formatted, inherit_capability_formatted, alias_page_formatted,
      x86_rtm_formatted, governor_formatted;
    solve [apply (chardev_formatted v) | apply (task_rss_formatted mmu shift pid) |
      apply findrootdev_formatted | apply read_implies_exec_formatted | apply (cpu_formatted fuel) |
      apply (myhashtable_formatted xx signed xxhash tbl) | apply (hijack_formatted addr v regs) |
      apply (undef_instr_formatted st pc instr) | apply reboot_notifier_text].
Qed.
