(* ===== verification/Session.v ===== *)
(** Using two of the tools together: page_table_walk.c logs the physical address
of a virtual one, which is what pageinfo.c takes as an argument; and pageinfo.c,
given the virtual address, writes a physical address of its own.

Both are about text: the word after a label of a log line, copied to a command
line, and the word after a label of the output. *)
From Stdlib Require Import Ascii.
From S2P Require Import Prelude Effects Kernel CStrings Format Libc.
From S2P Require Import PageTable PageTableFacts PageTableThms.
From S2P Require Import PageInfo PageInfoFacts PageInfoThms Formats.

(** The address in a line of the log, and in a piece of the output. *)
Definition logged_paddr (l : logline) : option string :=
  text ← render (log_fmt l) (log_args l) ; reported "paddr: " text.

Definition written_paddr (p : piece) : option string :=
  text ← piece_text p ; reported "Paddr: " text.

(** ** The text of an address *)

(** The word after a label is [0x%lx] of [a]. *)
Lemma reported_address label a rest : in_u64 a -> word rest = EmptyString ->
  reported label (label +:+ address a +:+ rest) = Some (address a).
Proof.
  intros Ha Hr. unfold reported. rewrite after_app.
  cbn [fmap option_fmap option_map]. f_equal.
  assert (word (address a +:+ rest) = "0x" +:+ word (hex a +:+ rest)) as -> by done.
  by rewrite word_hex.
Qed.

(** The line of [dump_paddr]. *)
Lemma logged_paddr_line lvl pa z : in_u64 pa -> word z = EmptyString ->
  logged_paddr (Log lvl paddr_fmt [AL pa; AS z]) = Some (address pa).
Proof.
  intros Hpa Hz. unfold logged_paddr. cbn [log_fmt log_args].
  assert (render paddr_fmt [AL pa; AS z] = Some ("paddr: " +:+ address pa +:+ z +:+ nl)) as ->.
  { unfold render. change (items None paddr_fmt) with
      (Some ((Lit <$> String.list_ascii_of_string "paddr: 0x") ++
             [Dir (Directive false false 0 None true) Cx; Dir Format.plain Cs; Lit "010"%char])).
    cbn [fmap list_fmap String.list_ascii_of_string app fill]. rewrite show_lx by done.
    rewrite show_s. done. }
  apply reported_address; [done|]. by apply word_nil_app.
Qed.

(** Whatever else page_table_walk logs, it is no such line. *)
Definition one_address (o : obs kernelE) : Prop :=
  forall l, printed_of o = Some l ->
    (exists pa z, l = Log KERN_INFO paddr_fmt [AL pa; AS z] /\ word z = EmptyString) \/
    (PageTableFacts.paddr_of l = None /\ logged_paddr l = None).

Ltac address_tac := idtac;
  lazymatch goal with
  | |- forall r, one_address (Obs (Printk _ paddr_fmt _) _) =>
      intros ? ? [= <-]; left; eexists _, _; split; [reflexivity|]; by repeat case_match
  | |- _ => intros ? ? [=]; subst; right; split; reflexivity
  end.

Lemma walk_one_address `{X86} user_pid va dump :
  only one_address (page_table_walk_init user_pid va dump).
Proof. follow address_tac. Qed.

Lemma one_address_logged t :
  Forall one_address t -> Forall in_u64 (paddrs (printed t)) ->
  omap logged_paddr (printed t) = address <$> paddrs (printed t).
Proof.
  induction 1 as [|o t Ho _ IH]; [done|]. unfold paddrs, printed in *. cbn [omap list_omap].
  destruct (printed_of o) as [l|] eqn:Hl; [|done]. cbn [omap list_omap].
  destruct (Ho l Hl) as [(pa & z & -> & Hz)|[-> ->]]; [|done].
  assert (PageTableFacts.paddr_of (Log KERN_INFO paddr_fmt [AL pa; AS z]) = Some pa) as -> by done.
  intros [Hpa Ht]%Forall_cons. rewrite logged_paddr_line by done. cbn. f_equal. by apply IH.
Qed.

(** ** The output of pageinfo *)

Definition no_address (p : piece) : Prop := written_paddr p = None.

Lemma omap_no_address l : Forall no_address l -> omap written_paddr l = [].
Proof. induction 1 as [|p l Hp _ IH]; [done|]. cbn. by rewrite Hp. Qed.

Lemma written_cons p l : omap written_paddr (p :: l) =
  match written_paddr p with Some w => w :: omap written_paddr l | None => omap written_paddr l end.
Proof. done. Qed.

Lemma flag_names_no_address tbl v :
  forallb (fun e => bool_decide (reported "Paddr: " e.2 = None)) tbl = true ->
  Forall no_address (flag_names tbl v).
Proof.
  induction tbl as [|[b n] tbl IH]; cbn [forallb flag_names]; [constructor|].
  intros [Hn%bool_decide_eq_true Htbl]%andb_true_iff. apply Forall_app. split; [|by apply IH].
  case_match; [|constructor]. by repeat constructor.
Qed.

#[local] Hint Resolve Forall_nil_2 Forall_cons_2 Forall_app_2 flag_names_no_address : core.

#[local] Hint Extern 1 (no_address _) => reflexivity : core.

Lemma kpage_no_address kpf count hack spacing :
  Forall no_address (kpage_report kpf count hack spacing).
Proof.
  unfold kpage_report. apply Forall_cons_2; [done|]. apply Forall_app_2; [|auto].
  repeat case_match; auto 6.
Qed.

(** The first line on a page that is present. *)
Lemma written_paddr_line pfn off page : in_u64 (pfn * 4096 + off) ->
  written_paddr (Fmt ("Paddr: 0x%lx, page: 0x%lx, PFN: 0x%lx" +:+ nl)
    [AL (pfn * 4096 + off); AL page; AL pfn]) = Some (address (pfn * 4096 + off)).
Proof.
  intros Ha. unfold written_paddr. cbn [piece_text].
  set (a := pfn * 4096 + off) in *. clearbody a.
  assert (exists rest, render ("Paddr: 0x%lx, page: 0x%lx, PFN: 0x%lx" +:+ nl) [AL a; AL page; AL pfn] =
    Some ("Paddr: " +:+ address a +:+ rest) /\ word rest = EmptyString) as (rest & -> & Hr).
  { unfold render.
    match goal with |- context [items None ?f] =>
      let i := eval vm_compute in (items None f) in change (items None f) with i end.
    cbn [fill]. rewrite (show_lx a) by done. eexists. split; [reflexivity|]. reflexivity. }
  exact (reported_address "Paddr: " a rest Ha Hr).
Qed.

(** The page map of a process gives the frame that the hardware translates to. *)
Definition shows_frame (file : string -> option (Z -> option Z)) (pid : string) (va pa pm : Z) : Prop :=
  exists f, file ("/proc/" +:+ pid +:+ "/pagemap") = Some f /\ f (va / 4096 * 8) = Some pm /\
    in_u64 pm /\ Z.testbit pm 63 = true /\ pm mod 2 ^ 55 = pa / 4096.

Lemma same_paddr va pa : page_addr va pa -> pa / 4096 * 4096 + va mod 4096 = pa.
Proof.
  intros [_ Hm]. change (2 ^ 12) with 4096 in Hm. rewrite <- Hm.
  pose proof (Z.div_mod pa 4096). lia.
Qed.

Lemma virtual_paddr file g h name pid va pa pm kpf count hack :
  valid_pid pid -> in_u64 va -> page_addr va pa -> shows_frame file pid va pa pm ->
  file "/proc/kpageflags"%string = Some g -> file "/proc/kpagecount"%string = Some h ->
  g (pa / 4096 * 8) = Some kpf -> h (pa / 4096 * 8) = Some count ->
  omap written_paddr (stdout_of file (PageInfo.main ([name; pid; address va] ++ hack_arg hack))) =
    [address pa].
Proof.
  intros Hpid Hva Hpa (f & Hf & Hpm & Hpm64 & Hp & Hpfn) Hg Hh Hkpf Hcount.
  pose proof (same_paddr va pa Hpa) as Hsame. destruct Hpa as [Hrange _].
  assert (0 <= pa / 4096 < 2 ^ 40) as Hframe
    by (split; [apply Z.div_pos; lia|apply Z.div_lt_upper_bound; lia]).
  rewrite <- Hpfn in Hkpf, Hcount.
  assert (any_flag pm_table pm = true) as Hany
    by (apply (any_flag_bit pm_table pm 63 " PRESENT"); [by left|done]).
  assert (pm mod 2 ^ 55 < 2 ^ 52) as Hpfn52 by lia.
  destruct (outs_run _ _ _ _ (outs_virtual file f g h name pid va hack pm kpf count
    Hpid Hva Hf Hpm Hpm64 Hpfn52 Hany Hg Hh Hkpf Hcount)) as (_ & -> & _).
  unfold pagemap_report. rewrite Hp, Hpfn, written_cons.
  assert (written_paddr (header "V" va) = None) as -> by done.
  cbn [app]. rewrite written_cons, written_paddr_line by (unfold in_u64; lia).
  rewrite Hsame. f_equal. apply omap_no_address.
  apply Forall_cons_2; [done|]. apply Forall_app_2; [|apply kpage_no_address]. auto.
Qed.

(** ** The two tools *)

(** C2. page_table_walk and pageinfo agree, as text. When the hardware translates
    an address, the log of the module has one line that begins with [paddr: ],
    and the word after it, given to pageinfo as its argument, is accepted and
    makes it report on the frame of the hardware's physical address. Given the
    process and the virtual address instead, pageinfo writes exactly one line
    that begins with [Paddr: ], with the same word after it, as long as the
    page map shows the hardware's frame. *)
Theorem walk_then_pageinfo `{X86Laws} pmem cr3 mm_pgd task_mm user_pid va pa
    file g h name hack kpf count :
  task_mm <> 0 -> top_present pmem (walk_root cr3 mm_pgd task_mm user_pid) va ->
  hw_walk pmem pgtable_l5_enabled (walk_root cr3 mm_pgd task_mm user_pid) va = Mapped pa ->
  file "/proc/kpageflags"%string = Some g -> file "/proc/kpagecount"%string = Some h ->
  g (pa / 4096 * 8) = Some kpf -> h (pa / 4096 * 8) = Some count ->
  always (page_table_walk_init user_pid va false) (fun t _ =>
    Forall (lawful pmem cr3 mm_pgd task_mm) t ->
    exists tok, omap logged_paddr (printed t) = [tok] /\
      (let p := PageInfo.main ([name; tok] ++ hack_arg hack) in
       result_of file p = Done 0 /\
       stdout_of file p = header "P" pa :: kpage_report kpf count hack false /\
       open_files file p = ∅) /\
      (forall pid pm, valid_pid pid -> in_u64 va -> shows_frame file pid va pa pm ->
       omap written_paddr
         (stdout_of file (PageInfo.main ([name; pid; address va] ++ hack_arg hack))) = [tok])).
Proof.
  intros Hmm Htop Hx Hg Hh Hkpf Hcount. apply always_behaves. intros t o Hb Hl.
  pose proof (proj1 (always_behaves _ _)
    (init_reports_mapping pmem cr3 mm_pgd task_mm user_pid va pa Hmm Htop Hx) t o Hb Hl) as Hp.
  pose proof (proj1 (always_behaves _ _) (init_page_addr user_pid va false) t o Hb) as Ha.
  pose proof (proj1 (always_behaves _ _) (walk_one_address user_pid va false) t o Hb) as H1.
  cbv beta in Ha, H1. rewrite Hp in Ha. apply Forall_cons in Ha as [Ha _].
  assert (in_u64 pa) as Hpa by (destruct Ha; unfold in_u64; lia).
  exists (address pa). split_and!.
  - rewrite one_address_logged; [by rewrite Hp|done|]. rewrite Hp. by constructor.
  - by apply outs_run, (outs_physical file g h).
  - intros pid pm Hpid Hva Hs. by apply (virtual_paddr file g h name pid va pa pm kpf count).
Qed.

Lemma walk_then_pageinfo_witness :
  always (@page_table_walk_init (x86_64 false) 0 demo_va false) (fun t _ =>
    Forall (@lawful (x86_64 false) demo_mem 0x1000 (fun _ => 0x1000) 1) t ->
    exists tok, omap logged_paddr (printed t) = [tok] /\
      stdout_of demo_file (PageInfo.main ["pageinfo"%string; tok]) =
        header "P" 0x5abc :: kpage_report 17 1 false false).
Proof.
  refine (always_mono _ _ _ _ (@walk_then_pageinfo (x86_64 false) _ demo_mem 0x1000
    (fun _ => 0x1000) 1 0 demo_va 0x5abc demo_file _ _ "pageinfo" false 17 1 _ _ _ _ _ _ _)).
  - intros t _ Ht Hl. destruct (Ht Hl) as (tok & Htok & (_ & Hout & _) & _). by exists tok.
  - done.
  - right. vm_compute. reflexivity.
  - vm_compute. reflexivity.
  - reflexivity.
  - reflexivity.
  - reflexivity.
  - reflexivity.
Defined.

(** The word itself, and what pageinfo writes for the virtual address, on the page
    tables and files of the examples. *)
Example demo_session :
  omap logged_paddr (printed (run (demo_env false)
    (@page_table_walk_init (x86_64 false) 0 demo_va false)).1) = ["0x5abc"]%string /\
  output_text Stdout (events (exec (procfs demo_file) initial
    (PageInfo.main ["pageinfo"; "0x5abc"]%string)).1) =
    Some ("Paddr: 0x5abc, page: 0x5000" +:+ nl +:+
      "/proc/kpageflags: 0x0000000000000011 = LOCKED DIRTY" +:+ nl +:+
      "/proc/kpagecount: 1" +:+ nl).
Proof. split; vm_compute; reflexivity. Qed.
